(** * Block-size descriptor tables of the ASTC encoder

    A shallow embedding of [Source/astcenc_block_sizes.cpp] and
    [Source/astcenc_partition_tables.cpp], and the properties of the
    block-mode decoder, the decimation tables, the partition hash and the
    partition table de-duplication that are proved about it.

    Conventions of the embedding.
    - A C [int] is a [Z]; the inputs the code is used with keep every [int]
      expression far from the 32-bit limits, so no wrap-around is written on
      them.  Stores to [uint8_t], [uint32_t] and [uint64_t] objects wrap
      explicitly ([u8], [u32], [u64]).
    - A C array is a finite map from its index (a pair or triple for a
      nested array) to the value stored; a cell that was never written is
      absent from the map.  [rd] reads a cell and yields 0 for an absent one.
    - A [for] loop over [lo <= i < hi] is [for_loop lo hi body].
    - The [float] values stored in a decimation table are all of the form
      k/16 with 0 <= k <= 16 * 255, which binary32 represents exactly; the
      model stores the numerator k (type [float16]). *)

From Stdlib Require Import ZArith List Lia Bool.
From stdpp Require Import base tactics option list list_numbers sorting gmap.

Local Open Scope Z_scope.

(** ** Machine integers and arrays *)

Definition u8 (z : Z) : Z := z mod 256.
Definition u32 (z : Z) : Z := z mod 4294967296.
Definition u64 (z : Z) : Z := z mod 18446744073709551616.

(** Conversion of a 32-bit pattern to [int]. *)
Definition s32 (z : Z) : Z :=
  if u32 z <? 2147483648 then u32 z else u32 z - 4294967296.

(** The C truth value of a comparison. *)
Definition b2z (b : bool) : Z := if b then 1 else 0.

Definition rd `{Countable K} (m : gmap K Z) (k : K) : Z := default 0 (m !! k).

Definition for_loop {S : Type} (lo hi : Z) (body : Z → S → S) (s : S) : S :=
  fold_left (λ s i, body i s) (seqZ lo (hi - lo)) s.

(** Constants of [astcenc_internal.h], as the specification lists them. *)
Definition MAX_TEXELS_PER_BLOCK : Z := 216.
Definition MAX_WEIGHTS_PER_BLOCK : Z := 64.
Definition MAX_KMEANS_TEXELS : Z := 64.
Definition MIN_WEIGHT_BITS_PER_BLOCK : Z := 24.
Definition MAX_WEIGHT_BITS_PER_BLOCK : Z := 96.
Definition MAX_WEIGHT_MODES : Z := 2048.
Definition PARTITION_COUNT : Z := 1024.
Definition TEXEL_WEIGHT_SUM : Z := 16.

(** A [float] of the form k/16, stored as k. *)
Definition float16 : Type := Z.
Definition float_of_int (n : Z) : float16 := 16 * n.
(** Multiplication by [1.0f / TEXEL_WEIGHT_SUM]. *)
Definition scale_by_weight_sum (f : float16) : float16 := f / TEXEL_WEIGHT_SUM.

(** ** The data model ([astcenc_internal.h]) *)

Record decimation_table := mk_decimation_table {
  dt_texel_count : Z;
  dt_weight_count : Z;
  weight_x : Z;
  weight_y : Z;
  weight_z : Z;
  texel_weight_count : gmap Z Z;
  texel_weights_4t : gmap (Z * Z) Z;
  texel_weights_int_4t : gmap (Z * Z) Z;
  texel_weights_float_4t : gmap (Z * Z) float16;
  weight_texel_count : gmap Z Z;
  weight_texel : gmap (Z * Z) Z;
  weights_flt : gmap (Z * Z) float16;
  texel_weights_texel : gmap (Z * Z * Z) Z;
  texel_weights_float_texel : gmap (Z * Z * Z) float16
}.

(** The block a fresh allocation returns: nothing written yet. *)
Definition unwritten_decimation_table : decimation_table :=
  mk_decimation_table 0 0 0 0 0 ∅ ∅ ∅ ∅ ∅ ∅ ∅ ∅ ∅.

Definition set_texel_weight_count (k v : Z) (dt : decimation_table) :=
  mk_decimation_table (dt_texel_count dt) (dt_weight_count dt) (weight_x dt)
    (weight_y dt) (weight_z dt)
    (<[k:=v]> (texel_weight_count dt)) (texel_weights_4t dt)
    (texel_weights_int_4t dt) (texel_weights_float_4t dt)
    (weight_texel_count dt) (weight_texel dt) (weights_flt dt)
    (texel_weights_texel dt) (texel_weights_float_texel dt).
Definition set_texel_weights_4t (k : Z * Z) (v : Z) (dt : decimation_table) :=
  mk_decimation_table (dt_texel_count dt) (dt_weight_count dt) (weight_x dt)
    (weight_y dt) (weight_z dt)
    (texel_weight_count dt) (<[k:=v]> (texel_weights_4t dt))
    (texel_weights_int_4t dt) (texel_weights_float_4t dt)
    (weight_texel_count dt) (weight_texel dt) (weights_flt dt)
    (texel_weights_texel dt) (texel_weights_float_texel dt).
Definition set_texel_weights_int_4t (k : Z * Z) (v : Z)
    (dt : decimation_table) :=
  mk_decimation_table (dt_texel_count dt) (dt_weight_count dt) (weight_x dt)
    (weight_y dt) (weight_z dt)
    (texel_weight_count dt) (texel_weights_4t dt)
    (<[k:=v]> (texel_weights_int_4t dt)) (texel_weights_float_4t dt)
    (weight_texel_count dt) (weight_texel dt) (weights_flt dt)
    (texel_weights_texel dt) (texel_weights_float_texel dt).
Definition set_texel_weights_float_4t (k : Z * Z) (v : float16)
    (dt : decimation_table) :=
  mk_decimation_table (dt_texel_count dt) (dt_weight_count dt) (weight_x dt)
    (weight_y dt) (weight_z dt)
    (texel_weight_count dt) (texel_weights_4t dt)
    (texel_weights_int_4t dt) (<[k:=v]> (texel_weights_float_4t dt))
    (weight_texel_count dt) (weight_texel dt) (weights_flt dt)
    (texel_weights_texel dt) (texel_weights_float_texel dt).
Definition set_weight_texel_count (k v : Z) (dt : decimation_table) :=
  mk_decimation_table (dt_texel_count dt) (dt_weight_count dt) (weight_x dt)
    (weight_y dt) (weight_z dt)
    (texel_weight_count dt) (texel_weights_4t dt)
    (texel_weights_int_4t dt) (texel_weights_float_4t dt)
    (<[k:=v]> (weight_texel_count dt)) (weight_texel dt) (weights_flt dt)
    (texel_weights_texel dt) (texel_weights_float_texel dt).
Definition set_weight_texel (k : Z * Z) (v : Z) (dt : decimation_table) :=
  mk_decimation_table (dt_texel_count dt) (dt_weight_count dt) (weight_x dt)
    (weight_y dt) (weight_z dt)
    (texel_weight_count dt) (texel_weights_4t dt)
    (texel_weights_int_4t dt) (texel_weights_float_4t dt)
    (weight_texel_count dt) (<[k:=v]> (weight_texel dt)) (weights_flt dt)
    (texel_weights_texel dt) (texel_weights_float_texel dt).
Definition set_weights_flt (k : Z * Z) (v : float16) (dt : decimation_table) :=
  mk_decimation_table (dt_texel_count dt) (dt_weight_count dt) (weight_x dt)
    (weight_y dt) (weight_z dt)
    (texel_weight_count dt) (texel_weights_4t dt)
    (texel_weights_int_4t dt) (texel_weights_float_4t dt)
    (weight_texel_count dt) (weight_texel dt) (<[k:=v]> (weights_flt dt))
    (texel_weights_texel dt) (texel_weights_float_texel dt).
Definition set_texel_weights_texel (k : Z * Z * Z) (v : Z)
    (dt : decimation_table) :=
  mk_decimation_table (dt_texel_count dt) (dt_weight_count dt) (weight_x dt)
    (weight_y dt) (weight_z dt)
    (texel_weight_count dt) (texel_weights_4t dt)
    (texel_weights_int_4t dt) (texel_weights_float_4t dt)
    (weight_texel_count dt) (weight_texel dt) (weights_flt dt)
    (<[k:=v]> (texel_weights_texel dt)) (texel_weights_float_texel dt).
Definition set_texel_weights_float_texel (k : Z * Z * Z) (v : float16)
    (dt : decimation_table) :=
  mk_decimation_table (dt_texel_count dt) (dt_weight_count dt) (weight_x dt)
    (weight_y dt) (weight_z dt)
    (texel_weight_count dt) (texel_weights_4t dt)
    (texel_weights_int_4t dt) (texel_weights_float_4t dt)
    (weight_texel_count dt) (weight_texel dt) (weights_flt dt)
    (texel_weights_texel dt) (<[k:=v]> (texel_weights_float_texel dt)).
(** The five scalar stores that end both builders. *)
Definition set_dt_dims (tc wc wx wy wz : Z) (dt : decimation_table) :=
  mk_decimation_table tc wc wx wy wz
    (texel_weight_count dt) (texel_weights_4t dt)
    (texel_weights_int_4t dt) (texel_weights_float_4t dt)
    (weight_texel_count dt) (weight_texel dt) (weights_flt dt)
    (texel_weights_texel dt) (texel_weights_float_texel dt).

Record block_mode := mk_block_mode {
  decimation_mode : Z;
  bm_quant_mode : Z;
  bm_is_dual_plane : bool;
  mode_index : Z;
  bm_percentile_hit : bool;
  bm_percentile_always : bool
}.

Definition unwritten_block_mode : block_mode :=
  mk_block_mode 0 0 false 0 false false.

Record decimation_mode_t := mk_decimation_mode {
  maxprec_1plane : Z;
  maxprec_2planes : Z;
  dm_percentile_hit : bool;
  dm_percentile_always : bool
}.

Definition unwritten_decimation_mode : decimation_mode_t :=
  mk_decimation_mode 0 0 false false.

Record partition_info := mk_partition_info {
  partition_count : Z;
  partition_of_texel : gmap Z Z;
  texels_of_partition : gmap (Z * Z) Z;
  partition_texel_count : gmap Z Z;
  coverage_bitmaps : gmap Z Z
}.

(** A [partition_info] object nothing was written to. *)
Definition unwritten_partition_info : partition_info :=
  mk_partition_info 0 ∅ ∅ ∅ ∅.

Definition set_partition_count (v : Z) (pi : partition_info) :=
  mk_partition_info v (partition_of_texel pi) (texels_of_partition pi)
    (partition_texel_count pi) (coverage_bitmaps pi).
Definition set_partition_of_texel (k v : Z) (pi : partition_info) :=
  mk_partition_info (partition_count pi) (<[k:=v]> (partition_of_texel pi))
    (texels_of_partition pi) (partition_texel_count pi) (coverage_bitmaps pi).
Definition set_texels_of_partition (k : Z * Z) (v : Z) (pi : partition_info) :=
  mk_partition_info (partition_count pi) (partition_of_texel pi)
    (<[k:=v]> (texels_of_partition pi)) (partition_texel_count pi)
    (coverage_bitmaps pi).
Definition set_partition_texel_count (k v : Z) (pi : partition_info) :=
  mk_partition_info (partition_count pi) (partition_of_texel pi)
    (texels_of_partition pi) (<[k:=v]> (partition_texel_count pi))
    (coverage_bitmaps pi).
Definition set_coverage_bitmaps (k v : Z) (pi : partition_info) :=
  mk_partition_info (partition_count pi) (partition_of_texel pi)
    (texels_of_partition pi) (partition_texel_count pi)
    (<[k:=v]> (coverage_bitmaps pi)).

(** [decimation_tables] holds pointers: [None] is [nullptr]. *)
Record block_size_descriptor := mk_bsd {
  xdim : Z;
  ydim : Z;
  zdim : Z;
  texel_count : Z;
  decimation_mode_count : Z;
  block_mode_count : Z;
  decimation_modes : gmap Z decimation_mode_t;
  decimation_tables : gmap Z (option decimation_table);
  block_modes : gmap Z block_mode;
  block_mode_packed_index : gmap Z Z;
  kmeans_texel_count : Z;
  kmeans_texels : gmap Z Z;
  partitions : gmap Z partition_info
}.

Definition unwritten_bsd : block_size_descriptor :=
  mk_bsd 0 0 0 0 0 0 ∅ ∅ ∅ ∅ 0 ∅ ∅.
Definition set_xdim (v : Z) (bsd : block_size_descriptor) :=
  mk_bsd v (ydim bsd) (zdim bsd) (texel_count bsd) (decimation_mode_count
    bsd) (block_mode_count bsd) (decimation_modes bsd) (decimation_tables bsd)
    (block_modes bsd) (block_mode_packed_index bsd) (kmeans_texel_count bsd)
    (kmeans_texels bsd) (partitions bsd).
Definition set_ydim (v : Z) (bsd : block_size_descriptor) :=
  mk_bsd (xdim bsd) v (zdim bsd) (texel_count bsd) (decimation_mode_count
    bsd) (block_mode_count bsd) (decimation_modes bsd) (decimation_tables bsd)
    (block_modes bsd) (block_mode_packed_index bsd) (kmeans_texel_count bsd)
    (kmeans_texels bsd) (partitions bsd).
Definition set_zdim (v : Z) (bsd : block_size_descriptor) :=
  mk_bsd (xdim bsd) (ydim bsd) v (texel_count bsd) (decimation_mode_count
    bsd) (block_mode_count bsd) (decimation_modes bsd) (decimation_tables bsd)
    (block_modes bsd) (block_mode_packed_index bsd) (kmeans_texel_count bsd)
    (kmeans_texels bsd) (partitions bsd).
Definition set_texel_count (v : Z) (bsd : block_size_descriptor) :=
  mk_bsd (xdim bsd) (ydim bsd) (zdim bsd) v (decimation_mode_count bsd)
    (block_mode_count bsd) (decimation_modes bsd) (decimation_tables bsd)
    (block_modes bsd) (block_mode_packed_index bsd) (kmeans_texel_count bsd)
    (kmeans_texels bsd) (partitions bsd).
Definition set_decimation_mode_count (v : Z) (bsd : block_size_descriptor) :=
  mk_bsd (xdim bsd) (ydim bsd) (zdim bsd) (texel_count bsd) v
    (block_mode_count bsd) (decimation_modes bsd) (decimation_tables bsd)
    (block_modes bsd) (block_mode_packed_index bsd) (kmeans_texel_count bsd)
    (kmeans_texels bsd) (partitions bsd).
Definition set_block_mode_count (v : Z) (bsd : block_size_descriptor) :=
  mk_bsd (xdim bsd) (ydim bsd) (zdim bsd) (texel_count bsd)
    (decimation_mode_count bsd) v (decimation_modes bsd) (decimation_tables
    bsd) (block_modes bsd) (block_mode_packed_index bsd) (kmeans_texel_count
    bsd) (kmeans_texels bsd) (partitions bsd).
Definition set_decimation_modes (v : gmap Z decimation_mode_t) (bsd : block_size_descriptor) :=
  mk_bsd (xdim bsd) (ydim bsd) (zdim bsd) (texel_count bsd)
    (decimation_mode_count bsd) (block_mode_count bsd) v (decimation_tables
    bsd) (block_modes bsd) (block_mode_packed_index bsd) (kmeans_texel_count
    bsd) (kmeans_texels bsd) (partitions bsd).
Definition set_decimation_tables (v : gmap Z (option decimation_table)) (bsd : block_size_descriptor) :=
  mk_bsd (xdim bsd) (ydim bsd) (zdim bsd) (texel_count bsd)
    (decimation_mode_count bsd) (block_mode_count bsd) (decimation_modes bsd)
    v (block_modes bsd) (block_mode_packed_index bsd) (kmeans_texel_count bsd)
    (kmeans_texels bsd) (partitions bsd).
Definition set_block_modes (v : gmap Z block_mode) (bsd : block_size_descriptor) :=
  mk_bsd (xdim bsd) (ydim bsd) (zdim bsd) (texel_count bsd)
    (decimation_mode_count bsd) (block_mode_count bsd) (decimation_modes bsd)
    (decimation_tables bsd) v (block_mode_packed_index bsd)
    (kmeans_texel_count bsd) (kmeans_texels bsd) (partitions bsd).
Definition set_block_mode_packed_index (v : gmap Z Z) (bsd : block_size_descriptor) :=
  mk_bsd (xdim bsd) (ydim bsd) (zdim bsd) (texel_count bsd)
    (decimation_mode_count bsd) (block_mode_count bsd) (decimation_modes bsd)
    (decimation_tables bsd) (block_modes bsd) v (kmeans_texel_count bsd)
    (kmeans_texels bsd) (partitions bsd).
Definition set_kmeans_texel_count (v : Z) (bsd : block_size_descriptor) :=
  mk_bsd (xdim bsd) (ydim bsd) (zdim bsd) (texel_count bsd)
    (decimation_mode_count bsd) (block_mode_count bsd) (decimation_modes bsd)
    (decimation_tables bsd) (block_modes bsd) (block_mode_packed_index bsd) v
    (kmeans_texels bsd) (partitions bsd).
Definition set_kmeans_texels (v : gmap Z Z) (bsd : block_size_descriptor) :=
  mk_bsd (xdim bsd) (ydim bsd) (zdim bsd) (texel_count bsd)
    (decimation_mode_count bsd) (block_mode_count bsd) (decimation_modes bsd)
    (decimation_tables bsd) (block_modes bsd) (block_mode_packed_index bsd)
    (kmeans_texel_count bsd) v (partitions bsd).
Definition set_partitions (v : gmap Z partition_info) (bsd : block_size_descriptor) :=
  mk_bsd (xdim bsd) (ydim bsd) (zdim bsd) (texel_count bsd)
    (decimation_mode_count bsd) (block_mode_count bsd) (decimation_modes bsd)
    (decimation_tables bsd) (block_modes bsd) (block_mode_packed_index bsd)
    (kmeans_texel_count bsd) (kmeans_texels bsd) v.
(** ** Partition tables ([astcenc_partition_tables.cpp]) *)

Definition hash52 (inp : Z) : Z :=
  let inp := Z.lxor inp (Z.shiftr inp 15) in
  let inp := u32 (inp * 4007528593) in            (* 0xEEDE0891 *)
  let inp := Z.lxor inp (Z.shiftr inp 5) in
  let inp := u32 (inp + u32 (Z.shiftl inp 16)) in
  let inp := Z.lxor inp (Z.shiftr inp 7) in
  let inp := Z.lxor inp (Z.shiftr inp 3) in
  let inp := Z.lxor inp (u32 (Z.shiftl inp 6)) in
  let inp := Z.lxor inp (Z.shiftr inp 17) in
  inp.

Definition select_partition
    (seed x y z partition_count : Z) (small_block : bool) : Z :=
  let x := if small_block then Z.shiftl x 1 else x in
  let y := if small_block then Z.shiftl y 1 else y in
  let z := if small_block then Z.shiftl z 1 else z in
  let seed := seed + (partition_count - 1) * 1024 in
  let rnum := hash52 (u32 seed) in
  let seed1 := u8 (Z.land rnum 15) in
  let seed2 := u8 (Z.land (Z.shiftr rnum 4) 15) in
  let seed3 := u8 (Z.land (Z.shiftr rnum 8) 15) in
  let seed4 := u8 (Z.land (Z.shiftr rnum 12) 15) in
  let seed5 := u8 (Z.land (Z.shiftr rnum 16) 15) in
  let seed6 := u8 (Z.land (Z.shiftr rnum 20) 15) in
  let seed7 := u8 (Z.land (Z.shiftr rnum 24) 15) in
  let seed8 := u8 (Z.land (Z.shiftr rnum 28) 15) in
  let seed9 := u8 (Z.land (Z.shiftr rnum 18) 15) in
  let seed10 := u8 (Z.land (Z.shiftr rnum 22) 15) in
  let seed11 := u8 (Z.land (Z.shiftr rnum 26) 15) in
  let seed12 :=
    u8 (Z.land (Z.lor (Z.shiftr rnum 30) (u32 (Z.shiftl rnum 2))) 15) in
  let seed1 := u8 (seed1 * seed1) in
  let seed2 := u8 (seed2 * seed2) in
  let seed3 := u8 (seed3 * seed3) in
  let seed4 := u8 (seed4 * seed4) in
  let seed5 := u8 (seed5 * seed5) in
  let seed6 := u8 (seed6 * seed6) in
  let seed7 := u8 (seed7 * seed7) in
  let seed8 := u8 (seed8 * seed8) in
  let seed9 := u8 (seed9 * seed9) in
  let seed10 := u8 (seed10 * seed10) in
  let seed11 := u8 (seed11 * seed11) in
  let seed12 := u8 (seed12 * seed12) in
  let sh1 :=
    if negb (Z.land seed 1 =? 0)
    then (if negb (Z.land seed 2 =? 0) then 4 else 5)
    else (if partition_count =? 3 then 6 else 5) in
  let sh2 :=
    if negb (Z.land seed 1 =? 0)
    then (if partition_count =? 3 then 6 else 5)
    else (if negb (Z.land seed 2 =? 0) then 4 else 5) in
  let sh3 := if negb (Z.land seed 16 =? 0) then sh1 else sh2 in
  let seed1 := u8 (Z.shiftr seed1 sh1) in
  let seed2 := u8 (Z.shiftr seed2 sh2) in
  let seed3 := u8 (Z.shiftr seed3 sh1) in
  let seed4 := u8 (Z.shiftr seed4 sh2) in
  let seed5 := u8 (Z.shiftr seed5 sh1) in
  let seed6 := u8 (Z.shiftr seed6 sh2) in
  let seed7 := u8 (Z.shiftr seed7 sh1) in
  let seed8 := u8 (Z.shiftr seed8 sh2) in
  let seed9 := u8 (Z.shiftr seed9 sh3) in
  let seed10 := u8 (Z.shiftr seed10 sh3) in
  let seed11 := u8 (Z.shiftr seed11 sh3) in
  let seed12 := u8 (Z.shiftr seed12 sh3) in
  let a := s32 (seed1 * x + seed2 * y + seed11 * z + Z.shiftr rnum 14) in
  let b := s32 (seed3 * x + seed4 * y + seed12 * z + Z.shiftr rnum 10) in
  let c := s32 (seed5 * x + seed6 * y + seed9 * z + Z.shiftr rnum 6) in
  let d := s32 (seed7 * x + seed8 * y + seed10 * z + Z.shiftr rnum 2) in
  (* apply the saw *)
  let a := Z.land a 63 in
  let b := Z.land b 63 in
  let c := Z.land c 63 in
  let d := Z.land d 63 in
  (* remove some of the components if we are to output < 4 partitions *)
  let d := if partition_count <=? 3 then 0 else d in
  let c := if partition_count <=? 2 then 0 else c in
  let b := if partition_count <=? 1 then 0 else b in
  if (b <=? a) && (c <=? a) && (d <=? a) then 0
  else if (c <=? b) && (d <=? b) then 1
  else if d <=? c then 2
  else 3.

(** The local state of [generate_canonical_partitioning]; the caller's
    [bit_pattern] pointer is the offset [off] into [bit_patterns]. *)
Record canon_state := mk_canon_state {
  bit_pattern : gmap Z Z;
  mapped_index : gmap Z Z;
  map_weight_count : Z
}.

Definition canon_step (off : Z) (partition_of_texel : gmap Z Z)
    (i : Z) (st : canon_state) : canon_state :=
  let index := rd partition_of_texel i in
  let st :=
    if rd (mapped_index st) index =? -1
    then mk_canon_state (bit_pattern st)
           (<[index := map_weight_count st]> (mapped_index st))
           (map_weight_count st + 1)
    else st in
  let xlat_index := u64 (rd (mapped_index st) index) in
  let cell := off + Z.shiftr i 5 in
  mk_canon_state
    (<[cell := Z.lor (rd (bit_pattern st) cell)
                 (u64 (Z.shiftl xlat_index (2 * Z.land i 31)))]>
       (bit_pattern st))
    (mapped_index st) (map_weight_count st).

Definition generate_canonical_partitioning (texel_count : Z)
    (partition_of_texel : gmap Z Z) (off : Z) (bit_patterns : gmap Z Z)
    : gmap Z Z :=
  (* Clear the pattern *)
  let bp := for_loop 0 7 (λ i bp, <[off + i := 0]> bp) bit_patterns in
  let mi := for_loop 0 4 (λ i mi, <[i := -1]> mi) ∅ in
  bit_pattern
    (for_loop 0 texel_count (canon_step off partition_of_texel)
       (mk_canon_state bp mi 0)).

Definition compare_canonical_partitionings
    (bit_patterns : gmap Z Z) (part1 part2 : Z) : bool :=
  (rd bit_patterns (part1 + 0) =? rd bit_patterns (part2 + 0)) &&
  (rd bit_patterns (part1 + 1) =? rd bit_patterns (part2 + 1)) &&
  (rd bit_patterns (part1 + 2) =? rd bit_patterns (part2 + 2)) &&
  (rd bit_patterns (part1 + 3) =? rd bit_patterns (part2 + 3)) &&
  (rd bit_patterns (part1 + 4) =? rd bit_patterns (part2 + 4)) &&
  (rd bit_patterns (part1 + 5) =? rd bit_patterns (part2 + 5)) &&
  (rd bit_patterns (part1 + 6) =? rd bit_patterns (part2 + 6)).

(** Entry [i] of the table [pt], which starts at index [base] of
    [bsd.partitions]. *)
Definition pt_entry (partitions : gmap Z partition_info) (base i : Z)
    : partition_info :=
  default unwritten_partition_info (partitions !! (base + i)).

(** The inner loop of [remove_duplicate_partitionings] over the remaining
    indices [js], with its [break]. *)
Fixpoint remove_duplicate_scan (bit_patterns : gmap Z Z) (base i : Z)
    (js : list Z) (partitions : gmap Z partition_info)
    : gmap Z partition_info :=
  match js with
  | [] => partitions
  | j :: js' =>
      if compare_canonical_partitionings bit_patterns (7 * i) (7 * j)
      then <[base + i := set_partition_count 0 (pt_entry partitions base i)]>
             partitions
      else remove_duplicate_scan bit_patterns base i js' partitions
  end.

Definition remove_duplicate_partitionings (texel_count : Z) (base : Z)
    (partitions : gmap Z partition_info) : gmap Z partition_info :=
  let bit_patterns :=
    for_loop 0 PARTITION_COUNT
      (λ i bp,
         generate_canonical_partitioning texel_count
           (partition_of_texel (pt_entry partitions base i)) (i * 7) bp)
      ∅ in
  for_loop 0 PARTITION_COUNT
    (λ i pts, remove_duplicate_scan bit_patterns base i (seqZ 0 i) pts)
    partitions.

(** The loop state of [generate_one_partition_info_entry]: [texel_idx],
    [counts], the moving pointer into [pi.partition_of_texel] (as an
    index) and the entry being filled. *)
Record gen_state := mk_gen_state {
  texel_idx : Z;
  counts : gmap Z Z;
  partition_of_texel_ptr : Z;
  gen_pi : partition_info
}.

Section PartitionTables.
(** [round_up_to_simd_multiple_vla] of [astcenc_vecmathlib.h] depends on
    the vector width of the build; it is a parameter here. *)
Variable round_up_to_simd_multiple_vla : Z → Z.

Definition assign_texel (partition_count partition_index : Z)
    (small_block : bool) (z y x : Z) (st : gen_state) : gen_state :=
  let part :=
    u8 (select_partition partition_index x y z partition_count small_block) in
  let pi :=
    set_texels_of_partition (part, rd (counts st) part) (texel_idx st)
      (gen_pi st) in
  let pi := set_partition_of_texel (partition_of_texel_ptr st) part pi in
  mk_gen_state (texel_idx st + 1)
    (<[part := rd (counts st) part + 1]> (counts st))
    (partition_of_texel_ptr st + 1) pi.

Definition generate_one_partition_info_entry (bsd : block_size_descriptor)
    (partition_count partition_index : Z) (pi : partition_info)
    : partition_info :=
  let texels_per_block := texel_count bsd in
  let small_block := texels_per_block <? 32 in
  (* Assign texels to partitions *)
  let st :=
    for_loop 0 (zdim bsd) (λ z,
      for_loop 0 (ydim bsd) (λ y,
        for_loop 0 (xdim bsd) (λ x,
          assign_texel partition_count partition_index small_block z y x)))
      (mk_gen_state 0 (for_loop 0 4 (λ i c, <[i := 0]> c) ∅) 0 pi) in
  let counts := counts st in
  let pi := gen_pi st in
  (* Fill loop tail so we can overfetch later *)
  let pi :=
    for_loop 0 partition_count (λ i pi,
      let ptex_count := rd counts i in
      let ptex_count_simd := round_up_to_simd_multiple_vla ptex_count in
      for_loop ptex_count ptex_count_simd (λ j pi,
        set_texels_of_partition (i, j)
          (rd (texels_of_partition pi) (i, ptex_count - 1)) pi) pi) pi in
  let pi :=
    if rd counts 0 =? 0 then set_partition_count 0 pi
    else if rd counts 1 =? 0 then set_partition_count 1 pi
    else if rd counts 2 =? 0 then set_partition_count 2 pi
    else if rd counts 3 =? 0 then set_partition_count 3 pi
    else set_partition_count 4 pi in
  let pi :=
    for_loop 0 4 (λ i pi,
      set_coverage_bitmaps i 0 (set_partition_texel_count i (rd counts i) pi))
      pi in
  let texels_to_process := kmeans_texel_count bsd in
  for_loop 0 texels_to_process (λ i pi,
    let idx := rd (kmeans_texels bsd) i in
    let p := rd (partition_of_texel pi) idx in
    set_coverage_bitmaps p
      (Z.lor (rd (coverage_bitmaps pi) p) (u64 (Z.shiftl 1 i))) pi) pi.

(** The four tables inside [bsd.partitions], as start indices. *)
Definition par_tab2 : Z := 0.
Definition par_tab3 : Z := par_tab2 + PARTITION_COUNT.
Definition par_tab4 : Z := par_tab3 + PARTITION_COUNT.
Definition par_tab1 : Z := par_tab4 + PARTITION_COUNT.

Definition generate_entry_at (bsd : block_size_descriptor)
    (partition_count partition_index base i : Z)
    (pts : gmap Z partition_info) : gmap Z partition_info :=
  <[base + i :=
      generate_one_partition_info_entry bsd partition_count partition_index
        (pt_entry pts base i)]> pts.

Definition init_partition_tables (bsd : block_size_descriptor)
    : block_size_descriptor :=
  let pts := partitions bsd in
  let pts := generate_entry_at bsd 1 0 par_tab1 0 pts in
  let pts :=
    for_loop 0 1024 (λ i pts,
      let pts := generate_entry_at bsd 2 i par_tab2 i pts in
      let pts := generate_entry_at bsd 3 i par_tab3 i pts in
      generate_entry_at bsd 4 i par_tab4 i pts) pts in
  let pts := remove_duplicate_partitionings (texel_count bsd) par_tab2 pts in
  let pts := remove_duplicate_partitionings (texel_count bsd) par_tab3 pts in
  let pts := remove_duplicate_partitionings (texel_count bsd) par_tab4 pts in
  set_partitions pts bsd.
End PartitionTables.

(** ** Block modes and decimation tables ([astcenc_block_sizes.cpp]) *)

(** The reference parameters of the two block-mode decoders. *)
Record mode_params := mk_mode_params {
  x_weights : Z;
  y_weights : Z;
  z_weights : Z;
  is_dual_plane : bool;
  quant_mode : Z
}.

(** The caller's locals before the decoder has written them. *)
Definition unwritten_mode_params : mode_params := mk_mode_params 0 0 0 false 0.

(** The local arrays of [initialize_decimation_table_2d] and [_3d]. *)
Record dt_locals := mk_dt_locals {
  weight_count_of_texel : gmap Z Z;
  grid_weights_of_texel : gmap (Z * Z) Z;
  weights_of_texel : gmap (Z * Z) Z;
  texel_count_of_weight : gmap Z Z;
  max_texel_count_of_weight : Z;
  texels_of_weight : gmap (Z * Z) Z;
  texel_weights_of_weight : gmap (Z * Z) Z
}.

(** [qweight[i]] and [weight[i]] of a four-element local array. *)
Definition at4 (a : list Z) (i : Z) : Z := nth (Z.to_nat i) a 0.

(** The body of [if (weight[i] != 0)] in the accumulation loop (lines
    308-314 and 574-580). *)
Definition add_texel_weight (texel q w : Z) (st : dt_locals) : dt_locals :=
  let wc := rd (weight_count_of_texel st) texel in
  let tc := rd (texel_count_of_weight st) q in
  mk_dt_locals
    (<[texel := u8 (wc + 1)]> (weight_count_of_texel st))
    (<[(texel, wc) := u8 q]> (grid_weights_of_texel st))
    (<[(texel, wc) := u8 w]> (weights_of_texel st))
    (<[q := u8 (tc + 1)]> (texel_count_of_weight st))
    (Z.max (max_texel_count_of_weight st) (u8 (tc + 1)))
    (<[(q, tc) := u8 texel]> (texels_of_weight st))
    (<[(q, tc) := w]> (texel_weights_of_weight st)).

(** [for (int i = 0; i < 4; i++)] over the four corners of one texel. *)
Definition accumulate_texel (texel : Z) (qweight weight : list Z)
    (st : dt_locals) : dt_locals :=
  for_loop 0 4 (λ i st,
    if negb (at4 weight i =? 0)
    then add_texel_weight texel (at4 qweight i) (at4 weight i) st
    else st) st.

(** The position of texel coordinate [x] on the weight grid, with four
    fractional bits (lines 282-283 and 478-480). *)
Definition grid_position (texels weights x : Z) : Z :=
  Z.shiftr (Z.quot (1024 + Z.quot texels 2) (texels - 1) * x * (weights - 1) + 32) 6.

Definition init_dt_locals (texels_per_block weights_per_block : Z) : dt_locals :=
  let tcw := for_loop 0 weights_per_block (λ i m, <[i := 0]> m) ∅ in
  let wct := for_loop 0 texels_per_block (λ i m, <[i := 0]> m) ∅ in
  mk_dt_locals wct ∅ ∅ tcw 0 ∅ ∅.

(** Lines 280-302: the texel index and the local arrays [qweight] and
    [weight] of the texel at [(x, y)]. *)
Definition texel_corners_2d (x_texels y_texels x_weights y_weights : Z)
    (y x : Z) : Z * list Z * list Z :=
  let texel := y * x_texels + x in
  let x_weight := grid_position x_texels x_weights x in
  let y_weight := grid_position y_texels y_weights y in
  let x_weight_frac := Z.land x_weight 15 in
  let y_weight_frac := Z.land y_weight 15 in
  let x_weight_int := Z.shiftr x_weight 4 in
  let y_weight_int := Z.shiftr y_weight 4 in
  let qweight0 := x_weight_int + y_weight_int * x_weights in
  let qweight1 := qweight0 + 1 in
  let qweight2 := qweight0 + x_weights in
  let qweight3 := qweight2 + 1 in
  (* Truncated-precision bilinear interpolation *)
  let prod := x_weight_frac * y_weight_frac in
  let weight3 := Z.shiftr (prod + 8) 4 in
  let weight1 := x_weight_frac - weight3 in
  let weight2 := y_weight_frac - weight3 in
  let weight0 := 16 - x_weight_frac - y_weight_frac + weight3 in
  (texel, [qweight0; qweight1; qweight2; qweight3],
   [weight0; weight1; weight2; weight3]).

(** The body of the loops of lines 276-318. *)
Definition texel_step_2d (x_texels y_texels x_weights y_weights : Z)
    (y x : Z) (st : dt_locals) : dt_locals :=
  let '(texel, qweight, weight) :=
    texel_corners_2d x_texels y_texels x_weights y_weights y x in
  accumulate_texel texel qweight weight st.

(** The simplex case selector of the 3D builder (line 498). *)
Definition simplex_case (fs ft fp : Z) : Z :=
  Z.shiftl (b2z (ft <? fs)) 2 + Z.shiftl (b2z (fp <? ft)) 1 + b2z (fp <? fs).

(** The [switch (cas)] of lines 503-561: [(s1, s2, w0, w1, w2, w3)]. *)
Definition simplex_weights (cas N NM fs ft fp : Z) : Z * Z * Z * Z * Z * Z :=
  match cas with
  | 7 => (1, N, 16 - fs, fs - ft, ft - fp, fp)
  | 3 => (N, 1, 16 - ft, ft - fs, fs - fp, fp)
  | 5 => (1, NM, 16 - fs, fs - fp, fp - ft, ft)
  | 4 => (NM, 1, 16 - fp, fp - fs, fs - ft, ft)
  | 2 => (N, NM, 16 - ft, ft - fp, fp - fs, fs)
  | 0 => (NM, N, 16 - fp, fp - ft, ft - fs, fs)
  | _ => (NM, N, 16 - fp, fp - ft, ft - fs, fs)
  end.

(** Lines 476-568: the texel index and the local arrays [qweight] and
    [weight] of the texel at [(x, y, z)]. *)
Definition texel_corners_3d (x_texels y_texels z_texels x_weights y_weights
    z_weights : Z) (z y x : Z) : Z * list Z * list Z :=
  let texel := (z * y_texels + y) * x_texels + x in
  let x_weight := grid_position x_texels x_weights x in
  let y_weight := grid_position y_texels y_weights y in
  let z_weight := grid_position z_texels z_weights z in
  let x_weight_frac := Z.land x_weight 15 in
  let y_weight_frac := Z.land y_weight 15 in
  let z_weight_frac := Z.land z_weight 15 in
  let x_weight_int := Z.shiftr x_weight 4 in
  let y_weight_int := Z.shiftr y_weight 4 in
  let z_weight_int := Z.shiftr z_weight 4 in
  let qweight0 :=
    (z_weight_int * y_weights + y_weight_int) * x_weights + x_weight_int in
  let qweight3 :=
    ((z_weight_int + 1) * y_weights + (y_weight_int + 1)) * x_weights
    + (x_weight_int + 1) in
  (* simplex interpolation *)
  let fs := x_weight_frac in
  let ft := y_weight_frac in
  let fp := z_weight_frac in
  let cas := simplex_case fs ft fp in
  let N := x_weights in
  let NM := x_weights * y_weights in
  let '(s1, s2, w0, w1, w2, w3) := simplex_weights cas N NM fs ft fp in
  let qweight1 := qweight0 + s1 in
  let qweight2 := qweight1 + s2 in
  (texel, [qweight0; qweight1; qweight2; qweight3], [w0; w1; w2; w3]).

(** The body of the loops of lines 470-585. *)
Definition texel_step_3d (x_texels y_texels z_texels x_weights y_weights
    z_weights : Z) (z y x : Z) (st : dt_locals) : dt_locals :=
  let '(texel, qweight, weight) :=
    texel_corners_3d x_texels y_texels z_texels x_weights y_weights z_weights
      z y x in
  accumulate_texel texel qweight weight st.

(** Lines 320-338: the texel-major arrays of texel [i], 2D builder. *)
Definition transpose_texel_2d (st : dt_locals) (i : Z)
    (dt : decimation_table) : decimation_table :=
  let dt := set_texel_weight_count i (rd (weight_count_of_texel st) i) dt in
  let dt :=
    for_loop 0 (rd (weight_count_of_texel st) i) (λ j dt,
      let dt := set_texel_weights_int_4t (j, i) (rd (weights_of_texel st) (i, j)) dt in
      let dt :=
        set_texel_weights_float_4t (j, i)
          (scale_by_weight_sum (float_of_int (rd (weights_of_texel st) (i, j)))) dt in
      set_texel_weights_4t (j, i) (rd (grid_weights_of_texel st) (i, j)) dt) dt in
  (* Init all 4 entries so we can rely on zeros for vectorization *)
  for_loop (rd (weight_count_of_texel st) i) 4 (λ j dt,
    let dt := set_texel_weights_int_4t (j, i) 0 dt in
    let dt := set_texel_weights_float_4t (j, i) 0 dt in
    set_texel_weights_4t (j, i) 0 dt) dt.

(** Lines 587-605: the same for the 3D builder, zeros first. *)
Definition transpose_texel_3d (st : dt_locals) (i : Z)
    (dt : decimation_table) : decimation_table :=
  let dt := set_texel_weight_count i (rd (weight_count_of_texel st) i) dt in
  (* Init all 4 entries so we can rely on zeros for vectorization *)
  let dt :=
    for_loop 0 4 (λ j dt,
      let dt := set_texel_weights_int_4t (j, i) 0 dt in
      let dt := set_texel_weights_float_4t (j, i) 0 dt in
      set_texel_weights_4t (j, i) 0 dt) dt in
  for_loop 0 (rd (weight_count_of_texel st) i) (λ j dt,
    let dt := set_texel_weights_int_4t (j, i) (rd (weights_of_texel st) (i, j)) dt in
    let dt :=
      set_texel_weights_float_4t (j, i)
        (scale_by_weight_sum (float_of_int (rd (weights_of_texel st) (i, j)))) dt in
    set_texel_weights_4t (j, i) (rd (grid_weights_of_texel st) (i, j)) dt) dt.

(** Lines 356-367 and 623-634: copy the four contributors of [texel] to
    entry [j] of weight [i] and find the identity contributor. *)
Definition unroll_texel (i j texel k : Z) (acc : Z * decimation_table)
    : Z * decimation_table :=
  let '(swap_idx, dt) := acc in
  let dttw := rd (texel_weights_4t dt) (k, texel) in
  let dttwf := rd (texel_weights_float_4t dt) (k, texel) in
  let swap_idx := if (dttw =? i) && negb (dttwf =? 0) then k else swap_idx in
  let dt := set_texel_weights_texel (i, j, k) dttw dt in
  let dt := set_texel_weights_float_texel (i, j, k) dttwf dt in
  (swap_idx, dt).

(** Lines 369-377 and 636-644. *)
Definition swap_identity (i j swap_idx : Z) (dt : decimation_table)
    : decimation_table :=
  if negb (swap_idx =? 0) then
    let vi := rd (texel_weights_texel dt) (i, j, 0) in
    let vf := rd (texel_weights_float_texel dt) (i, j, 0) in
    let dt :=
      set_texel_weights_texel (i, j, 0)
        (rd (texel_weights_texel dt) (i, j, swap_idx)) dt in
    let dt :=
      set_texel_weights_float_texel (i, j, 0)
        (rd (texel_weights_float_texel dt) (i, j, swap_idx)) dt in
    let dt := set_texel_weights_texel (i, j, swap_idx) vi dt in
    set_texel_weights_float_texel (i, j, swap_idx) vf dt
  else dt.

(** Lines 345-378 and 612-645: entry [j] of weight [i]. *)
Definition transpose_weight_texel (st : dt_locals) (i j : Z)
    (dt : decimation_table) : decimation_table :=
  let texel := rd (texels_of_weight st) (i, j) in
  (* Create transposed versions of these for better vectorization *)
  let dt := set_weight_texel (j, i) texel dt in
  let dt :=
    set_weights_flt (j, i)
      (float_of_int (rd (texel_weights_of_weight st) (i, j))) dt in
  let '(swap_idx, dt) := for_loop 0 4 (unroll_texel i j texel) (-1, dt) in
  swap_identity i j swap_idx dt.

(** Lines 340-388 and 607-655: the weight-major arrays of weight [i]. *)
Definition transpose_weight (st : dt_locals) (i : Z) (dt : decimation_table)
    : decimation_table :=
  let texel_count_wt := rd (texel_count_of_weight st) i in
  let dt := set_weight_texel_count i (u8 texel_count_wt) dt in
  let dt := for_loop 0 texel_count_wt (transpose_weight_texel st i) dt in
  (* Initialize array tail so we can over-fetch with SIMD later *)
  let last_texel := rd (weight_texel dt) (texel_count_wt - 1, i) in
  for_loop texel_count_wt (max_texel_count_of_weight st) (λ j dt,
    let dt := set_weight_texel (j, i) last_texel dt in
    set_weights_flt (j, i) 0 dt) dt.

Section BlockSizes.
(** What the two source files take from headers and files that are not
    part of this development. *)
Variable get_ise_sequence_bitcount : Z → Z → Z.
Variable round_up_to_simd_multiple_vla : Z → Z.
Variable MAX_DECIMATION_MODES : Z.
(** [ASTCENC_DECOMPRESS_ONLY] is defined. *)
Variable decompress_only : bool.
(** The percentile table and the comparisons of its [float] entries. *)
Variable float : Type.
Variable float_le : float → float → bool.
Variable float_is_zero : float → bool.
Variable get_2d_percentile_table : Z → Z → Z → float.
(** The values the successive calls of [astc::rand] return. *)
Variable rand_draws : list Z.

Definition decode_block_mode_2d (block_mode : Z) (out : mode_params)
    : bool * mode_params :=
  let base_quant_mode := Z.land (Z.shiftr block_mode 4) 1 in
  let H := Z.land (Z.shiftr block_mode 9) 1 in
  let D := Z.land (Z.shiftr block_mode 10) 1 in
  let A := Z.land (Z.shiftr block_mode 5) 3 in
  (* x_weights = 0; y_weights = 0; and an early [return false] *)
  let early_return :=
    (false, mk_mode_params 0 0 (z_weights out) (is_dual_plane out)
              (quant_mode out)) in
  (* lines 127-134 *)
  let finish (base_quant_mode H D x_weights y_weights : Z) :=
    let weight_count := x_weights * y_weights * (D + 1) in
    let quant_mode := (base_quant_mode - 2) + 6 * H in
    let is_dual_plane := negb (D =? 0) in
    let weight_bits := get_ise_sequence_bitcount weight_count quant_mode in
    ((weight_count <=? MAX_WEIGHTS_PER_BLOCK) &&
     (MIN_WEIGHT_BITS_PER_BLOCK <=? weight_bits) &&
     (weight_bits <=? MAX_WEIGHT_BITS_PER_BLOCK),
     mk_mode_params x_weights y_weights (z_weights out) is_dual_plane
       quant_mode) in
  if negb (Z.land block_mode 3 =? 0) then
    let base_quant_mode :=
      Z.lor base_quant_mode (Z.shiftl (Z.land block_mode 3) 1) in
    let B := Z.land (Z.shiftr block_mode 7) 3 in
    match Z.land (Z.shiftr block_mode 2) 3 with
    | 0 => finish base_quant_mode H D (B + 4) (A + 2)
    | 1 => finish base_quant_mode H D (B + 8) (A + 2)
    | 2 => finish base_quant_mode H D (A + 2) (B + 8)
    | 3 =>
        let B := Z.land B 1 in
        if negb (Z.land block_mode 256 =? 0)
        then finish base_quant_mode H D (B + 2) (A + 2)
        else finish base_quant_mode H D (A + 2) (B + 6)
    | _ => finish base_quant_mode H D 0 0
    end
  else
    let base_quant_mode :=
      Z.lor base_quant_mode (Z.shiftl (Z.land (Z.shiftr block_mode 2) 3) 1) in
    if Z.land (Z.shiftr block_mode 2) 3 =? 0 then early_return
    else
      let B := Z.land (Z.shiftr block_mode 9) 3 in
      match Z.land (Z.shiftr block_mode 7) 3 with
      | 0 => finish base_quant_mode H D 12 (A + 2)
      | 1 => finish base_quant_mode H D (A + 2) 12
      | 2 => finish base_quant_mode 0 0 (A + 6) (B + 6)
      | 3 =>
          match Z.land (Z.shiftr block_mode 5) 3 with
          | 0 => finish base_quant_mode H D 6 10
          | 1 => finish base_quant_mode H D 10 6
          | 2 | 3 => early_return
          | _ => finish base_quant_mode H D 0 0
          end
      | _ => finish base_quant_mode H D 0 0
      end.

Definition decode_block_mode_3d (block_mode : Z) (out : mode_params)
    : bool * mode_params :=
  let base_quant_mode := Z.land (Z.shiftr block_mode 4) 1 in
  let H := Z.land (Z.shiftr block_mode 9) 1 in
  let D := Z.land (Z.shiftr block_mode 10) 1 in
  let A := Z.land (Z.shiftr block_mode 5) 3 in
  let early_return (x_weights y_weights z_weights : Z) :=
    (false, mk_mode_params x_weights y_weights z_weights
              (is_dual_plane out) (quant_mode out)) in
  (* lines 228-235 *)
  let finish (base_quant_mode H D x_weights y_weights z_weights : Z) :=
    let weight_count := x_weights * y_weights * z_weights * (D + 1) in
    let quant_mode := (base_quant_mode - 2) + 6 * H in
    let is_dual_plane := negb (D =? 0) in
    let weight_bits := get_ise_sequence_bitcount weight_count quant_mode in
    ((weight_count <=? MAX_WEIGHTS_PER_BLOCK) &&
     (MIN_WEIGHT_BITS_PER_BLOCK <=? weight_bits) &&
     (weight_bits <=? MAX_WEIGHT_BITS_PER_BLOCK),
     mk_mode_params x_weights y_weights z_weights is_dual_plane
       quant_mode) in
  if negb (Z.land block_mode 3 =? 0) then
    let base_quant_mode :=
      Z.lor base_quant_mode (Z.shiftl (Z.land block_mode 3) 1) in
    let B := Z.land (Z.shiftr block_mode 7) 3 in
    let C := Z.land (Z.shiftr block_mode 2) 3 in
    finish base_quant_mode H D (A + 2) (B + 2) (C + 2)
  else
    let base_quant_mode :=
      Z.lor base_quant_mode (Z.shiftl (Z.land (Z.shiftr block_mode 2) 3) 1) in
    if Z.land (Z.shiftr block_mode 2) 3 =? 0 then early_return 0 0 0
    else
      let B := Z.land (Z.shiftr block_mode 9) 3 in
      let D := if negb (Z.land (Z.shiftr block_mode 7) 3 =? 3) then 0 else D in
      let H := if negb (Z.land (Z.shiftr block_mode 7) 3 =? 3) then 0 else H in
      match Z.land (Z.shiftr block_mode 7) 3 with
      | 0 => finish base_quant_mode H D 6 (B + 2) (A + 2)
      | 1 => finish base_quant_mode H D (A + 2) 6 (B + 2)
      | 2 => finish base_quant_mode H D (A + 2) (B + 2) 6
      | 3 =>
          match Z.land (Z.shiftr block_mode 5) 3 with
          | 0 => finish base_quant_mode H D 6 2 2
          | 1 => finish base_quant_mode H D 2 6 2
          | 2 => finish base_quant_mode H D 2 2 6
          | 3 => early_return 2 2 2
          | _ => finish base_quant_mode H D 2 2 2
          end
      | _ => finish base_quant_mode H D 0 0 0
      end.

(** Lines 390-419 and 657-686: the tails read by over-fetching loops. *)
Definition pad_texels (texels_per_block : Z) (dt : decimation_table)
    : decimation_table :=
  let texels_per_block_simd :=
    round_up_to_simd_multiple_vla texels_per_block in
  for_loop texels_per_block texels_per_block_simd (λ i dt,
    let dt := set_texel_weight_count i 0 dt in
    for_loop 0 4 (λ j dt,
      let dt := set_texel_weights_float_4t (j, i) 0 dt in
      let dt := set_texel_weights_4t (j, i) 0 dt in
      set_texel_weights_int_4t (j, i) 0 dt) dt) dt.

Definition pad_weights (st : dt_locals) (weights_per_block : Z)
    (dt : decimation_table) : decimation_table :=
  let last_texel_count_wt :=
    rd (texel_count_of_weight st) (weights_per_block - 1) in
  let last_texel :=
    rd (weight_texel dt) (last_texel_count_wt - 1, weights_per_block - 1) in
  let weights_per_block_simd :=
    round_up_to_simd_multiple_vla weights_per_block in
  for_loop weights_per_block weights_per_block_simd (λ i dt,
    let dt := set_weight_texel_count i 0 dt in
    for_loop 0 (max_texel_count_of_weight st) (λ j dt,
      let dt := set_weight_texel (j, i) last_texel dt in
      set_weights_flt (j, i) 0 dt) dt) dt.

Definition initialize_decimation_table_2d
    (x_texels y_texels x_weights y_weights : Z) (dt : decimation_table)
    : decimation_table :=
  let texels_per_block := x_texels * y_texels in
  let weights_per_block := x_weights * y_weights in
  let st := init_dt_locals texels_per_block weights_per_block in
  let st :=
    for_loop 0 y_texels (λ y,
      for_loop 0 x_texels (λ x,
        texel_step_2d x_texels y_texels x_weights y_weights y x)) st in
  let dt := for_loop 0 texels_per_block (transpose_texel_2d st) dt in
  let dt := for_loop 0 weights_per_block (transpose_weight st) dt in
  let dt := pad_texels texels_per_block dt in
  let dt := pad_weights st weights_per_block dt in
  set_dt_dims texels_per_block weights_per_block x_weights y_weights 1 dt.

Definition initialize_decimation_table_3d
    (x_texels y_texels z_texels x_weights y_weights z_weights : Z)
    (dt : decimation_table) : decimation_table :=
  let texels_per_block := x_texels * y_texels * z_texels in
  let weights_per_block := x_weights * y_weights * z_weights in
  let st := init_dt_locals texels_per_block weights_per_block in
  let st :=
    for_loop 0 z_texels (λ z,
      for_loop 0 y_texels (λ y,
        for_loop 0 x_texels (λ x,
          texel_step_3d x_texels y_texels z_texels x_weights y_weights
            z_weights z y x))) st in
  let dt := for_loop 0 texels_per_block (transpose_texel_3d st) dt in
  let dt := for_loop 0 weights_per_block (transpose_weight st) dt in
  let dt := pad_texels texels_per_block dt in
  let dt := pad_weights st weights_per_block dt in
  set_dt_dims texels_per_block weights_per_block x_weights y_weights
    z_weights dt.

(** The rejection loop of [assign_kmeans_texels], one draw at a time; it
    stops drawing once [MAX_KMEANS_TEXELS] indices are set. *)
Definition kmeans_draw (texel_count : Z)
    (acc : gmap Z bool * Z * gmap Z Z) (r : Z) : gmap Z bool * Z * gmap Z Z :=
  let '(seen, arr_elements_set, kmeans_texels) := acc in
  if arr_elements_set <? MAX_KMEANS_TEXELS then
    let texel := u32 r mod texel_count in
    if default false (seen !! texel) then acc
    else (<[texel := true]> seen, arr_elements_set + 1,
          <[arr_elements_set := texel]> kmeans_texels)
  else acc.

Definition assign_kmeans_texels (bsd : block_size_descriptor)
    : block_size_descriptor :=
  (* Use all texels for kmeans on a small block *)
  if texel_count bsd <=? MAX_KMEANS_TEXELS then
    let km :=
      for_loop 0 (texel_count bsd) (λ i km, <[i := i]> km)
        (kmeans_texels bsd) in
    set_kmeans_texel_count (texel_count bsd) (set_kmeans_texels km bsd)
  else
    (* Select a random subset of MAX_KMEANS_TEXELS on a large block *)
    let seen :=
      for_loop 0 (texel_count bsd) (λ i s, <[i := false]> s) ∅ in
    let '(_, _, km) :=
      fold_left (kmeans_draw (texel_count bsd)) rand_draws
        (seen, 0, kmeans_texels bsd) in
    set_kmeans_texel_count MAX_KMEANS_TEXELS (set_kmeans_texels km bsd).

(** The loop of lines 773-789 over the quantization levels. *)
Definition maxprec_step (weight_count : Z) (try_2planes : bool) (i : Z)
    (acc : Z * Z) : Z * Z :=
  let '(maxprec_1plane, maxprec_2planes) := acc in
  let bits_1plane := get_ise_sequence_bitcount weight_count i in
  let maxprec_1plane :=
    if (MIN_WEIGHT_BITS_PER_BLOCK <=? bits_1plane) &&
       (bits_1plane <=? MAX_WEIGHT_BITS_PER_BLOCK)
    then i else maxprec_1plane in
  let maxprec_2planes :=
    if try_2planes then
      let bits_2planes := get_ise_sequence_bitcount (2 * weight_count) i in
      if (MIN_WEIGHT_BITS_PER_BLOCK <=? bits_2planes) &&
         (bits_2planes <=? MAX_WEIGHT_BITS_PER_BLOCK)
      then i else maxprec_2planes
    else maxprec_2planes in
  (maxprec_1plane, maxprec_2planes).

(** The two [assert]s of the source are compiled out. *)
Definition construct_dt_entry_2d (x_texels y_texels x_weights y_weights : Z)
    (bsd : block_size_descriptor) : Z * block_size_descriptor :=
  let dm_index := decimation_mode_count bsd in
  let weight_count := x_weights * y_weights in
  let try_2planes := 2 * weight_count <=? MAX_WEIGHTS_PER_BLOCK in
  let dt :=
    initialize_decimation_table_2d x_texels y_texels x_weights y_weights
      unwritten_decimation_table in
  let '(maxprec_1plane, maxprec_2planes) :=
    for_loop 0 12 (maxprec_step weight_count try_2planes) (-1, -1) in
  (* Default to not enabled - we'll populate these based on active block modes *)
  let bsd :=
    set_decimation_modes
      (<[dm_index := mk_decimation_mode maxprec_1plane maxprec_2planes
                       false false]> (decimation_modes bsd)) bsd in
  let bsd :=
    set_decimation_tables
      (<[dm_index := Some dt]> (decimation_tables bsd)) bsd in
  (dm_index, set_decimation_mode_count (decimation_mode_count bsd + 1) bsd).

Definition bm_entry (bsd : block_size_descriptor) (k : Z) : block_mode :=
  default unwritten_block_mode (block_modes bsd !! k).
Definition dm_entry (bsd : block_size_descriptor) (k : Z) : decimation_mode_t :=
  default unwritten_decimation_mode (decimation_modes bsd !! k).

(** Stores to single fields of [bsd.block_modes[k]] and
    [bsd.decimation_modes[k]]. *)
Definition update_block_mode (k : Z) (f : block_mode → block_mode)
    (bsd : block_size_descriptor) : block_size_descriptor :=
  set_block_modes (<[k := f (bm_entry bsd k)]> (block_modes bsd)) bsd.
Definition update_decimation_mode (k : Z)
    (f : decimation_mode_t → decimation_mode_t)
    (bsd : block_size_descriptor) : block_size_descriptor :=
  set_decimation_modes (<[k := f (dm_entry bsd k)]> (decimation_modes bsd)) bsd.

Definition bm_set_percentile (always hit : bool) (bm : block_mode) :=
  mk_block_mode (decimation_mode bm) (bm_quant_mode bm) (bm_is_dual_plane bm)
    (mode_index bm) hit always.
Definition bm_set_mode (decimation_mode quant_mode : Z) (is_dual_plane : bool)
    (mode_index : Z) (bm : block_mode) :=
  mk_block_mode decimation_mode quant_mode is_dual_plane mode_index
    (bm_percentile_hit bm) (bm_percentile_always bm).
Definition dm_set_percentile_always (dm : decimation_mode_t) :=
  mk_decimation_mode (maxprec_1plane dm) (maxprec_2planes dm)
    (dm_percentile_hit dm) true.
Definition dm_set_percentile_hit (dm : decimation_mode_t) :=
  mk_decimation_mode (maxprec_1plane dm) (maxprec_2planes dm)
    true (dm_percentile_always dm).

(** The loop state of the two assemblers: the local remap table
    [decimation_mode_index], [packed_idx] and the descriptor. *)
Record asm_state := mk_asm_state {
  decimation_mode_index : gmap Z Z;
  packed_idx : Z;
  asm_bsd : block_size_descriptor
}.

(** [selected] of lines 858-865. *)
Definition mode_selected (x_texels y_texels : Z) (can_omit_modes : bool)
    (mode_cutoff : float) (i : Z) : bool :=
  if decompress_only then true
  else float_le (get_2d_percentile_table x_texels y_texels i) mode_cutoff
       || negb can_omit_modes.

(** The body of the loop of lines 849-917. *)
Definition block_mode_step_2d (x_texels y_texels : Z) (can_omit_modes : bool)
    (mode_cutoff : float) (i : Z) (st : asm_state) : asm_state :=
  let '(valid, m) := decode_block_mode_2d i unwritten_mode_params in
  let percentile := get_2d_percentile_table x_texels y_texels i in
  let selected := mode_selected x_texels y_texels can_omit_modes mode_cutoff i in
  (* Skip modes that are invalid, too large, or not selected by heuristic *)
  if negb valid || negb selected || (x_texels <? x_weights m)
     || (y_texels <? y_weights m) then
    mk_asm_state (decimation_mode_index st) (packed_idx st)
      (set_block_mode_packed_index
         (<[i := -1]> (block_mode_packed_index (asm_bsd st))) (asm_bsd st))
  else
    let packed_idx := packed_idx st in
    let key := y_weights m * 16 + x_weights m in
    (* Allocate and initialize the DT entry if we've not used it yet. *)
    let '(decimation_mode, dmi, bsd) :=
      if rd (decimation_mode_index st) key =? -1 then
        let '(decimation_mode, bsd) :=
          construct_dt_entry_2d x_texels y_texels (x_weights m)
            (y_weights m) (asm_bsd st) in
        (decimation_mode,
         <[key := decimation_mode]> (decimation_mode_index st), bsd)
      else
        (rd (decimation_mode_index st) key, decimation_mode_index st,
         asm_bsd st) in
    (* Flatten the block mode heuristic into some precomputed flags *)
    let bsd :=
      if decompress_only then bsd
      else if float_is_zero percentile then
        let bsd := update_block_mode packed_idx (bm_set_percentile true true) bsd in
        let bsd := update_decimation_mode decimation_mode dm_set_percentile_always bsd in
        update_decimation_mode decimation_mode dm_set_percentile_hit bsd
      else if float_le percentile mode_cutoff then
        let bsd := update_block_mode packed_idx (bm_set_percentile false true) bsd in
        update_decimation_mode decimation_mode dm_set_percentile_hit bsd
      else
        update_block_mode packed_idx (bm_set_percentile false false) bsd in
    let bsd :=
      update_block_mode packed_idx
        (bm_set_mode decimation_mode (quant_mode m) (is_dual_plane m) i) bsd in
    let bsd :=
      set_block_mode_packed_index
        (<[i := packed_idx]> (block_mode_packed_index bsd)) bsd in
    mk_asm_state dmi (packed_idx + 1) bsd.

(** Lines 926-933 and 1023-1030. *)
Definition clear_unused_decimation_modes (first : Z)
    (bsd : block_size_descriptor) : block_size_descriptor :=
  for_loop first MAX_DECIMATION_MODES (λ i bsd,
    let bsd :=
      set_decimation_modes
        (<[i := mk_decimation_mode (-1) (-1) false false]>
           (decimation_modes bsd)) bsd in
    set_decimation_tables (<[i := None]> (decimation_tables bsd)) bsd) bsd.

Definition construct_block_size_descriptor_2d (x_texels y_texels : Z)
    (can_omit_modes : bool) (mode_cutoff : float)
    (bsd : block_size_descriptor) : block_size_descriptor :=
  let MAX_DMI := 12 * 16 + 12 in
  let bsd := set_xdim x_texels bsd in
  let bsd := set_ydim y_texels bsd in
  let bsd := set_zdim 1 bsd in
  let bsd := set_texel_count (x_texels * y_texels) bsd in
  let bsd := set_decimation_mode_count 0 bsd in
  let decimation_mode_index :=
    for_loop 0 MAX_DMI (λ i m, <[i := -1]> m) ∅ in
  (* Construct the list of block formats referencing the decimation tables *)
  let st :=
    for_loop 0 MAX_WEIGHT_MODES
      (block_mode_step_2d x_texels y_texels can_omit_modes mode_cutoff)
      (mk_asm_state decimation_mode_index 0 bsd) in
  let bsd := set_block_mode_count (packed_idx st) (asm_bsd st) in
  (* Ensure the end of the array contains valid data (should never get read) *)
  let bsd := clear_unused_decimation_modes (decimation_mode_count bsd) bsd in
  (* Determine the texels to use for kmeans clustering. *)
  assign_kmeans_texels bsd.

(** The body of the grid loops of lines 973-1020; the state is the local
    remap table, the local [decimation_mode_count] and the descriptor. *)
Definition decimation_grid_step_3d (x_texels y_texels z_texels : Z)
    (x_weights y_weights z_weights : Z)
    (acc : gmap Z Z * Z * block_size_descriptor)
    : gmap Z Z * Z * block_size_descriptor :=
  let '(decimation_mode_index, decimation_mode_count, bsd) := acc in
  let weight_count := x_weights * y_weights * z_weights in
  if MAX_WEIGHTS_PER_BLOCK <? weight_count then acc
  else
    let decimation_mode_index :=
      <[z_weights * 64 + y_weights * 8 + x_weights := decimation_mode_count]>
        decimation_mode_index in
    let dt :=
      initialize_decimation_table_3d x_texels y_texels z_texels x_weights
        y_weights z_weights unwritten_decimation_table in
    let '(maxprec_1plane, maxprec_2planes) :=
      for_loop 0 12 (maxprec_step weight_count true) (-1, -1) in
    let maxprec_2planes :=
      if MAX_WEIGHTS_PER_BLOCK <? 2 * weight_count then -1
      else maxprec_2planes in
    let bsd :=
      set_decimation_modes
        (<[decimation_mode_count :=
             mk_decimation_mode maxprec_1plane maxprec_2planes false false]>
           (decimation_modes bsd)) bsd in
    let bsd :=
      set_decimation_tables
        (<[decimation_mode_count := Some dt]> (decimation_tables bsd)) bsd in
    (decimation_mode_index, decimation_mode_count + 1, bsd).

(** The test that sends a 3D mode to [continue] (lines 1043-1059). *)
Definition permit_encode_3d (x_texels y_texels z_texels : Z) (i : Z) : bool :=
  let '(ok, m) := decode_block_mode_3d i unwritten_mode_params in
  if ok then
    negb ((x_texels <? x_weights m) || (y_texels <? y_weights m)
          || (z_texels <? z_weights m))
  else false.

(** The body of the loop of lines 1036-1075. *)
Definition block_mode_step_3d (x_texels y_texels z_texels : Z) (i : Z)
    (st : asm_state) : asm_state :=
  let '(ok, m) := decode_block_mode_3d i unwritten_mode_params in
  let permit_encode :=
    if ok then
      negb ((x_texels <? x_weights m) || (y_texels <? y_weights m)
            || (z_texels <? z_weights m))
    else false in
  let bsd :=
    set_block_mode_packed_index
      (<[i := -1]> (block_mode_packed_index (asm_bsd st))) (asm_bsd st) in
  if negb permit_encode then
    mk_asm_state (decimation_mode_index st) (packed_idx st) bsd
  else
    let packed_idx := packed_idx st in
    let decimation_mode :=
      rd (decimation_mode_index st)
        (z_weights m * 64 + y_weights m * 8 + x_weights m) in
    let bsd :=
      update_block_mode packed_idx
        (bm_set_mode decimation_mode (quant_mode m) (is_dual_plane m) i) bsd in
    (* No percentile table, so enable everything all the time ... *)
    let bsd := update_block_mode packed_idx (bm_set_percentile true true) bsd in
    let bsd := update_decimation_mode decimation_mode dm_set_percentile_hit bsd in
    let bsd := update_decimation_mode decimation_mode dm_set_percentile_always bsd in
    let bsd :=
      set_block_mode_packed_index
        (<[i := packed_idx]> (block_mode_packed_index bsd)) bsd in
    mk_asm_state (decimation_mode_index st) (packed_idx + 1) bsd.

Definition construct_block_size_descriptor_3d (x_texels y_texels z_texels : Z)
    (bsd : block_size_descriptor) : block_size_descriptor :=
  let MAX_DMI := 6 * 64 + 6 * 8 + 6 in
  let bsd := set_xdim x_texels bsd in
  let bsd := set_ydim y_texels bsd in
  let bsd := set_zdim z_texels bsd in
  let bsd := set_texel_count (x_texels * y_texels * z_texels) bsd in
  let decimation_mode_index :=
    for_loop 0 MAX_DMI (λ i m, <[i := -1]> m) ∅ in
  (* gather all the infill-modes that can be used with the current block size *)
  let '(decimation_mode_index, decimation_mode_count, bsd) :=
    for_loop 2 (x_texels + 1) (λ x_weights,
      for_loop 2 (y_texels + 1) (λ y_weights,
        for_loop 2 (z_texels + 1) (λ z_weights,
          decimation_grid_step_3d x_texels y_texels z_texels
            x_weights y_weights z_weights)))
      (decimation_mode_index, 0, bsd) in
  (* Ensure the end of the array contains valid data (should never get read) *)
  let bsd := clear_unused_decimation_modes decimation_mode_count bsd in
  let bsd := set_decimation_mode_count decimation_mode_count bsd in
  (* Construct the list of block formats *)
  let st :=
    for_loop 0 MAX_WEIGHT_MODES
      (block_mode_step_3d x_texels y_texels z_texels)
      (mk_asm_state decimation_mode_index 0 bsd) in
  let bsd := set_block_mode_count (packed_idx st) (asm_bsd st) in
  (* Determine the texels to use for kmeans clustering. *)
  assign_kmeans_texels bsd.

Definition init_block_size_descriptor (x_texels y_texels z_texels : Z)
    (can_omit_modes : bool) (mode_cutoff : float)
    (bsd : block_size_descriptor) : block_size_descriptor :=
  let bsd :=
    if 1 <? z_texels
    then construct_block_size_descriptor_3d x_texels y_texels z_texels bsd
    else construct_block_size_descriptor_2d x_texels y_texels can_omit_modes
           mode_cutoff bsd in
  init_partition_tables round_up_to_simd_multiple_vla bsd.
End BlockSizes.

(** * Properties *)

(** ** Loops, machine integers and array reads *)

Lemma for_loop_empty {S : Type} (lo hi : Z) (body : Z → S → S) (s : S) :
  hi ≤ lo → for_loop lo hi body s = s.
Proof.
  intros Hle. unfold for_loop. rewrite seqZ_nil by lia. reflexivity.
Qed.

Lemma for_loop_first {S : Type} (lo hi : Z) (body : Z → S → S) (s : S) :
  lo < hi → for_loop lo hi body s = for_loop (lo + 1) hi body (body lo s).
Proof.
  intros Hlt. unfold for_loop. rewrite seqZ_cons by lia. simpl.
  replace (Z.succ lo) with (lo + 1) by lia.
  replace (Z.pred (hi - lo)) with (hi - (lo + 1)) by lia. reflexivity.
Qed.

Lemma for_loop_last {S : Type} (lo hi : Z) (body : Z → S → S) (s : S) :
  lo ≤ hi → for_loop lo (hi + 1) body s = body hi (for_loop lo hi body s).
Proof.
  intros Hle. unfold for_loop.
  replace (hi + 1 - lo) with ((hi - lo) + 1) by lia.
  rewrite seqZ_app by lia. rewrite fold_left_app.
  replace (lo + (hi - lo)) with hi by lia. reflexivity.
Qed.

(** The invariant rule of a counted loop. *)
Lemma for_loop_ind {S : Type} (P : Z → S → Prop) (lo hi : Z)
    (body : Z → S → S) (s : S) :
  lo ≤ hi →
  P lo s →
  (∀ i s', lo ≤ i < hi → P i s' → P (i + 1) (body i s')) →
  P hi (for_loop lo hi body s).
Proof.
  intros Hle H0 Hstep.
  assert (Hgen : ∀ n : nat, lo + Z.of_nat n ≤ hi →
            P (lo + Z.of_nat n) (for_loop lo (lo + Z.of_nat n) body s)).
  { induction n as [|n IH]; intros Hn.
    - rewrite Z.add_0_r. rewrite for_loop_empty by lia. exact H0.
    - replace (lo + Z.of_nat (Datatypes.S n)) with (lo + Z.of_nat n + 1) by lia.
      rewrite for_loop_last by lia. apply Hstep; [lia|]. apply IH. lia. }
  specialize (Hgen (Z.to_nat (hi - lo))).
  replace (lo + Z.of_nat (Z.to_nat (hi - lo))) with hi in Hgen by lia.
  apply Hgen. lia.
Qed.

(** A property every iteration preserves holds after the loop. *)
Lemma for_loop_preserves {S : Type} (P : S → Prop) (lo hi : Z)
    (body : Z → S → S) (s : S) :
  P s →
  (∀ i s', lo ≤ i < hi → P s' → P (body i s')) →
  P (for_loop lo hi body s).
Proof.
  intros H0 Hstep. destruct (Z_le_gt_dec lo hi) as [Hle|Hgt].
  - apply (for_loop_ind (λ _, P)); auto.
  - rewrite for_loop_empty by lia. exact H0.
Qed.

Lemma for_loop_ext {S : Type} (lo hi : Z) (f g : Z → S → S) (s : S) :
  (∀ i s', lo ≤ i < hi → f i s' = g i s') →
  for_loop lo hi f s = for_loop lo hi g s.
Proof.
  intros Hfg. destruct (Z_le_gt_dec lo hi) as [Hle|Hgt].
  - apply (for_loop_ind (λ i s', s' = for_loop lo i g s)); [lia| |].
    + rewrite for_loop_empty by lia. reflexivity.
    + intros i s' Hi ->. rewrite for_loop_last by lia. apply Hfg. exact Hi.
  - rewrite !for_loop_empty by lia. reflexivity.
Qed.

Lemma u8_small (z : Z) : 0 ≤ z < 256 → u8 z = z.
Proof. intros Hz. unfold u8. apply Z.mod_small. exact Hz. Qed.

Lemma u8_range (z : Z) : 0 ≤ u8 z < 256.
Proof. unfold u8. apply Z.mod_pos_bound. lia. Qed.

Lemma land_ones_range (z n : Z) : 0 ≤ n → 0 ≤ Z.land z (Z.ones n) < 2 ^ n.
Proof.
  intros Hn. rewrite Z.land_ones by exact Hn. apply Z.mod_pos_bound.
  apply Z.pow_pos_nonneg; lia.
Qed.

Lemma land_15_range (z : Z) : 0 ≤ Z.land z 15 < 16.
Proof. apply (land_ones_range z 4). lia. Qed.

Lemma land_63_range (z : Z) : 0 ≤ Z.land z 63 < 64.
Proof. apply (land_ones_range z 6). lia. Qed.

Lemma land_3_range (z : Z) : 0 ≤ Z.land z 3 < 4.
Proof. apply (land_ones_range z 2). lia. Qed.

Lemma rd_insert_eq `{Countable K} (m : gmap K Z) (k : K) (v : Z) :
  rd (<[k:=v]> m) k = v.
Proof. unfold rd. rewrite lookup_insert_eq. reflexivity. Qed.

Lemma rd_insert_ne `{Countable K} (m : gmap K Z) (k k' : K) (v : Z) :
  k ≠ k' → rd (<[k:=v]> m) k' = rd m k'.
Proof. intros Hne. unfold rd. rewrite lookup_insert_ne by exact Hne. reflexivity. Qed.

Lemma rd_lookup `{Countable K} (m : gmap K Z) (k : K) (v : Z) :
  m !! k = Some v → rd m k = v.
Proof. intros Hk. unfold rd. rewrite Hk. reflexivity. Qed.

(** A loop whose every iteration advances a counted invariant by [k]. *)
Lemma for_loop_advance {S : Type} (Inv : Z → S → Prop) (k lo hi : Z)
    (body : Z → S → S) (s : S) (n : Z) :
  lo ≤ hi →
  (∀ i s' m, lo ≤ i < hi → Inv m s' → Inv (m + k) (body i s')) →
  Inv n s →
  Inv (n + k * (hi - lo)) (for_loop lo hi body s).
Proof.
  intros Hle Hstep H0.
  apply (for_loop_ind (λ i s', Inv (n + k * (i - lo)) s')); [exact Hle| |].
  - replace (n + k * (lo - lo)) with n by lia. exact H0.
  - intros i s' Hi HI.
    replace (n + k * (i + 1 - lo)) with (n + k * (i - lo) + k) by lia.
    apply Hstep; assumption.
Qed.

(** The field stores, for [autounfold]. *)
Create HintDb stores.
#[global] Hint Unfold
  set_texel_weight_count set_texel_weights_4t set_texel_weights_int_4t
  set_texel_weights_float_4t set_weight_texel_count set_weight_texel
  set_weights_flt set_texel_weights_texel set_texel_weights_float_texel
  set_dt_dims set_partition_count set_partition_of_texel
  set_texels_of_partition set_partition_texel_count set_coverage_bitmaps
  set_xdim set_ydim set_zdim set_texel_count set_decimation_mode_count
  set_block_mode_count set_decimation_modes set_decimation_tables
  set_block_modes set_block_mode_packed_index set_kmeans_texel_count
  set_kmeans_texels set_partitions
  : stores.

Ltac stores := autounfold with stores in *; simpl in *.

(** ** The partition hash *)

(** The four linear forms of [select_partition] after the saw, and the
    choice among them. *)
Lemma select_partition_choice (a b c d : Z) (partition_count : Z) :
  0 ≤ a → 0 ≤ b → 0 ≤ c → 0 ≤ d →
  1 ≤ partition_count ≤ 4 →
  let d' := if partition_count <=? 3 then 0 else d in
  let c' := if partition_count <=? 2 then 0 else c in
  let b' := if partition_count <=? 1 then 0 else b in
  0 ≤ (if (b' <=? a) && (c' <=? a) && (d' <=? a) then 0
       else if (c' <=? b') && (d' <=? b') then 1
       else if d' <=? c' then 2 else 3) < partition_count.
Proof.
  intros Ha Hb Hc Hd Hpc. cbv zeta.
  destruct (Z.leb_spec partition_count 3), (Z.leb_spec partition_count 2),
    (Z.leb_spec partition_count 1); try lia.
  all: repeat match goal with
         | |- context [?x <=? ?y] => destruct (Z.leb_spec x y); simpl
         end; lia.
Qed.

(** C10. For every seed, every coordinate and every requested partition
    count in 1..4, [select_partition] returns a partition index below the
    requested count. *)
Theorem select_partition_below_count
    (seed x y z partition_count : Z) (small_block : bool) :
  1 ≤ partition_count ≤ 4 →
  0 ≤ select_partition seed x y z partition_count small_block
    < partition_count.
Proof.
  intros Hpc. unfold select_partition. cbv zeta.
  repeat match goal with
  | |- context [Z.land (s32 ?t) 63] =>
      let v := fresh "lf" in set (v := s32 t)
  end.
  repeat match goal with
  | v := s32 _ |- _ =>
      pose proof (land_63_range v); generalize dependent (Z.land v 63);
      clear v
  end.
  intros. apply select_partition_choice; lia.
Qed.

(** ** The simplex case selector and the 2D block-mode decoder *)

(** The case index by the order of the three fractions. *)
Lemma simplex_case_value (fs ft fp : Z) :
  simplex_case fs ft fp =
    if ft <? fs
    then (if fp <? ft then 7 else if fp <? fs then 5 else 4)
    else (if fp <? ft then (if fp <? fs then 3 else 2) else 0).
Proof.
  unfold simplex_case.
  destruct (Z.ltb_spec ft fs), (Z.ltb_spec fp ft), (Z.ltb_spec fp fs);
    try reflexivity; exfalso; lia.
Qed.

(** C7. For every fraction triple the case index of the simplex
    interpolation is one of 0, 2, 3, 4, 5, 7: it is never 1 and never 6, so
    the [default] branch of the [switch] is never taken. *)
Theorem simplex_case_reachable (fs ft fp : Z) :
  simplex_case fs ft fp ≠ 1 ∧ simplex_case fs ft fp ≠ 6 ∧
  simplex_case fs ft fp ∈ [0; 2; 3; 4; 5; 7].
Proof.
  rewrite simplex_case_value.
  destruct (ft <? fs), (fp <? ft), (fp <? fs);
    (split; [lia | split; [lia |]]);
    repeat (first [apply list_elem_of_here | apply list_elem_of_further]).
Qed.

(** In each case the four simplex weights are the gaps of the sorted
    fractions: none is negative and they add up to 16; the two strides
    differ and are taken from 1, N, NM. *)
Lemma simplex_weights_sum (N NM fs ft fp : Z) :
  0 ≤ fs < 16 → 0 ≤ ft < 16 → 0 ≤ fp < 16 →
  ∃ s1 s2 w0 w1 w2 w3,
    simplex_weights (simplex_case fs ft fp) N NM fs ft fp
      = (s1, s2, w0, w1, w2, w3) ∧
    1 ≤ w0 ≤ 16 ∧ 0 ≤ w1 ≤ 16 ∧ 0 ≤ w2 ≤ 16 ∧ 0 ≤ w3 ≤ 16 ∧
    w0 + w1 + w2 + w3 = 16 ∧
    ((s1 = 1 ∧ s2 = N) ∨ (s1 = N ∧ s2 = 1) ∨ (s1 = 1 ∧ s2 = NM) ∨
     (s1 = NM ∧ s2 = 1) ∨ (s1 = N ∧ s2 = NM) ∨ (s1 = NM ∧ s2 = N)).
Proof.
  intros Hs Ht Hp. rewrite simplex_case_value.
  destruct (Z.ltb_spec ft fs), (Z.ltb_spec fp ft), (Z.ltb_spec fp fs);
    try (exfalso; lia); simpl;
    do 6 eexists; (split; [reflexivity|]); lia.
Qed.

Section Decoder.
Variable get_ise_sequence_bitcount : Z → Z → Z.

(** C6, as the code has it. Mode index 0x0042 decodes to a 4 x 4 weight
    grid, a single plane and quantization level 2; the decoder reports it
    valid exactly when the bit count of 16 weights at level 2 lies in
    24..96. *)
Theorem decode_block_mode_2d_0x42 (out : mode_params) :
  decode_block_mode_2d get_ise_sequence_bitcount 66 out =
    ((MIN_WEIGHT_BITS_PER_BLOCK <=? get_ise_sequence_bitcount 16 2) &&
     (get_ise_sequence_bitcount 16 2 <=? MAX_WEIGHT_BITS_PER_BLOCK),
     mk_mode_params 4 4 (z_weights out) false 2).
Proof. reflexivity. Qed.
End Decoder.

(** ** Partition info entries *)

(** Partition [p] has a texel among the first [texels] texels of [pi]. *)
Definition partition_nonempty (texels : Z) (pi : partition_info) (p : Z) : Prop :=
  ∃ t, 0 ≤ t < texels ∧ partition_of_texel pi !! t = Some p.

(** The state of the assignment loop after [n] texels: both cursors are at
    [n], and [counts[p]] is positive exactly for the partitions that the
    first [n] cells of [partition_of_texel] name. *)
Definition assigned (n : Z) (st : gen_state) : Prop :=
  0 ≤ n ∧ texel_idx st = n ∧ partition_of_texel_ptr st = n ∧
  (∀ p, 0 ≤ rd (counts st) p) ∧
  (∀ p, 0 < rd (counts st) p ↔ partition_nonempty n (gen_pi st) p).

Lemma assign_texel_assigned (partition_count partition_index : Z)
    (small_block : bool) (z y x n : Z) (st : gen_state) :
  assigned n st →
  assigned (n + 1)
    (assign_texel partition_count partition_index small_block z y x st).
Proof.
  intros (Hn & Hidx & Hptr & Hnn & Hiff). unfold assign_texel.
  set (part := u8 _). unfold assigned, partition_nonempty in *.
  stores. repeat split; try lia.
  - intros p. destruct (decide (part = p)) as [<-|Hne].
    + rewrite rd_insert_eq. specialize (Hnn part). lia.
    + rewrite rd_insert_ne by exact Hne. apply Hnn.
  - intros Hpos. destruct (decide (part = p)) as [<-|Hne].
    + exists n. split; [lia|]. rewrite Hptr. apply lookup_insert_eq.
    + rewrite rd_insert_ne in Hpos by exact Hne.
      apply Hiff in Hpos as (t & Ht & Hlk). exists t. split; [lia|].
      rewrite Hptr. rewrite lookup_insert_ne by lia. exact Hlk.
  - intros (t & Ht & Hlk). destruct (decide (part = p)) as [<-|Hne].
    + rewrite rd_insert_eq. specialize (Hnn part). lia.
    + rewrite rd_insert_ne by exact Hne. apply Hiff.
      rewrite Hptr in Hlk. destruct (decide (n = t)) as [<-|Hnt].
      * rewrite lookup_insert_eq in Hlk. congruence.
      * rewrite lookup_insert_ne in Hlk by exact Hnt.
        exists t. split; [lia | exact Hlk].
Qed.

Lemma counts_init (p : Z) :
  rd (for_loop 0 4 (λ i c, <[i := 0]> c) (∅ : gmap Z Z)) p = 0.
Proof.
  apply (for_loop_preserves (λ c : gmap Z Z, rd c p = 0)).
  - reflexivity.
  - intros i c _ Hc. destruct (decide (i = p)) as [->|Hne].
    + apply rd_insert_eq.
    + rewrite rd_insert_ne by exact Hne. exact Hc.
Qed.

Section PartitionInfo.
Variable round_up_to_simd_multiple_vla : Z → Z.

Abbreviation generate_entry :=
  (generate_one_partition_info_entry round_up_to_simd_multiple_vla).

(** The loops after the assignment leave [partition_of_texel] alone, and
    [partition_count] is chosen from the counts. *)
Lemma generate_entry_fields (bsd : block_size_descriptor)
    (partition_count0 partition_index : Z) (pi0 : partition_info) :
  0 ≤ xdim bsd → 0 ≤ ydim bsd → 0 ≤ zdim bsd →
  ∃ st,
    assigned (xdim bsd * ydim bsd * zdim bsd) st ∧
    partition_of_texel
      (generate_entry bsd partition_count0 partition_index pi0)
      = partition_of_texel (gen_pi st) ∧
    partition_count (generate_entry bsd partition_count0 partition_index pi0)
      = (if rd (counts st) 0 =? 0 then 0
         else if rd (counts st) 1 =? 0 then 1
         else if rd (counts st) 2 =? 0 then 2
         else if rd (counts st) 3 =? 0 then 3 else 4).
Proof.
  intros Hx Hy Hz. unfold generate_one_partition_info_entry. cbv zeta.
  match goal with
  | |- context [gen_pi ?s] => set (st := s)
  end.
  exists st. split; [|split].
  - replace (xdim bsd * ydim bsd * zdim bsd)
      with (0 + (xdim bsd * ydim bsd) * (zdim bsd - 0)) by lia.
    subst st. apply (for_loop_advance assigned); [exact Hz| |].
    + intros z s m _ Hs.
      replace (m + xdim bsd * ydim bsd)
        with (m + xdim bsd * (ydim bsd - 0)) by lia.
      apply (for_loop_advance assigned); [exact Hy| |exact Hs].
      intros y s' m' _ Hs'.
      replace (m' + xdim bsd) with (m' + 1 * (xdim bsd - 0)) by lia.
      apply (for_loop_advance assigned); [exact Hx| |exact Hs'].
      intros x s'' m'' _ Hs''. apply assign_texel_assigned. exact Hs''.
    + unfold assigned. simpl. repeat split; try lia.
      * intros p. rewrite counts_init. lia.
      * rewrite counts_init. lia.
      * intros (t & Ht & _). lia.
  - apply (for_loop_preserves
             (λ pi, partition_of_texel pi = partition_of_texel (gen_pi st))).
    2: { intros i pi _ Hpi. stores. exact Hpi. }
    apply (for_loop_preserves
             (λ pi, partition_of_texel pi = partition_of_texel (gen_pi st))).
    2: { intros i pi _ Hpi. stores. exact Hpi. }
    assert (Htail : partition_of_texel
              (for_loop 0 partition_count0 (λ i pi,
                 for_loop (rd (counts st) i)
                   (round_up_to_simd_multiple_vla (rd (counts st) i))
                   (λ j pi0,
                      set_texels_of_partition (i, j)
                        (rd (texels_of_partition pi0)
                           (i, rd (counts st) i - 1)) pi0) pi) (gen_pi st))
            = partition_of_texel (gen_pi st)).
    { apply (for_loop_preserves
             (λ pi, partition_of_texel pi = partition_of_texel (gen_pi st)));
        [reflexivity|].
      intros i pi _ Hpi.
      apply (for_loop_preserves
             (λ pi, partition_of_texel pi = partition_of_texel (gen_pi st)));
        [exact Hpi|].
      intros j pi' _ Hpi'. stores. exact Hpi'. }
    repeat match goal with
           | |- context [if ?b then _ else _] => destruct b
           end; stores; exact Htail.
  - match goal with
    | |- partition_count (for_loop _ _ _ (for_loop _ _ _ ?pi)) = ?v =>
        assert (Hpc : partition_count pi = v)
    end.
    { repeat match goal with
             | |- context [if ?b then _ else _] => destruct b
             end; reflexivity. }
    revert Hpc.
    match goal with
    | |- _ = ?v → _ => generalize v
    end.
    intros v Hpc.
    apply (for_loop_preserves (λ pi, partition_count pi = v)).
    2: { intros i pi _ Hpi. stores. exact Hpi. }
    apply (for_loop_preserves (λ pi, partition_count pi = v)).
    2: { intros i pi _ Hpi. stores. exact Hpi. }
    exact Hpc.
Qed.

(** C5. The partition count stored in an entry is the length of the
    longest prefix of non-empty partitions: every partition below it has a
    texel, and, unless it is 4, the partition it names has none.  (That a
    later partition may still have texels is not excluded.) *)
Theorem partition_count_is_nonempty_prefix (bsd : block_size_descriptor)
    (partition_count0 partition_index : Z) (pi0 : partition_info) :
  0 ≤ xdim bsd → 0 ≤ ydim bsd → 0 ≤ zdim bsd →
  let pi := generate_entry bsd partition_count0 partition_index pi0 in
  let texels := xdim bsd * ydim bsd * zdim bsd in
  0 ≤ partition_count pi ≤ 4 ∧
  (∀ p, 0 ≤ p < partition_count pi → partition_nonempty texels pi p) ∧
  (partition_count pi < 4 →
   ¬ partition_nonempty texels pi (partition_count pi)).
Proof.
  intros Hx Hy Hz pi texels.
  destruct (generate_entry_fields bsd partition_count0 partition_index pi0
              Hx Hy Hz) as (st & Hst & Hpot & Hpc).
  fold pi in Hpot, Hpc. fold texels in Hst.
  destruct Hst as (_ & _ & _ & Hnn & Hiff).
  assert (Hne : ∀ p, partition_nonempty texels pi p ↔ rd (counts st) p ≠ 0).
  { intros p. unfold partition_nonempty. rewrite Hpot.
    specialize (Hiff p). specialize (Hnn p).
    unfold partition_nonempty in Hiff. rewrite <- Hiff. lia. }
  rewrite Hpc.
  destruct (Z.eqb_spec (rd (counts st) 0) 0) as [H0|H0];
    [|destruct (Z.eqb_spec (rd (counts st) 1) 0) as [H1|H1];
      [|destruct (Z.eqb_spec (rd (counts st) 2) 0) as [H2|H2];
        [|destruct (Z.eqb_spec (rd (counts st) 3) 0) as [H3|H3]]]].
  all: split; [lia|]; split.
  all: try (intros p Hp; apply Hne;
            assert (Hcase : p = 0 ∨ p = 1 ∨ p = 2 ∨ p = 3) by lia;
            destruct Hcase as [-> | [-> | [-> | ->]]]; (assumption || lia)).
  all: try (intros _; rewrite Hne; lia).
  intros Hlt. lia.
Qed.
End PartitionInfo.

(** ** Canonical patterns and the removal of duplicates *)

(** Word [k] of the canonical pattern of an assignment, and the pattern:
    what [generate_canonical_partitioning] writes to a fresh output. *)
Definition canonical_word (texel_count : Z) (pot : gmap Z Z) (k : Z) : Z :=
  rd (generate_canonical_partitioning texel_count pot 0 ∅) k.

Definition canonical_pattern (texel_count : Z) (pot : gmap Z Z) : list Z :=
  map (canonical_word texel_count pot) (seqZ 0 7).

(** Two runs of the canonicalization loop on the same assignment, writing
    at different offsets, agree on the seven words of their windows. *)
Definition canon_sim (off : Z) (st st' : canon_state) : Prop :=
  mapped_index st = mapped_index st' ∧
  map_weight_count st = map_weight_count st' ∧
  ∀ k, 0 ≤ k < 7 → rd (bit_pattern st) (off + k) = rd (bit_pattern st') (0 + k).

Lemma canon_step_sim (off : Z) (pot : gmap Z Z) (i : Z) (st st' : canon_state) :
  canon_sim off st st' →
  canon_sim off (canon_step off pot i st) (canon_step 0 pot i st').
Proof.
  intros (Hmi & Hc & Hbp). unfold canon_step. rewrite Hmi, Hc.
  set (index := rd pot i).
  destruct (rd (mapped_index st') index =? -1); unfold canon_sim; simpl;
    (split; [congruence|]); (split; [congruence|]); intros k Hk;
    (destruct (decide (k = Z.shiftr i 5)) as [->|Hne];
     [ rewrite !rd_insert_eq; rewrite Hbp by exact Hk; congruence
     | rewrite !rd_insert_ne by lia; apply Hbp; exact Hk ]).
Qed.

Lemma clear_pattern_zero (off : Z) (bp : gmap Z Z) (k : Z) :
  0 ≤ k < 7 →
  rd (for_loop 0 7 (λ i bp, <[off + i := 0]> bp) bp) (off + k) = 0.
Proof.
  intros Hk.
  apply (for_loop_ind
           (λ n (m : gmap Z Z), ∀ k, 0 ≤ k < n → rd m (off + k) = 0));
    [lia| | |exact Hk].
  - intros k' Hk'. lia.
  - intros i m Hi IH k' Hk'. destruct (decide (k' = i)) as [->|Hne].
    + apply rd_insert_eq.
    + rewrite rd_insert_ne by lia. apply IH. lia.
Qed.

Lemma clear_pattern_frame (off : Z) (bp : gmap Z Z) (c : Z) :
  c < off ∨ off + 7 ≤ c →
  for_loop 0 7 (λ i bp, <[off + i := 0]> bp) bp !! c = bp !! c.
Proof.
  intros Hc.
  apply (for_loop_preserves (λ m : gmap Z Z, m !! c = bp !! c));
    [reflexivity|].
  intros i m Hi Hm. rewrite lookup_insert_ne by lia. exact Hm.
Qed.

(** The words written at offset [off] are the canonical pattern. *)
Lemma generate_canonical_partitioning_window
    (texel_count : Z) (pot : gmap Z Z) (off : Z) (bp : gmap Z Z) (k : Z) :
  0 ≤ k < 7 →
  rd (generate_canonical_partitioning texel_count pot off bp) (off + k)
    = canonical_word texel_count pot k.
Proof.
  intros Hk. unfold canonical_word, generate_canonical_partitioning.
  cbv zeta.
  set (mi := for_loop 0 4 _ _).
  set (s0 := mk_canon_state (for_loop 0 7 _ bp) mi 0).
  set (s0' := mk_canon_state (for_loop 0 7 _ ∅) mi 0).
  assert (Hsim : canon_sim off
            (for_loop 0 texel_count (canon_step off pot) s0)
            (for_loop 0 texel_count (canon_step 0 pot) s0')).
  { assert (H0 : canon_sim off s0 s0').
    { split; [reflexivity|]. split; [reflexivity|]. intros k' Hk'.
      subst s0 s0'. simpl.
      rewrite clear_pattern_zero by exact Hk'.
      rewrite (clear_pattern_zero 0) by exact Hk'. reflexivity. }
    destruct (Z_le_gt_dec 0 texel_count) as [Hle|Hgt].
    - apply (for_loop_ind
               (λ n st, canon_sim off st (for_loop 0 n (canon_step 0 pot) s0')));
        [exact Hle| |].
      + rewrite for_loop_empty by lia. exact H0.
      + intros i st Hi IH. rewrite for_loop_last by lia.
        apply canon_step_sim. exact IH.
    - rewrite !for_loop_empty by lia. exact H0. }
  destruct Hsim as (_ & _ & Hbp). rewrite Hbp by exact Hk.
  rewrite Z.add_0_l. reflexivity.
Qed.

(** With at most 224 texels nothing outside the window is written. *)
Lemma generate_canonical_partitioning_frame
    (texel_count : Z) (pot : gmap Z Z) (off : Z) (bp : gmap Z Z) (c : Z) :
  texel_count ≤ 224 →
  c < off ∨ off + 7 ≤ c →
  generate_canonical_partitioning texel_count pot off bp !! c = bp !! c.
Proof.
  intros Htc Hc. unfold generate_canonical_partitioning. cbv zeta.
  apply (for_loop_preserves (λ st, bit_pattern st !! c = bp !! c)).
  - simpl. apply clear_pattern_frame. exact Hc.
  - intros i st Hi Hst. unfold canon_step.
    assert (Hsh : 0 ≤ Z.shiftr i 5 < 7).
    { rewrite Z.shiftr_div_pow2 by lia. change (2 ^ 5) with 32.
      split; [apply Z.div_pos; lia | apply Z.div_lt_upper_bound; lia]. }
    destruct (rd (mapped_index st) (rd pot i) =? -1); simpl;
      rewrite lookup_insert_ne by lia; exact Hst.
Qed.

Lemma compare_canonical_partitionings_true
    (bp : gmap Z Z) (part1 part2 : Z) :
  compare_canonical_partitionings bp part1 part2 = true ↔
  ∀ k, 0 ≤ k < 7 → rd bp (part1 + k) = rd bp (part2 + k).
Proof.
  unfold compare_canonical_partitionings.
  rewrite !andb_true_iff, !Z.eqb_eq. split.
  - intros [[[[[[H0 H1] H2] H3] H4] H5] H6] k Hk.
    assert (Hc : k = 0 ∨ k = 1 ∨ k = 2 ∨ k = 3 ∨ k = 4 ∨ k = 5 ∨ k = 6)
      by lia.
    destruct Hc as [-> | [-> | [-> | [-> | [-> | [-> | ->]]]]]]; assumption.
  - intros H. repeat split; apply H; lia.
Qed.

Lemma canonical_pattern_eq (texel_count : Z) (pot1 pot2 : gmap Z Z) :
  canonical_pattern texel_count pot1 = canonical_pattern texel_count pot2 ↔
  ∀ k, 0 ≤ k < 7 →
    canonical_word texel_count pot1 k = canonical_word texel_count pot2 k.
Proof.
  unfold canonical_pattern. change (seqZ 0 7) with [0; 1; 2; 3; 4; 5; 6].
  simpl. split.
  - intros Heq k Hk. injection Heq as H0 H1 H2 H3 H4 H5 H6.
    assert (Hc : k = 0 ∨ k = 1 ∨ k = 2 ∨ k = 3 ∨ k = 4 ∨ k = 5 ∨ k = 6)
      by lia.
    destruct Hc as [-> | [-> | [-> | [-> | [-> | [-> | ->]]]]]]; assumption.
  - intros H. rewrite !(H _) by lia. reflexivity.
Qed.

(** The table of patterns [remove_duplicate_partitionings] builds first. *)
Lemma bit_patterns_canonical (texel_count base : Z)
    (pts : gmap Z partition_info) (i k : Z) :
  texel_count ≤ 224 →
  0 ≤ i < PARTITION_COUNT → 0 ≤ k < 7 →
  rd (for_loop 0 PARTITION_COUNT
        (λ i bp,
           generate_canonical_partitioning texel_count
             (partition_of_texel (pt_entry pts base i)) (i * 7) bp) ∅)
     (7 * i + k)
  = canonical_word texel_count (partition_of_texel (pt_entry pts base i)) k.
Proof.
  intros Htc Hi Hk.
  apply (for_loop_ind
           (λ n (bp : gmap Z Z), ∀ i k, 0 ≤ i < n → 0 ≤ k < 7 →
              rd bp (7 * i + k)
              = canonical_word texel_count
                  (partition_of_texel (pt_entry pts base i)) k));
    [unfold PARTITION_COUNT; lia| | |exact Hi|exact Hk].
  - intros i' k' Hi'. lia.
  - intros n bp Hn IH i' k' Hi' Hk'.
    destruct (decide (i' = n)) as [->|Hne].
    + replace (7 * n + k') with (n * 7 + k') by lia.
      apply generate_canonical_partitioning_window. exact Hk'.
    + unfold rd. rewrite generate_canonical_partitioning_frame by lia.
      apply IH; lia.
Qed.

Lemma remove_duplicate_scan_cases (bp : gmap Z Z) (base i : Z)
    (js : list Z) (pts : gmap Z partition_info) :
  (remove_duplicate_scan bp base i js pts = pts ∧
   ∀ j, j ∈ js → compare_canonical_partitionings bp (7 * i) (7 * j) = false)
  ∨
  (remove_duplicate_scan bp base i js pts
     = <[base + i := set_partition_count 0 (pt_entry pts base i)]> pts).
Proof.
  induction js as [|j js IH]; simpl.
  - left. split; [reflexivity|]. intros j Hj. inversion Hj.
  - destruct (compare_canonical_partitionings bp (7 * i) (7 * j)) eqn:Hcmp.
    + right. reflexivity.
    + destruct IH as [[Heq Hall]|Heq].
      * left. split; [exact Heq|]. intros j' Hj'.
        apply elem_of_cons in Hj' as [->|Hj']; [exact Hcmp|]. apply Hall, Hj'.
      * right. exact Heq.
Qed.

Lemma pt_entry_insert_eq (pts : gmap Z partition_info) (base i : Z)
    (pi : partition_info) :
  pt_entry (<[base + i := pi]> pts) base i = pi.
Proof. unfold pt_entry. rewrite lookup_insert_eq. reflexivity. Qed.

Lemma pt_entry_insert_ne (pts : gmap Z partition_info) (base i idx : Z)
    (pi : partition_info) :
  idx ≠ base + i →
  pt_entry (<[idx := pi]> pts) base i = pt_entry pts base i.
Proof.
  intros Hne. unfold pt_entry. rewrite lookup_insert_ne by exact Hne.
  reflexivity.
Qed.

(** What the second loop of [remove_duplicate_partitionings] leaves: the
    cells outside the table and every assignment are as before, and an
    entry some earlier entry compares equal to has count 0. *)
Lemma remove_duplicates_loop (bp : gmap Z Z) (base : Z)
    (pts : gmap Z partition_info) :
  let pts' :=
    for_loop 0 PARTITION_COUNT
      (λ i pts, remove_duplicate_scan bp base i (seqZ 0 i) pts) pts in
  (∀ idx, idx < base ∨ base + PARTITION_COUNT ≤ idx → pts' !! idx = pts !! idx)
  ∧ (∀ i, partition_of_texel (pt_entry pts' base i)
          = partition_of_texel (pt_entry pts base i))
  ∧ (∀ i j, 0 ≤ j < i → i < PARTITION_COUNT →
       compare_canonical_partitionings bp (7 * i) (7 * j) = true →
       partition_count (pt_entry pts' base i) = 0).
Proof.
  cbv zeta.
  apply (for_loop_ind
    (λ n pts',
       (∀ idx, idx < base ∨ base + n ≤ idx → pts' !! idx = pts !! idx)
       ∧ (∀ i, partition_of_texel (pt_entry pts' base i)
               = partition_of_texel (pt_entry pts base i))
       ∧ (∀ i j, 0 ≤ j < i → i < n →
            compare_canonical_partitionings bp (7 * i) (7 * j) = true →
            partition_count (pt_entry pts' base i) = 0)));
    [unfold PARTITION_COUNT; lia| |].
  - split; [reflexivity|]. split; [reflexivity|]. intros i j Hj Hi. lia.
  - intros n pts' Hn (Hframe & Hpot & Hdup).
    destruct (remove_duplicate_scan_cases bp base n (seqZ 0 n) pts')
      as [[-> Hall]| ->].
    + split; [intros idx Hidx; apply Hframe; lia|]. split; [exact Hpot|].
      intros i j Hj Hi Hcmp. destruct (decide (i = n)) as [->|Hne].
      * rewrite Hall in Hcmp; [discriminate|]. apply elem_of_seqZ. lia.
      * apply (Hdup i j); [lia|lia|exact Hcmp].
    + split; [|split].
      * intros idx Hidx. rewrite lookup_insert_ne by lia. apply Hframe. lia.
      * intros i. destruct (decide (i = n)) as [->|Hne].
        -- rewrite pt_entry_insert_eq. simpl. apply Hpot.
        -- rewrite pt_entry_insert_ne by lia. apply Hpot.
      * intros i j Hj Hi Hcmp. destruct (decide (i = n)) as [->|Hne].
        -- rewrite pt_entry_insert_eq. reflexivity.
        -- rewrite pt_entry_insert_ne by lia.
           apply (Hdup i j); [lia|lia|exact Hcmp].
Qed.

(** Within the table at [base], two distinct entries with equal canonical
    patterns are not both in use. *)
Definition duplicates_removed (texel_count : Z)
    (pts : gmap Z partition_info) (base : Z) : Prop :=
  ∀ i j, 0 ≤ i < PARTITION_COUNT → 0 ≤ j < PARTITION_COUNT → i ≠ j →
    canonical_pattern texel_count (partition_of_texel (pt_entry pts base i))
    = canonical_pattern texel_count (partition_of_texel (pt_entry pts base j)) →
    partition_count (pt_entry pts base i) = 0 ∨
    partition_count (pt_entry pts base j) = 0.

Lemma remove_duplicate_partitionings_spec (texel_count base : Z)
    (pts : gmap Z partition_info) :
  texel_count ≤ 224 →
  let pts' := remove_duplicate_partitionings texel_count base pts in
  (∀ idx, idx < base ∨ base + PARTITION_COUNT ≤ idx → pts' !! idx = pts !! idx)
  ∧ (∀ i, partition_of_texel (pt_entry pts' base i)
          = partition_of_texel (pt_entry pts base i))
  ∧ duplicates_removed texel_count pts' base.
Proof.
  intros Htc pts'. subst pts'. unfold remove_duplicate_partitionings.
  cbv zeta. set (bp := for_loop 0 PARTITION_COUNT _ ∅).
  destruct (remove_duplicates_loop bp base pts) as (Hframe & Hpot & Hdup).
  split; [exact Hframe|]. split; [exact Hpot|].
  assert (Hlt : ∀ i j, 0 ≤ j < i → i < PARTITION_COUNT →
            canonical_pattern texel_count
              (partition_of_texel (pt_entry pts base i))
            = canonical_pattern texel_count
                (partition_of_texel (pt_entry pts base j)) →
            partition_count
              (pt_entry
                 (for_loop 0 PARTITION_COUNT
                    (λ i pts, remove_duplicate_scan bp base i (seqZ 0 i) pts)
                    pts) base i) = 0).
  { intros i j Hj Hi Heq. apply (Hdup i j Hj Hi).
    apply compare_canonical_partitionings_true. intros k Hk.
    subst bp. rewrite !bit_patterns_canonical by lia.
    apply canonical_pattern_eq; assumption. }
  intros i j Hi Hj Hne. rewrite !Hpot. intros Heq.
  destruct (Z.lt_total i j) as [Hij|[Hij|Hij]]; [|lia|].
  - right. apply (Hlt j i); [lia|lia|]. symmetry. exact Heq.
  - left. apply (Hlt i j); [lia|lia|exact Heq].
Qed.

Lemma duplicates_removed_frame (texel_count base : Z)
    (pts pts' : gmap Z partition_info) :
  (∀ i, 0 ≤ i < PARTITION_COUNT → pts' !! (base + i) = pts !! (base + i)) →
  duplicates_removed texel_count pts base →
  duplicates_removed texel_count pts' base.
Proof.
  intros Hsame Hdup i j Hi Hj Hne. unfold pt_entry.
  rewrite !Hsame by assumption. apply Hdup; assumption.
Qed.

Section InitPartitionTables.
Variable round_up_to_simd_multiple_vla : Z → Z.

(** C4. After [init_partition_tables], in each of the tables for 2, 3 and
    4 partitions two distinct entries with equal canonical patterns are
    never both in use (one of them has partition count 0); the entry for
    one partition is left as it was generated. *)
Theorem init_partition_tables_deduplicated (bsd : block_size_descriptor) :
  texel_count bsd ≤ MAX_TEXELS_PER_BLOCK →
  let bsd' := init_partition_tables round_up_to_simd_multiple_vla bsd in
  duplicates_removed (texel_count bsd) (partitions bsd') par_tab2 ∧
  duplicates_removed (texel_count bsd) (partitions bsd') par_tab3 ∧
  duplicates_removed (texel_count bsd) (partitions bsd') par_tab4 ∧
  partitions bsd' !! par_tab1 =
    Some (generate_one_partition_info_entry round_up_to_simd_multiple_vla
            bsd 1 0 (pt_entry (partitions bsd) par_tab1 0)).
Proof.
  intros Htc bsd'. subst bsd'. unfold init_partition_tables. cbv zeta.
  unfold MAX_TEXELS_PER_BLOCK in Htc.
  set (pts1 := generate_entry_at _ bsd 1 0 par_tab1 0 (partitions bsd)).
  set (pts1' := for_loop 0 1024 _ pts1).
  unfold set_partitions. cbn [partitions].
  assert (Htc' : texel_count bsd ≤ 224) by lia.
  destruct (remove_duplicate_partitionings_spec (texel_count bsd) par_tab2
              pts1' Htc') as (Hf2 & _ & Hd2).
  set (pts2 := remove_duplicate_partitionings _ par_tab2 pts1') in *.
  destruct (remove_duplicate_partitionings_spec (texel_count bsd) par_tab3
              pts2 Htc') as (Hf3 & _ & Hd3).
  set (pts3 := remove_duplicate_partitionings _ par_tab3 pts2) in *.
  destruct (remove_duplicate_partitionings_spec (texel_count bsd) par_tab4
              pts3 Htc') as (Hf4 & _ & Hd4).
  set (pts4 := remove_duplicate_partitionings _ par_tab4 pts3) in *.
  clearbody pts4 pts3 pts2.
  assert (Hb2 : par_tab2 = 0) by reflexivity.
  assert (Hb3 : par_tab3 = 1024) by reflexivity.
  assert (Hb4 : par_tab4 = 2048) by reflexivity.
  assert (Hb1 : par_tab1 = 3072) by reflexivity.
  assert (Hpc : PARTITION_COUNT = 1024) by reflexivity.
  split; [|split; [|split]].
  - apply (duplicates_removed_frame _ _ pts2); [|exact Hd2].
    intros i Hi. rewrite Hf4 by lia. apply Hf3. lia.
  - apply (duplicates_removed_frame _ _ pts3); [|exact Hd3].
    intros i Hi. apply Hf4. lia.
  - exact Hd4.
  - rewrite Hf4 by lia. rewrite Hf3 by lia. rewrite Hf2 by lia.
    assert (Hloop : pts1' !! par_tab1 = pts1 !! par_tab1).
    { subst pts1'. clearbody pts1.
      apply (for_loop_preserves
               (λ pts : gmap Z partition_info,
                  pts !! par_tab1 = pts1 !! par_tab1));
        [reflexivity|].
      intros i pts Hi Hpts. unfold generate_entry_at.
      rewrite !lookup_insert_ne by lia. exact Hpts. }
    rewrite Hloop. subst pts1. unfold generate_entry_at.
    replace (par_tab1 + 0) with par_tab1 by lia.
    rewrite lookup_insert_eq. reflexivity.
Qed.
End InitPartitionTables.

(** ** The packed block modes *)

(** The block-mode arrays of a descriptor after the first [n] mode ids
    have been visited and [packed] of them accepted, for a predicate
    [discarded] on mode ids: the accepted modes are packed in order and
    point back at their slots, the discarded ones are marked [-1]. *)
Definition modes_packed (discarded : Z → bool) (n packed : Z)
    (bsd : block_size_descriptor) : Prop :=
  0 ≤ packed ≤ n ∧
  (∀ k, 0 ≤ k < packed →
     ∃ bm, block_modes bsd !! k = Some bm ∧ 0 ≤ mode_index bm < n ∧
           discarded (mode_index bm) = false ∧
           block_mode_packed_index bsd !! mode_index bm = Some k) ∧
  (∀ m, 0 ≤ m < n → discarded m = true →
     block_mode_packed_index bsd !! m = Some (-1)) ∧
  (∀ m, 0 ≤ m < n → discarded m = false →
     ∃ k bm, 0 ≤ k < packed ∧ block_mode_packed_index bsd !! m = Some k ∧
             block_modes bsd !! k = Some bm ∧ mode_index bm = m).

(** Two descriptors with the same block-mode arrays. *)
Definition same_block_modes (bsd bsd' : block_size_descriptor) : Prop :=
  block_modes bsd' = block_modes bsd ∧
  block_mode_packed_index bsd' = block_mode_packed_index bsd ∧
  block_mode_count bsd' = block_mode_count bsd.

Lemma modes_packed_same (discarded : Z → bool) (n packed : Z)
    (bsd bsd' : block_size_descriptor) :
  block_modes bsd' = block_modes bsd ∧
  block_mode_packed_index bsd' = block_mode_packed_index bsd →
  modes_packed discarded n packed bsd → modes_packed discarded n packed bsd'.
Proof.
  intros [Hbm Hpi]. unfold modes_packed. rewrite Hbm, Hpi. tauto.
Qed.

Lemma same_block_modes_refl (bsd : block_size_descriptor) :
  same_block_modes bsd bsd.
Proof. repeat split; reflexivity. Qed.

Lemma same_block_modes_trans (b1 b2 b3 : block_size_descriptor) :
  same_block_modes b1 b2 → same_block_modes b2 b3 → same_block_modes b1 b3.
Proof.
  intros (H1 & H2 & H3) (H4 & H5 & H6). repeat split; congruence.
Qed.

(** A mode that is discarded. *)
Lemma modes_packed_discard (discarded : Z → bool) (n packed : Z)
    (bsd : block_size_descriptor) :
  discarded n = true →
  modes_packed discarded n packed bsd →
  modes_packed discarded (n + 1) packed
    (set_block_mode_packed_index
       (<[n := -1]> (block_mode_packed_index bsd)) bsd).
Proof.
  intros Hd (Hp & Hacc & Hdis & Hall). unfold modes_packed. stores.
  split; [lia|]. split; [|split].
  - intros k Hk. destruct (Hacc k Hk) as (bm & Hbm & Hmi & Hnd & Hpi).
    exists bm. split; [exact Hbm|]. split; [lia|]. split; [exact Hnd|].
    rewrite lookup_insert_ne by lia. exact Hpi.
  - intros m Hm Hdm. destruct (decide (m = n)) as [->|Hne].
    + apply lookup_insert_eq.
    + rewrite lookup_insert_ne by lia. apply Hdis; [lia|exact Hdm].
  - intros m Hm Hdm. destruct (decide (m = n)) as [->|Hne]; [congruence|].
    destruct (Hall m) as (k & bm & Hk & Hpi & Hbm & Hmi); [lia|exact Hdm|].
    exists k, bm. split; [exact Hk|]. split; [|split; assumption].
    rewrite lookup_insert_ne by lia. exact Hpi.
Qed.

(** A mode that is accepted into slot [packed]. *)
Lemma modes_packed_accept (discarded : Z → bool) (n packed : Z)
    (bsd : block_size_descriptor) (bm : block_mode) :
  discarded n = false →
  mode_index bm = n →
  modes_packed discarded n packed bsd →
  modes_packed discarded (n + 1) (packed + 1)
    (set_block_mode_packed_index
       (<[n := packed]> (block_mode_packed_index bsd))
       (set_block_modes (<[packed := bm]> (block_modes bsd)) bsd)).
Proof.
  intros Hd Hbmn (Hp & Hacc & Hdis & Hall). unfold modes_packed. stores.
  split; [lia|]. split; [|split].
  - intros k Hk. destruct (decide (k = packed)) as [->|Hne].
    + exists bm. rewrite lookup_insert_eq. split; [reflexivity|].
      rewrite Hbmn. split; [lia|]. split; [exact Hd|]. apply lookup_insert_eq.
    + destruct (Hacc k) as (bm' & Hbm & Hmi & Hnd & Hpi); [lia|].
      exists bm'. rewrite lookup_insert_ne by lia. split; [exact Hbm|].
      split; [lia|]. split; [exact Hnd|].
      rewrite lookup_insert_ne by lia. exact Hpi.
  - intros m Hm Hdm. destruct (decide (m = n)) as [->|Hne]; [congruence|].
    rewrite lookup_insert_ne by lia. apply Hdis; [lia|exact Hdm].
  - intros m Hm Hdm. destruct (decide (m = n)) as [->|Hne].
    + exists packed, bm. split; [lia|]. rewrite !lookup_insert_eq. tauto.
    + destruct (Hall m) as (k & bm' & Hk & Hpi & Hbm & Hmi); [lia|exact Hdm|].
      exists k, bm'. split; [lia|]. rewrite !lookup_insert_ne by lia. tauto.
Qed.

Lemma modes_packed_discard_ext (discarded : Z → bool) (n packed : Z)
    (bsd bsd' : block_size_descriptor) :
  discarded n = true →
  block_modes bsd' = block_modes bsd →
  block_mode_packed_index bsd' = <[n := -1]> (block_mode_packed_index bsd) →
  modes_packed discarded n packed bsd →
  modes_packed discarded (n + 1) packed bsd'.
Proof.
  intros Hd Hbm Hpi Hinv.
  apply (modes_packed_same _ _ _
           (set_block_mode_packed_index
              (<[n := -1]> (block_mode_packed_index bsd)) bsd)).
  - split; [rewrite Hbm|rewrite Hpi]; reflexivity.
  - apply modes_packed_discard; assumption.
Qed.

Lemma modes_packed_accept_ext (discarded : Z → bool) (n packed : Z)
    (bsd bsd' : block_size_descriptor) (bm : block_mode) :
  discarded n = false →
  mode_index bm = n →
  block_modes bsd' = <[packed := bm]> (block_modes bsd) →
  block_mode_packed_index bsd' = <[n := packed]> (block_mode_packed_index bsd) →
  modes_packed discarded n packed bsd →
  modes_packed discarded (n + 1) (packed + 1) bsd'.
Proof.
  intros Hd Hmi Hbm Hpi Hinv.
  apply (modes_packed_same _ _ _
           (set_block_mode_packed_index
              (<[n := packed]> (block_mode_packed_index bsd))
              (set_block_modes (<[packed := bm]> (block_modes bsd)) bsd))).
  - split; [rewrite Hbm|rewrite Hpi]; reflexivity.
  - apply modes_packed_accept; assumption.
Qed.

(** How the stores of the assemblers act on the block-mode arrays. *)
Lemma block_modes_update_block_mode (k : Z) (f : block_mode → block_mode)
    (bsd : block_size_descriptor) :
  block_modes (update_block_mode k f bsd)
    = <[k := f (bm_entry bsd k)]> (block_modes bsd).
Proof. reflexivity. Qed.

Lemma packed_index_update_block_mode (k : Z) (f : block_mode → block_mode)
    (bsd : block_size_descriptor) :
  block_mode_packed_index (update_block_mode k f bsd)
    = block_mode_packed_index bsd.
Proof. reflexivity. Qed.

Lemma block_modes_update_decimation_mode (k : Z)
    (f : decimation_mode_t → decimation_mode_t) (bsd : block_size_descriptor) :
  block_modes (update_decimation_mode k f bsd) = block_modes bsd.
Proof. reflexivity. Qed.

Lemma packed_index_update_decimation_mode (k : Z)
    (f : decimation_mode_t → decimation_mode_t) (bsd : block_size_descriptor) :
  block_mode_packed_index (update_decimation_mode k f bsd)
    = block_mode_packed_index bsd.
Proof. reflexivity. Qed.

Lemma block_modes_set_packed_index (v : gmap Z Z)
    (bsd : block_size_descriptor) :
  block_modes (set_block_mode_packed_index v bsd) = block_modes bsd.
Proof. reflexivity. Qed.

Lemma packed_index_set_packed_index (v : gmap Z Z)
    (bsd : block_size_descriptor) :
  block_mode_packed_index (set_block_mode_packed_index v bsd) = v.
Proof. reflexivity. Qed.

Lemma bm_entry_update_block_mode (k : Z) (f : block_mode → block_mode)
    (bsd : block_size_descriptor) :
  bm_entry (update_block_mode k f bsd) k = f (bm_entry bsd k).
Proof.
  unfold bm_entry at 1. rewrite block_modes_update_block_mode.
  rewrite lookup_insert_eq. reflexivity.
Qed.

Create Rewrite HintDb block_mode_stores.
#[global] Hint Rewrite block_modes_update_block_mode
  packed_index_update_block_mode block_modes_update_decimation_mode
  packed_index_update_decimation_mode block_modes_set_packed_index
  packed_index_set_packed_index : block_mode_stores.

#[global] Opaque update_block_mode update_decimation_mode.

Section BlockModes.
Variable get_ise_sequence_bitcount : Z → Z → Z.
Variable round_up_to_simd_multiple_vla : Z → Z.
Variable MAX_DECIMATION_MODES : Z.
Variable decompress_only : bool.
Variable float : Type.
Variable float_le : float → float → bool.
Variable float_is_zero : float → bool.
Variable get_2d_percentile_table : Z → Z → Z → float.
Variable rand_draws : list Z.

(** The modes the 2D assembler skips: invalid, not selected by the
    percentile heuristic, or with a grid larger than the block. *)
Definition discarded_2d (x_texels y_texels : Z) (can_omit_modes : bool)
    (mode_cutoff : float) (i : Z) : bool :=
  let '(valid, m) :=
    decode_block_mode_2d get_ise_sequence_bitcount i unwritten_mode_params in
  negb valid
  || negb (mode_selected decompress_only float float_le
             get_2d_percentile_table x_texels y_texels can_omit_modes
             mode_cutoff i)
  || (x_texels <? x_weights m) || (y_texels <? y_weights m).

(** The modes the 3D assembler skips: invalid, or with a grid larger
    than the block. *)
Definition discarded_3d (x_texels y_texels z_texels : Z) (i : Z) : bool :=
  negb (permit_encode_3d get_ise_sequence_bitcount x_texels y_texels
          z_texels i).

(** The modes [init_block_size_descriptor] discards. *)
Definition discarded (x_texels y_texels z_texels : Z)
    (can_omit_modes : bool) (mode_cutoff : float) (i : Z) : bool :=
  if 1 <? z_texels then discarded_3d x_texels y_texels z_texels i
  else discarded_2d x_texels y_texels can_omit_modes mode_cutoff i.

Lemma construct_dt_entry_2d_same (x_texels y_texels x_weights y_weights : Z)
    (bsd : block_size_descriptor) :
  same_block_modes bsd
    (construct_dt_entry_2d get_ise_sequence_bitcount
       round_up_to_simd_multiple_vla x_texels y_texels x_weights y_weights
       bsd).2.
Proof.
  unfold construct_dt_entry_2d. cbv zeta.
  destruct (for_loop 0 12 _ _) as [m1 m2]. repeat split; reflexivity.
Qed.

Lemma block_mode_step_2d_packed (x_texels y_texels : Z)
    (can_omit_modes : bool) (mode_cutoff : float) (n : Z) (st : asm_state) :
  modes_packed (discarded_2d x_texels y_texels can_omit_modes mode_cutoff)
    n (packed_idx st) (asm_bsd st) →
  let st' :=
    block_mode_step_2d get_ise_sequence_bitcount
      round_up_to_simd_multiple_vla decompress_only float float_le
      float_is_zero get_2d_percentile_table x_texels y_texels
      can_omit_modes mode_cutoff n st in
  modes_packed (discarded_2d x_texels y_texels can_omit_modes mode_cutoff)
    (n + 1) (packed_idx st') (asm_bsd st').
Proof.
  intros Hinv. cbv zeta. unfold block_mode_step_2d.
  pose proof (eq_refl (discarded_2d x_texels y_texels can_omit_modes
                         mode_cutoff n)) as Hd.
  unfold discarded_2d at 2 in Hd.
  destruct (decode_block_mode_2d get_ise_sequence_bitcount n
              unwritten_mode_params) as [valid m].
  cbv zeta.
  destruct (negb valid || _ || _ || _) eqn:Hskip.
  - cbn [packed_idx asm_bsd].
    apply (modes_packed_discard_ext _ _ _ (asm_bsd st));
      [exact Hd|reflexivity|reflexivity|exact Hinv].
  - set (key := y_weights m * 16 + x_weights m).
    pose proof (construct_dt_entry_2d_same x_texels y_texels (x_weights m)
                  (y_weights m) (asm_bsd st)) as (Hs1 & Hs2 & _).
    destruct (construct_dt_entry_2d _ _ _ _ _ _ (asm_bsd st))
      as [dm bsd1].
    cbn [snd] in Hs1, Hs2.
    destruct (rd (decimation_mode_index st) key =? -1);
      destruct decompress_only; [| | |];
      try destruct (float_is_zero _); try destruct (float_le _ mode_cutoff);
      cbn [packed_idx asm_bsd];
      (eapply modes_packed_accept_ext;
       [exact Hd| | | |exact Hinv];
       [ |autorewrite with block_mode_stores;
          rewrite ?insert_insert_eq, ?Hs1; reflexivity
        |autorewrite with block_mode_stores;
          rewrite ?Hs2; reflexivity]; reflexivity).
Qed.

Lemma block_mode_step_3d_packed (x_texels y_texels z_texels : Z) (n : Z)
    (st : asm_state) :
  modes_packed (discarded_3d x_texels y_texels z_texels)
    n (packed_idx st) (asm_bsd st) →
  let st' :=
    block_mode_step_3d get_ise_sequence_bitcount x_texels y_texels z_texels
      n st in
  modes_packed (discarded_3d x_texels y_texels z_texels)
    (n + 1) (packed_idx st') (asm_bsd st').
Proof.
  intros Hinv. cbv zeta. unfold block_mode_step_3d.
  pose proof (eq_refl (discarded_3d x_texels y_texels z_texels n)) as Hd.
  unfold discarded_3d at 2 in Hd. unfold permit_encode_3d in Hd.
  destruct (decode_block_mode_3d get_ise_sequence_bitcount n
              unwritten_mode_params) as [ok m].
  cbv zeta.
  match type of Hd with
  | _ = negb ?p => destruct p eqn:Hp
  end; cbn [negb] in *; cbn [packed_idx asm_bsd].
  - eapply modes_packed_accept_ext; [exact Hd| | | |exact Hinv];
      [ |autorewrite with block_mode_stores;
         rewrite ?insert_insert_eq; reflexivity
       |autorewrite with block_mode_stores;
         rewrite ?insert_insert_eq; reflexivity].
    rewrite bm_entry_update_block_mode. reflexivity.
  - apply (modes_packed_discard_ext _ _ _ (asm_bsd st));
      [exact Hd|reflexivity|reflexivity|exact Hinv].
Qed.

Lemma clear_unused_decimation_modes_same (first : Z)
    (bsd : block_size_descriptor) :
  same_block_modes bsd
    (clear_unused_decimation_modes MAX_DECIMATION_MODES first bsd).
Proof.
  unfold clear_unused_decimation_modes.
  apply (for_loop_preserves (same_block_modes bsd)).
  - apply same_block_modes_refl.
  - intros i bsd' _ (H1 & H2 & H3). repeat split; assumption.
Qed.

Lemma assign_kmeans_texels_same (bsd : block_size_descriptor) :
  same_block_modes bsd (assign_kmeans_texels rand_draws bsd).
Proof.
  unfold assign_kmeans_texels.
  destruct (texel_count bsd <=? MAX_KMEANS_TEXELS).
  - repeat split; reflexivity.
  - destruct (fold_left _ _ _) as [[seen n] km]. repeat split; reflexivity.
Qed.

Lemma init_partition_tables_same (bsd : block_size_descriptor) :
  same_block_modes bsd
    (init_partition_tables round_up_to_simd_multiple_vla bsd).
Proof. unfold init_partition_tables. repeat split; reflexivity. Qed.
End BlockModes.

Section Assembler.
Variable get_ise_sequence_bitcount : Z → Z → Z.
Variable round_up_to_simd_multiple_vla : Z → Z.
Variable MAX_DECIMATION_MODES : Z.
Variable decompress_only : bool.
Variable float : Type.
Variable float_le : float → float → bool.
Variable float_is_zero : float → bool.
Variable get_2d_percentile_table : Z → Z → Z → float.
Variable rand_draws : list Z.

Abbreviation init_bsd :=
  (init_block_size_descriptor get_ise_sequence_bitcount
     round_up_to_simd_multiple_vla MAX_DECIMATION_MODES decompress_only
     float float_le float_is_zero get_2d_percentile_table rand_draws).
Abbreviation mode_discarded :=
  (discarded get_ise_sequence_bitcount decompress_only float float_le
     get_2d_percentile_table).

Lemma modes_packed_start (disc : Z → bool) (bsd : block_size_descriptor) :
  modes_packed disc 0 0 bsd.
Proof.
  unfold modes_packed. split; [lia|].
  split; [|split]; intros k Hk; lia.
Qed.

Lemma modes_packed_finish (disc : Z → bool) (st : asm_state)
    (bsd' : block_size_descriptor) :
  modes_packed disc MAX_WEIGHT_MODES (packed_idx st) (asm_bsd st) →
  same_block_modes (set_block_mode_count (packed_idx st) (asm_bsd st)) bsd' →
  modes_packed disc MAX_WEIGHT_MODES (block_mode_count bsd') bsd'.
Proof.
  intros Hinv (Hbm & Hpi & Hcnt). rewrite Hcnt. cbn [set_block_mode_count
    block_mode_count].
  apply (modes_packed_same _ _ _ (asm_bsd st)); [|exact Hinv].
  split; [rewrite Hbm|rewrite Hpi]; reflexivity.
Qed.

(** The block-mode arrays of every descriptor [init] builds. *)
Lemma init_modes_packed (x_texels y_texels z_texels : Z)
    (can_omit_modes : bool) (mode_cutoff : float)
    (bsd : block_size_descriptor) :
  let bsd' :=
    init_bsd x_texels y_texels z_texels can_omit_modes mode_cutoff bsd in
  modes_packed
    (mode_discarded x_texels y_texels z_texels can_omit_modes mode_cutoff)
    MAX_WEIGHT_MODES (block_mode_count bsd') bsd'.
Proof.
  cbv zeta. unfold init_block_size_descriptor, discarded.
  destruct (1 <? z_texels).
  - unfold construct_block_size_descriptor_3d. cbv zeta.
    destruct (for_loop 2 (x_texels + 1) _ _) as [[dmi dmc] bsd1].
    match goal with
    | |- context [for_loop 0 MAX_WEIGHT_MODES ?body ?s0] =>
        set (st := for_loop 0 MAX_WEIGHT_MODES body s0)
    end.
    apply (modes_packed_finish _ st).
    + subst st. apply (for_loop_ind
        (λ n st, modes_packed _ n (packed_idx st) (asm_bsd st)));
        [unfold MAX_WEIGHT_MODES; lia| |].
      * apply modes_packed_start.
      * intros i s' _ Hs'. apply block_mode_step_3d_packed. exact Hs'.
    + eapply same_block_modes_trans;
        [apply (assign_kmeans_texels_same rand_draws)
        |apply init_partition_tables_same].
  - unfold construct_block_size_descriptor_2d. cbv zeta.
    match goal with
    | |- context [for_loop 0 MAX_WEIGHT_MODES ?body ?s0] =>
        set (st := for_loop 0 MAX_WEIGHT_MODES body s0)
    end.
    apply (modes_packed_finish _ st).
    + subst st. apply (for_loop_ind
        (λ n st, modes_packed _ n (packed_idx st) (asm_bsd st)));
        [unfold MAX_WEIGHT_MODES; lia| |].
      * apply modes_packed_start.
      * intros i s' _ Hs'. apply block_mode_step_2d_packed. exact Hs'.
    + eapply same_block_modes_trans;
        [apply (clear_unused_decimation_modes_same MAX_DECIMATION_MODES)|].
      eapply same_block_modes_trans;
        [apply (assign_kmeans_texels_same rand_draws)
        |apply init_partition_tables_same].
Qed.

(** C2. In every descriptor built by [init], packed slot [k] holds a
    mode whose index maps back to [k], and every mode id below 2048 that
    was discarded (invalid, grid larger than the block, or removed by the
    percentile cutoff) maps to -1. *)
Theorem block_mode_packed_index_round_trip (x_texels y_texels z_texels : Z)
    (can_omit_modes : bool) (mode_cutoff : float)
    (bsd : block_size_descriptor) :
  let bsd' :=
    init_bsd x_texels y_texels z_texels can_omit_modes mode_cutoff bsd in
  (∀ k, 0 ≤ k < block_mode_count bsd' →
     ∃ bm, block_modes bsd' !! k = Some bm ∧
           block_mode_packed_index bsd' !! mode_index bm = Some k) ∧
  (∀ m, 0 ≤ m < MAX_WEIGHT_MODES →
     mode_discarded x_texels y_texels z_texels can_omit_modes mode_cutoff m
       = true →
     block_mode_packed_index bsd' !! m = Some (-1)).
Proof.
  intros bsd'.
  destruct (init_modes_packed x_texels y_texels z_texels can_omit_modes
              mode_cutoff bsd) as (_ & Hacc & Hdis & _).
  fold bsd' in Hacc, Hdis. split.
  - intros k Hk. destruct (Hacc k Hk) as (bm & Hbm & _ & _ & Hpi).
    exists bm. split; assumption.
  - exact Hdis.
Qed.

(** Conversely, every mode that is not discarded has a packed slot. *)
Lemma accepted_mode_has_slot (x_texels y_texels z_texels : Z)
    (can_omit_modes : bool) (mode_cutoff : float)
    (bsd : block_size_descriptor) (m : Z) :
  let bsd' :=
    init_bsd x_texels y_texels z_texels can_omit_modes mode_cutoff bsd in
  0 ≤ m < MAX_WEIGHT_MODES →
  mode_discarded x_texels y_texels z_texels can_omit_modes mode_cutoff m
    = false →
  ∃ k bm, 0 ≤ k < block_mode_count bsd' ∧
          block_mode_packed_index bsd' !! m = Some k ∧
          block_modes bsd' !! k = Some bm ∧ mode_index bm = m.
Proof.
  intros bsd' Hm Hd.
  destruct (init_modes_packed x_texels y_texels z_texels can_omit_modes
              mode_cutoff bsd) as (_ & _ & _ & Hall).
  apply Hall; assumption.
Qed.
End Assembler.

(** ** Decimation tables: the accumulation loop *)

(** One execution of the body of [if (weight[i] != 0)]: texel [c_texel]
    takes weight [c_weight] from grid point [c_grid]. *)
Record contrib := mk_contrib { c_texel : Z; c_grid : Z; c_weight : Z }.

Definition apply_contrib (st : dt_locals) (c : contrib) : dt_locals :=
  add_texel_weight (c_texel c) (c_grid c) (c_weight c) st.

Definition accumulate (l : list contrib) (st : dt_locals) : dt_locals :=
  fold_left apply_contrib l st.

(** The contributions of one texel, in the order of its four corners. *)
Definition texel_contribs (texel : Z) (qweight weight : list Z) : list contrib :=
  flat_map
    (λ i, if negb (at4 weight i =? 0)
          then [mk_contrib texel (at4 qweight i) (at4 weight i)] else [])
    [0; 1; 2; 3].

Definition of_texel (l : list contrib) (texel : Z) : list contrib :=
  filter (λ c, c_texel c = texel) l.

Definition of_grid (l : list contrib) (q : Z) : list contrib :=
  filter (λ c, c_grid c = q) l.

(** The texel-major local arrays after the contributions [l]. *)
Definition texel_side (l : list contrib) (st : dt_locals) : Prop :=
  ∀ T,
    rd (weight_count_of_texel st) T = Z.of_nat (length (of_texel l T)) ∧
    ∀ s c, of_texel l T !! s = Some c →
      grid_weights_of_texel st !! (T, Z.of_nat s) = Some (u8 (c_grid c)) ∧
      weights_of_texel st !! (T, Z.of_nat s) = Some (u8 (c_weight c)).

(** The weight-major local arrays after the contributions [l]. *)
Definition grid_side (l : list contrib) (st : dt_locals) : Prop :=
  ∀ q,
    rd (texel_count_of_weight st) q = Z.of_nat (length (of_grid l q)) ∧
    ∀ t c, of_grid l q !! t = Some c →
      texels_of_weight st !! (q, Z.of_nat t) = Some (u8 (c_texel c)) ∧
      texel_weights_of_weight st !! (q, Z.of_nat t) = Some (c_weight c).

Lemma accumulate_texel_contribs (texel : Z) (qweight weight : list Z)
    (st : dt_locals) :
  accumulate_texel texel qweight weight st
    = accumulate (texel_contribs texel qweight weight) st.
Proof.
  unfold accumulate_texel, for_loop, texel_contribs, accumulate.
  change (seqZ 0 (4 - 0)) with [0; 1; 2; 3]. simpl.
  destruct (negb (at4 weight 0 =? 0)), (negb (at4 weight 1 =? 0)),
    (negb (at4 weight 2 =? 0)), (negb (at4 weight 3 =? 0)); reflexivity.
Qed.

Lemma accumulate_app (l1 l2 : list contrib) (st : dt_locals) :
  accumulate (l1 ++ l2) st = accumulate l2 (accumulate l1 st).
Proof. unfold accumulate. apply fold_left_app. Qed.

Lemma of_texel_snoc (l : list contrib) (c : contrib) (T : Z) :
  of_texel (l ++ [c]) T
    = of_texel l T ++ (if decide (c_texel c = T) then [c] else []).
Proof.
  unfold of_texel. rewrite filter_app. reflexivity.
Qed.

Lemma of_grid_snoc (l : list contrib) (c : contrib) (q : Z) :
  of_grid (l ++ [c]) q
    = of_grid l q ++ (if decide (c_grid c = q) then [c] else []).
Proof.
  unfold of_grid. rewrite filter_app. reflexivity.
Qed.

Lemma texel_side_step (l : list contrib) (st : dt_locals) (c : contrib) :
  texel_side l st →
  (length (of_texel l (c_texel c)) < 255)%nat →
  texel_side (l ++ [c]) (apply_contrib st c).
Proof.
  intros Hside Hlen T. destruct (Hside T) as [Hcnt Hslots].
  rewrite of_texel_snoc. unfold apply_contrib, add_texel_weight. simpl.
  destruct (decide (c_texel c = T)) as [HT|HT].
  - subst T. rewrite rd_insert_eq, Hcnt. split.
    + rewrite length_app. simpl. rewrite u8_small by lia. lia.
    + intros s c' Hs.
      destruct (decide (s < length (of_texel l (c_texel c)))%nat) as [Hlt|Hge].
      * rewrite lookup_app_l in Hs by exact Hlt.
        rewrite !lookup_insert_ne by (intros [= ?]; lia).
        apply Hslots. exact Hs.
      * rewrite lookup_app_r in Hs by lia.
        destruct (s - length (of_texel l (c_texel c)))%nat as [|d] eqn:Hd;
          [|destruct d; discriminate Hs].
        simpl in Hs. injection Hs as <-.
        replace (Z.of_nat s)
          with (Z.of_nat (length (of_texel l (c_texel c)))) by lia.
        rewrite !lookup_insert_eq. split; reflexivity.
  - rewrite rd_insert_ne by exact HT. rewrite app_nil_r. split; [exact Hcnt|].
    intros s c' Hs. rewrite !lookup_insert_ne by (intros [= ?]; lia).
    apply Hslots. exact Hs.
Qed.

Lemma grid_side_step (l : list contrib) (st : dt_locals) (c : contrib) :
  grid_side l st →
  (length (of_grid l (c_grid c)) < 255)%nat →
  grid_side (l ++ [c]) (apply_contrib st c).
Proof.
  intros Hside Hlen q. destruct (Hside q) as [Hcnt Hslots].
  rewrite of_grid_snoc. unfold apply_contrib, add_texel_weight. simpl.
  destruct (decide (c_grid c = q)) as [Hq|Hq].
  - subst q. rewrite rd_insert_eq, Hcnt. split.
    + rewrite length_app. simpl. rewrite u8_small by lia. lia.
    + intros t c' Ht.
      destruct (decide (t < length (of_grid l (c_grid c)))%nat) as [Hlt|Hge].
      * rewrite lookup_app_l in Ht by exact Hlt.
        rewrite !lookup_insert_ne by (intros [= ?]; lia).
        apply Hslots. exact Ht.
      * rewrite lookup_app_r in Ht by lia.
        destruct (t - length (of_grid l (c_grid c)))%nat as [|d] eqn:Hd;
          [|destruct d; discriminate Ht].
        simpl in Ht. injection Ht as <-.
        replace (Z.of_nat t)
          with (Z.of_nat (length (of_grid l (c_grid c)))) by lia.
        rewrite !lookup_insert_eq. split; reflexivity.
  - rewrite rd_insert_ne by exact Hq. rewrite app_nil_r. split; [exact Hcnt|].
    intros t c' Ht. rewrite !lookup_insert_ne by (intros [= ?]; lia).
    apply Hslots. exact Ht.
Qed.

Lemma of_texel_app_length (l1 l2 : list contrib) (T : Z) :
  (length (of_texel l1 T) ≤ length (of_texel (l1 ++ l2) T))%nat.
Proof. unfold of_texel. rewrite filter_app, length_app. lia. Qed.

Lemma of_grid_app_length (l1 l2 : list contrib) (q : Z) :
  (length (of_grid l1 q) ≤ length (of_grid (l1 ++ l2) q))%nat.
Proof. unfold of_grid. rewrite filter_app, length_app. lia. Qed.

Lemma texel_side_accumulate (l2 l1 : list contrib) (st : dt_locals) :
  texel_side l1 st →
  (∀ T, (length (of_texel (l1 ++ l2) T) < 256)%nat) →
  texel_side (l1 ++ l2) (accumulate l2 st).
Proof.
  revert l1 st. induction l2 as [|c l2 IH]; intros l1 st Hside Hlen.
  - rewrite app_nil_r. exact Hside.
  - replace (l1 ++ c :: l2) with ((l1 ++ [c]) ++ l2) in *
      by (rewrite <- app_assoc; reflexivity).
    simpl. apply IH; [|exact Hlen].
    apply texel_side_step; [exact Hside|].
    specialize (Hlen (c_texel c)).
    pose proof (of_texel_app_length (l1 ++ [c]) l2 (c_texel c)) as Hle.
    rewrite of_texel_snoc in Hle. rewrite decide_True in Hle by reflexivity.
    rewrite length_app in Hle. simpl in Hle. lia.
Qed.

Lemma grid_side_accumulate (l2 l1 : list contrib) (st : dt_locals) :
  grid_side l1 st →
  (∀ q, (length (of_grid (l1 ++ l2) q) < 256)%nat) →
  grid_side (l1 ++ l2) (accumulate l2 st).
Proof.
  revert l1 st. induction l2 as [|c l2 IH]; intros l1 st Hside Hlen.
  - rewrite app_nil_r. exact Hside.
  - replace (l1 ++ c :: l2) with ((l1 ++ [c]) ++ l2) in *
      by (rewrite <- app_assoc; reflexivity).
    simpl. apply IH; [|exact Hlen].
    apply grid_side_step; [exact Hside|].
    specialize (Hlen (c_grid c)).
    pose proof (of_grid_app_length (l1 ++ [c]) l2 (c_grid c)) as Hle.
    rewrite of_grid_snoc in Hle. rewrite decide_True in Hle by reflexivity.
    rewrite length_app in Hle. simpl in Hle. lia.
Qed.

Lemma zero_fill_rd (n k : Z) :
  rd (for_loop 0 n (λ i m, <[i := 0]> m) (∅ : gmap Z Z)) k = 0.
Proof.
  apply (for_loop_preserves (λ m : gmap Z Z, rd m k = 0)).
  - reflexivity.
  - intros i m _ Hm. destruct (decide (i = k)) as [->|Hne].
    + apply rd_insert_eq.
    + rewrite rd_insert_ne by exact Hne. exact Hm.
Qed.

(** The local arrays after the whole accumulation, started from the
    cleared counters. *)
Lemma accumulate_init (l : list contrib) (texels_per_block weights_per_block : Z) :
  (∀ T, (length (of_texel l T) < 256)%nat) →
  texel_side l (accumulate l (init_dt_locals texels_per_block weights_per_block)).
Proof.
  intros Hlen. apply (texel_side_accumulate l []); [|exact Hlen].
  intros T. unfold init_dt_locals. simpl. rewrite zero_fill_rd.
  split; [reflexivity|]. intros s c Hs. inversion Hs.
Qed.

Lemma accumulate_init_grid (l : list contrib)
    (texels_per_block weights_per_block : Z) :
  (∀ q, (length (of_grid l q) < 256)%nat) →
  grid_side l (accumulate l (init_dt_locals texels_per_block weights_per_block)).
Proof.
  intros Hlen. apply (grid_side_accumulate l []); [|exact Hlen].
  intros q. unfold init_dt_locals. simpl. rewrite zero_fill_rd.
  split; [reflexivity|]. intros t c Ht. inversion Ht.
Qed.

(** ** Lists of contributions *)

Section ListFacts.
Context {A B : Type} (P : B → Prop) `{!∀ b, Decision (P b)}.

Lemma filter_all (l : list B) : (∀ b, b ∈ l → P b) → filter P l = l.
Proof.
  induction l as [|b l IH]; intros Hall; [reflexivity|].
  rewrite filter_cons_True by (apply Hall; left).
  f_equal. apply IH. intros b' Hb'. apply Hall. right. exact Hb'.
Qed.

Lemma filter_none (l : list B) : (∀ b, b ∈ l → ¬ P b) → filter P l = [].
Proof.
  induction l as [|b l IH]; intros Hall; [reflexivity|].
  rewrite filter_cons_False by (apply Hall; left).
  apply IH. intros b' Hb'. apply Hall. right. exact Hb'.
Qed.

Lemma filter_flat_map (g : A → list B) (l : list A) :
  filter P (flat_map g l) = flat_map (λ a, filter P (g a)) l.
Proof.
  induction l as [|a l IH]; [reflexivity|].
  simpl. rewrite filter_app, IH. reflexivity.
Qed.

Lemma flat_map_nil (g : A → list B) (l : list A) :
  (∀ a, a ∈ l → g a = []) → flat_map g l = [].
Proof.
  induction l as [|a l IH]; intros Hall; [reflexivity|].
  simpl. rewrite (Hall a) by left. apply IH.
  intros a' Ha'. apply Hall. right. exact Ha'.
Qed.

(** Only the element [a] of a duplicate-free list contributes. *)
Lemma flat_map_only (g : A → list B) (l : list A) (a : A) :
  NoDup l → a ∈ l →
  (∀ a', a' ∈ l → a' ≠ a → g a' = []) →
  flat_map g l = g a.
Proof.
  induction l as [|a0 l IH]; intros Hnd Hin Hrest; [inversion Hin|].
  apply NoDup_cons in Hnd as [Hnotin Hnd]. simpl.
  apply elem_of_cons in Hin as [->|Hin].
  - rewrite (flat_map_nil g l); [apply app_nil_r|].
    intros a' Ha'. apply Hrest; [right; exact Ha'|].
    intros ->. contradiction.
  - rewrite (Hrest a0); [|left|intros ->; contradiction]. simpl.
    apply IH; [exact Hnd|exact Hin|].
    intros a' Ha' Hne. apply Hrest; [right; exact Ha'|exact Hne].
Qed.

Lemma length_flat_map_le (g : A → list B) (l : list A) (k : nat) :
  (∀ a, a ∈ l → (length (g a) ≤ k)%nat) →
  (length (flat_map g l) ≤ k * length l)%nat.
Proof.
  induction l as [|a l IH]; intros Hall; simpl; [lia|].
  rewrite length_app.
  pose proof (Hall a (list_elem_of_here a l)).
  assert (length (flat_map g l) ≤ k * length l)%nat.
  { apply IH. intros a' Ha'. apply Hall. right. exact Ha'. }
  lia.
Qed.

Lemma elem_of_flat_map (g : A → list B) (l : list A) (b : B) :
  b ∈ flat_map g l ↔ ∃ a, a ∈ l ∧ b ∈ g a.
Proof.
  rewrite list_elem_of_In, in_flat_map. split.
  - intros (a & Ha & Hb). exists a. rewrite !list_elem_of_In. tauto.
  - intros (a & Ha & Hb). exists a. rewrite <- !list_elem_of_In. tauto.
Qed.
End ListFacts.

(** A loop whose iterations accumulate contributions accumulates their
    concatenation. *)
Lemma for_loop_accumulate (G : Z → list contrib) (lo hi : Z)
    (body : Z → dt_locals → dt_locals) (st : dt_locals) :
  (∀ i s, lo ≤ i < hi → body i s = accumulate (G i) s) →
  for_loop lo hi body st = accumulate (flat_map G (seqZ lo (hi - lo))) st.
Proof.
  intros Hbody. destruct (Z_le_gt_dec lo hi) as [Hle|Hgt].
  - apply (for_loop_ind
             (λ i s, s = accumulate (flat_map G (seqZ lo (i - lo))) st));
      [exact Hle| |].
    + rewrite seqZ_nil by lia. reflexivity.
    + intros i s Hi ->. rewrite Hbody by exact Hi.
      replace (i + 1 - lo) with ((i - lo) + 1) by lia.
      rewrite seqZ_app by lia. rewrite flat_map_app, accumulate_app.
      replace (lo + (i - lo)) with i by lia.
      change (seqZ i 1) with [i]. simpl. rewrite app_nil_r. reflexivity.
  - rewrite for_loop_empty by lia. rewrite seqZ_nil by lia. reflexivity.
Qed.

(** ** The corners of one texel *)

Lemma forallb_seqZ (f : Z → bool) (lo n x : Z) :
  forallb f (seqZ lo n) = true → lo ≤ x < lo + n → f x = true.
Proof.
  intros Hall Hx. rewrite forallb_forall in Hall. apply Hall.
  apply list_elem_of_In, elem_of_seqZ. lia.
Qed.

Ltac at4s := simpl in *; unfold at4 in *; simpl in *.

Definition total_weight (l : list contrib) : Z :=
  foldr (λ c a, c_weight c + a) 0 l.

(** The four corners of a texel, before the zero weights are dropped. *)
Definition corner_list (texel : Z) (qweight weight : list Z) : list contrib :=
  map (λ i, mk_contrib texel (at4 qweight i) (at4 weight i)) [0; 1; 2; 3].

Lemma texel_contribs_filter (texel : Z) (qweight weight : list Z) :
  texel_contribs texel qweight weight
    = filter (λ c, c_weight c ≠ 0) (corner_list texel qweight weight).
Proof.
  unfold texel_contribs, corner_list. simpl. rewrite !filter_cons, filter_nil.
  simpl.
  destruct (Z.eqb_spec (at4 weight 0) 0), (Z.eqb_spec (at4 weight 1) 0),
    (Z.eqb_spec (at4 weight 2) 0), (Z.eqb_spec (at4 weight 3) 0); simpl;
    repeat match goal with
           | |- context [decide (?a ≠ 0)] =>
               first [ rewrite (decide_True (P := a ≠ 0)) by assumption
                     | rewrite (decide_False (P := a ≠ 0)) by tauto ]
           end; reflexivity.
Qed.

(** The weights of the four corners: none negative, sum 16. *)
Definition weights_ok (weight : list Z) : Prop :=
  ∃ w0 w1 w2 w3, weight = [w0; w1; w2; w3] ∧
    0 ≤ w0 ≤ 16 ∧ 0 ≤ w1 ≤ 16 ∧ 0 ≤ w2 ≤ 16 ∧ 0 ≤ w3 ≤ 16 ∧
    w0 + w1 + w2 + w3 = 16.

(** The grid points of the four corners: increasing, and close enough
    that their [uint8_t] images differ. *)
Definition grids_ok (qweight : list Z) : Prop :=
  ∃ q0 q1 q2 q3, qweight = [q0; q1; q2; q3] ∧
    0 ≤ q0 ∧ q0 < q1 ∧ q1 < q2 ∧ q2 < q3 ∧ q3 < q0 + 256.

Definition grid_lt (c c' : contrib) : Prop := c_grid c < c_grid c'.

Lemma StronglySorted_filter {A : Type} (R : A → A → Prop) (P : A → Prop)
    `{!∀ a, Decision (P a)} (l : list A) :
  StronglySorted R l → StronglySorted R (filter P l).
Proof.
  induction 1 as [|a l Hl IH Hall]; [constructor|].
  rewrite filter_cons. destruct (decide (P a)); [|exact IH].
  constructor; [exact IH|].
  apply Forall_forall. intros b Hb. apply list_elem_of_filter in Hb as [_ Hb].
  rewrite Forall_forall in Hall. apply Hall. exact Hb.
Qed.

Lemma StronglySorted_lookup_lt {A : Type} (R : A → A → Prop) (l : list A)
    (k k' : nat) (a a' : A) :
  StronglySorted R l → l !! k = Some a → l !! k' = Some a' → (k < k')%nat →
  R a a'.
Proof.
  intros Hs. revert k k'. induction Hs as [|b l Hl IH Hall]; intros k k' Hk Hk' Hlt.
  - inversion Hk.
  - destruct k' as [|k']; [lia|]. simpl in Hk'.
    destruct k as [|k]; simpl in Hk.
    + injection Hk as ->. rewrite Forall_forall in Hall. apply Hall.
      apply list_elem_of_lookup. exists k'. exact Hk'.
    + apply (IH k k'); [exact Hk|exact Hk'|lia].
Qed.

Lemma total_weight_filter (l : list contrib) :
  total_weight (filter (λ c, c_weight c ≠ 0) l) = total_weight l.
Proof.
  induction l as [|c l IH]; [reflexivity|].
  rewrite filter_cons. destruct (decide (c_weight c ≠ 0)) as [Hnz|Hz]; simpl.
  - rewrite IH. reflexivity.
  - rewrite IH. lia.
Qed.

(** What the contributions of a texel with good corners look like. *)
Lemma texel_contribs_facts (texel : Z) (qweight weight : list Z) :
  weights_ok weight →
  let l := texel_contribs texel qweight weight in
  (1 ≤ length l ≤ 4)%nat ∧ total_weight l = 16 ∧
  (∀ c, c ∈ l → c_texel c = texel ∧ 1 ≤ c_weight c ≤ 16) ∧
  (grids_ok qweight →
     StronglySorted grid_lt l ∧
     ∀ c c', c ∈ l → c' ∈ l →
       0 ≤ c_grid c ∧ c_grid c' < c_grid c + 256).
Proof.
  intros (w0 & w1 & w2 & w3 & -> & H0 & H1 & H2 & H3 & Hsum) l.
  subst l. rewrite texel_contribs_filter.
  assert (Htot : total_weight
            (filter (λ c, c_weight c ≠ 0)
               (corner_list texel qweight [w0; w1; w2; w3])) = 16).
  { rewrite total_weight_filter. at4s. lia. }
  assert (Hmem : ∀ c,
            c ∈ filter (λ c, c_weight c ≠ 0)
                  (corner_list texel qweight [w0; w1; w2; w3]) →
            c_texel c = texel ∧ 1 ≤ c_weight c ≤ 16 ∧
            ∃ i, 0 ≤ i < 4 ∧ c_grid c = at4 qweight i).
  { intros c Hc. apply list_elem_of_filter in Hc as [Hnz Hc].
    unfold corner_list in Hc. simpl in Hc.
    repeat (apply elem_of_cons in Hc as [->|Hc];
            [split; [reflexivity|]; split; [at4s; lia|];
             eexists; split; [|reflexivity]; lia|]).
    inversion Hc. }
  split; [|split; [exact Htot|split]].
  - split.
    + destruct (filter _ _) as [|c l'] eqn:Hf; [|simpl; lia].
      simpl in Htot. lia.
    + etransitivity; [apply length_filter|]. simpl. lia.
  - intros c Hc. destruct (Hmem c Hc) as (Ht & Hw & _). split; assumption.
  - intros (q0 & q1 & q2 & q3 & -> & Hq0 & Hq1 & Hq2 & Hq3 & Hspan). split.
    + apply StronglySorted_filter. unfold corner_list. at4s.
      repeat (constructor; [|repeat constructor; unfold grid_lt; simpl; lia]).
      constructor.
    + intros c c' Hc Hc'.
      destruct (Hmem c Hc) as (_ & _ & i & Hi & ->).
      destruct (Hmem c' Hc') as (_ & _ & i' & Hi' & ->).
      assert (Hci : i = 0 ∨ i = 1 ∨ i = 2 ∨ i = 3) by lia.
      assert (Hci' : i' = 0 ∨ i' = 1 ∨ i' = 2 ∨ i' = 3) by lia.
      destruct Hci as [-> | [-> | [-> | ->]]];
        destruct Hci' as [-> | [-> | [-> | ->]]]; at4s; lia.
Qed.

Lemma grid_position_nonneg (texels weights x : Z) :
  2 ≤ texels → 1 ≤ weights → 0 ≤ x → 0 ≤ grid_position texels weights x.
Proof.
  intros Ht Hw Hx. unfold grid_position. apply Z.shiftr_nonneg.
  assert (0 ≤ Z.quot (1024 + Z.quot texels 2) (texels - 1)).
  { apply Z.quot_pos; [|lia]. pose proof (Z.quot_pos texels 2). lia. }
  assert (0 ≤ Z.quot (1024 + Z.quot texels 2) (texels - 1) * x)
    by (apply Z.mul_nonneg_nonneg; lia).
  assert (0 ≤ Z.quot (1024 + Z.quot texels 2) (texels - 1) * x * (weights - 1))
    by (apply Z.mul_nonneg_nonneg; lia).
  lia.
Qed.

Lemma shiftr4_nonneg (a : Z) : 0 ≤ a → 0 ≤ Z.shiftr a 4.
Proof. intros Ha. apply Z.shiftr_nonneg. exact Ha. Qed.

(** The truncated bilinear weights of two fractions. *)
Definition bilinear_check (xf yf : Z) : bool :=
  let w3 := Z.shiftr (xf * yf + 8) 4 in
  (0 <=? 16 - xf - yf + w3) && (16 - xf - yf + w3 <=? 16) &&
  (0 <=? xf - w3) && (xf - w3 <=? 16) &&
  (0 <=? yf - w3) && (yf - w3 <=? 16) && (0 <=? w3) && (w3 <=? 16).

Lemma bilinear_weights_range (xf yf : Z) :
  0 ≤ xf < 16 → 0 ≤ yf < 16 →
  let w3 := Z.shiftr (xf * yf + 8) 4 in
  0 ≤ 16 - xf - yf + w3 ≤ 16 ∧ 0 ≤ xf - w3 ≤ 16 ∧ 0 ≤ yf - w3 ≤ 16 ∧
  0 ≤ w3 ≤ 16.
Proof.
  intros Hx Hy.
  assert (Hall : forallb (λ xf, forallb (bilinear_check xf) (seqZ 0 16))
                   (seqZ 0 16) = true) by (vm_compute; reflexivity).
  pose proof (forallb_seqZ _ 0 16 yf (forallb_seqZ _ 0 16 xf Hall Hx) Hy)
    as Hchk.
  unfold bilinear_check in Hchk. cbv zeta in *.
  rewrite !andb_true_iff, !Z.leb_le in Hchk. lia.
Qed.

Lemma texel_corners_2d_ok (x_texels y_texels x_weights y_weights y x : Z) :
  ∃ qs ws,
    texel_corners_2d x_texels y_texels x_weights y_weights y x
      = (y * x_texels + x, qs, ws) ∧
    weights_ok ws ∧
    (2 ≤ x_texels → 2 ≤ y_texels → 2 ≤ x_weights ≤ 254 → 1 ≤ y_weights →
     0 ≤ x → 0 ≤ y → grids_ok qs).
Proof.
  unfold texel_corners_2d. cbv zeta.
  set (gx := grid_position x_texels x_weights x).
  set (gy := grid_position y_texels y_weights y).
  pose proof (land_15_range gx) as Hfx. pose proof (land_15_range gy) as Hfy.
  pose proof (bilinear_weights_range _ _ Hfx Hfy) as Hw. cbv zeta in Hw.
  do 2 eexists. split; [reflexivity|]. split.
  - do 4 eexists. split; [reflexivity|]. lia.
  - intros Htx Hty Hwx Hwy Hx Hy.
    assert (0 ≤ Z.shiftr gx 4)
      by (apply shiftr4_nonneg, grid_position_nonneg; lia).
    assert (0 ≤ Z.shiftr gy 4)
      by (apply shiftr4_nonneg, grid_position_nonneg; lia).
    do 4 eexists. split; [reflexivity|]. nia.
Qed.

Lemma texel_corners_3d_ok
    (x_texels y_texels z_texels x_weights y_weights z_weights z y x : Z) :
  ∃ qs ws,
    texel_corners_3d x_texels y_texels z_texels x_weights y_weights z_weights
      z y x = ((z * y_texels + y) * x_texels + x, qs, ws) ∧
    weights_ok ws ∧
    (2 ≤ x_texels → 2 ≤ y_texels → 2 ≤ z_texels →
     2 ≤ x_weights → 2 ≤ y_weights → 1 ≤ z_weights →
     x_weights * y_weights + x_weights < 255 →
     0 ≤ x → 0 ≤ y → 0 ≤ z → grids_ok qs).
Proof.
  unfold texel_corners_3d. cbv zeta.
  set (gx := grid_position x_texels x_weights x).
  set (gy := grid_position y_texels y_weights y).
  set (gz := grid_position z_texels z_weights z).
  pose proof (land_15_range gx) as Hfx. pose proof (land_15_range gy) as Hfy.
  pose proof (land_15_range gz) as Hfz.
  destruct (simplex_weights_sum x_weights (x_weights * y_weights)
              _ _ _ Hfx Hfy Hfz)
    as (s1 & s2 & w0 & w1 & w2 & w3 & -> & H0 & H1 & H2 & H3 & Hsum & Hs).
  do 2 eexists. split; [reflexivity|]. split.
  - do 4 eexists. split; [reflexivity|]. lia.
  - intros Htx Hty Htz Hwx Hwy Hwz Hspan Hx Hy Hz.
    assert (0 ≤ Z.shiftr gx 4)
      by (apply shiftr4_nonneg, grid_position_nonneg; lia).
    assert (0 ≤ Z.shiftr gy 4)
      by (apply shiftr4_nonneg, grid_position_nonneg; lia).
    assert (0 ≤ Z.shiftr gz 4)
      by (apply shiftr4_nonneg, grid_position_nonneg; lia).
    do 4 eexists. split; [reflexivity|].
    assert (x_weights < x_weights * y_weights) by nia.
    assert (0 ≤ (Z.shiftr gz 4 * y_weights + Z.shiftr gy 4) * x_weights
                + Z.shiftr gx 4) by nia.
    destruct Hs as [[-> ->] | [[-> ->] | [[-> ->] | [[-> ->] | [[-> ->] | [-> ->]]]]]];
      nia.
Qed.

(** ** The contributions of a whole table *)

Definition corner_contribs (tqw : Z * list Z * list Z) : list contrib :=
  texel_contribs tqw.1.1 tqw.1.2 tqw.2.

(** The contributions in the order the 2D builder makes them. *)
Definition plan_2d (x_texels y_texels x_weights y_weights : Z) : list contrib :=
  flat_map (λ y,
    flat_map (λ x,
      corner_contribs
        (texel_corners_2d x_texels y_texels x_weights y_weights y x))
      (seqZ 0 x_texels))
    (seqZ 0 y_texels).

(** The contributions in the order the 3D builder makes them. *)
Definition plan_3d (x_texels y_texels z_texels x_weights y_weights
    z_weights : Z) : list contrib :=
  flat_map (λ z,
    flat_map (λ y,
      flat_map (λ x,
        corner_contribs
          (texel_corners_3d x_texels y_texels z_texels x_weights y_weights
             z_weights z y x))
        (seqZ 0 x_texels))
      (seqZ 0 y_texels))
    (seqZ 0 z_texels).

Lemma accumulate_plan_2d (x_texels y_texels x_weights y_weights : Z)
    (st : dt_locals) :
  for_loop 0 y_texels (λ y,
    for_loop 0 x_texels (λ x,
      texel_step_2d x_texels y_texels x_weights y_weights y x)) st
  = accumulate (plan_2d x_texels y_texels x_weights y_weights) st.
Proof.
  unfold plan_2d.
  rewrite <- (Z.sub_0_r y_texels) at 2. apply for_loop_accumulate.
  intros y s _.
  rewrite <- (Z.sub_0_r x_texels) at 2. apply for_loop_accumulate.
  intros x s' _. unfold texel_step_2d, corner_contribs.
  destruct (texel_corners_2d _ _ _ _ y x) as [[t q] w]. simpl.
  apply accumulate_texel_contribs.
Qed.

Lemma accumulate_plan_3d (x_texels y_texels z_texels x_weights y_weights
    z_weights : Z) (st : dt_locals) :
  for_loop 0 z_texels (λ z,
    for_loop 0 y_texels (λ y,
      for_loop 0 x_texels (λ x,
        texel_step_3d x_texels y_texels z_texels x_weights y_weights
          z_weights z y x))) st
  = accumulate
      (plan_3d x_texels y_texels z_texels x_weights y_weights z_weights) st.
Proof.
  unfold plan_3d.
  rewrite <- (Z.sub_0_r z_texels) at 2. apply for_loop_accumulate.
  intros z s0 _.
  rewrite <- (Z.sub_0_r y_texels) at 2. apply for_loop_accumulate.
  intros y s _.
  rewrite <- (Z.sub_0_r x_texels) at 2. apply for_loop_accumulate.
  intros x s' _. unfold texel_step_3d, corner_contribs.
  destruct (texel_corners_3d _ _ _ _ _ _ z y x) as [[t q] w]. simpl.
  apply accumulate_texel_contribs.
Qed.

(** Contributions laid out in [n] blocks of [w] consecutive texels from
    texel [off] on: block [i] alone holds the contributions of its texels. *)
Lemma of_texel_blocks (R : Z → list contrib) (off w n : Z) :
  1 ≤ w → 0 ≤ n →
  (∀ i c, 0 ≤ i < n → c ∈ R i →
     off + i * w ≤ c_texel c < off + (i + 1) * w) →
  (∀ T, ¬ (off ≤ T < off + n * w) → of_texel (flat_map R (seqZ 0 n)) T = []) ∧
  (∀ i T, 0 ≤ i < n → off + i * w ≤ T < off + (i + 1) * w →
     of_texel (flat_map R (seqZ 0 n)) T = of_texel (R i) T).
Proof.
  intros Hw Hn Hblock. unfold of_texel. split.
  - intros T HT. rewrite filter_flat_map. apply flat_map_nil.
    intros i Hi. apply elem_of_seqZ in Hi. apply filter_none.
    intros c Hc Heq. specialize (Hblock i c ltac:(lia) Hc). nia.
  - intros i T Hi HT. rewrite filter_flat_map.
    apply (flat_map_only (λ a, filter (λ c, c_texel c = T) (R a))).
    + apply NoDup_seqZ.
    + apply elem_of_seqZ. lia.
    + intros i' Hi' Hne. apply elem_of_seqZ in Hi'. apply filter_none.
      intros c Hc Heq. specialize (Hblock i' c ltac:(lia) Hc). nia.
Qed.

Lemma texel_contribs_texel (texel : Z) (qweight weight : list Z) (c : contrib) :
  c ∈ texel_contribs texel qweight weight → c_texel c = texel.
Proof.
  rewrite texel_contribs_filter. intros Hc.
  apply list_elem_of_filter in Hc as [_ Hc]. unfold corner_list in Hc.
  apply list_elem_of_fmap in Hc as (i & -> & _). reflexivity.
Qed.

Lemma of_texel_texel_contribs (texel : Z) (qweight weight : list Z) :
  of_texel (texel_contribs texel qweight weight) texel
    = texel_contribs texel qweight weight.
Proof.
  unfold of_texel. apply filter_all. intros c Hc.
  apply (texel_contribs_texel _ _ _ _ Hc).
Qed.

(** At most one element of a list with increasing grid points is at a
    given grid point. *)
Lemma of_grid_sorted_length (l : list contrib) (q : Z) :
  StronglySorted grid_lt l → (length (of_grid l q) ≤ 1)%nat.
Proof.
  unfold of_grid. induction 1 as [|c l Hl IH Hall]; [simpl; lia|].
  rewrite filter_cons. destruct (decide (c_grid c = q)) as [Hq|Hq]; [|exact IH].
  rewrite (filter_none (λ c, c_grid c = q) l); [simpl; lia|].
  intros c' Hc' Hq'. rewrite Forall_forall in Hall.
  specialize (Hall c' Hc'). unfold grid_lt in Hall. lia.
Qed.

(** The contributions of the texels [0 .. n-1]: each texel contributes
    the non-zero corners of a good weight quadruple. *)
Definition plan_texels (n : Z) (l : list contrib) : Prop :=
  (∀ T, ¬ (0 ≤ T < n) → of_texel l T = []) ∧
  (∀ T, 0 ≤ T < n →
     ∃ qs ws, of_texel l T = texel_contribs T qs ws ∧ weights_ok ws).

(** Moreover the grid points of each texel are good, and no grid point
    has more than [n] texels. *)
Definition plan_grids (n : Z) (l : list contrib) : Prop :=
  (∀ T, 0 ≤ T < n →
     ∃ qs ws, of_texel l T = texel_contribs T qs ws ∧ weights_ok ws ∧
              grids_ok qs) ∧
  (∀ q, (length (of_grid l q) ≤ Z.to_nat n)%nat).

Lemma corner_contribs_2d (x_texels y_texels x_weights y_weights y x : Z) :
  ∃ qs ws,
    corner_contribs (texel_corners_2d x_texels y_texels x_weights y_weights y x)
      = texel_contribs (y * x_texels + x) qs ws ∧
    weights_ok ws ∧
    (2 ≤ x_texels → 2 ≤ y_texels → 2 ≤ x_weights ≤ 254 → 1 ≤ y_weights →
     0 ≤ x → 0 ≤ y → grids_ok qs).
Proof.
  destruct (texel_corners_2d_ok x_texels y_texels x_weights y_weights y x)
    as (qs & ws & -> & Hw & Hq).
  exists qs, ws. split; [reflexivity|]. split; assumption.
Qed.

Lemma corner_contribs_3d
    (x_texels y_texels z_texels x_weights y_weights z_weights z y x : Z) :
  ∃ qs ws,
    corner_contribs
      (texel_corners_3d x_texels y_texels z_texels x_weights y_weights
         z_weights z y x)
      = texel_contribs ((z * y_texels + y) * x_texels + x) qs ws ∧
    weights_ok ws ∧
    (2 ≤ x_texels → 2 ≤ y_texels → 2 ≤ z_texels →
     2 ≤ x_weights → 2 ≤ y_weights → 1 ≤ z_weights →
     x_weights * y_weights + x_weights < 255 →
     0 ≤ x → 0 ≤ y → 0 ≤ z → grids_ok qs).
Proof.
  destruct (texel_corners_3d_ok x_texels y_texels z_texels x_weights
              y_weights z_weights z y x) as (qs & ws & -> & Hw & Hq).
  exists qs, ws. split; [reflexivity|]. split; assumption.
Qed.

(** The contributions of texel [(x, y)] within the 2D plan. *)
Lemma of_texel_plan_2d (x_texels y_texels x_weights y_weights : Z) :
  1 ≤ x_texels → 0 ≤ y_texels →
  (∀ T, ¬ (0 ≤ T < x_texels * y_texels) →
     of_texel (plan_2d x_texels y_texels x_weights y_weights) T = []) ∧
  (∀ y x, 0 ≤ y < y_texels → 0 ≤ x < x_texels →
     of_texel (plan_2d x_texels y_texels x_weights y_weights)
       (y * x_texels + x)
     = corner_contribs
         (texel_corners_2d x_texels y_texels x_weights y_weights y x)).
Proof.
  intros Htx Hty.
  assert (Hin : ∀ y x c,
            c ∈ corner_contribs
                  (texel_corners_2d x_texels y_texels x_weights y_weights y x) →
            c_texel c = y * x_texels + x).
  { intros y x c Hc.
    destruct (corner_contribs_2d x_texels y_texels x_weights y_weights y x)
      as (qs & ws & Heq & _).
    rewrite Heq in Hc. apply (texel_contribs_texel _ _ _ _ Hc). }
  destruct (of_texel_blocks
              (λ y, flat_map (λ x,
                 corner_contribs
                   (texel_corners_2d x_texels y_texels x_weights y_weights y x))
                 (seqZ 0 x_texels)) 0 x_texels y_texels Htx Hty)
    as [Hout Hrow].
  { intros y c Hy Hc. apply elem_of_flat_map in Hc as (x & Hx & Hc).
    apply elem_of_seqZ in Hx. rewrite (Hin y x c Hc). nia. }
  split.
  - intros T HT. apply Hout. nia.
  - intros y x Hy Hx. unfold plan_2d. rewrite (Hrow y) by nia.
    destruct (of_texel_blocks
                (λ x, corner_contribs
                        (texel_corners_2d x_texels y_texels x_weights
                           y_weights y x))
                (y * x_texels) 1 x_texels ltac:(lia) ltac:(lia))
      as [_ Hcol].
    { intros x' c Hx' Hc. rewrite (Hin y x' c Hc). lia. }
    rewrite (Hcol x) by lia. unfold of_texel. apply filter_all.
    intros c Hc. apply (Hin y x c Hc).
Qed.

Lemma plan_2d_texels (x_texels y_texels x_weights y_weights : Z) :
  1 ≤ x_texels → 0 ≤ y_texels →
  plan_texels (x_texels * y_texels)
    (plan_2d x_texels y_texels x_weights y_weights).
Proof.
  intros Htx Hty.
  destruct (of_texel_plan_2d x_texels y_texels x_weights y_weights Htx Hty)
    as [Hout Hin].
  split; [exact Hout|]. intros T HT.
  assert (Hy : 0 ≤ T / x_texels < y_texels).
  { split; [apply Z.div_pos; lia|apply Z.div_lt_upper_bound; lia]. }
  assert (Hx : 0 ≤ T mod x_texels < x_texels) by (apply Z.mod_pos_bound; lia).
  assert (HTeq : T = T / x_texels * x_texels + T mod x_texels).
  { rewrite Z.mul_comm. apply Z.div_mod. lia. }
  specialize (Hin _ _ Hy Hx). rewrite <- HTeq in Hin. rewrite Hin.
  destruct (corner_contribs_2d x_texels y_texels x_weights y_weights
              (T / x_texels) (T mod x_texels)) as (qs & ws & Heq & Hw & _).
  rewrite <- HTeq in Heq. exists qs, ws. split; assumption.
Qed.

Lemma texel_contribs_sorted (texel : Z) (qs ws : list Z) :
  weights_ok ws → grids_ok qs →
  StronglySorted grid_lt (texel_contribs texel qs ws).
Proof.
  intros Hw Hq.
  destruct (texel_contribs_facts texel qs ws Hw) as (_ & _ & _ & Hs).
  apply Hs. exact Hq.
Qed.

Lemma plan_2d_grids (x_texels y_texels x_weights y_weights : Z) :
  2 ≤ x_texels → 2 ≤ y_texels → 2 ≤ x_weights ≤ 254 → 1 ≤ y_weights →
  plan_grids (x_texels * y_texels)
    (plan_2d x_texels y_texels x_weights y_weights).
Proof.
  intros Htx Hty Hwx Hwy.
  destruct (of_texel_plan_2d x_texels y_texels x_weights y_weights
              ltac:(lia) ltac:(lia)) as [Hout Hin].
  split.
  - intros T HT.
    assert (Hy : 0 ≤ T / x_texels < y_texels).
    { split; [apply Z.div_pos; lia|apply Z.div_lt_upper_bound; lia]. }
    assert (Hx : 0 ≤ T mod x_texels < x_texels)
      by (apply Z.mod_pos_bound; lia).
    assert (HTeq : T = T / x_texels * x_texels + T mod x_texels).
    { rewrite Z.mul_comm. apply Z.div_mod. lia. }
    specialize (Hin _ _ Hy Hx). rewrite <- HTeq in Hin. rewrite Hin.
    destruct (corner_contribs_2d x_texels y_texels x_weights y_weights
                (T / x_texels) (T mod x_texels)) as (qs & ws & Heq & Hw & Hq).
    rewrite <- HTeq in Heq. exists qs, ws.
    split; [exact Heq|]. split; [exact Hw|]. apply Hq; lia.
  - intros q. unfold of_grid, plan_2d. rewrite filter_flat_map.
    replace (Z.to_nat (x_texels * y_texels))
      with (Z.to_nat x_texels * length (seqZ 0 y_texels))%nat
      by (rewrite length_seqZ; lia).
    apply length_flat_map_le. intros y Hy. apply elem_of_seqZ in Hy.
    rewrite filter_flat_map.
    replace (Z.to_nat x_texels)
      with (1 * length (seqZ 0 x_texels))%nat
      by (rewrite length_seqZ; lia).
    apply length_flat_map_le. intros x Hx. apply elem_of_seqZ in Hx.
    destruct (corner_contribs_2d x_texels y_texels x_weights y_weights y x)
      as (qs & ws & -> & Hw & Hq).
    apply (of_grid_sorted_length _ q).
    apply texel_contribs_sorted; [exact Hw|]. apply Hq; lia.
Qed.

(** The contributions of texel [(x, y, z)] within the 3D plan. *)
Lemma of_texel_plan_3d
    (x_texels y_texels z_texels x_weights y_weights z_weights : Z) :
  1 ≤ x_texels → 1 ≤ y_texels → 0 ≤ z_texels →
  (∀ T, ¬ (0 ≤ T < x_texels * y_texels * z_texels) →
     of_texel
       (plan_3d x_texels y_texels z_texels x_weights y_weights z_weights) T
     = []) ∧
  (∀ z y x, 0 ≤ z < z_texels → 0 ≤ y < y_texels → 0 ≤ x < x_texels →
     of_texel
       (plan_3d x_texels y_texels z_texels x_weights y_weights z_weights)
       ((z * y_texels + y) * x_texels + x)
     = corner_contribs
         (texel_corners_3d x_texels y_texels z_texels x_weights y_weights
            z_weights z y x)).
Proof.
  intros Htx Hty Htz.
  set (C := λ z y x,
         corner_contribs
           (texel_corners_3d x_texels y_texels z_texels x_weights y_weights
              z_weights z y x)).
  assert (Hin : ∀ z y x c,
            c ∈ C z y x → c_texel c = (z * y_texels + y) * x_texels + x).
  { intros z y x c Hc. subst C. simpl in Hc.
    destruct (corner_contribs_3d x_texels y_texels z_texels x_weights
                y_weights z_weights z y x) as (qs & ws & Heq & _).
    rewrite Heq in Hc. apply (texel_contribs_texel _ _ _ _ Hc). }
  assert (Hrow_in : ∀ z y c,
            0 ≤ y < y_texels →
            c ∈ flat_map (C z y) (seqZ 0 x_texels) →
            (z * y_texels + y) * x_texels ≤ c_texel c
              < (z * y_texels + y) * x_texels + x_texels).
  { intros z y c Hy Hc. apply elem_of_flat_map in Hc as (x & Hx & Hc).
    apply elem_of_seqZ in Hx. rewrite (Hin z y x c Hc). lia. }
  destruct (of_texel_blocks
              (λ z, flat_map (λ y, flat_map (C z y) (seqZ 0 x_texels))
                      (seqZ 0 y_texels))
              0 (y_texels * x_texels) z_texels ltac:(nia) Htz)
    as [Hout Hslab].
  { intros z c Hz Hc. apply elem_of_flat_map in Hc as (y & Hy & Hc).
    apply elem_of_seqZ in Hy. specialize (Hrow_in z y c ltac:(lia) Hc). nia. }
  split.
  - intros T HT. apply Hout. nia.
  - intros z y x Hz Hy Hx. unfold plan_3d. fold C.
    rewrite (Hslab z) by nia.
    destruct (of_texel_blocks
                (λ y, flat_map (C z y) (seqZ 0 x_texels))
                (z * (y_texels * x_texels)) x_texels y_texels
                ltac:(lia) ltac:(lia))
      as [_ Hrow].
    { intros y' c Hy' Hc. specialize (Hrow_in z y' c Hy' Hc). nia. }
    rewrite (Hrow y) by nia.
    destruct (of_texel_blocks (C z y) ((z * y_texels + y) * x_texels) 1
                x_texels ltac:(lia) ltac:(lia))
      as [_ Hcol].
    { intros x' c Hx' Hc. rewrite (Hin z y x' c Hc). lia. }
    rewrite (Hcol x) by lia. unfold of_texel. apply filter_all.
    intros c Hc. apply (Hin z y x c Hc).
Qed.

(** Texel [T] of a 3D block as coordinates. *)
Lemma texel_coordinates_3d (x_texels y_texels z_texels T : Z) :
  1 ≤ x_texels → 1 ≤ y_texels →
  0 ≤ T < x_texels * y_texels * z_texels →
  ∃ z y x, 0 ≤ z < z_texels ∧ 0 ≤ y < y_texels ∧ 0 ≤ x < x_texels ∧
           T = (z * y_texels + y) * x_texels + x.
Proof.
  intros Htx Hty HT.
  exists (T / x_texels / y_texels), ((T / x_texels) mod y_texels),
    (T mod x_texels).
  pose proof (Z.div_mod T x_texels ltac:(lia)) as H1.
  pose proof (Z.mod_pos_bound T x_texels ltac:(lia)) as H2.
  pose proof (Z.div_mod (T / x_texels) y_texels ltac:(lia)) as H3.
  pose proof (Z.mod_pos_bound (T / x_texels) y_texels ltac:(lia)) as H4.
  assert (0 ≤ T / x_texels) by (apply Z.div_pos; lia).
  assert (0 ≤ T / x_texels / y_texels) by (apply Z.div_pos; lia).
  assert (T / x_texels < y_texels * z_texels)
    by (apply Z.div_lt_upper_bound; nia).
  assert (T / x_texels / y_texels < z_texels)
    by (apply Z.div_lt_upper_bound; nia).
  repeat split; first [lia | nia].
Qed.

Lemma plan_3d_texels
    (x_texels y_texels z_texels x_weights y_weights z_weights : Z) :
  1 ≤ x_texels → 1 ≤ y_texels → 0 ≤ z_texels →
  plan_texels (x_texels * y_texels * z_texels)
    (plan_3d x_texels y_texels z_texels x_weights y_weights z_weights).
Proof.
  intros Htx Hty Htz.
  destruct (of_texel_plan_3d x_texels y_texels z_texels x_weights y_weights
              z_weights Htx Hty Htz) as [Hout Hin].
  split; [exact Hout|]. intros T HT.
  destruct (texel_coordinates_3d x_texels y_texels z_texels T Htx Hty HT)
    as (z & y & x & Hz & Hy & Hx & ->).
  rewrite (Hin z y x Hz Hy Hx).
  destruct (corner_contribs_3d x_texels y_texels z_texels x_weights y_weights
              z_weights z y x) as (qs & ws & Heq & Hw & _).
  exists qs, ws. split; assumption.
Qed.

Lemma plan_3d_grids
    (x_texels y_texels z_texels x_weights y_weights z_weights : Z) :
  2 ≤ x_texels → 2 ≤ y_texels → 2 ≤ z_texels →
  2 ≤ x_weights → 2 ≤ y_weights → 1 ≤ z_weights →
  x_weights * y_weights + x_weights < 255 →
  plan_grids (x_texels * y_texels * z_texels)
    (plan_3d x_texels y_texels z_texels x_weights y_weights z_weights).
Proof.
  intros Htx Hty Htz Hwx Hwy Hwz Hspan.
  destruct (of_texel_plan_3d x_texels y_texels z_texels x_weights y_weights
              z_weights ltac:(lia) ltac:(lia) ltac:(lia)) as [Hout Hin].
  split.
  - intros T HT.
    destruct (texel_coordinates_3d x_texels y_texels z_texels T
                ltac:(lia) ltac:(lia) HT)
      as (z & y & x & Hz & Hy & Hx & ->).
    rewrite (Hin z y x Hz Hy Hx).
    destruct (corner_contribs_3d x_texels y_texels z_texels x_weights
                y_weights z_weights z y x) as (qs & ws & Heq & Hw & Hq).
    exists qs, ws. split; [exact Heq|]. split; [exact Hw|]. apply Hq; lia.
  - intros q. unfold of_grid, plan_3d. rewrite filter_flat_map.
    replace (Z.to_nat (x_texels * y_texels * z_texels))
      with (Z.to_nat (x_texels * y_texels) * length (seqZ 0 z_texels))%nat
      by (rewrite length_seqZ; nia).
    apply length_flat_map_le. intros z Hz. apply elem_of_seqZ in Hz.
    rewrite filter_flat_map.
    replace (Z.to_nat (x_texels * y_texels))
      with (Z.to_nat x_texels * length (seqZ 0 y_texels))%nat
      by (rewrite length_seqZ; nia).
    apply length_flat_map_le. intros y Hy. apply elem_of_seqZ in Hy.
    rewrite filter_flat_map.
    replace (Z.to_nat x_texels)
      with (1 * length (seqZ 0 x_texels))%nat
      by (rewrite length_seqZ; lia).
    apply length_flat_map_le. intros x Hx. apply elem_of_seqZ in Hx.
    destruct (corner_contribs_3d x_texels y_texels z_texels x_weights
                y_weights z_weights z y x) as (qs & ws & -> & Hw & Hq).
    apply (of_grid_sorted_length _ q).
    apply texel_contribs_sorted; [exact Hw|]. apply Hq; lia.
Qed.

(** ** Decimation tables: the texel-major arrays *)

Lemma scale_float_of_int (n : Z) : scale_by_weight_sum (float_of_int n) = n.
Proof.
  unfold scale_by_weight_sum, float_of_int, TEXEL_WEIGHT_SUM.
  rewrite Z.mul_comm. apply Z.div_mul. lia.
Qed.

(** The cells of neighbour slot [k] of texel [i] in the three texel-major
    arrays: grid point, integer weight, float weight. *)
Definition texel_view (dt : decimation_table) (k i : Z)
    : option Z * option Z * option float16 :=
  (texel_weights_4t dt !! (k, i), texel_weights_int_4t dt !! (k, i),
   texel_weights_float_4t dt !! (k, i)).

(** What the builders store there: the local arrays for an active slot,
    zeros for the others. *)
Definition texel_slot (st : dt_locals) (i k : Z) : Z * Z * float16 :=
  if k <? rd (weight_count_of_texel st) i
  then (rd (grid_weights_of_texel st) (i, k), rd (weights_of_texel st) (i, k),
        rd (weights_of_texel st) (i, k))
  else (0, 0, 0).

Definition written (v : Z * Z * float16) : option Z * option Z * option float16 :=
  (Some v.1.1, Some v.1.2, Some v.2).

(** A loop that writes slot [j] of texel [i] with [val j] in each round. *)
Lemma fill_loop_view (body : Z → decimation_table → decimation_table)
    (val : Z → option Z * option Z * option float16) (lo hi i : Z)
    (dt : decimation_table) :
  (∀ j dt k i', texel_view (body j dt) k i'
                = if decide (k = j ∧ i' = i) then val j else texel_view dt k i') →
  ∀ k i', texel_view (for_loop lo hi body dt) k i'
          = if decide (i' = i ∧ lo ≤ k < hi) then val k else texel_view dt k i'.
Proof.
  intros Hbody. destruct (Z_le_gt_dec lo hi) as [Hle|Hgt].
  - pose (P := λ (n : Z) (dt' : decimation_table),
              ∀ k i', texel_view dt' k i'
                = if decide (i' = i ∧ lo ≤ k < n) then val k
                  else texel_view dt k i').
    apply (for_loop_ind P); subst P; cbv beta; [exact Hle| |].
    + intros k i'. rewrite decide_False by lia. reflexivity.
    + intros n dt' Hn IH k i'. rewrite Hbody, IH.
      repeat case_decide; try reflexivity; try lia.
      destruct H as [-> _]. reflexivity.
  - intros k i'. rewrite for_loop_empty by lia.
    rewrite decide_False by lia. reflexivity.
Qed.

Lemma view_store_values (st : dt_locals) (i j : Z) (dt : decimation_table)
    (k i' : Z) :
  texel_view
    (set_texel_weights_4t (j, i) (rd (grid_weights_of_texel st) (i, j))
       (set_texel_weights_float_4t (j, i)
          (scale_by_weight_sum (float_of_int (rd (weights_of_texel st) (i, j))))
          (set_texel_weights_int_4t (j, i) (rd (weights_of_texel st) (i, j))
             dt))) k i'
  = if decide (k = j ∧ i' = i)
    then written (rd (grid_weights_of_texel st) (i, j),
                  rd (weights_of_texel st) (i, j),
                  rd (weights_of_texel st) (i, j))
    else texel_view dt k i'.
Proof.
  unfold texel_view, written. stores. rewrite scale_float_of_int.
  case_decide as Hd.
  - destruct Hd as [-> ->]. rewrite !lookup_insert_eq. reflexivity.
  - rewrite !lookup_insert_ne by (intros [= ? ?]; lia). reflexivity.
Qed.

Lemma view_store_zeros (i j : Z) (dt : decimation_table) (k i' : Z) :
  texel_view
    (set_texel_weights_4t (j, i) 0
       (set_texel_weights_float_4t (j, i) 0
          (set_texel_weights_int_4t (j, i) 0 dt))) k i'
  = if decide (k = j ∧ i' = i) then written (0, 0, 0) else texel_view dt k i'.
Proof.
  unfold texel_view, written. stores. case_decide as Hd.
  - destruct Hd as [-> ->]. rewrite !lookup_insert_eq. reflexivity.
  - rewrite !lookup_insert_ne by (intros [= ? ?]; lia). reflexivity.
Qed.

Lemma view_store_zeros_pad (i j : Z) (dt : decimation_table) (k i' : Z) :
  texel_view
    (set_texel_weights_int_4t (j, i) 0
       (set_texel_weights_4t (j, i) 0
          (set_texel_weights_float_4t (j, i) 0 dt))) k i'
  = if decide (k = j ∧ i' = i) then written (0, 0, 0) else texel_view dt k i'.
Proof.
  unfold texel_view, written. stores. case_decide as Hd.
  - destruct Hd as [-> ->]. rewrite !lookup_insert_eq. reflexivity.
  - rewrite !lookup_insert_ne by (intros [= ? ?]; lia). reflexivity.
Qed.

Lemma view_set_texel_weight_count (i v : Z) (dt : decimation_table) (k i' : Z) :
  texel_view (set_texel_weight_count i v dt) k i' = texel_view dt k i'.
Proof. reflexivity. Qed.

(** One round of the texel loop, for either builder. *)
Definition transposes_texel
    (f : dt_locals → Z → decimation_table → decimation_table) : Prop :=
  ∀ st i dt,
    0 ≤ rd (weight_count_of_texel st) i ≤ 4 →
    texel_weight_count (f st i dt)
      = <[i := rd (weight_count_of_texel st) i]> (texel_weight_count dt) ∧
    ∀ k i', texel_view (f st i dt) k i'
            = if decide (i' = i ∧ 0 ≤ k < 4) then written (texel_slot st i k)
              else texel_view dt k i'.

Lemma for_loop_texel_weight_count
    (body : Z → decimation_table → decimation_table) (lo hi : Z)
    (dt : decimation_table) :
  (∀ j dt, texel_weight_count (body j dt) = texel_weight_count dt) →
  texel_weight_count (for_loop lo hi body dt) = texel_weight_count dt.
Proof.
  intros Hbody.
  apply (for_loop_preserves
           (λ dt', texel_weight_count dt' = texel_weight_count dt));
    [reflexivity|].
  intros j dt' _ Hdt'. rewrite Hbody. exact Hdt'.
Qed.

Lemma transpose_texel_2d_spec : transposes_texel transpose_texel_2d.
Proof.
  intros st i dt Hwc. unfold transpose_texel_2d. split.
  - rewrite !for_loop_texel_weight_count by reflexivity. reflexivity.
  - intros k i'.
    rewrite (fill_loop_view _ (λ _, written (0, 0, 0)) _ _ i)
      by (intros; apply view_store_zeros).
    rewrite (fill_loop_view _
               (λ j, written (rd (grid_weights_of_texel st) (i, j),
                              rd (weights_of_texel st) (i, j),
                              rd (weights_of_texel st) (i, j))) _ _ i)
      by (intros; apply view_store_values).
    rewrite view_set_texel_weight_count. unfold texel_slot.
    repeat case_decide; destruct (Z.ltb_spec k (rd (weight_count_of_texel st) i));
      try reflexivity; lia.
Qed.

Lemma transpose_texel_3d_spec : transposes_texel transpose_texel_3d.
Proof.
  intros st i dt Hwc. unfold transpose_texel_3d. split.
  - rewrite !for_loop_texel_weight_count by reflexivity. reflexivity.
  - intros k i'.
    rewrite (fill_loop_view _
               (λ j, written (rd (grid_weights_of_texel st) (i, j),
                              rd (weights_of_texel st) (i, j),
                              rd (weights_of_texel st) (i, j))) _ _ i)
      by (intros; apply view_store_values).
    rewrite (fill_loop_view _ (λ _, written (0, 0, 0)) _ _ i)
      by (intros; apply view_store_zeros).
    rewrite view_set_texel_weight_count. unfold texel_slot.
    repeat case_decide; destruct (Z.ltb_spec k (rd (weight_count_of_texel st) i));
      try reflexivity; lia.
Qed.

(** The texel-major arrays after the texel loop. *)
Lemma transpose_texels_spec
    (f : dt_locals → Z → decimation_table → decimation_table)
    (st : dt_locals) (texels_per_block : Z) (dt : decimation_table) :
  transposes_texel f →
  (∀ i, 0 ≤ i < texels_per_block → 0 ≤ rd (weight_count_of_texel st) i ≤ 4) →
  ∀ i, 0 ≤ i < texels_per_block →
    texel_weight_count (for_loop 0 texels_per_block (f st) dt) !! i
      = Some (rd (weight_count_of_texel st) i) ∧
    ∀ k, 0 ≤ k < 4 →
      texel_view (for_loop 0 texels_per_block (f st) dt) k i
        = written (texel_slot st i k).
Proof.
  intros Hf Hwc i Hi.
  apply (for_loop_ind
           (λ n dt', ∀ i, 0 ≤ i < n →
              texel_weight_count dt' !! i
                = Some (rd (weight_count_of_texel st) i) ∧
              ∀ k, 0 ≤ k < 4 → texel_view dt' k i = written (texel_slot st i k)));
    [lia| | |exact Hi].
  - intros i' Hi'. lia.
  - intros n dt' Hn IH i' Hi'.
    destruct (Hf st n dt' (Hwc n Hn)) as [Hcnt Hview].
    rewrite Hcnt. destruct (decide (i' = n)) as [->|Hne].
    + rewrite lookup_insert_eq. split; [reflexivity|]. intros k Hk.
      rewrite Hview. rewrite decide_True by lia. reflexivity.
    + rewrite lookup_insert_ne by lia. destruct (IH i' ltac:(lia)) as [H1 H2].
      split; [exact H1|]. intros k Hk. rewrite Hview.
      rewrite decide_False by lia. apply H2. exact Hk.
Qed.

(** ** Decimation tables: the weight-major arrays *)

(** The grid point and the float weight in slot [k] of [texel]. *)
Definition slot_grid (dt : decimation_table) (texel k : Z) : Z :=
  rd (texel_weights_4t dt) (k, texel).
Definition slot_float (dt : decimation_table) (texel k : Z) : float16 :=
  rd (texel_weights_float_4t dt) (k, texel).

(** The slot the unrolling loop leaves in [swap_idx]: the last slot of the
    texel that names weight [i] with a non-zero weight, or -1. *)
Definition find_swap (i : Z) (v f : Z → Z) : Z :=
  let test k s := if (v k =? i) && negb (f k =? 0) then k else s in
  test 3 (test 2 (test 1 (test 0 (-1)))).

(** Slots 0 and [s] of [v] exchanged. *)
Definition swapped (v : Z → Z) (s k : Z) : Z :=
  if k =? 0 then v s else if k =? s then v 0 else v k.

(** The arrays the weight loop only reads. *)
Definition same_texel_side (dt dt' : decimation_table) : Prop :=
  texel_weight_count dt' = texel_weight_count dt ∧
  texel_weights_4t dt' = texel_weights_4t dt ∧
  texel_weights_int_4t dt' = texel_weights_int_4t dt ∧
  texel_weights_float_4t dt' = texel_weights_float_4t dt.

Lemma same_texel_side_refl (dt : decimation_table) : same_texel_side dt dt.
Proof. repeat split; reflexivity. Qed.

Lemma same_texel_side_trans (d1 d2 d3 : decimation_table) :
  same_texel_side d1 d2 → same_texel_side d2 d3 → same_texel_side d1 d3.
Proof.
  intros (A1 & A2 & A3 & A4) (B1 & B2 & B3 & B4). repeat split; congruence.
Qed.

Lemma same_texel_side_view (dt dt' : decimation_table) (k i : Z) :
  same_texel_side dt dt' → texel_view dt' k i = texel_view dt k i.
Proof.
  intros (_ & H1 & H2 & H3). unfold texel_view. rewrite H1, H2, H3.
  reflexivity.
Qed.

Lemma for_loop_0_4 {S : Type} (body : Z → S → S) (s : S) :
  for_loop 0 4 body s = body 3 (body 2 (body 1 (body 0 s))).
Proof. reflexivity. Qed.

(** One round of the unrolling loop for entry [(i, j)]. *)
Lemma unroll_texel_step (i j texel k s : Z) (dt : decimation_table) :
  ∃ dt',
    unroll_texel i j texel k (s, dt)
      = (if (slot_grid dt texel k =? i) && negb (slot_float dt texel k =? 0)
         then k else s, dt') ∧
    same_texel_side dt dt' ∧
    weight_texel_count dt' = weight_texel_count dt ∧
    weight_texel dt' = weight_texel dt ∧
    texel_weights_texel dt'
      = <[(i, j, k) := slot_grid dt texel k]> (texel_weights_texel dt).
Proof.
  eexists. split; [reflexivity|].
  split; [repeat split; reflexivity|]. repeat split; reflexivity.
Qed.

Lemma same_texel_side_slots (dt dt' : decimation_table) (texel : Z) :
  same_texel_side dt dt' →
  slot_grid dt' texel = slot_grid dt texel ∧
  slot_float dt' texel = slot_float dt texel.
Proof.
  intros (_ & H1 & _ & H2). unfold slot_grid, slot_float.
  rewrite H1, H2. split; reflexivity.
Qed.

(** The unrolling loop for entry [(i, j)]: the four slots of [texel] are
    copied and [swap_idx] is found. *)
Lemma unroll_texel_loop (i j texel : Z) (dt : decimation_table) :
  ∃ dt4,
    for_loop 0 4 (unroll_texel i j texel) (-1, dt)
      = (find_swap i (slot_grid dt texel) (slot_float dt texel), dt4) ∧
    same_texel_side dt dt4 ∧
    weight_texel_count dt4 = weight_texel_count dt ∧
    weight_texel dt4 = weight_texel dt ∧
    (∀ i' j' k, (i', j') ≠ (i, j) →
       texel_weights_texel dt4 !! (i', j', k)
         = texel_weights_texel dt !! (i', j', k)) ∧
    (∀ k, 0 ≤ k < 4 →
       texel_weights_texel dt4 !! (i, j, k) = Some (slot_grid dt texel k)).
Proof.
  rewrite for_loop_0_4.
  destruct (unroll_texel_step i j texel 0 (-1) dt)
    as (dt1 & -> & S1 & C1 & W1 & T1).
  destruct (same_texel_side_slots dt dt1 texel S1) as [G1 F1].
  match goal with
  | |- context [unroll_texel i j texel 1 (?s, dt1)] =>
      destruct (unroll_texel_step i j texel 1 s dt1)
        as (dt2 & -> & S2 & C2 & W2 & T2)
  end.
  pose proof (same_texel_side_trans _ _ _ S1 S2) as S12.
  destruct (same_texel_side_slots dt dt2 texel S12) as [G2 F2].
  match goal with
  | |- context [unroll_texel i j texel 2 (?s, dt2)] =>
      destruct (unroll_texel_step i j texel 2 s dt2)
        as (dt3 & -> & S3 & C3 & W3 & T3)
  end.
  pose proof (same_texel_side_trans _ _ _ S12 S3) as S13.
  destruct (same_texel_side_slots dt dt3 texel S13) as [G3 F3].
  match goal with
  | |- context [unroll_texel i j texel 3 (?s, dt3)] =>
      destruct (unroll_texel_step i j texel 3 s dt3)
        as (dt4 & -> & S4 & C4 & W4 & T4)
  end.
  pose proof (same_texel_side_trans _ _ _ S13 S4) as S14.
  exists dt4. rewrite G1, F1, G2, F2, G3, F3 in *.
  split; [reflexivity|]. split; [exact S14|]. split; [congruence|].
  split; [congruence|]. rewrite T4, T3, T2, T1. split.
  - intros i' j' k Hne.
    rewrite !lookup_insert_ne by (intros [= ? ? ?]; congruence). reflexivity.
  - intros k Hk.
    assert (Hc : k = 0 ∨ k = 1 ∨ k = 2 ∨ k = 3) by lia.
    destruct Hc as [-> | [-> | [-> | ->]]];
      repeat first [ rewrite lookup_insert_eq; reflexivity
                   | rewrite lookup_insert_ne by (intros [= ?]) ].
Qed.

Lemma swap_identity_frame (i j s : Z) (dt : decimation_table) :
  same_texel_side dt (swap_identity i j s dt) ∧
  weight_texel_count (swap_identity i j s dt) = weight_texel_count dt ∧
  weight_texel (swap_identity i j s dt) = weight_texel dt ∧
  (∀ i' j' k, (i', j') ≠ (i, j) →
     texel_weights_texel (swap_identity i j s dt) !! (i', j', k)
       = texel_weights_texel dt !! (i', j', k)).
Proof.
  unfold swap_identity. destruct (negb (s =? 0)).
  - split; [repeat split; reflexivity|]. split; [reflexivity|].
    split; [reflexivity|]. intros i' j' k Hne. stores.
    rewrite !lookup_insert_ne by (intros [= ? ? ?]; congruence). reflexivity.
  - split; [apply same_texel_side_refl|]. repeat split; reflexivity.
Qed.

Lemma swap_identity_slots (i j s : Z) (dt : decimation_table) (v : Z → Z) :
  0 ≤ s < 4 →
  (∀ k, 0 ≤ k < 4 → texel_weights_texel dt !! (i, j, k) = Some (v k)) →
  ∀ k, 0 ≤ k < 4 →
    texel_weights_texel (swap_identity i j s dt) !! (i, j, k)
      = Some (swapped v s k).
Proof.
  intros Hs Hv k Hk. unfold swap_identity, swapped.
  destruct (Z.eqb_spec s 0) as [->|Hne]; cbn [negb].
  - rewrite (Hv k Hk). destruct (Z.eqb_spec k 0) as [->|Hk0]; reflexivity.
  - stores. destruct (Z.eqb_spec k 0) as [->|Hk0].
    + rewrite lookup_insert_ne by (intros [= ?]; lia).
      rewrite lookup_insert_eq. f_equal. apply rd_lookup, Hv. lia.
    + destruct (Z.eqb_spec k s) as [->|Hks].
      * rewrite lookup_insert_eq. f_equal. apply rd_lookup, Hv. lia.
      * rewrite !lookup_insert_ne by (intros [= ?]; lia). apply Hv, Hk.
Qed.

(** Entry [j] of weight [i]. *)
Lemma transpose_weight_texel_spec (st : dt_locals) (i j : Z)
    (dt : decimation_table) :
  let texel := rd (texels_of_weight st) (i, j) in
  let s := find_swap i (slot_grid dt texel) (slot_float dt texel) in
  let dt' := transpose_weight_texel st i j dt in
  same_texel_side dt dt' ∧
  weight_texel_count dt' = weight_texel_count dt ∧
  weight_texel dt' = <[(j, i) := texel]> (weight_texel dt) ∧
  (∀ i' j' k, (i', j') ≠ (i, j) →
     texel_weights_texel dt' !! (i', j', k)
       = texel_weights_texel dt !! (i', j', k)) ∧
  (0 ≤ s < 4 → ∀ k, 0 ≤ k < 4 →
     texel_weights_texel dt' !! (i, j, k)
       = Some (swapped (slot_grid dt texel) s k)).
Proof.
  cbv zeta. unfold transpose_weight_texel. cbv zeta.
  set (texel := rd (texels_of_weight st) (i, j)).
  set (dt1 := set_weights_flt _ _ (set_weight_texel _ _ dt)).
  assert (D1 : same_texel_side dt dt1) by (repeat split; reflexivity).
  assert (D2 : weight_texel_count dt1 = weight_texel_count dt) by reflexivity.
  assert (D3 : weight_texel dt1 = <[(j, i) := texel]> (weight_texel dt))
    by reflexivity.
  assert (D4 : texel_weights_texel dt1 = texel_weights_texel dt)
    by reflexivity.
  destruct (same_texel_side_slots dt dt1 texel D1) as [Hg Hf].
  destruct (unroll_texel_loop i j texel dt1)
    as (dt4 & -> & U1 & U2 & U3 & U4 & U5).
  rewrite Hg, Hf. rewrite Hg in U5.
  set (s := find_swap i (slot_grid dt texel) (slot_float dt texel)).
  clearbody dt1.
  destruct (swap_identity_frame i j s dt4) as (S1 & S2 & S3 & S4).
  split; [eapply same_texel_side_trans;
            [exact D1|eapply same_texel_side_trans; eassumption]|].
  split; [congruence|]. split; [congruence|]. split.
  - intros i' j' k Hne. rewrite S4, U4 by exact Hne. rewrite D4. reflexivity.
  - intros Hs k Hk. apply swap_identity_slots; assumption.
Qed.

Ltac key_ne := let H := fresh in intros H; simplify_eq; lia.

(** The entries of weight [i] once its first [n] texels are unrolled, in
    terms of the table [dt] the round started from. *)
Definition weight_done (st : dt_locals) (i n : Z)
    (dt dt' : decimation_table) : Prop :=
  same_texel_side dt dt' ∧
  (∀ j, 0 ≤ j < n →
     weight_texel dt' !! (j, i) = Some (rd (texels_of_weight st) (i, j))) ∧
  (∀ j i', i' ≠ i → weight_texel dt' !! (j, i') = weight_texel dt !! (j, i')) ∧
  (∀ i' j k, i' ≠ i →
     texel_weights_texel dt' !! (i', j, k) = texel_weights_texel dt !! (i', j, k)) ∧
  (∀ j, 0 ≤ j < n →
     let texel := rd (texels_of_weight st) (i, j) in
     let s := find_swap i (slot_grid dt texel) (slot_float dt texel) in
     0 ≤ s < 4 → ∀ k, 0 ≤ k < 4 →
       texel_weights_texel dt' !! (i, j, k)
         = Some (swapped (slot_grid dt texel) s k)).

Lemma transpose_weight_entries (st : dt_locals) (i n : Z)
    (dt : decimation_table) :
  0 ≤ n →
  weight_texel_count (for_loop 0 n (transpose_weight_texel st i) dt)
    = weight_texel_count dt ∧
  weight_done st i n dt (for_loop 0 n (transpose_weight_texel st i) dt).
Proof.
  intros Hn.
  apply (for_loop_ind
           (λ m dt', weight_texel_count dt' = weight_texel_count dt ∧
                     weight_done st i m dt dt')); [exact Hn| |].
  - split; [reflexivity|]. split; [apply same_texel_side_refl|].
    split; [intros; lia|]. split; [reflexivity|]. split; [reflexivity|].
    intros; lia.
  - intros m dt' Hm (I2 & I1 & I3 & I4 & I5 & I6).
    destruct (transpose_weight_texel_spec st i m dt')
      as (T1 & T2 & T3 & T4 & T5).
    destruct (same_texel_side_slots dt dt' (rd (texels_of_weight st) (i, m)) I1)
      as [Hg Hf].
    rewrite Hg, Hf in T5.
    split; [congruence|].
    split; [eapply same_texel_side_trans; eassumption|].
    split; [|split; [|split]].
    + intros j Hj. rewrite T3. destruct (decide (j = m)) as [->|Hne].
      * apply lookup_insert_eq.
      * rewrite lookup_insert_ne by key_ne. apply I3. lia.
    + intros j i' Hi'. rewrite T3.
      rewrite lookup_insert_ne by key_ne. apply I4. exact Hi'.
    + intros i' j k Hi'. rewrite T4 by key_ne.
      apply I5. exact Hi'.
    + intros j Hj. cbv zeta. intros Hs k Hk.
      destruct (decide (j = m)) as [->|Hne].
      * apply T5; assumption.
      * rewrite T4 by key_ne. apply I6; [lia|exact Hs|exact Hk].
Qed.

(** The tail loop of one weight keeps its real entries. *)
Lemma weight_tail_frame (i lo hi last_texel : Z) (dt : decimation_table) :
  let dt' :=
    for_loop lo hi (λ j dt,
      let dt := set_weight_texel (j, i) last_texel dt in
      set_weights_flt (j, i) 0 dt) dt in
  same_texel_side dt dt' ∧
  weight_texel_count dt' = weight_texel_count dt ∧
  texel_weights_texel dt' = texel_weights_texel dt ∧
  (∀ j i', i' ≠ i ∨ j < lo → weight_texel dt' !! (j, i') = weight_texel dt !! (j, i')).
Proof.
  cbv zeta.
  apply (for_loop_preserves
           (λ dt', same_texel_side dt dt' ∧
                   weight_texel_count dt' = weight_texel_count dt ∧
                   texel_weights_texel dt' = texel_weights_texel dt ∧
                   ∀ j i', i' ≠ i ∨ j < lo →
                     weight_texel dt' !! (j, i') = weight_texel dt !! (j, i'))).
  - split; [apply same_texel_side_refl|]. repeat split; reflexivity.
  - intros j dt' Hj (H1 & H2 & H3 & H4). cbv zeta.
    split; [destruct H1 as (? & ? & ? & ?); repeat split; assumption|].
    split; [exact H2|]. split; [exact H3|].
    intros j' i' Hji. stores.
    rewrite lookup_insert_ne by key_ne. apply H4. exact Hji.
Qed.

(** One round of the weight loop. *)
Lemma transpose_weight_spec (st : dt_locals) (i : Z) (dt : decimation_table) :
  0 ≤ rd (texel_count_of_weight st) i →
  let dt' := transpose_weight st i dt in
  weight_texel_count dt'
    = <[i := u8 (rd (texel_count_of_weight st) i)]> (weight_texel_count dt) ∧
  weight_done st i (rd (texel_count_of_weight st) i) dt dt'.
Proof.
  intros Htc. cbv zeta. unfold transpose_weight. cbv zeta.
  set (tc := rd (texel_count_of_weight st) i) in *.
  set (dt1 := set_weight_texel_count i (u8 tc) dt).
  pose proof (transpose_weight_entries st i tc dt1 Htc)
    as (I2 & I1 & I3 & I4 & I5 & I6).
  set (dt2 := for_loop 0 tc (transpose_weight_texel st i) dt1) in *.
  destruct (weight_tail_frame i tc (max_texel_count_of_weight st)
              (rd (weight_texel dt2) (tc - 1, i)) dt2) as (F1 & F2 & F3 & F4).
  cbv zeta in F1, F2, F3, F4.
  assert (D1 : same_texel_side dt dt1) by (repeat split; reflexivity).
  split.
  - rewrite F2, I2. reflexivity.
  - split.
    { apply (same_texel_side_trans _ dt1); [exact D1|].
      apply (same_texel_side_trans _ dt2); [exact I1|exact F1]. }
    split; [|split; [|split]].
    + intros j Hj. rewrite F4 by lia. apply I3. exact Hj.
    + intros j i' Hi'. rewrite F4 by lia. rewrite I4 by exact Hi'. reflexivity.
    + intros i' j k Hi'. rewrite F3. rewrite I5 by exact Hi'. reflexivity.
    + intros j Hj. cbv zeta. intros Hs k Hk. rewrite F3.
      destruct (same_texel_side_slots dt dt1 (rd (texels_of_weight st) (i, j)) D1)
        as [Hg Hf].
      specialize (I6 j Hj). cbv zeta in I6. rewrite Hg, Hf in I6.
      apply I6; assumption.
Qed.

(** ** Decimation tables: the finished table *)

Definition slot_q (st : dt_locals) (texel k : Z) : Z := (texel_slot st texel k).1.1.
Definition slot_w (st : dt_locals) (texel k : Z) : float16 := (texel_slot st texel k).2.

Lemma find_swap_ext (i : Z) (v f v' f' : Z → Z) :
  (∀ k, 0 ≤ k < 4 → v k = v' k) → (∀ k, 0 ≤ k < 4 → f k = f' k) →
  find_swap i v f = find_swap i v' f'.
Proof.
  intros Hv Hf. unfold find_swap. cbv zeta.
  rewrite !Hv, !Hf by lia. reflexivity.
Qed.

Lemma swapped_ext (v v' : Z → Z) (s k : Z) :
  (∀ k, 0 ≤ k < 4 → v k = v' k) → 0 ≤ s < 4 → 0 ≤ k < 4 →
  swapped v s k = swapped v' s k.
Proof.
  intros Hv Hs Hk. unfold swapped. rewrite !Hv by lia. reflexivity.
Qed.

Lemma view_slots (dt : decimation_table) (st : dt_locals) (texel : Z) :
  (∀ k, 0 ≤ k < 4 → texel_view dt k texel = written (texel_slot st texel k)) →
  ∀ k, 0 ≤ k < 4 →
    slot_grid dt texel k = slot_q st texel k ∧
    slot_float dt texel k = slot_w st texel k.
Proof.
  intros Hview k Hk. specialize (Hview k Hk).
  unfold texel_view, written in Hview. injection Hview as H1 H2 H3.
  unfold slot_grid, slot_float, slot_q, slot_w, rd, float16 in *.
  rewrite H1, H3. split; reflexivity.
Qed.

(** The weight-major arrays after the weight loop. *)
Lemma transpose_weights_spec (st : dt_locals) (weights_per_block : Z)
    (dt : decimation_table) :
  (∀ i, 0 ≤ i < weights_per_block → 0 ≤ rd (texel_count_of_weight st) i) →
  let dt' := for_loop 0 weights_per_block (transpose_weight st) dt in
  same_texel_side dt dt' ∧
  ∀ i, 0 ≤ i < weights_per_block →
    weight_texel_count dt' !! i = Some (u8 (rd (texel_count_of_weight st) i)) ∧
    ∀ j, 0 ≤ j < rd (texel_count_of_weight st) i →
      weight_texel dt' !! (j, i) = Some (rd (texels_of_weight st) (i, j)) ∧
      (let texel := rd (texels_of_weight st) (i, j) in
       let s := find_swap i (slot_grid dt texel) (slot_float dt texel) in
       0 ≤ s < 4 → ∀ k, 0 ≤ k < 4 →
         texel_weights_texel dt' !! (i, j, k)
           = Some (swapped (slot_grid dt texel) s k)).
Proof.
  intros Htc. cbv zeta.
  destruct (Z_le_gt_dec 0 weights_per_block) as [Hle|Hgt].
  2: { rewrite for_loop_empty by lia. split; [apply same_texel_side_refl|].
       intros; lia. }
  apply (for_loop_ind
    (λ n dt',
       same_texel_side dt dt' ∧
       ∀ i, 0 ≤ i < n →
         weight_texel_count dt' !! i
           = Some (u8 (rd (texel_count_of_weight st) i)) ∧
         ∀ j, 0 ≤ j < rd (texel_count_of_weight st) i →
           weight_texel dt' !! (j, i) = Some (rd (texels_of_weight st) (i, j)) ∧
           (let texel := rd (texels_of_weight st) (i, j) in
            let s := find_swap i (slot_grid dt texel) (slot_float dt texel) in
            0 ≤ s < 4 → ∀ k, 0 ≤ k < 4 →
              texel_weights_texel dt' !! (i, j, k)
                = Some (swapped (slot_grid dt texel) s k))));
    [exact Hle| |].
  - split; [apply same_texel_side_refl|]. intros; lia.
  - intros n dt' Hn [Hside IH].
    destruct (transpose_weight_spec st n dt' (Htc n Hn))
      as (Hcnt & W1 & W3 & W4 & W5 & W6).
    split; [eapply same_texel_side_trans; eassumption|].
    intros i Hi. rewrite Hcnt. destruct (decide (i = n)) as [->|Hne].
    + rewrite lookup_insert_eq. split; [reflexivity|]. intros j Hj.
      split; [apply W3; exact Hj|]. cbv zeta. intros Hs k Hk.
      destruct (same_texel_side_slots dt dt'
                  (rd (texels_of_weight st) (n, j)) Hside) as [Hg Hf].
      specialize (W6 j Hj). cbv zeta in W6. rewrite Hg, Hf in W6.
      apply W6; assumption.
    + rewrite lookup_insert_ne by lia.
      destruct (IH i ltac:(lia)) as [H1 H2]. split; [exact H1|].
      intros j Hj. destruct (H2 j Hj) as [H3 H4].
      split; [rewrite W4 by exact Hne; exact H3|].
      cbv zeta. intros Hs k Hk. rewrite W5 by exact Hne.
      apply H4; assumption.
Qed.

(** The arrays a loop over the weight side leaves alone. *)
Definition same_weight_side (dt dt' : decimation_table) : Prop :=
  weight_texel_count dt' = weight_texel_count dt ∧
  weight_texel dt' = weight_texel dt ∧
  texel_weights_texel dt' = texel_weights_texel dt.

Section Padding.
Variable round_up_to_simd_multiple_vla : Z → Z.

Lemma pad_texels_frame (texels_per_block : Z) (dt : decimation_table) :
  let dt' := pad_texels round_up_to_simd_multiple_vla texels_per_block dt in
  same_weight_side dt dt' ∧
  ∀ i, i < texels_per_block →
    texel_weight_count dt' !! i = texel_weight_count dt !! i ∧
    ∀ k, texel_view dt' k i = texel_view dt k i.
Proof.
  cbv zeta. unfold pad_texels. cbv zeta.
  apply (for_loop_preserves
    (λ dt', same_weight_side dt dt' ∧
            ∀ i, i < texels_per_block →
              texel_weight_count dt' !! i = texel_weight_count dt !! i ∧
              ∀ k, texel_view dt' k i = texel_view dt k i)).
  - split; [repeat split; reflexivity|]. intros i Hi. split; reflexivity.
  - intros i0 dt' Hi0 [(S1 & S2 & S3) IH]. cbv zeta. split.
    + apply (for_loop_preserves (same_weight_side dt)).
      * repeat split; assumption.
      * intros j d _ (A1 & A2 & A3). repeat split; assumption.
    + intros i Hi. destruct (IH i Hi) as [H1 H2]. split.
      * rewrite for_loop_texel_weight_count by reflexivity. stores.
        rewrite lookup_insert_ne by lia. exact H1.
      * intros k.
        rewrite (fill_loop_view _ (λ _, written (0, 0, 0)) _ _ i0)
          by (intros; apply view_store_zeros_pad).
        rewrite decide_False by lia. rewrite view_set_texel_weight_count.
        apply H2.
Qed.

Lemma pad_weights_frame (st : dt_locals) (weights_per_block : Z)
    (dt : decimation_table) :
  let dt' :=
    pad_weights round_up_to_simd_multiple_vla st weights_per_block dt in
  same_texel_side dt dt' ∧
  texel_weights_texel dt' = texel_weights_texel dt ∧
  ∀ i, i < weights_per_block →
    weight_texel_count dt' !! i = weight_texel_count dt !! i ∧
    ∀ j, weight_texel dt' !! (j, i) = weight_texel dt !! (j, i).
Proof.
  cbv zeta. unfold pad_weights. cbv zeta.
  set (last_texel := rd (weight_texel dt) _).
  apply (for_loop_preserves
    (λ dt', same_texel_side dt dt' ∧
            texel_weights_texel dt' = texel_weights_texel dt ∧
            ∀ i, i < weights_per_block →
              weight_texel_count dt' !! i = weight_texel_count dt !! i ∧
              ∀ j, weight_texel dt' !! (j, i) = weight_texel dt !! (j, i))).
  - split; [apply same_texel_side_refl|]. split; [reflexivity|].
    intros i Hi. split; reflexivity.
  - intros i0 dt' Hi0 (S1 & S2 & IH). cbv zeta.
    destruct (weight_tail_frame i0 0 (max_texel_count_of_weight st)
                last_texel (set_weight_texel_count i0 0 dt'))
      as (F1 & F2 & F3 & F4).
    cbv zeta in F1, F2, F3, F4.
    split; [|split].
    + apply (same_texel_side_trans _ dt'); [exact S1|].
      apply (same_texel_side_trans _ (set_weight_texel_count i0 0 dt'));
        [repeat split; reflexivity|exact F1].
    + rewrite F3. exact S2.
    + intros i Hi. destruct (IH i Hi) as [H1 H2]. split.
      * rewrite F2. stores. rewrite lookup_insert_ne by lia. exact H1.
      * intros j. rewrite F4 by lia. apply H2.
Qed.
End Padding.

(** What a finished table holds, in terms of the local arrays [st] of the
    builder: the texel-major arrays for the texels below
    [texels_per_block] and the weight-major arrays for the weights below
    [weights_per_block]. *)
Definition table_built (st : dt_locals) (texels_per_block weights_per_block : Z)
    (dt : decimation_table) : Prop :=
  dt_texel_count dt = texels_per_block ∧
  dt_weight_count dt = weights_per_block ∧
  (∀ i, 0 ≤ i < texels_per_block →
     texel_weight_count dt !! i = Some (rd (weight_count_of_texel st) i) ∧
     ∀ k, 0 ≤ k < 4 → texel_view dt k i = written (texel_slot st i k)) ∧
  (∀ i, 0 ≤ i < weights_per_block →
     weight_texel_count dt !! i = Some (u8 (rd (texel_count_of_weight st) i)) ∧
     ∀ j, 0 ≤ j < rd (texel_count_of_weight st) i →
       weight_texel dt !! (j, i) = Some (rd (texels_of_weight st) (i, j)) ∧
       (let texel := rd (texels_of_weight st) (i, j) in
        let s := find_swap i (slot_q st texel) (slot_w st texel) in
        0 ≤ texel < texels_per_block → 0 ≤ s < 4 → ∀ k, 0 ≤ k < 4 →
          texel_weights_texel dt !! (i, j, k)
            = Some (swapped (slot_q st texel) s k))).

Section Builders.
Variable round_up_to_simd_multiple_vla : Z → Z.

Lemma finish_table
    (f : dt_locals → Z → decimation_table → decimation_table)
    (st : dt_locals) (texels_per_block weights_per_block wx wy wz : Z)
    (dt : decimation_table) :
  transposes_texel f →
  (∀ i, 0 ≤ i < texels_per_block →
     0 ≤ rd (weight_count_of_texel st) i ≤ 4) →
  (∀ i, 0 ≤ i < weights_per_block → 0 ≤ rd (texel_count_of_weight st) i) →
  table_built st texels_per_block weights_per_block
    (set_dt_dims texels_per_block weights_per_block wx wy wz
       (pad_weights round_up_to_simd_multiple_vla st weights_per_block
          (pad_texels round_up_to_simd_multiple_vla texels_per_block
             (for_loop 0 weights_per_block (transpose_weight st)
                (for_loop 0 texels_per_block (f st) dt))))).
Proof.
  intros Hf Hwc Htc.
  set (dt1 := for_loop 0 texels_per_block (f st) dt).
  pose proof (transpose_texels_spec f st texels_per_block dt Hf Hwc) as HT.
  fold dt1 in HT.
  destruct (transpose_weights_spec st weights_per_block dt1 Htc) as [HS HW].
  set (dt2 := for_loop 0 weights_per_block (transpose_weight st) dt1) in *.
  destruct (pad_texels_frame round_up_to_simd_multiple_vla texels_per_block dt2)
    as [(P1 & P2 & P3) PT].
  set (dt3 := pad_texels _ texels_per_block dt2) in *.
  destruct (pad_weights_frame round_up_to_simd_multiple_vla st
              weights_per_block dt3) as (Q1 & Q2 & QW).
  set (dt4 := pad_weights _ st weights_per_block dt3) in *.
  clearbody dt4 dt3 dt2 dt1.
  assert (Hview : ∀ i, 0 ≤ i < texels_per_block →
            texel_weight_count dt4 !! i
              = Some (rd (weight_count_of_texel st) i) ∧
            ∀ k, 0 ≤ k < 4 → texel_view dt4 k i = written (texel_slot st i k)).
  { intros i Hi. destruct (HT i Hi) as [H1 H2].
    destruct (PT i ltac:(lia)) as [H3 H4].
    pose proof Q1 as (Q1a & _). split.
    - rewrite Q1a, H3. pose proof HS as (HSa & _). rewrite HSa. exact H1.
    - intros k Hk. rewrite (same_texel_side_view dt3 dt4) by exact Q1.
      rewrite H4. rewrite (same_texel_side_view dt1 dt2) by exact HS.
      apply H2. exact Hk. }
  unfold table_built. unfold set_dt_dims. cbn.
  split; [reflexivity|]. split; [reflexivity|]. split; [exact Hview|].
  intros i Hi. destruct (HW i Hi) as [W1 W2].
  destruct (QW i ltac:(lia)) as [Q3 Q4]. split.
  - rewrite Q3, P1. exact W1.
  - intros j Hj. destruct (W2 j Hj) as [W3 W4]. split.
    + rewrite Q4, P2. exact W3.
    + cbv zeta. intros Htex Hs k Hk. rewrite Q2, P3.
      set (texel := rd (texels_of_weight st) (i, j)) in *.
      assert (Hslots : ∀ k, 0 ≤ k < 4 →
                slot_grid dt1 texel k = slot_q st texel k ∧
                slot_float dt1 texel k = slot_w st texel k).
      { apply view_slots. intros k' Hk'.
        destruct (HT texel Htex) as [_ H2]. apply H2. exact Hk'. }
      cbv zeta in W4.
      rewrite (find_swap_ext i (slot_grid dt1 texel) (slot_float dt1 texel)
                 (slot_q st texel) (slot_w st texel)) in W4
        by (intros; apply Hslots; assumption).
      rewrite W4 by assumption. f_equal.
      apply swapped_ext; [|exact Hs|exact Hk].
      intros; apply Hslots; assumption.
Qed.

Lemma initialize_decimation_table_2d_unfold
    (x_texels y_texels x_weights y_weights : Z) (dt : decimation_table) :
  let texels_per_block := x_texels * y_texels in
  let weights_per_block := x_weights * y_weights in
  let st :=
    accumulate (plan_2d x_texels y_texels x_weights y_weights)
      (init_dt_locals texels_per_block weights_per_block) in
  initialize_decimation_table_2d round_up_to_simd_multiple_vla
    x_texels y_texels x_weights y_weights dt
  = set_dt_dims texels_per_block weights_per_block x_weights y_weights 1
      (pad_weights round_up_to_simd_multiple_vla st weights_per_block
         (pad_texels round_up_to_simd_multiple_vla texels_per_block
            (for_loop 0 weights_per_block (transpose_weight st)
               (for_loop 0 texels_per_block (transpose_texel_2d st) dt)))).
Proof.
  cbv zeta. unfold initialize_decimation_table_2d. cbv zeta.
  rewrite accumulate_plan_2d. reflexivity.
Qed.

Lemma initialize_decimation_table_3d_unfold
    (x_texels y_texels z_texels x_weights y_weights z_weights : Z)
    (dt : decimation_table) :
  let texels_per_block := x_texels * y_texels * z_texels in
  let weights_per_block := x_weights * y_weights * z_weights in
  let st :=
    accumulate
      (plan_3d x_texels y_texels z_texels x_weights y_weights z_weights)
      (init_dt_locals texels_per_block weights_per_block) in
  initialize_decimation_table_3d round_up_to_simd_multiple_vla
    x_texels y_texels z_texels x_weights y_weights z_weights dt
  = set_dt_dims texels_per_block weights_per_block x_weights y_weights
      z_weights
      (pad_weights round_up_to_simd_multiple_vla st weights_per_block
         (pad_texels round_up_to_simd_multiple_vla texels_per_block
            (for_loop 0 weights_per_block (transpose_weight st)
               (for_loop 0 texels_per_block (transpose_texel_3d st) dt)))).
Proof.
  cbv zeta. unfold initialize_decimation_table_3d. cbv zeta.
  rewrite accumulate_plan_3d. reflexivity.
Qed.
End Builders.

(** ** Decimation tables: rows of the finished table *)

Lemma texel_count_of_weight_nonneg (l : list contrib) (st : dt_locals) :
  (∀ q, 0 ≤ rd (texel_count_of_weight st) q) →
  ∀ q, 0 ≤ rd (texel_count_of_weight (accumulate l st)) q.
Proof.
  revert st. induction l as [|c l IH]; intros st Hst; [exact Hst|].
  simpl. apply IH. intros q. unfold apply_contrib, add_texel_weight. simpl.
  destruct (decide (c_grid c = q)) as [->|Hne].
  - rewrite rd_insert_eq. apply u8_range.
  - rewrite rd_insert_ne by exact Hne. apply Hst.
Qed.

Lemma init_dt_locals_nonneg (texels_per_block weights_per_block q : Z) :
  0 ≤ rd (texel_count_of_weight
            (init_dt_locals texels_per_block weights_per_block)) q.
Proof. unfold init_dt_locals. simpl. rewrite zero_fill_rd. lia. Qed.

Lemma plan_texels_length (n : Z) (l : list contrib) (T : Z) :
  plan_texels n l → (length (of_texel l T) ≤ 4)%nat.
Proof.
  intros [Hout Hin]. destruct (decide (0 ≤ T < n)) as [HT|HT].
  - destruct (Hin T HT) as (qs & ws & -> & Hw).
    destruct (texel_contribs_facts T qs ws Hw) as (Hlen & _). lia.
  - rewrite (Hout T HT). simpl. lia.
Qed.

(** The local arrays of a builder that accumulated the plan [l]. *)
Definition locals_of (l : list contrib)
    (texels_per_block weights_per_block : Z) : dt_locals :=
  accumulate l (init_dt_locals texels_per_block weights_per_block).

(** The texel-major row of texel [i]: its contributions in order, then
    zeros. *)
Lemma texel_row (n weights_per_block : Z) (l : list contrib)
    (dt : decimation_table) (i : Z) :
  plan_texels n l →
  table_built (locals_of l n weights_per_block) n weights_per_block dt →
  0 ≤ i < n →
  ∃ qs ws,
    of_texel l i = texel_contribs i qs ws ∧ weights_ok ws ∧
    texel_weight_count dt !! i = Some (Z.of_nat (length (of_texel l i))) ∧
    (∀ s c, of_texel l i !! s = Some c →
       texel_weights_4t dt !! (Z.of_nat s, i) = Some (u8 (c_grid c)) ∧
       texel_weights_int_4t dt !! (Z.of_nat s, i) = Some (c_weight c) ∧
       texel_weights_float_4t dt !! (Z.of_nat s, i) = Some (c_weight c)) ∧
    (∀ k, Z.of_nat (length (of_texel l i)) ≤ k < 4 →
       texel_weights_4t dt !! (k, i) = Some 0 ∧
       texel_weights_int_4t dt !! (k, i) = Some 0 ∧
       texel_weights_float_4t dt !! (k, i) = Some 0).
Proof.
  intros Hplan (_ & _ & HT & _) Hi.
  pose proof (accumulate_init l n weights_per_block) as Hside.
  specialize (Hside ltac:(intros T; pose proof (plan_texels_length n l T Hplan); lia)).
  fold (locals_of l n weights_per_block) in Hside.
  destruct (Hside i) as [Hcnt Hslots].
  destruct Hplan as [_ Hin]. destruct (Hin i Hi) as (qs & ws & Heq & Hw).
  destruct (texel_contribs_facts i qs ws Hw) as (Hlen & _ & Hmem & _).
  rewrite <- Heq in Hlen, Hmem.
  destruct (HT i Hi) as [Hwc Hview].
  exists qs, ws. split; [exact Heq|]. split; [exact Hw|].
  split; [rewrite Hwc, Hcnt; reflexivity|]. split.
  - intros s c Hs.
    assert (Hlt : (s < length (of_texel l i))%nat)
      by (apply lookup_lt_Some in Hs; exact Hs).
    specialize (Hview (Z.of_nat s) ltac:(lia)).
    unfold texel_view, written, texel_slot in Hview. rewrite Hcnt in Hview.
    destruct (Z.ltb_spec (Z.of_nat s) (Z.of_nat (length (of_texel l i))));
      [|lia].
    destruct (Hslots s c Hs) as [Hg Hwt].
    rewrite (rd_lookup _ _ _ Hg), (rd_lookup _ _ _ Hwt) in Hview.
    assert (Hc : c ∈ of_texel l i) by (apply list_elem_of_lookup; eauto).
    destruct (Hmem c Hc) as [_ Hcw].
    rewrite (u8_small (c_weight c)) in Hview by lia.
    simpl in Hview. injection Hview as H1 H2 H3. repeat split; assumption.
  - intros k Hk. specialize (Hview k ltac:(lia)).
    unfold texel_view, written, texel_slot in Hview. rewrite Hcnt in Hview.
    destruct (Z.ltb_spec k (Z.of_nat (length (of_texel l i)))); [lia|].
    simpl in Hview. injection Hview as H1 H2 H3. repeat split; assumption.
Qed.

Lemma total_weight_snoc (l : list contrib) (c : contrib) :
  total_weight (l ++ [c]) = total_weight l + c_weight c.
Proof.
  unfold total_weight. induction l as [|c' l IH]; simpl; [lia|].
  rewrite IH. lia.
Qed.

Definition sum_list_Z (l : list Z) : Z := foldr Z.add 0 l.

Lemma sum_list_Z_snoc (l : list Z) (x : Z) :
  sum_list_Z (l ++ [x]) = sum_list_Z l + x.
Proof.
  unfold sum_list_Z. induction l as [|y l IH]; simpl; [lia|].
  rewrite IH. lia.
Qed.

(** Summing a per-slot value over the slots of a list of contributions
    gives their total weight. *)
Lemma sum_slots (l : list contrib) (g : Z → Z) :
  (∀ s c, l !! s = Some c → g (Z.of_nat s) = c_weight c) →
  sum_list_Z (map g (seqZ 0 (Z.of_nat (length l)))) = total_weight l.
Proof.
  induction l as [|c l IH] using rev_ind; intros Hg; [reflexivity|].
  rewrite length_app. simpl length.
  replace (Z.of_nat (length l + 1)) with (Z.of_nat (length l) + 1) by lia.
  rewrite seqZ_app by lia. rewrite map_app, total_weight_snoc.
  change (seqZ (0 + Z.of_nat (length l)) 1) with [0 + Z.of_nat (length l)].
  simpl map. rewrite sum_list_Z_snoc. rewrite IH.
  - f_equal. rewrite Z.add_0_l. apply Hg.
    rewrite lookup_app_r by lia. rewrite Nat.sub_diag. reflexivity.
  - intros s c' Hs. apply Hg. rewrite lookup_app_l; [exact Hs|].
    apply lookup_lt_Some in Hs. exact Hs.
Qed.

(** ** The tables [init] builds *)

(** A block size with a weight grid: what a decimation table is built
    for, by [construct_dt_entry_2d] or by the grid loops of the 3D
    assembler. *)
Inductive grid_request :=
  | Grid2D (x_texels y_texels x_weights y_weights : Z)
  | Grid3D (x_texels y_texels z_texels x_weights y_weights z_weights : Z).

Definition request_texels (r : grid_request) : Z :=
  match r with
  | Grid2D tx ty _ _ => tx * ty
  | Grid3D tx ty tz _ _ _ => tx * ty * tz
  end.

Definition request_weights (r : grid_request) : Z :=
  match r with
  | Grid2D _ _ wx wy => wx * wy
  | Grid3D _ _ _ wx wy wz => wx * wy * wz
  end.

Definition request_plan (r : grid_request) : list contrib :=
  match r with
  | Grid2D tx ty wx wy => plan_2d tx ty wx wy
  | Grid3D tx ty tz wx wy wz => plan_3d tx ty tz wx wy wz
  end.

(** Each axis of the weight grid has from 2 up to as many points as the
    block has texels on that axis, and the block has at most 12. *)
Definition grid_in_block (r : grid_request) : Prop :=
  match r with
  | Grid2D tx ty wx wy => 2 ≤ wx ≤ tx ∧ tx ≤ 12 ∧ 2 ≤ wy ≤ ty ∧ ty ≤ 12
  | Grid3D tx ty tz wx wy wz =>
      2 ≤ wx ≤ tx ∧ tx ≤ 12 ∧ 2 ≤ wy ≤ ty ∧ ty ≤ 12 ∧ 2 ≤ wz ≤ tz ∧ tz ≤ 12
  end.

(** Moreover the table fits the arrays: at most [MAX_TEXELS_PER_BLOCK]
    texels and [MAX_WEIGHTS_PER_BLOCK] weights. *)
Definition supported (r : grid_request) : Prop :=
  grid_in_block r ∧
  request_texels r ≤ MAX_TEXELS_PER_BLOCK ∧
  request_weights r ≤ MAX_WEIGHTS_PER_BLOCK.

Section BuiltTables.
Variable round_up_to_simd_multiple_vla : Z → Z.

Definition build_table (r : grid_request) (dt : decimation_table)
    : decimation_table :=
  match r with
  | Grid2D tx ty wx wy =>
      initialize_decimation_table_2d round_up_to_simd_multiple_vla
        tx ty wx wy dt
  | Grid3D tx ty tz wx wy wz =>
      initialize_decimation_table_3d round_up_to_simd_multiple_vla
        tx ty tz wx wy wz dt
  end.

Lemma request_plan_texels (r : grid_request) :
  grid_in_block r → plan_texels (request_texels r) (request_plan r).
Proof.
  destruct r as [tx ty wx wy|tx ty tz wx wy wz]; simpl; intros H.
  - apply plan_2d_texels; lia.
  - apply plan_3d_texels; lia.
Qed.

Lemma build_table_built (r : grid_request) (dt0 : decimation_table) :
  grid_in_block r →
  table_built
    (locals_of (request_plan r) (request_texels r) (request_weights r))
    (request_texels r) (request_weights r) (build_table r dt0).
Proof.
  intros Hr. pose proof (request_plan_texels r Hr) as Hplan.
  assert (Hwc : ∀ i, 0 ≤ i < request_texels r →
            0 ≤ rd (weight_count_of_texel
                      (locals_of (request_plan r) (request_texels r)
                         (request_weights r))) i ≤ 4).
  { intros i Hi.
    pose proof (accumulate_init (request_plan r) (request_texels r)
                  (request_weights r)) as Hside.
    specialize (Hside ltac:(intros T;
      pose proof (plan_texels_length _ _ T Hplan); lia)).
    destruct (Hside i) as [Hcnt _]. unfold locals_of. rewrite Hcnt.
    pose proof (plan_texels_length _ _ i Hplan). lia. }
  assert (Htc : ∀ i, 0 ≤ i < request_weights r →
            0 ≤ rd (texel_count_of_weight
                      (locals_of (request_plan r) (request_texels r)
                         (request_weights r))) i).
  { intros i _. apply texel_count_of_weight_nonneg.
    apply init_dt_locals_nonneg. }
  destruct r as [tx ty wx wy|tx ty tz wx wy wz]; simpl in *.
  - rewrite initialize_decimation_table_2d_unfold.
    apply finish_table; [apply transpose_texel_2d_spec|exact Hwc|exact Htc].
  - rewrite initialize_decimation_table_3d_unfold.
    apply finish_table; [apply transpose_texel_3d_spec|exact Hwc|exact Htc].
Qed.

(** C1. In every decimation table built for a weight grid that fits its
    block, each texel has between one and four active slots, the integer
    weights of the active slots add up to 16, and the slots after them,
    up to the fourth, hold 0. *)
Theorem texel_weights_sum_to_16 (r : grid_request) (dt0 : decimation_table)
    (i : Z) :
  grid_in_block r →
  let dt := build_table r dt0 in
  0 ≤ i < dt_texel_count dt →
  ∃ n, texel_weight_count dt !! i = Some n ∧ 1 ≤ n ≤ 4 ∧
       sum_list_Z
         (map (λ s, rd (texel_weights_int_4t dt) (s, i)) (seqZ 0 n))
         = TEXEL_WEIGHT_SUM ∧
       ∀ s, n ≤ s < 4 → texel_weights_int_4t dt !! (s, i) = Some 0.
Proof.
  intros Hr dt Hi.
  pose proof (build_table_built r dt0 Hr) as Hbuilt. fold dt in Hbuilt.
  pose proof Hbuilt as (Htc & _). rewrite Htc in Hi.
  destruct (texel_row _ _ _ dt i (request_plan_texels r Hr) Hbuilt Hi)
    as (qs & ws & Heq & Hw & Hcnt & Hact & Hrest).
  destruct (texel_contribs_facts i qs ws Hw) as (Hlen & Hsum & _).
  rewrite <- Heq in Hlen, Hsum.
  exists (Z.of_nat (length (of_texel (request_plan r) i))).
  split; [exact Hcnt|]. split; [lia|]. split.
  - rewrite sum_slots; [exact Hsum|].
    intros s c Hs. destruct (Hact s c Hs) as (_ & Hint & _).
    apply rd_lookup. exact Hint.
  - intros s Hs. apply Hrest. exact Hs.
Qed.
End BuiltTables.

(** ** Decimation tables: the weight-major rows *)

Lemma find_swap_unique (i : Z) (v f : Z → Z) (k0 : Z) :
  0 ≤ k0 < 4 →
  (∀ k, 0 ≤ k < 4 → (v k = i ∧ f k ≠ 0) ↔ k = k0) →
  find_swap i v f = k0.
Proof.
  intros Hk0 Huniq.
  assert (Ht : ∀ k, 0 ≤ k < 4 →
            (v k =? i) && negb (f k =? 0) = (k =? k0)).
  { intros k Hk. specialize (Huniq k Hk).
    destruct (Z.eqb_spec (v k) i), (Z.eqb_spec (f k) 0), (Z.eqb_spec k k0);
      simpl; try reflexivity; exfalso; tauto. }
  unfold find_swap. cbv zeta. rewrite !Ht by lia.
  assert (Hc : k0 = 0 ∨ k0 = 1 ∨ k0 = 2 ∨ k0 = 3) by lia.
  destruct Hc as [-> | [-> | [-> | ->]]]; reflexivity.
Qed.

(** Within one texel the [uint8_t] image of a grid point below 256
    identifies the contribution. *)
Lemma identity_slot_unique (texel : Z) (qs ws : list Z) (k0 k : nat)
    (c c' : contrib) :
  weights_ok ws → grids_ok qs →
  texel_contribs texel qs ws !! k0 = Some c →
  texel_contribs texel qs ws !! k = Some c' →
  c_grid c < 256 →
  u8 (c_grid c') = c_grid c → k = k0.
Proof.
  intros Hw Hq Hk0 Hk Hlt Hu8.
  destruct (texel_contribs_facts texel qs ws Hw) as (_ & _ & _ & Hg).
  destruct (Hg Hq) as [Hsorted Hspan].
  assert (Hc : c ∈ texel_contribs texel qs ws)
    by (apply list_elem_of_lookup; eauto).
  assert (Hc' : c' ∈ texel_contribs texel qs ws)
    by (apply list_elem_of_lookup; eauto).
  destruct (Hspan c c' Hc Hc') as [Hc0 Hcc']. destruct (Hspan c' c Hc' Hc) as [Hc'0 _].
  assert (Heq : c_grid c' = c_grid c).
  { unfold u8 in Hu8.
    pose proof (Z.div_mod (c_grid c') 256 ltac:(lia)) as Hdm.
    assert (0 ≤ c_grid c' / 256) by (apply Z.div_pos; lia).
    assert (c_grid c' / 256 < 2) by (apply Z.div_lt_upper_bound; lia).
    assert (Hd : c_grid c' / 256 = 0 ∨ c_grid c' / 256 = 1) by lia.
    destruct Hd as [Hd|Hd]; rewrite Hd in Hdm; lia. }
  destruct (Nat.lt_total k k0) as [Hlt'|[Heq'|Hgt]]; [|exact Heq'|].
  - pose proof (StronglySorted_lookup_lt grid_lt _ k k0 c' c Hsorted Hk Hk0 Hlt')
      as Hord. unfold grid_lt in Hord. lia.
  - pose proof (StronglySorted_lookup_lt grid_lt _ k0 k c c' Hsorted Hk0 Hk Hgt)
      as Hord. unfold grid_lt in Hord. lia.
Qed.

Lemma plan_grids_texels (n : Z) (l : list contrib) :
  plan_grids n l →
  ∀ T, 0 ≤ T < n →
    ∃ qs ws, of_texel l T = texel_contribs T qs ws ∧ weights_ok ws ∧
             grids_ok qs.
Proof. intros [H _]. exact H. Qed.

(** Entry [t] of weight [j] in a finished table: its texel, the one
    active slot of that texel that names [j], and the four contributors of
    the texel with slot 0 and that slot exchanged. *)
Lemma weight_row (n weights_per_block : Z) (l : list contrib)
    (dt : decimation_table) (j : Z) :
  plan_texels n l → plan_grids n l →
  n < 256 → weights_per_block ≤ 256 →
  table_built (locals_of l n weights_per_block) n weights_per_block dt →
  0 ≤ j < weights_per_block →
  weight_texel_count dt !! j = Some (Z.of_nat (length (of_grid l j))) ∧
  ∀ t c, of_grid l j !! t = Some c →
    ∃ k0 : Z,
      0 ≤ c_texel c < n ∧ 0 ≤ k0 < 4 ∧
      weight_texel dt !! (Z.of_nat t, j) = Some (c_texel c) ∧
      (∀ k, 0 ≤ k < 4 →
         (texel_weights_4t dt !! (k, c_texel c) = Some j ∧
          texel_weights_int_4t dt !! (k, c_texel c) ≠ Some 0) ↔ k = k0) ∧
      (∀ k, 0 ≤ k < 4 →
         texel_weights_texel dt !! (j, Z.of_nat t, k)
           = Some (swapped (λ k, rd (texel_weights_4t dt) (k, c_texel c)) k0 k)).
Proof.
  intros Hpt Hpg Hn Hwpb Hbuilt Hj.
  pose proof Hbuilt as (_ & _ & HT & HW).
  set (st := locals_of l n weights_per_block) in *.
  assert (Hgside : grid_side l st).
  { apply accumulate_init_grid. intros q. pose proof Hpg as [_ Hlen].
    specialize (Hlen q). lia. }
  destruct (Hgside j) as [Hcnt Hslots].
  destruct (HW j Hj) as [Hwtc Hentries].
  assert (Hlenj : Z.of_nat (length (of_grid l j)) < 256).
  { pose proof Hpg as [_ Hlen]. specialize (Hlen j). lia. }
  split.
  { rewrite Hwtc, Hcnt. rewrite u8_small by lia. reflexivity. }
  intros t c Ht.
  assert (Htlt : (t < length (of_grid l j))%nat)
    by (apply lookup_lt_Some in Ht; exact Ht).
  assert (Hcin : c ∈ of_grid l j) by (apply list_elem_of_lookup; eauto).
  apply list_elem_of_filter in Hcin as [Hcj Hcl].
  (* the texel of the entry *)
  assert (HcT : c ∈ of_texel l (c_texel c))
    by (apply list_elem_of_filter; split; [reflexivity|exact Hcl]).
  assert (HT_range : 0 ≤ c_texel c < n).
  { destruct (decide (0 ≤ c_texel c < n)) as [H|H]; [exact H|].
    pose proof Hpt as [Hout _]. rewrite (Hout _ H) in HcT. inversion HcT. }
  set (T := c_texel c) in *.
  destruct (plan_grids_texels n l Hpg T HT_range)
    as (qs & ws & Heq & Hw & Hq).
  destruct (texel_row n weights_per_block l dt T Hpt Hbuilt HT_range)
    as (qs' & ws' & _ & _ & Htwc & Hact & Hrest).
  apply list_elem_of_lookup in HcT as [k0 Hk0].
  assert (Hk0lt : (k0 < length (of_texel l T))%nat)
    by (apply lookup_lt_Some in Hk0; exact Hk0).
  pose proof (plan_texels_length n l T Hpt) as HlenT.
  destruct (texel_contribs_facts T qs ws Hw) as (_ & _ & Hmem & _).
  rewrite <- Heq in Hmem.
  (* the slots of the texel that name [j] *)
  assert (Huniq : ∀ k, 0 ≤ k < 4 →
            (texel_weights_4t dt !! (k, T) = Some j ∧
             texel_weights_int_4t dt !! (k, T) ≠ Some 0) ↔ k = Z.of_nat k0).
  { intros k Hk. split.
    - intros [H4t Hint].
      destruct (decide (k < Z.of_nat (length (of_texel l T)))) as [Hact'|Hin].
      + destruct (lookup_lt_is_Some_2 (of_texel l T) (Z.to_nat k)
                    ltac:(lia)) as [c' Hc'].
        destruct (Hact _ _ Hc') as (H4t' & _).
        rewrite Z2Nat.id in H4t' by lia. rewrite H4t' in H4t.
        injection H4t as Hu8.
        rewrite Heq in Hk0, Hc'.
        assert (Z.to_nat k = k0).
        { apply (identity_slot_unique T qs ws k0 (Z.to_nat k) c c' Hw Hq
                   Hk0 Hc'); [lia|]. rewrite Hu8. lia. }
        lia.
      + destruct (Hrest k ltac:(lia)) as (_ & Hz & _). contradiction.
    - intros ->. destruct (Hact _ _ Hk0) as (H4t & Hint & _).
      rewrite H4t, Hint. rewrite Hcj. rewrite u8_small by lia.
      split; [reflexivity|].
      assert (Hc : c ∈ of_texel l T) by (apply list_elem_of_lookup; eauto).
      destruct (Hmem c Hc) as [_ Hcw]. intros [= Hz]. lia. }
  exists (Z.of_nat k0). split; [exact HT_range|]. split; [lia|].
  destruct (Hentries (Z.of_nat t)) as [Hwt Hswap].
  { rewrite Hcnt. lia. }
  destruct (Hslots t c Ht) as [Htow _].
  rewrite (rd_lookup _ _ _ Htow) in Hwt, Hswap.
  rewrite (u8_small (c_texel c)) in Hwt, Hswap by (fold T; lia).
  fold T in Hwt, Hswap.
  split; [exact Hwt|]. split; [exact Huniq|].
  (* the table cells of the texel are the slots the swap was made on *)
  assert (Hsl : ∀ k, 0 ≤ k < 4 →
            slot_grid dt T k = slot_q st T k ∧
            slot_float dt T k = slot_w st T k).
  { apply view_slots. destruct (HT T HT_range) as [_ Hv]. exact Hv. }
  assert (Hfl : ∀ k, 0 ≤ k < 4 →
            ∃ w, texel_weights_float_4t dt !! (k, T) = Some w ∧
                 texel_weights_int_4t dt !! (k, T) = Some w).
  { intros k Hk.
    destruct (decide (k < Z.of_nat (length (of_texel l T)))) as [Hact'|Hin].
    - destruct (lookup_lt_is_Some_2 (of_texel l T) (Z.to_nat k)
                  ltac:(lia)) as [c' Hc'].
      destruct (Hact _ _ Hc') as (_ & H1 & H2).
      rewrite Z2Nat.id in H1, H2 by lia. exists (c_weight c').
      split; assumption.
    - destruct (Hrest k ltac:(lia)) as (_ & H1 & H2).
      exists 0. split; assumption. }
  assert (Hfind : find_swap j (slot_q st T) (slot_w st T) = Z.of_nat k0).
  { apply find_swap_unique; [lia|]. intros k Hk.
    destruct (Hsl k Hk) as [<- <-]. rewrite <- (Huniq k Hk).
    destruct (Hfl k Hk) as (w & Hf1 & Hf2).
    unfold slot_grid, slot_float. unfold float16 in *.
    rewrite (rd_lookup _ _ _ Hf1). rewrite Hf2.
    destruct (HT T HT_range) as [_ Hv]. specialize (Hv k Hk).
    unfold texel_view, written in Hv. injection Hv as H1 H2 H3.
    rewrite (rd_lookup _ _ _ H1). rewrite H1. split.
    - intros [-> Hnz]. split; [reflexivity|]. intros [= Hz]. contradiction.
    - intros [[= ->] Hnz]. split; [reflexivity|]. intros Hz.
      apply Hnz. rewrite Hz. reflexivity. }
  cbv zeta in Hswap. rewrite Hfind in Hswap.
  intros k Hk. rewrite (Hswap HT_range ltac:(lia) k Hk). f_equal.
  apply swapped_ext; [|lia|exact Hk].
  intros k' Hk'. destruct (Hsl k' Hk') as [<- _]. reflexivity.
Qed.

(** ** Every grid point has a texel *)

(** The weight the texel coordinate [x] puts on grid coordinate [g] of its
    axis: [16 - frac] on the grid coordinate below it, [frac] on the one
    above. *)
Definition axis_weight (texels weights x g : Z) : Z :=
  let p := grid_position texels weights x in
  if Z.shiftr p 4 =? g then 16 - Z.land p 15
  else if Z.shiftr p 4 =? g - 1 then Z.land p 15 else 0.

(** Each grid coordinate of the axis has a texel coordinate that puts more
    than half of its weight on it. *)
Definition axis_covered (texels weights : Z) : bool :=
  forallb
    (λ g, existsb (λ x, 9 <=? axis_weight texels weights x g) (seqZ 0 texels))
    (seqZ 0 weights).

Definition axes_covered : bool :=
  forallb (λ t, forallb (axis_covered t) (seqZ 2 (t - 1))) (seqZ 2 11).

(** The texel is just above the grid coordinate ([d = 0], fraction at most
    7) or just below it ([d = 1], fraction at least 9). *)
Definition near (d f : Z) : Prop := (d = 0 ∧ f ≤ 7) ∨ (d = 1 ∧ 9 ≤ f).

Lemma axis_cover (texels weights g : Z) :
  2 ≤ weights ≤ texels → texels ≤ 12 → 0 ≤ g < weights →
  ∃ x d, 0 ≤ x < texels ∧
         Z.shiftr (grid_position texels weights x) 4 = g - d ∧
         near d (Z.land (grid_position texels weights x) 15).
Proof.
  intros Hw Ht Hg.
  assert (Hall : axes_covered = true) by (vm_compute; reflexivity).
  unfold axes_covered in Hall.
  pose proof (forallb_seqZ _ 2 11 texels Hall ltac:(lia)) as Hrow.
  pose proof (forallb_seqZ _ 2 (texels - 1) weights Hrow ltac:(lia)) as Hax.
  unfold axis_covered in Hax.
  pose proof (forallb_seqZ _ 0 weights g Hax ltac:(lia)) as Hex.
  apply existsb_exists in Hex as (x & Hx & Hge).
  apply list_elem_of_In, elem_of_seqZ in Hx. apply Z.leb_le in Hge.
  unfold axis_weight in Hge. cbv zeta in Hge.
  pose proof (land_15_range (grid_position texels weights x)) as Hf.
  destruct (Z.eqb_spec (Z.shiftr (grid_position texels weights x) 4) g)
    as [E0|_].
  - exists x, 0. split; [lia|]. split; [lia|]. left. lia.
  - destruct (Z.eqb_spec (Z.shiftr (grid_position texels weights x) 4)
                (g - 1)) as [E1|_]; [|exfalso; lia].
    exists x, 1. split; [lia|]. split; [lia|]. right. lia.
Qed.

Lemma texel_contribs_corner (texel : Z) (qs ws : list Z) (i : Z) :
  0 ≤ i < 4 → at4 ws i ≠ 0 →
  mk_contrib texel (at4 qs i) (at4 ws i) ∈ texel_contribs texel qs ws.
Proof.
  intros Hi Hnz. unfold texel_contribs. apply elem_of_flat_map.
  exists i. split.
  - assert (i = 0 ∨ i = 1 ∨ i = 2 ∨ i = 3) as [-> | [-> | [-> | ->]]] by lia;
      repeat (first [apply list_elem_of_here | apply list_elem_of_further]).
  - destruct (Z.eqb_spec (at4 ws i) 0) as [E|_]; [contradiction|].
    simpl. apply list_elem_of_here.
Qed.

(** The bilinear corner of a texel near a grid point has a non-zero
    weight. *)
Lemma corner_2d_covers (x_texels y_texels x_weights y_weights y x : Z)
    (gx gy dx dy : Z) :
  Z.shiftr (grid_position x_texels x_weights x) 4 = gx - dx →
  near dx (Z.land (grid_position x_texels x_weights x) 15) →
  Z.shiftr (grid_position y_texels y_weights y) 4 = gy - dy →
  near dy (Z.land (grid_position y_texels y_weights y) 15) →
  ∃ c, c ∈ corner_contribs
             (texel_corners_2d x_texels y_texels x_weights y_weights y x) ∧
       c_grid c = gx + gy * x_weights.
Proof.
  intros Hix Hnx Hiy Hny.
  unfold corner_contribs, texel_corners_2d. cbv zeta. simpl fst. simpl snd.
  rewrite Hix, Hiy.
  pose proof (land_15_range (grid_position x_texels x_weights x)) as Hfx.
  pose proof (land_15_range (grid_position y_texels y_weights y)) as Hfy.
  pose proof (bilinear_weights_range _ _ Hfx Hfy) as Hw. cbv zeta in Hw.
  set (xf := Z.land (grid_position x_texels x_weights x) 15) in *.
  set (yf := Z.land (grid_position y_texels y_weights y) 15) in *.
  set (w3 := Z.shiftr (xf * yf + 8) 4) in *.
  destruct Hnx as [[-> Hx] | [-> Hx]], Hny as [[-> Hy] | [-> Hy]].
  - eexists. split; [apply (texel_contribs_corner _ _ _ 0); [lia|]|];
      unfold at4; simpl; lia.
  - eexists. split; [apply (texel_contribs_corner _ _ _ 2); [lia|]|];
      unfold at4; simpl; lia.
  - eexists. split; [apply (texel_contribs_corner _ _ _ 1); [lia|]|];
      unfold at4; simpl; lia.
  - eexists. split; [apply (texel_contribs_corner _ _ _ 3); [lia|]|];
      unfold at4; simpl; lia.
Qed.

Ltac corner_at i :=
  eexists; split;
    [apply (texel_contribs_corner _ _ _ i); [lia|]|]; unfold at4; simpl; lia.

(** So has the simplex corner. *)
Lemma corner_3d_covers
    (x_texels y_texels z_texels x_weights y_weights z_weights z y x : Z)
    (gx gy gz dx dy dz : Z) :
  Z.shiftr (grid_position x_texels x_weights x) 4 = gx - dx →
  near dx (Z.land (grid_position x_texels x_weights x) 15) →
  Z.shiftr (grid_position y_texels y_weights y) 4 = gy - dy →
  near dy (Z.land (grid_position y_texels y_weights y) 15) →
  Z.shiftr (grid_position z_texels z_weights z) 4 = gz - dz →
  near dz (Z.land (grid_position z_texels z_weights z) 15) →
  ∃ c, c ∈ corner_contribs
             (texel_corners_3d x_texels y_texels z_texels x_weights
                y_weights z_weights z y x) ∧
       c_grid c = (gz * y_weights + gy) * x_weights + gx.
Proof.
  intros Hix Hnx Hiy Hny Hiz Hnz.
  unfold corner_contribs, texel_corners_3d. cbv zeta.
  rewrite Hix, Hiy, Hiz.
  pose proof (land_15_range (grid_position x_texels x_weights x)) as Hfx.
  pose proof (land_15_range (grid_position y_texels y_weights y)) as Hfy.
  pose proof (land_15_range (grid_position z_texels z_weights z)) as Hfz.
  set (fs := Z.land (grid_position x_texels x_weights x) 15) in *.
  set (ft := Z.land (grid_position y_texels y_weights y) 15) in *.
  set (fp := Z.land (grid_position z_texels z_weights z) 15) in *.
  rewrite simplex_case_value.
  destruct (Z.ltb_spec ft fs), (Z.ltb_spec fp ft), (Z.ltb_spec fp fs);
    try (exfalso; lia); simpl;
    destruct Hnx as [[-> Hx] | [-> Hx]], Hny as [[-> Hy] | [-> Hy]],
             Hnz as [[-> Hz] | [-> Hz]];
    try (exfalso; lia);
    first [corner_at 0 | corner_at 1 | corner_at 2 | corner_at 3].
Qed.

Lemma grid_point_split (N M j : Z) :
  1 ≤ N → 0 ≤ j < M * N →
  0 ≤ j mod N < N ∧ 0 ≤ j / N < M ∧ j = j / N * N + j mod N.
Proof.
  intros HN Hj. split; [apply Z.mod_pos_bound; lia|]. split.
  - split; [apply Z.div_pos; lia|apply Z.div_lt_upper_bound; lia].
  - rewrite Z.mul_comm. apply Z.div_mod. lia.
Qed.

Lemma plan_2d_covers (x_texels y_texels x_weights y_weights j : Z) :
  2 ≤ x_weights ≤ x_texels → x_texels ≤ 12 →
  2 ≤ y_weights ≤ y_texels → y_texels ≤ 12 →
  0 ≤ j < x_weights * y_weights →
  ∃ c, c ∈ plan_2d x_texels y_texels x_weights y_weights ∧ c_grid c = j.
Proof.
  intros Hwx Htx Hwy Hty Hj.
  destruct (grid_point_split x_weights y_weights j ltac:(lia) ltac:(lia))
    as (Hgx & Hgy & Heq).
  destruct (axis_cover x_texels x_weights _ Hwx Htx Hgx)
    as (x & dx & Hx & Hix & Hnx).
  destruct (axis_cover y_texels y_weights _ Hwy Hty Hgy)
    as (y & dy & Hy & Hiy & Hny).
  destruct (corner_2d_covers x_texels y_texels x_weights y_weights y x
              _ _ _ _ Hix Hnx Hiy Hny) as (c & Hc & Hq).
  exists c. split; [|lia].
  unfold plan_2d. apply elem_of_flat_map. exists y.
  split; [apply elem_of_seqZ; lia|].
  apply elem_of_flat_map. exists x. split; [apply elem_of_seqZ; lia|exact Hc].
Qed.

Lemma plan_3d_covers
    (x_texels y_texels z_texels x_weights y_weights z_weights j : Z) :
  2 ≤ x_weights ≤ x_texels → x_texels ≤ 12 →
  2 ≤ y_weights ≤ y_texels → y_texels ≤ 12 →
  2 ≤ z_weights ≤ z_texels → z_texels ≤ 12 →
  0 ≤ j < x_weights * y_weights * z_weights →
  ∃ c, c ∈ plan_3d x_texels y_texels z_texels x_weights y_weights z_weights ∧
       c_grid c = j.
Proof.
  intros Hwx Htx Hwy Hty Hwz Htz Hj.
  destruct (grid_point_split x_weights (z_weights * y_weights) j
              ltac:(lia) ltac:(lia)) as (Hgx & Hr & Heq).
  destruct (grid_point_split y_weights z_weights (j / x_weights)
              ltac:(lia) ltac:(lia)) as (Hgy & Hgz & Heq').
  destruct (axis_cover x_texels x_weights _ Hwx Htx Hgx)
    as (x & dx & Hx & Hix & Hnx).
  destruct (axis_cover y_texels y_weights _ Hwy Hty Hgy)
    as (y & dy & Hy & Hiy & Hny).
  destruct (axis_cover z_texels z_weights _ Hwz Htz Hgz)
    as (z & dz & Hz & Hiz & Hnz).
  destruct (corner_3d_covers x_texels y_texels z_texels x_weights y_weights
              z_weights z y x _ _ _ _ _ _ Hix Hnx Hiy Hny Hiz Hnz)
    as (c & Hc & Hq).
  exists c. split; [|rewrite Hq, <- Heq', <- Heq; reflexivity].
  unfold plan_3d. apply elem_of_flat_map. exists z.
  split; [apply elem_of_seqZ; lia|].
  apply elem_of_flat_map. exists y. split; [apply elem_of_seqZ; lia|].
  apply elem_of_flat_map. exists x. split; [apply elem_of_seqZ; lia|exact Hc].
Qed.

Lemma request_plan_covers (r : grid_request) (j : Z) :
  grid_in_block r → 0 ≤ j < request_weights r →
  (1 ≤ length (of_grid (request_plan r) j))%nat.
Proof.
  intros Hr Hj.
  assert (Hex : ∃ c, c ∈ request_plan r ∧ c_grid c = j).
  { destruct r as [tx ty wx wy|tx ty tz wx wy wz]; simpl in *.
    - apply plan_2d_covers; lia.
    - apply plan_3d_covers; lia. }
  destruct Hex as (c & Hc & Hq).
  assert (Hin : c ∈ of_grid (request_plan r) j).
  { unfold of_grid. apply list_elem_of_filter. split; assumption. }
  destruct (of_grid (request_plan r) j); [|simpl; lia].
  apply elem_of_nil in Hin. contradiction.
Qed.

(** ** Weight rows of the tables [init] builds *)

Lemma request_plan_grids (r : grid_request) :
  grid_in_block r → plan_grids (request_texels r) (request_plan r).
Proof.
  destruct r as [tx ty wx wy|tx ty tz wx wy wz]; simpl; intros H.
  - apply plan_2d_grids; lia.
  - apply plan_3d_grids; try lia. nia.
Qed.

Lemma supported_bounds (r : grid_request) :
  supported r → request_texels r < 256 ∧ request_weights r ≤ 256.
Proof.
  unfold supported, MAX_TEXELS_PER_BLOCK, MAX_WEIGHTS_PER_BLOCK. lia.
Qed.

Lemma texel_slots_written (st : dt_locals) (n weights_per_block : Z)
    (dt : decimation_table) (i k : Z) :
  table_built st n weights_per_block dt → 0 ≤ i < n → 0 ≤ k < 4 →
  texel_weights_4t dt !! (k, i) = Some (rd (texel_weights_4t dt) (k, i)).
Proof.
  intros (_ & _ & HT & _) Hi Hk. destruct (HT i Hi) as [_ Hv].
  specialize (Hv k Hk). unfold texel_view, written in Hv.
  injection Hv as H1 _ _. rewrite (rd_lookup _ _ _ H1). exact H1.
Qed.

Section WeightRows.
Variable round_up_to_simd_multiple_vla : Z → Z.

Abbreviation table r dt0 := (build_table round_up_to_simd_multiple_vla r dt0).

(** Entry [t] of weight [j] of a built table, in the table's own terms. *)
Lemma built_weight_row (r : grid_request) (dt0 : decimation_table)
    (j t cnt : Z) :
  supported r →
  let dt := table r dt0 in
  0 ≤ j < dt_weight_count dt →
  weight_texel_count dt !! j = Some cnt → 0 ≤ t < cnt →
  ∃ texel k0,
    0 ≤ k0 < 4 ∧
    weight_texel dt !! (t, j) = Some texel ∧
    (∀ k, 0 ≤ k < 4 →
       (texel_weights_4t dt !! (k, texel) = Some j ∧
        texel_weights_int_4t dt !! (k, texel) ≠ Some 0) ↔ k = k0) ∧
    (∀ k, 0 ≤ k < 4 →
       texel_weights_4t dt !! (k, texel)
         = Some (rd (texel_weights_4t dt) (k, texel))) ∧
    (∀ k, 0 ≤ k < 4 →
       texel_weights_texel dt !! (j, t, k)
         = Some (swapped (λ k, rd (texel_weights_4t dt) (k, texel)) k0 k)).
Proof.
  intros Hs dt Hj Hcnt Ht.
  pose proof Hs as (Hr & _). destruct (supported_bounds r Hs) as [Hn Hw].
  pose proof (build_table_built round_up_to_simd_multiple_vla r dt0 Hr)
    as Hbuilt.
  fold dt in Hbuilt. pose proof Hbuilt as (_ & Hwc & _).
  rewrite Hwc in Hj.
  destruct (weight_row _ _ _ dt j (request_plan_texels r Hr)
              (request_plan_grids r Hr) Hn Hw Hbuilt Hj) as [Hlen Hrow].
  rewrite Hlen in Hcnt. injection Hcnt as <-.
  destruct (lookup_lt_is_Some_2 (of_grid (request_plan r) j) (Z.to_nat t)
              ltac:(lia)) as [c Hc].
  destruct (Hrow _ _ Hc) as (k0 & HT & Hk0 & Hwt & Huniq & Hsw).
  rewrite Z2Nat.id in Hwt, Hsw by lia.
  exists (c_texel c), k0. split; [exact Hk0|]. split; [exact Hwt|].
  split; [exact Huniq|]. split; [|exact Hsw].
  intros k Hk. exact (texel_slots_written _ _ _ _ _ _ Hbuilt HT Hk).
Qed.

(** C3, as the code has it. In a table built for a supported block size,
    for every weight [j] and every [t] below its texel count, exactly one
    slot of the texel [weight_texel[t][j]] names [j] with a non-zero
    weight, and after the reorder slot 0 of [texel_weights_texel[j][t]]
    is [j]. *)
Theorem identity_slot_among_weighted (r : grid_request)
    (dt0 : decimation_table) (j t cnt : Z) :
  supported r →
  let dt := table r dt0 in
  0 ≤ j < dt_weight_count dt →
  weight_texel_count dt !! j = Some cnt → 0 ≤ t < cnt →
  ∃ texel k0,
    weight_texel dt !! (t, j) = Some texel ∧ 0 ≤ k0 < 4 ∧
    (∀ k, 0 ≤ k < 4 →
       (texel_weights_4t dt !! (k, texel) = Some j ∧
        texel_weights_int_4t dt !! (k, texel) ≠ Some 0) ↔ k = k0) ∧
    texel_weights_texel dt !! (j, t, 0) = Some j.
Proof.
  intros Hs dt Hj Hcnt Ht.
  destruct (built_weight_row r dt0 j t cnt Hs Hj Hcnt Ht)
    as (texel & k0 & Hk0 & Hwt & Huniq & Hwr & Hsw).
  fold dt in Hwt, Huniq, Hwr, Hsw.
  exists texel, k0. split; [exact Hwt|]. split; [exact Hk0|].
  split; [exact Huniq|].
  rewrite (Hsw 0 ltac:(lia)). unfold swapped. simpl.
  destruct (proj2 (Huniq k0 Hk0) eq_refl) as [Hid _].
  rewrite (rd_lookup _ _ _ Hid). reflexivity.
Qed.

(** C8, as the code has it. The reorder exchanges slot 0 with the slot
    [k0] that names [j]: slot 0 of [texel_weights_texel[j][t]] is the
    contributor of slot [k0] of the texel, slot [k0] is the contributor of
    slot 0, and the other slots keep their contributor. *)
Theorem reorder_exchanges_identity_slot (r : grid_request)
    (dt0 : decimation_table) (j t cnt : Z) :
  supported r →
  let dt := table r dt0 in
  0 ≤ j < dt_weight_count dt →
  weight_texel_count dt !! j = Some cnt → 0 ≤ t < cnt →
  ∃ texel k0,
    weight_texel dt !! (t, j) = Some texel ∧ 0 ≤ k0 < 4 ∧
    texel_weights_4t dt !! (k0, texel) = Some j ∧
    texel_weights_texel dt !! (j, t, 0) = texel_weights_4t dt !! (k0, texel) ∧
    texel_weights_texel dt !! (j, t, k0) = texel_weights_4t dt !! (0, texel) ∧
    ∀ k, 0 < k < 4 → k ≠ k0 →
      texel_weights_texel dt !! (j, t, k) = texel_weights_4t dt !! (k, texel).
Proof.
  intros Hs dt Hj Hcnt Ht.
  destruct (built_weight_row r dt0 j t cnt Hs Hj Hcnt Ht)
    as (texel & k0 & Hk0 & Hwt & Huniq & Hwr & Hsw).
  fold dt in Hwt, Huniq, Hwr, Hsw.
  exists texel, k0. split; [exact Hwt|]. split; [exact Hk0|].
  destruct (proj2 (Huniq k0 Hk0) eq_refl) as [Hid _].
  split; [exact Hid|]. split; [|split].
  - rewrite (Hsw 0 ltac:(lia)), (Hwr k0 Hk0). reflexivity.
  - rewrite (Hsw k0 Hk0), (Hwr 0 ltac:(lia)). unfold swapped.
    destruct (k0 =? 0) eqn:E; [|rewrite Z.eqb_refl; reflexivity].
    apply Z.eqb_eq in E. subst k0. reflexivity.
  - intros k Hk Hne. rewrite (Hsw k ltac:(lia)), (Hwr k ltac:(lia)).
    unfold swapped.
    destruct (k =? 0) eqn:E0; [apply Z.eqb_eq in E0; lia|].
    destruct (k =? k0) eqn:E1; [apply Z.eqb_eq in E1; lia|]. reflexivity.
Qed.

(** C9. In a table built for a supported block size, every weight [j] has
    at least one texel and no more than the block has: the count of its
    row is at least 1, and entry [count - 1] of the row, which the tail
    padding reads, has been written. *)
Theorem every_weight_has_a_texel (r : grid_request) (dt0 : decimation_table)
    (j : Z) :
  supported r →
  let dt := table r dt0 in
  0 ≤ j < dt_weight_count dt →
  ∃ cnt, weight_texel_count dt !! j = Some cnt ∧
         1 ≤ cnt ≤ dt_texel_count dt ∧
         is_Some (weight_texel dt !! (cnt - 1, j)).
Proof.
  intros Hs dt Hj.
  pose proof Hs as (Hr & _). destruct (supported_bounds r Hs) as [Hn Hw].
  pose proof (build_table_built round_up_to_simd_multiple_vla r dt0 Hr)
    as Hbuilt.
  fold dt in Hbuilt. pose proof Hbuilt as (Htc & Hwc & _).
  rewrite Hwc in Hj. rewrite Htc.
  destruct (weight_row _ _ _ dt j (request_plan_texels r Hr)
              (request_plan_grids r Hr) Hn Hw Hbuilt Hj) as [Hlen Hrow].
  pose proof (request_plan_covers r j Hr Hj) as Hone.
  pose proof (request_plan_grids r Hr) as [_ Hmax]. specialize (Hmax j).
  exists (Z.of_nat (length (of_grid (request_plan r) j))).
  split; [exact Hlen|]. split; [lia|].
  destruct (lookup_lt_is_Some_2 (of_grid (request_plan r) j)
              (length (of_grid (request_plan r) j) - 1) ltac:(lia))
    as [c Hc].
  destruct (Hrow _ _ Hc) as (k0 & _ & _ & Hwt & _).
  exists (c_texel c). rewrite <- Hwt. f_equal. f_equal. lia.
Qed.
End WeightRows.

(** ** Closed instances *)

(** A build without SIMD lanes: rounding a count up to a multiple of the
    lane count leaves it as it is. *)
Definition round_up_scalar (count : Z) : Z := count.

(** A bit-count oracle that charges two bits for each value, as
    quantization level 2 (four levels) does. *)
Definition two_bits_each (character_count quant_level : Z) : Z :=
  2 * character_count.

(** The decimation table of a 4 x 4 block with a 3 x 3 weight grid. *)
Definition table_4x4_3x3 : decimation_table :=
  build_table round_up_scalar (Grid2D 4 4 3 3) unwritten_decimation_table.

(** A descriptor with the dimensions of a 4 x 4 block and nothing else. *)
Definition block_4x4 : block_size_descriptor :=
  set_xdim 4 (set_ydim 4 (set_zdim 1 (set_texel_count 16 unwritten_bsd))).

(** The descriptor [init] builds for a 4 x 4 block, with every mode that
    decodes kept. *)
Definition bsd_4x4 : block_size_descriptor :=
  init_block_size_descriptor two_bits_each round_up_scalar 87 false
    Z Z.leb (Z.eqb 0) (λ _ _ _, 0) [] 4 4 1 false 0 unwritten_bsd.

(** C3 the way it is written: exactly one of the four slots of the texel
    [weight_texel[t][j]] holds the grid index [j]. *)
Definition one_slot_names (dt : decimation_table) (j t : Z) : Prop :=
  ∃ k, (0 ≤ k < 4 ∧
        texel_weights_4t dt !! (k, rd (weight_texel dt) (t, j)) = Some j) ∧
       ∀ k', 0 ≤ k' < 4 ∧
             texel_weights_4t dt !! (k', rd (weight_texel dt) (t, j)) = Some j →
             k' = k.

(** C8 the way it is written: slots 1..3 of [texel_weights_texel[j][t]]
    are the slots of the texel other than the one that names [j], in the
    order of the texel's row. *)
Definition order_kept (dt : decimation_table) (j t : Z) : Prop :=
  ∃ k0, 0 ≤ k0 < 4 ∧
    rd (texel_weights_4t dt) (k0, rd (weight_texel dt) (t, j)) = j ∧
    map (λ k, rd (texel_weights_texel dt) (j, t, k)) [1; 2; 3]
    = map (λ k, rd (texel_weights_4t dt) (k, rd (weight_texel dt) (t, j)))
        (List.filter (λ k, negb (k =? k0)) [0; 1; 2; 3]).

(** C1 at texel 5 of the 4 x 4 block with a 3 x 3 grid. *)
Lemma texel_5_weights_sum_to_16 :
  ∃ n, texel_weight_count table_4x4_3x3 !! 5 = Some n ∧ 1 ≤ n ≤ 4 ∧
       sum_list_Z
         (map (λ s, rd (texel_weights_int_4t table_4x4_3x3) (s, 5))
            (seqZ 0 n))
         = TEXEL_WEIGHT_SUM ∧
       ∀ s, n ≤ s < 4 → texel_weights_int_4t table_4x4_3x3 !! (s, 5) = Some 0.
Proof.
  apply (texel_weights_sum_to_16 round_up_scalar (Grid2D 4 4 3 3)
           unwritten_decimation_table 5).
  - simpl. lia.
  - vm_compute. split; [intros H; discriminate H|reflexivity].
Defined.

(** C2 at the reserved mode 0 of the 4 x 4 descriptor. *)
Lemma mode_0_has_no_packed_slot :
  block_mode_packed_index bsd_4x4 !! 0 = Some (-1).
Proof.
  apply (proj2 (block_mode_packed_index_round_trip two_bits_each
                  round_up_scalar 87 false Z Z.leb (Z.eqb 0) (λ _ _ _, 0) []
                  4 4 1 false 0 unwritten_bsd)).
  - unfold MAX_WEIGHT_MODES. lia.
  - vm_compute. reflexivity.
Defined.

(** C4 for the partition tables of the 4 x 4 block. *)
Lemma tables_4x4_deduplicated :
  let bsd' := init_partition_tables round_up_scalar block_4x4 in
  duplicates_removed 16 (partitions bsd') par_tab2 ∧
  duplicates_removed 16 (partitions bsd') par_tab3 ∧
  duplicates_removed 16 (partitions bsd') par_tab4 ∧
  partitions bsd' !! par_tab1 =
    Some (generate_one_partition_info_entry round_up_scalar block_4x4 1 0
            (pt_entry (partitions block_4x4) par_tab1 0)).
Proof.
  apply (init_partition_tables_deduplicated round_up_scalar block_4x4).
  simpl. unfold MAX_TEXELS_PER_BLOCK. lia.
Defined.

(** C5 for seed 17 with two partitions requested on the 4 x 4 block. *)
Lemma entry_17_count_is_prefix :
  let pi :=
    generate_one_partition_info_entry round_up_scalar block_4x4 2 17
      unwritten_partition_info in
  0 ≤ partition_count pi ≤ 4 ∧
  (∀ p, 0 ≤ p < partition_count pi → partition_nonempty (4 * 4 * 1) pi p) ∧
  (partition_count pi < 4 →
   ¬ partition_nonempty (4 * 4 * 1) pi (partition_count pi)).
Proof.
  apply (partition_count_is_nonempty_prefix round_up_scalar block_4x4 2 17
           unwritten_partition_info); simpl; lia.
Defined.

(** C10 for seed 17 and three partitions on a small block. *)
Lemma seed_17_selects_below_3 : 0 ≤ select_partition 17 1 2 0 3 true < 3.
Proof. apply select_partition_below_count. lia. Defined.

(** C3 as written fails at weight 0 of the 4 x 4 block with a 3 x 3 grid:
    its first texel is texel 0, whose only contributor is weight 0 in
    slot 0, and the three unused slots hold grid index 0 as well. *)
Lemma unused_slots_name_weight_0 :
  (0 < dt_weight_count table_4x4_3x3 ∧
   weight_texel_count table_4x4_3x3 !! 0 = Some 4 ∧
   weight_texel table_4x4_3x3 !! (0, 0) = Some 0 ∧
   texel_weights_4t table_4x4_3x3 !! (0, 0) = Some 0 ∧
   texel_weights_4t table_4x4_3x3 !! (1, 0) = Some 0) ∧
  ¬ one_slot_names table_4x4_3x3 0 0.
Proof.
  assert (H0 : texel_weights_4t table_4x4_3x3
                 !! (0, rd (weight_texel table_4x4_3x3) (0, 0)) = Some 0)
    by (vm_compute; reflexivity).
  assert (H1 : texel_weights_4t table_4x4_3x3
                 !! (1, rd (weight_texel table_4x4_3x3) (0, 0)) = Some 0)
    by (vm_compute; reflexivity).
  split.
  - vm_compute. repeat split; reflexivity.
  - intros (k & _ & Huniq).
    assert (E0 : 0 = k) by (apply Huniq; split; [lia|exact H0]).
    assert (E1 : 1 = k) by (apply Huniq; split; [lia|exact H1]). lia.
Qed.

(** C3 as the code has it, at entry 1 of weight 3. *)
Lemma weight_3_entry_1_identity_slot :
  ∃ texel k0,
    weight_texel table_4x4_3x3 !! (1, 3) = Some texel ∧ 0 ≤ k0 < 4 ∧
    (∀ k, 0 ≤ k < 4 →
       (texel_weights_4t table_4x4_3x3 !! (k, texel) = Some 3 ∧
        texel_weights_int_4t table_4x4_3x3 !! (k, texel) ≠ Some 0)
       ↔ k = k0) ∧
    texel_weights_texel table_4x4_3x3 !! (3, 1, 0) = Some 3.
Proof.
  apply (identity_slot_among_weighted round_up_scalar (Grid2D 4 4 3 3)
           unwritten_decimation_table 3 1 4).
  - unfold supported, MAX_TEXELS_PER_BLOCK, MAX_WEIGHTS_PER_BLOCK. simpl. lia.
  - vm_compute. split; [intros H; discriminate H|reflexivity].
  - vm_compute. reflexivity.
  - lia.
Defined.

(** C6 as written fails: with a two-bit oracle mode 0x0042 is valid, and
    its grid is 4 x 4, not 6 x 2. *)
Lemma mode_0x42_is_not_6_by_2 :
  (decode_block_mode_2d two_bits_each 66 unwritten_mode_params).1 = true ∧
  x_weights (decode_block_mode_2d two_bits_each 66 unwritten_mode_params).2
    ≠ 6 ∧
  y_weights (decode_block_mode_2d two_bits_each 66 unwritten_mode_params).2
    ≠ 2.
Proof.
  vm_compute. split; [reflexivity|]. split; intros H; discriminate H.
Qed.

(** C8 as written fails at entry 1 of weight 3 of the 4 x 4 block with a
    3 x 3 grid: the texel is texel 5 with the row 0, 1, 3, 4, and the
    reordered row is 3, 1, 0, 4, so the contributors 0 and 1 have changed
    places. *)
Lemma reorder_changes_order :
  (weight_texel table_4x4_3x3 !! (1, 3) = Some 5 ∧
   map (λ k, texel_weights_4t table_4x4_3x3 !! (k, 5)) [0; 1; 2; 3]
     = [Some 0; Some 1; Some 3; Some 4] ∧
   map (λ k, texel_weights_texel table_4x4_3x3 !! (3, 1, k)) [0; 1; 2; 3]
     = [Some 3; Some 1; Some 0; Some 4]) ∧
  ¬ order_kept table_4x4_3x3 3 1.
Proof.
  split.
  - vm_compute. repeat split; reflexivity.
  - intros (k0 & Hk0 & _ & Heq).
    assert (k0 = 0 ∨ k0 = 1 ∨ k0 = 2 ∨ k0 = 3) as [-> | [-> | [-> | ->]]]
      by lia; vm_compute in Heq; discriminate Heq.
Qed.

(** C8 as the code has it, at entry 1 of weight 3. *)
Lemma weight_3_entry_1_exchange :
  ∃ texel k0,
    weight_texel table_4x4_3x3 !! (1, 3) = Some texel ∧ 0 ≤ k0 < 4 ∧
    texel_weights_4t table_4x4_3x3 !! (k0, texel) = Some 3 ∧
    texel_weights_texel table_4x4_3x3 !! (3, 1, 0)
      = texel_weights_4t table_4x4_3x3 !! (k0, texel) ∧
    texel_weights_texel table_4x4_3x3 !! (3, 1, k0)
      = texel_weights_4t table_4x4_3x3 !! (0, texel) ∧
    ∀ k, 0 < k < 4 → k ≠ k0 →
      texel_weights_texel table_4x4_3x3 !! (3, 1, k)
        = texel_weights_4t table_4x4_3x3 !! (k, texel).
Proof.
  apply (reorder_exchanges_identity_slot round_up_scalar (Grid2D 4 4 3 3)
           unwritten_decimation_table 3 1 4).
  - unfold supported, MAX_TEXELS_PER_BLOCK, MAX_WEIGHTS_PER_BLOCK. simpl. lia.
  - vm_compute. split; [intros H; discriminate H|reflexivity].
  - vm_compute. reflexivity.
  - lia.
Defined.

(** C9 at weight 8, the last of the 3 x 3 grid. *)
Lemma weight_8_has_a_texel :
  ∃ cnt, weight_texel_count table_4x4_3x3 !! 8 = Some cnt ∧
         1 ≤ cnt ≤ dt_texel_count table_4x4_3x3 ∧
         is_Some (weight_texel table_4x4_3x3 !! (cnt - 1, 8)).
Proof.
  apply (every_weight_has_a_texel round_up_scalar (Grid2D 4 4 3 3)
           unwritten_decimation_table 8).
  - unfold supported, MAX_TEXELS_PER_BLOCK, MAX_WEIGHTS_PER_BLOCK. simpl. lia.
  - vm_compute. split; [intros H; discriminate H|reflexivity].
Defined.

(** ** The block-mode decoders on every mode *)

(** [base_quant_mode] after its upper bits have been or-ed in. *)
Lemma base_quant_mode_range (b v : Z) :
  0 ≤ b ≤ 1 → 1 ≤ v ≤ 3 → 2 ≤ Z.lor b (Z.shiftl v 1) ≤ 7.
Proof.
  intros Hb Hv.
  assert (b = 0 ∨ b = 1) as [-> | ->] by lia;
    assert (v = 1 ∨ v = 2 ∨ v = 3) as [-> | [-> | ->]] by lia;
    vm_compute; split; intros H; discriminate H.
Qed.

Lemma land_1_range (z : Z) : 0 ≤ Z.land z 1 ≤ 1.
Proof.
  assert (H : 0 ≤ Z.land z (Z.ones 1) < 2 ^ 1) by (apply land_ones_range; lia).
  change (Z.ones 1) with 1 in H. change (2 ^ 1) with 2 in H. lia.
Qed.

Section DecoderRanges.
Variable get_ise_sequence_bitcount : Z → Z → Z.

(** The tail of both decoders (lines 127-134 and 228-235) for a grid of
    [weights] weights in one plane. *)
Definition mode_checked (weights base_quant_mode H D : Z) : bool :=
  (weights * (D + 1) <=? MAX_WEIGHTS_PER_BLOCK) &&
  (MIN_WEIGHT_BITS_PER_BLOCK
     <=? get_ise_sequence_bitcount (weights * (D + 1))
           (base_quant_mode - 2 + 6 * H)) &&
  (get_ise_sequence_bitcount (weights * (D + 1))
     (base_quant_mode - 2 + 6 * H) <=? MAX_WEIGHT_BITS_PER_BLOCK).

(** The 2D decoder either returns early, with the grid zeroed and the two
    other outputs unwritten, or reaches its tail with a grid of 2..12 by
    2..12 weights. *)
Lemma decode_block_mode_2d_cases (block_mode : Z) (out : mode_params) :
  decode_block_mode_2d get_ise_sequence_bitcount block_mode out
    = (false, mk_mode_params 0 0 (z_weights out) (is_dual_plane out)
                (quant_mode out)) ∨
  ∃ bq H D xw yw,
    2 ≤ bq ≤ 7 ∧ 0 ≤ H ≤ 1 ∧ 0 ≤ D ≤ 1 ∧ 2 ≤ xw ≤ 12 ∧ 2 ≤ yw ≤ 12 ∧
    decode_block_mode_2d get_ise_sequence_bitcount block_mode out
      = (mode_checked (xw * yw) bq H D,
         mk_mode_params xw yw (z_weights out) (negb (D =? 0))
           (bq - 2 + 6 * H)).
Proof.
  unfold decode_block_mode_2d, mode_checked. cbv zeta.
  pose proof (land_1_range (Z.shiftr block_mode 4)) as Hb4.
  pose proof (land_1_range (Z.shiftr block_mode 9)) as HH.
  pose proof (land_1_range (Z.shiftr block_mode 10)) as HD.
  pose proof (land_3_range (Z.shiftr block_mode 5)) as HA.
  pose proof (land_3_range block_mode) as Hlow.
  pose proof (land_3_range (Z.shiftr block_mode 2)) as Hsel.
  pose proof (land_3_range (Z.shiftr block_mode 7)) as HB.
  pose proof (land_3_range (Z.shiftr block_mode 9)) as HB9.
  pose proof (land_1_range (Z.land (Z.shiftr block_mode 7) 3)) as HB1.
  set (b4 := Z.land (Z.shiftr block_mode 4) 1) in *.
  set (H := Z.land (Z.shiftr block_mode 9) 1) in *.
  set (D := Z.land (Z.shiftr block_mode 10) 1) in *.
  set (A := Z.land (Z.shiftr block_mode 5) 3) in *.
  set (low := Z.land block_mode 3) in *.
  set (sel := Z.land (Z.shiftr block_mode 2) 3) in *.
  set (B := Z.land (Z.shiftr block_mode 7) 3) in *.
  set (B9 := Z.land (Z.shiftr block_mode 9) 3) in *.
  set (B1 := Z.land B 1) in *.
  destruct (Z.eqb_spec low 0) as [Hl0|Hl0]; cbn [negb].
  - destruct (Z.eqb_spec sel 0) as [Hs0|Hs0]; [left; reflexivity|].
    assert (Hbq : 2 ≤ Z.lor b4 (Z.shiftl sel 1) ≤ 7)
      by (apply base_quant_mode_range; lia).
    assert (B = 0 ∨ B = 1 ∨ B = 2 ∨ B = 3) as [-> | [-> | [-> | ->]]]
      by lia.
    + right. exists (Z.lor b4 (Z.shiftl sel 1)), H, D, 12, (A + 2).
      repeat split; try lia.
    + right. exists (Z.lor b4 (Z.shiftl sel 1)), H, D, (A + 2), 12.
      repeat split; try lia.
    + right. exists (Z.lor b4 (Z.shiftl sel 1)), 0, 0, (A + 6), (B9 + 6).
      repeat split; try lia.
    + assert (A = 0 ∨ A = 1 ∨ A = 2 ∨ A = 3) as [-> | [-> | [-> | ->]]]
        by lia.
      * right. exists (Z.lor b4 (Z.shiftl sel 1)), H, D, 6, 10.
        repeat split; try lia.
      * right. exists (Z.lor b4 (Z.shiftl sel 1)), H, D, 10, 6.
        repeat split; try lia.
      * left. reflexivity.
      * left. reflexivity.
  - assert (Hbq : 2 ≤ Z.lor b4 (Z.shiftl low 1) ≤ 7)
      by (apply base_quant_mode_range; lia).
    assert (sel = 0 ∨ sel = 1 ∨ sel = 2 ∨ sel = 3) as [-> | [-> | [-> | ->]]]
      by lia.
    + right. exists (Z.lor b4 (Z.shiftl low 1)), H, D, (B + 4), (A + 2).
      repeat split; try lia.
    + right. exists (Z.lor b4 (Z.shiftl low 1)), H, D, (B + 8), (A + 2).
      repeat split; try lia.
    + right. exists (Z.lor b4 (Z.shiftl low 1)), H, D, (A + 2), (B + 8).
      repeat split; try lia.
    + destruct (Z.eqb_spec (Z.land block_mode 256) 0) as [H8|H8]; cbn [negb].
      * right. exists (Z.lor b4 (Z.shiftl low 1)), H, D, (A + 2), (B1 + 6).
        repeat split; try lia.
      * right. exists (Z.lor b4 (Z.shiftl low 1)), H, D, (B1 + 2), (A + 2).
        repeat split; try lia.
Qed.

(** What a mode that decodes as valid has passed. *)
Lemma valid_mode_2d (block_mode : Z) (out : mode_params) :
  let r := decode_block_mode_2d get_ise_sequence_bitcount block_mode out in
  r.1 = true →
  let planes := if is_dual_plane r.2 then 2 else 1 in
  2 ≤ x_weights r.2 ≤ 12 ∧ 2 ≤ y_weights r.2 ≤ 12 ∧
  x_weights r.2 * y_weights r.2 * planes ≤ MAX_WEIGHTS_PER_BLOCK ∧
  0 ≤ quant_mode r.2 ≤ 11 ∧
  MIN_WEIGHT_BITS_PER_BLOCK
    ≤ get_ise_sequence_bitcount (x_weights r.2 * y_weights r.2 * planes)
        (quant_mode r.2)
    ≤ MAX_WEIGHT_BITS_PER_BLOCK.
Proof.
  intros r. subst r.
  destruct (decode_block_mode_2d_cases block_mode out)
    as [-> | (bq & H & D & xw & yw & Hbq & HH & HD & Hx & Hy & ->)].
  - intros Hv. discriminate Hv.
  - cbn [fst snd x_weights y_weights is_dual_plane quant_mode].
    unfold mode_checked. rewrite !andb_true_iff, !Z.leb_le.
    intros [[Hc Hlo] Hhi].
    assert (D = 0 ∨ D = 1) as [-> | ->] by lia;
      [change (0 + 1) with 1 in * | change (1 + 1) with 2 in *];
      cbn [Z.eqb negb] in *; repeat split; lia.
Qed.

(** X1. Whenever the 2D decoder reports a mode valid, whatever the mode
    id, its grid has 2..12 by 2..12 weights, the weights of all planes
    together are at most 64, the quantization level is one of 0..11 and
    the bit count of the weights at that level lies in 24..96. *)
Theorem decode_block_mode_2d_valid_grid (block_mode : Z) (out : mode_params) :
  let r := decode_block_mode_2d get_ise_sequence_bitcount block_mode out in
  r.1 = true →
  let planes := if is_dual_plane r.2 then 2 else 1 in
  2 ≤ x_weights r.2 ≤ 12 ∧ 2 ≤ y_weights r.2 ≤ 12 ∧
  x_weights r.2 * y_weights r.2 * planes ≤ MAX_WEIGHTS_PER_BLOCK ∧
  0 ≤ quant_mode r.2 ≤ 11 ∧
  MIN_WEIGHT_BITS_PER_BLOCK
    ≤ get_ise_sequence_bitcount (x_weights r.2 * y_weights r.2 * planes)
        (quant_mode r.2)
    ≤ MAX_WEIGHT_BITS_PER_BLOCK.
Proof.
  intros r Hvalid. exact (valid_mode_2d block_mode out Hvalid).
Qed.

(** The 3D decoder either returns early, with the grid zeroed or set to
    2 x 2 x 2 and the two other outputs unwritten, or reaches its tail with
    2..6 weights on each axis. *)
Lemma decode_block_mode_3d_cases (block_mode : Z) (out : mode_params) :
  (∃ g, (g = 0 ∨ g = 2) ∧
     decode_block_mode_3d get_ise_sequence_bitcount block_mode out
       = (false, mk_mode_params g g g (is_dual_plane out) (quant_mode out))) ∨
  ∃ bq H D xw yw zw,
    2 ≤ bq ≤ 7 ∧ 0 ≤ H ≤ 1 ∧ 0 ≤ D ≤ 1 ∧
    2 ≤ xw ≤ 6 ∧ 2 ≤ yw ≤ 6 ∧ 2 ≤ zw ≤ 6 ∧
    decode_block_mode_3d get_ise_sequence_bitcount block_mode out
      = (mode_checked (xw * yw * zw) bq H D,
         mk_mode_params xw yw zw (negb (D =? 0)) (bq - 2 + 6 * H)).
Proof.
  unfold decode_block_mode_3d, mode_checked. cbv zeta.
  pose proof (land_1_range (Z.shiftr block_mode 4)) as Hb4.
  pose proof (land_1_range (Z.shiftr block_mode 9)) as HH.
  pose proof (land_1_range (Z.shiftr block_mode 10)) as HD.
  pose proof (land_3_range (Z.shiftr block_mode 5)) as HA.
  pose proof (land_3_range block_mode) as Hlow.
  pose proof (land_3_range (Z.shiftr block_mode 2)) as Hsel.
  pose proof (land_3_range (Z.shiftr block_mode 7)) as HB.
  pose proof (land_3_range (Z.shiftr block_mode 9)) as HB9.
  set (b4 := Z.land (Z.shiftr block_mode 4) 1) in *.
  set (H := Z.land (Z.shiftr block_mode 9) 1) in *.
  set (D := Z.land (Z.shiftr block_mode 10) 1) in *.
  set (A := Z.land (Z.shiftr block_mode 5) 3) in *.
  set (low := Z.land block_mode 3) in *.
  set (sel := Z.land (Z.shiftr block_mode 2) 3) in *.
  set (B := Z.land (Z.shiftr block_mode 7) 3) in *.
  set (B9 := Z.land (Z.shiftr block_mode 9) 3) in *.
  destruct (Z.eqb_spec low 0) as [Hl0|Hl0]; cbn [negb].
  - destruct (Z.eqb_spec sel 0) as [Hs0|Hs0].
    { left. exists 0. split; [left|]; reflexivity. }
    assert (Hbq : 2 ≤ Z.lor b4 (Z.shiftl sel 1) ≤ 7)
      by (apply base_quant_mode_range; lia).
    assert (B = 0 ∨ B = 1 ∨ B = 2 ∨ B = 3) as [-> | [-> | [-> | ->]]]
      by lia; cbn [Z.eqb Pos.eqb negb].
    + right. exists (Z.lor b4 (Z.shiftl sel 1)), 0, 0, 6, (B9 + 2), (A + 2).
      repeat split; try lia.
    + right. exists (Z.lor b4 (Z.shiftl sel 1)), 0, 0, (A + 2), 6, (B9 + 2).
      repeat split; try lia.
    + right. exists (Z.lor b4 (Z.shiftl sel 1)), 0, 0, (A + 2), (B9 + 2), 6.
      repeat split; try lia.
    + assert (A = 0 ∨ A = 1 ∨ A = 2 ∨ A = 3) as [-> | [-> | [-> | ->]]]
        by lia.
      * right. exists (Z.lor b4 (Z.shiftl sel 1)), H, D, 6, 2, 2.
        repeat split; try lia.
      * right. exists (Z.lor b4 (Z.shiftl sel 1)), H, D, 2, 6, 2.
        repeat split; try lia.
      * right. exists (Z.lor b4 (Z.shiftl sel 1)), H, D, 2, 2, 6.
        repeat split; try lia.
      * left. exists 2. split; [right|]; reflexivity.
  - assert (Hbq : 2 ≤ Z.lor b4 (Z.shiftl low 1) ≤ 7)
      by (apply base_quant_mode_range; lia).
    right. exists (Z.lor b4 (Z.shiftl low 1)), H, D, (A + 2), (B + 2), (sel + 2).
    repeat split; try lia.
Qed.

(** What a 3D mode that decodes as valid has passed. *)
Lemma valid_mode_3d (block_mode : Z) (out : mode_params) :
  let r := decode_block_mode_3d get_ise_sequence_bitcount block_mode out in
  r.1 = true →
  let planes := if is_dual_plane r.2 then 2 else 1 in
  2 ≤ x_weights r.2 ≤ 6 ∧ 2 ≤ y_weights r.2 ≤ 6 ∧ 2 ≤ z_weights r.2 ≤ 6 ∧
  x_weights r.2 * y_weights r.2 * z_weights r.2 * planes
    ≤ MAX_WEIGHTS_PER_BLOCK ∧
  0 ≤ quant_mode r.2 ≤ 11 ∧
  MIN_WEIGHT_BITS_PER_BLOCK
    ≤ get_ise_sequence_bitcount
        (x_weights r.2 * y_weights r.2 * z_weights r.2 * planes)
        (quant_mode r.2)
    ≤ MAX_WEIGHT_BITS_PER_BLOCK.
Proof.
  intros r. subst r.
  destruct (decode_block_mode_3d_cases block_mode out)
    as [(g & _ & ->)
       | (bq & H & D & xw & yw & zw & Hbq & HH & HD & Hx & Hy & Hz & ->)].
  - intros Hv. discriminate Hv.
  - cbn [fst snd x_weights y_weights z_weights is_dual_plane quant_mode].
    unfold mode_checked. rewrite !andb_true_iff, !Z.leb_le.
    intros [[Hc Hlo] Hhi].
    assert (D = 0 ∨ D = 1) as [-> | ->] by lia;
      [change (0 + 1) with 1 in * | change (1 + 1) with 2 in *];
      cbn [Z.eqb negb] in *; repeat split; lia.
Qed.

(** X2. Whenever the 3D decoder reports a mode valid, its grid has 2..6
    weights on each axis, the weights of all planes together are at most
    64, the quantization level is one of 0..11 and the bit count of the
    weights at that level lies in 24..96. *)
Theorem decode_block_mode_3d_valid_grid (block_mode : Z) (out : mode_params) :
  let r := decode_block_mode_3d get_ise_sequence_bitcount block_mode out in
  r.1 = true →
  let planes := if is_dual_plane r.2 then 2 else 1 in
  2 ≤ x_weights r.2 ≤ 6 ∧ 2 ≤ y_weights r.2 ≤ 6 ∧ 2 ≤ z_weights r.2 ≤ 6 ∧
  x_weights r.2 * y_weights r.2 * z_weights r.2 * planes
    ≤ MAX_WEIGHTS_PER_BLOCK ∧
  0 ≤ quant_mode r.2 ≤ 11 ∧
  MIN_WEIGHT_BITS_PER_BLOCK
    ≤ get_ise_sequence_bitcount
        (x_weights r.2 * y_weights r.2 * z_weights r.2 * planes)
        (quant_mode r.2)
    ≤ MAX_WEIGHT_BITS_PER_BLOCK.
Proof.
  intros r Hvalid. exact (valid_mode_3d block_mode out Hvalid).
Qed.
End DecoderRanges.

(** ** Decimation mode entries *)

Section DecimationModes.
Variable get_ise_sequence_bitcount : Z → Z → Z.
Variable round_up_to_simd_multiple_vla : Z → Z.

(** The bit count of [weight_count] weights at level [i] lies in the
    envelope 24..96. *)
Definition fits (weight_count i : Z) : bool :=
  (MIN_WEIGHT_BITS_PER_BLOCK <=? get_ise_sequence_bitcount weight_count i) &&
  (get_ise_sequence_bitcount weight_count i <=? MAX_WEIGHT_BITS_PER_BLOCK).

(** [m] is the highest level below [n] that fits, or -1 when none does. *)
Definition highest_fit (weight_count n m : Z) : Prop :=
  (m = -1 ∧ ∀ i, 0 ≤ i < n → fits weight_count i = false) ∨
  (0 ≤ m < n ∧ fits weight_count m = true ∧
   ∀ i, m < i < n → fits weight_count i = false).

Lemma highest_fit_step (weight_count n m : Z) :
  0 ≤ n → highest_fit weight_count n m →
  highest_fit weight_count (n + 1) (if fits weight_count n then n else m).
Proof.
  intros Hn Hm. destruct (fits weight_count n) eqn:Hf.
  - right. split; [lia|]. split; [exact Hf|]. intros i Hi. lia.
  - destruct Hm as [[-> Hall] | (Hr & Hfm & Hall)].
    + left. split; [reflexivity|]. intros i Hi.
      destruct (decide (i = n)) as [->|Hne]; [exact Hf|apply Hall; lia].
    + right. split; [lia|]. split; [exact Hfm|]. intros i Hi.
      destruct (decide (i = n)) as [->|Hne]; [exact Hf|apply Hall; lia].
Qed.

(** The loop over the quantization levels (lines 773-789 and 991-1005). *)
Lemma maxprec_loop (weight_count : Z) (try_2planes : bool) :
  let r :=
    for_loop 0 12 (maxprec_step get_ise_sequence_bitcount weight_count
                     try_2planes) (-1, -1) in
  highest_fit weight_count 12 r.1 ∧
  (if try_2planes then highest_fit (2 * weight_count) 12 r.2 else r.2 = -1).
Proof.
  cbv zeta.
  apply (for_loop_ind (λ n (r : Z * Z),
           highest_fit weight_count n r.1 ∧
           (if try_2planes then highest_fit (2 * weight_count) n r.2
            else r.2 = -1))); [lia| |].
  - split; [left; split; [reflexivity|intros i Hi; lia]|].
    destruct try_2planes; [|reflexivity].
    left. split; [reflexivity|intros i Hi; lia].
  - intros i [m1 m2] Hi [H1 H2]. unfold maxprec_step. cbn [fst snd] in *.
    split.
    + apply (highest_fit_step weight_count i m1); [lia|exact H1].
    + destruct try_2planes; [|exact H2].
      apply (highest_fit_step (2 * weight_count) i m2); [lia|exact H2].
Qed.

(** X3. [construct_dt_entry_2d] appends one decimation mode: it returns
    the old count, stores there the table of the grid and, for one and for
    two planes, the highest of the levels 0..11 whose bit count lies in
    24..96 (-1 when there is none, and for two planes whenever twice the
    weights exceed 64), clears the two percentile flags, leaves the other
    slots alone and advances the count by one. *)
Theorem construct_dt_entry_2d_appends
    (x_texels y_texels x_weights y_weights : Z)
    (bsd : block_size_descriptor) :
  let r :=
    construct_dt_entry_2d get_ise_sequence_bitcount
      round_up_to_simd_multiple_vla x_texels y_texels x_weights y_weights
      bsd in
  let n := decimation_mode_count bsd in
  let weight_count := x_weights * y_weights in
  r.1 = n ∧ decimation_mode_count r.2 = n + 1 ∧
  decimation_tables r.2 !! n
    = Some (Some (initialize_decimation_table_2d
                    round_up_to_simd_multiple_vla x_texels y_texels
                    x_weights y_weights unwritten_decimation_table)) ∧
  (∃ dm, decimation_modes r.2 !! n = Some dm ∧
     highest_fit weight_count 12 (maxprec_1plane dm) ∧
     (if 2 * weight_count <=? MAX_WEIGHTS_PER_BLOCK
      then highest_fit (2 * weight_count) 12 (maxprec_2planes dm)
      else maxprec_2planes dm = -1) ∧
     dm_percentile_hit dm = false ∧ dm_percentile_always dm = false) ∧
  (∀ k, k ≠ n →
     decimation_tables r.2 !! k = decimation_tables bsd !! k ∧
     decimation_modes r.2 !! k = decimation_modes bsd !! k).
Proof.
  cbv zeta. unfold construct_dt_entry_2d. cbv zeta.
  pose proof (maxprec_loop (x_weights * y_weights)
                (2 * (x_weights * y_weights) <=? MAX_WEIGHTS_PER_BLOCK))
    as Hloop.
  cbv zeta in Hloop.
  destruct (for_loop 0 12 _ _) as [m1 m2]. cbn [fst snd] in *.
  destruct Hloop as [H1 H2]. stores.
  split; [reflexivity|]. split; [reflexivity|].
  split; [apply lookup_insert_eq|]. split.
  - eexists. split; [apply lookup_insert_eq|]. simpl.
    split; [exact H1|]. split; [exact H2|]. split; reflexivity.
  - intros k Hk. rewrite !lookup_insert_ne by congruence.
    split; reflexivity.
Qed.
End DecimationModes.

(** ** The maps of a partition info entry *)

(** The partition the scan assigns to texel [t] of a block of
    [xdim x ydim x zdim] texels: [select_partition] at the coordinates of
    [t], through the [uint8_t] local [part]. *)
Definition scan_partition (bsd : block_size_descriptor)
    (partition_count partition_index t : Z) : Z :=
  u8 (select_partition partition_index (t mod xdim bsd)
        ((t / xdim bsd) mod ydim bsd) (t / xdim bsd / ydim bsd)
        partition_count (texel_count bsd <? 32)).

(** The texels below [n] that [F] sends to partition [p], in increasing
    order. *)
Definition members (F : Z → Z) (n p : Z) : list Z :=
  filter (λ t, F t = p) (seqZ 0 n).

(** The state of the assignment loop after [n] texels. *)
Definition scanned (F : Z → Z) (n : Z) (st : gen_state) : Prop :=
  texel_idx st = n ∧ partition_of_texel_ptr st = n ∧
  (∀ t, 0 ≤ t < n → partition_of_texel (gen_pi st) !! t = Some (F t)) ∧
  (∀ p, rd (counts st) p = Z.of_nat (length (members F n p))) ∧
  (∀ p j t, members F n p !! j = Some t →
     texels_of_partition (gen_pi st) !! (p, Z.of_nat j) = Some t).

Lemma scan_coordinates (X Y z y x : Z) :
  0 ≤ x < X → 0 ≤ y < Y →
  let n := (z * Y + y) * X + x in
  n mod X = x ∧ (n / X) mod Y = y ∧ n / X / Y = z.
Proof.
  intros Hx Hy n. subst n.
  assert (Hd : ((z * Y + y) * X + x) / X = z * Y + y).
  { rewrite Z.div_add_l by lia. rewrite (Z.div_small x X) by lia. lia. }
  rewrite Hd. split; [|split].
  - rewrite Z.add_comm, Z.mod_add by lia. apply Z.mod_small. lia.
  - rewrite Z.add_comm, Z.mod_add by lia. apply Z.mod_small. lia.
  - rewrite Z.div_add_l by lia. rewrite (Z.div_small y Y) by lia. lia.
Qed.

Lemma members_succ (F : Z → Z) (n p : Z) :
  0 ≤ n →
  members F (n + 1) p = members F n p ++ (if decide (F n = p) then [n] else []).
Proof.
  intros Hn. unfold members. rewrite seqZ_app by lia.
  rewrite filter_app. f_equal.
Qed.

Lemma members_below (F : Z → Z) (n p t : Z) :
  t ∈ members F n p ↔ 0 ≤ t < n ∧ F t = p.
Proof.
  unfold members. rewrite list_elem_of_filter, elem_of_seqZ. intuition lia.
Qed.

Lemma scanned_start (F : Z → Z) (pi : partition_info) :
  scanned F 0
    (mk_gen_state 0 (for_loop 0 4 (λ i c, <[i := 0]> c) ∅) 0 pi).
Proof.
  unfold scanned. cbn [texel_idx partition_of_texel_ptr counts gen_pi].
  repeat split; try reflexivity.
  - intros t Ht. lia.
  - intros p. rewrite counts_init. reflexivity.
  - intros p j t Hj. apply lookup_lt_Some in Hj. unfold members in Hj.
    simpl in Hj. lia.
Qed.

Lemma scanned_step (bsd : block_size_descriptor)
    (partition_count partition_index z y x n : Z) (st : gen_state) :
  0 ≤ x < xdim bsd → 0 ≤ y < ydim bsd → 0 ≤ n →
  n = (z * ydim bsd + y) * xdim bsd + x →
  scanned (scan_partition bsd partition_count partition_index) n st →
  scanned (scan_partition bsd partition_count partition_index) (n + 1)
    (assign_texel partition_count partition_index (texel_count bsd <? 32)
       z y x st).
Proof.
  intros Hx Hy Hn Heq (Hidx & Hptr & Hpot & Hcnt & Htop).
  set (F := scan_partition bsd partition_count partition_index) in *.
  assert (HF : u8 (select_partition partition_index x y z partition_count
                     (texel_count bsd <? 32)) = F n).
  { subst F. unfold scan_partition.
    destruct (scan_coordinates (xdim bsd) (ydim bsd) z y x Hx Hy)
      as (E1 & E2 & E3). cbv zeta in *.
    rewrite Heq, E1, E2, E3. reflexivity. }
  unfold assign_texel. cbv zeta. rewrite HF. unfold scanned. stores.
  rewrite Hidx, Hptr. split; [reflexivity|]. split; [reflexivity|].
  split; [|split].
  - intros t Ht. destruct (decide (n = t)) as [<-|Hne].
    + apply lookup_insert_eq.
    + rewrite lookup_insert_ne by exact Hne. apply Hpot. lia.
  - intros p. rewrite members_succ by exact Hn. rewrite length_app.
    destruct (decide (F n = p)) as [<-|Hne].
    + rewrite rd_insert_eq, Hcnt. simpl. lia.
    + rewrite rd_insert_ne by exact Hne. rewrite Hcnt. simpl. lia.
  - intros p j t. rewrite members_succ by exact Hn.
    destruct (decide (F n = p)) as [<-|Hne].
    + intros Hj. apply lookup_app_Some in Hj as [Hj|[Hlen Hj]].
      * rewrite lookup_insert_ne; [apply Htop; exact Hj|].
        apply lookup_lt_Some in Hj. rewrite Hcnt. intros [= E]. lia.
      * apply list_lookup_singleton_Some in Hj as [Hj0 <-].
        assert (j = length (members F n (F n))) as -> by lia.
        rewrite Hcnt. apply lookup_insert_eq.
    + rewrite app_nil_r. intros Hj.
      rewrite lookup_insert_ne; [apply Htop; exact Hj|].
      intros [= E _]. contradiction.
Qed.

Lemma rd_same `{Countable K} (m m' : gmap K Z) (k : K) :
  m !! k = m' !! k → rd m k = rd m' k.
Proof. intros E. unfold rd. rewrite E. reflexivity. Qed.

Section PartitionMaps.
Variable round_up_to_simd_multiple_vla : Z → Z.

(** The state the three assignment loops leave. *)
Lemma scan_scanned (bsd : block_size_descriptor)
    (partition_count partition_index : Z) (pi : partition_info) :
  0 ≤ xdim bsd → 0 ≤ ydim bsd → 0 ≤ zdim bsd →
  scanned (scan_partition bsd partition_count partition_index)
    (xdim bsd * ydim bsd * zdim bsd)
    (for_loop 0 (zdim bsd) (λ z,
       for_loop 0 (ydim bsd) (λ y,
         for_loop 0 (xdim bsd) (λ x,
           assign_texel partition_count partition_index
             (texel_count bsd <? 32) z y x)))
       (mk_gen_state 0 (for_loop 0 4 (λ i c, <[i := 0]> c) ∅) 0 pi)).
Proof.
  intros HX HY HZ.
  set (F := scan_partition bsd partition_count partition_index).
  replace (xdim bsd * ydim bsd * zdim bsd)
    with (zdim bsd * ydim bsd * xdim bsd) by lia.
  apply (for_loop_ind (λ z s, scanned F (z * ydim bsd * xdim bsd) s));
    [exact HZ|apply scanned_start|].
  intros z s Hz Hs.
  replace ((z + 1) * ydim bsd * xdim bsd)
    with ((z * ydim bsd + ydim bsd) * xdim bsd) by lia.
  apply (for_loop_ind (λ y s, scanned F ((z * ydim bsd + y) * xdim bsd) s));
    [exact HY| |].
  { replace ((z * ydim bsd + 0) * xdim bsd) with (z * ydim bsd * xdim bsd)
      by lia. exact Hs. }
  intros y s' Hy Hs'.
  replace ((z * ydim bsd + (y + 1)) * xdim bsd)
    with ((z * ydim bsd + y) * xdim bsd + xdim bsd) by lia.
  apply (for_loop_ind
           (λ x s, scanned F ((z * ydim bsd + y) * xdim bsd + x) s));
    [exact HX| |].
  { rewrite Z.add_0_r. exact Hs'. }
  intros x s'' Hx Hs''.
  replace ((z * ydim bsd + y) * xdim bsd + (x + 1))
    with ((z * ydim bsd + y) * xdim bsd + x + 1) by lia.
  apply scanned_step; try assumption; try reflexivity. nia.
Qed.

(** The loop that fills the tails (lines 318-326): it writes row [i] from
    [counts[i]] on, with the last real entry of the row. *)
Lemma tail_fill (counts : gmap Z Z) (partition_count : Z)
    (pi : partition_info) :
  let pi' :=
    for_loop 0 partition_count (λ i pi,
      for_loop (rd counts i) (round_up_to_simd_multiple_vla (rd counts i))
        (λ j pi,
           set_texels_of_partition (i, j)
             (rd (texels_of_partition pi) (i, rd counts i - 1)) pi) pi) pi in
  partition_of_texel pi' = partition_of_texel pi ∧
  (∀ p j, j < rd counts p →
     texels_of_partition pi' !! (p, j) = texels_of_partition pi !! (p, j)) ∧
  (∀ i j, 0 ≤ i < partition_count →
     rd counts i ≤ j < round_up_to_simd_multiple_vla (rd counts i) →
     texels_of_partition pi' !! (i, j)
       = Some (rd (texels_of_partition pi) (i, rd counts i - 1))).
Proof.
  cbv zeta.
  destruct (Z_le_gt_dec 0 partition_count) as [Hpc|Hpc].
  2: { rewrite for_loop_empty by lia. repeat split; try reflexivity.
       intros i j Hi. lia. }
  apply (for_loop_ind (λ n pi',
           partition_of_texel pi' = partition_of_texel pi ∧
           (∀ p j, j < rd counts p →
              texels_of_partition pi' !! (p, j)
                = texels_of_partition pi !! (p, j)) ∧
           (∀ i j, 0 ≤ i < n →
              rd counts i ≤ j < round_up_to_simd_multiple_vla (rd counts i) →
              texels_of_partition pi' !! (i, j)
                = Some (rd (texels_of_partition pi) (i, rd counts i - 1)))));
    [exact Hpc| |].
  { repeat split; try reflexivity. intros i j Hi. lia. }
  intros n pi1 Hn (Hpot & Hlow & Hrows).
  set (c := rd counts n). set (r := round_up_to_simd_multiple_vla c).
  destruct (Z_le_gt_dec c r) as [Hcr|Hcr].
  2: { rewrite for_loop_empty by lia. split; [exact Hpot|].
       split; [exact Hlow|]. intros i j Hi Hj.
       destruct (decide (i = n)) as [->|Hne]; [fold c r in Hj; lia|].
       apply Hrows; [lia|exact Hj]. }
  match goal with
  | |- context [for_loop c r ?body pi1] =>
      pose proof (for_loop_ind (λ m pi',
           partition_of_texel pi' = partition_of_texel pi ∧
           (∀ p j, j < rd counts p →
              texels_of_partition pi' !! (p, j)
                = texels_of_partition pi !! (p, j)) ∧
           (∀ i j, 0 ≤ i < n →
              rd counts i ≤ j < round_up_to_simd_multiple_vla (rd counts i) →
              texels_of_partition pi' !! (i, j)
                = Some (rd (texels_of_partition pi) (i, rd counts i - 1))) ∧
           (∀ j, c ≤ j < m →
              texels_of_partition pi' !! (n, j)
                = Some (rd (texels_of_partition pi) (n, c - 1))))
        c r body pi1 Hcr) as Hin
  end.
  cbv beta in Hin.
  destruct Hin as (Hpot2 & Hlow2 & Hrows2 & Hrow2).
  - split; [exact Hpot|]. split; [exact Hlow|]. split; [exact Hrows|].
    intros j Hj. lia.
  - intros m pi2 Hm (Hpot2 & Hlow2 & Hrows2 & Hrow2). stores.
    split; [exact Hpot2|]. split; [|split].
    + intros p j Hj. rewrite lookup_insert_ne; [apply Hlow2; exact Hj|].
      intros [= -> ->]. fold c in Hj. lia.
    + intros i j Hi Hj. rewrite lookup_insert_ne; [apply Hrows2; assumption|].
      intros [= -> ->]. lia.
    + intros j Hj. destruct (decide (j = m)) as [->|Hne].
      * rewrite lookup_insert_eq. f_equal. unfold rd.
        rewrite (Hlow2 n (c - 1)) by (fold c; lia). reflexivity.
      * rewrite lookup_insert_ne by congruence. apply Hrow2. lia.
  - split; [exact Hpot2|]. split; [exact Hlow2|]. intros i j Hi Hj.
    destruct (decide (i = n)) as [->|Hne].
    + apply Hrow2. exact Hj.
    + apply Hrows2; [lia|exact Hj].
Qed.

(** The loop that stores the counts and clears the bitmaps (lines
    349-353). *)
Lemma four_counts (counts : gmap Z Z) (pi : partition_info) :
  let pi' :=
    for_loop 0 4 (λ i pi,
      set_coverage_bitmaps i 0 (set_partition_texel_count i (rd counts i) pi))
      pi in
  partition_of_texel pi' = partition_of_texel pi ∧
  texels_of_partition pi' = texels_of_partition pi ∧
  partition_count pi' = partition_count pi ∧
  ∀ i, 0 ≤ i < 4 →
    partition_texel_count pi' !! i = Some (rd counts i) ∧
    coverage_bitmaps pi' !! i = Some 0.
Proof.
  cbv zeta.
  apply (for_loop_ind (λ n pi',
           partition_of_texel pi' = partition_of_texel pi ∧
           texels_of_partition pi' = texels_of_partition pi ∧
           partition_count pi' = partition_count pi ∧
           ∀ i, 0 ≤ i < n →
             partition_texel_count pi' !! i = Some (rd counts i) ∧
             coverage_bitmaps pi' !! i = Some 0)); [lia| |].
  - repeat split; try reflexivity; lia.
  - intros n pi1 Hn (Hpot & Htop & Hpc & Hrows). stores.
    split; [exact Hpot|]. split; [exact Htop|]. split; [exact Hpc|].
    intros i Hi. destruct (decide (i = n)) as [->|Hne].
    + rewrite !lookup_insert_eq. split; reflexivity.
    + rewrite !lookup_insert_ne by congruence. apply Hrows. lia.
Qed.

Lemma testbit_one_shifted (i b : Z) :
  0 ≤ i < 64 → Z.testbit (u64 (Z.shiftl 1 i)) b = (i =? b).
Proof.
  intros Hi. rewrite Z.shiftl_1_l. unfold u64.
  change 18446744073709551616 with (2 ^ 64).
  rewrite Z.mod_small.
  - apply Z.pow2_bits_eqb. lia.
  - split; [apply Z.pow_nonneg; lia|apply Z.pow_lt_mono_r; lia].
Qed.

(** The loop over the kmeans texels (lines 355-360). *)
Lemma coverage_fill (kmeans_texels : gmap Z Z) (count : Z)
    (pi : partition_info) :
  count ≤ 64 →
  let pi' :=
    for_loop 0 count (λ i pi,
      set_coverage_bitmaps (rd (partition_of_texel pi) (rd kmeans_texels i))
        (Z.lor
           (rd (coverage_bitmaps pi)
              (rd (partition_of_texel pi) (rd kmeans_texels i)))
           (u64 (Z.shiftl 1 i))) pi) pi in
  partition_of_texel pi' = partition_of_texel pi ∧
  texels_of_partition pi' = texels_of_partition pi ∧
  partition_texel_count pi' = partition_texel_count pi ∧
  partition_count pi' = partition_count pi ∧
  ∀ p b,
    Z.testbit (rd (coverage_bitmaps pi') p) b
    = Z.testbit (rd (coverage_bitmaps pi) p) b
      || ((0 <=? b) && (b <? count)
          && (rd (partition_of_texel pi) (rd kmeans_texels b) =? p)).
Proof.
  intros Hcount. cbv zeta.
  destruct (Z_le_gt_dec 0 count) as [Hc|Hc].
  2: { rewrite for_loop_empty by lia. repeat split; try reflexivity.
       intros p b. destruct (Z.leb_spec 0 b), (Z.ltb_spec b count);
         try lia; simpl; rewrite orb_false_r; reflexivity. }
  apply (for_loop_ind (λ n pi',
           partition_of_texel pi' = partition_of_texel pi ∧
           texels_of_partition pi' = texels_of_partition pi ∧
           partition_texel_count pi' = partition_texel_count pi ∧
           partition_count pi' = partition_count pi ∧
           ∀ p b,
             Z.testbit (rd (coverage_bitmaps pi') p) b
             = Z.testbit (rd (coverage_bitmaps pi) p) b
               || ((0 <=? b) && (b <? n)
                   && (rd (partition_of_texel pi) (rd kmeans_texels b) =? p))));
    [exact Hc| |].
  - repeat split; try reflexivity. intros p b.
    destruct (Z.leb_spec 0 b), (Z.ltb_spec b 0); try lia; simpl;
      rewrite orb_false_r; reflexivity.
  - intros n pi1 Hn (Hpot & Htop & Hptc & Hpc & Hbits). stores.
    split; [exact Hpot|]. split; [exact Htop|]. split; [exact Hptc|].
    split; [exact Hpc|]. intros p b. rewrite Hpot.
    set (q := rd (partition_of_texel pi) (rd kmeans_texels n)).
    destruct (decide (q = p)) as [<-|Hne].
    + rewrite rd_insert_eq, Z.lor_spec, Hbits.
      rewrite testbit_one_shifted by lia.
      destruct (Z.eqb_spec n b) as [<-|Hnb].
      * fold q. rewrite Z.eqb_refl.
        destruct (Z.leb_spec 0 n), (Z.ltb_spec n (n + 1)); try lia.
      * rewrite orb_false_r.
        destruct (Z.ltb_spec b n), (Z.ltb_spec b (n + 1)); try lia;
          reflexivity.
    + rewrite rd_insert_ne by exact Hne. rewrite Hbits.
      destruct (Z.eqb_spec n b) as [<-|Hnb].
      * fold q. destruct (Z.eqb_spec q p) as [E|_]; [contradiction|].
        rewrite !andb_false_r. reflexivity.
      * destruct (Z.ltb_spec b n), (Z.ltb_spec b (n + 1)); try lia;
          reflexivity.
Qed.

Lemma coverage_frame (kmeans_texels : gmap Z Z) (count : Z)
    (pi : partition_info) :
  let pi' :=
    for_loop 0 count (λ i pi,
      set_coverage_bitmaps (rd (partition_of_texel pi) (rd kmeans_texels i))
        (Z.lor
           (rd (coverage_bitmaps pi)
              (rd (partition_of_texel pi) (rd kmeans_texels i)))
           (u64 (Z.shiftl 1 i))) pi) pi in
  partition_of_texel pi' = partition_of_texel pi ∧
  texels_of_partition pi' = texels_of_partition pi ∧
  partition_texel_count pi' = partition_texel_count pi ∧
  partition_count pi' = partition_count pi.
Proof.
  cbv zeta.
  apply (for_loop_preserves (λ pi',
           partition_of_texel pi' = partition_of_texel pi ∧
           texels_of_partition pi' = texels_of_partition pi ∧
           partition_texel_count pi' = partition_texel_count pi ∧
           partition_count pi' = partition_count pi)).
  - repeat split; reflexivity.
  - intros i pi1 _ H. stores. exact H.
Qed.

(** The maps of a generated entry. *)
Lemma generate_entry_maps (bsd : block_size_descriptor)
    (partition_count0 partition_index : Z) (pi0 : partition_info) :
  0 ≤ xdim bsd → 0 ≤ ydim bsd → 0 ≤ zdim bsd →
  let n := xdim bsd * ydim bsd * zdim bsd in
  let F := scan_partition bsd partition_count0 partition_index in
  let pi :=
    generate_one_partition_info_entry round_up_to_simd_multiple_vla bsd
      partition_count0 partition_index pi0 in
  (∀ t, 0 ≤ t < n → partition_of_texel pi !! t = Some (F t)) ∧
  (∀ p j t, members F n p !! j = Some t →
     texels_of_partition pi !! (p, Z.of_nat j) = Some t) ∧
  (∀ i j, 0 ≤ i < partition_count0 →
     Z.of_nat (length (members F n i)) ≤ j
       < round_up_to_simd_multiple_vla (Z.of_nat (length (members F n i))) →
     texels_of_partition pi !! (i, j)
       = Some (rd (texels_of_partition pi)
                 (i, Z.of_nat (length (members F n i)) - 1))) ∧
  (∀ p, 0 ≤ p < 4 →
     partition_texel_count pi !! p
       = Some (Z.of_nat (length (members F n p)))) ∧
  (kmeans_texel_count bsd ≤ 64 →
   ∀ p b, 0 ≤ p < 4 →
     Z.testbit (rd (coverage_bitmaps pi) p) b
     = (0 <=? b) && (b <? kmeans_texel_count bsd)
       && (rd (partition_of_texel pi) (rd (kmeans_texels bsd) b) =? p)).
Proof.
  intros HX HY HZ n F pi. subst pi.
  unfold generate_one_partition_info_entry. cbv zeta.
  pose proof (scan_scanned bsd partition_count0 partition_index pi0 HX HY HZ)
    as Hscan.
  fold n F in Hscan.
  match type of Hscan with scanned _ _ ?s => set (st := s) in * end.
  destruct Hscan as (_ & _ & Hpot & Hcnt & Htop).
  pose proof (tail_fill (counts st) partition_count0 (gen_pi st)) as Htail.
  cbv zeta in Htail.
  match type of Htail with
  | partition_of_texel ?p = _ ∧ _ => set (pi1 := p) in *
  end.
  destruct Htail as (Hpot1 & Hlow1 & Hrows1).
  match goal with
  | |- context [for_loop 0 4 ?body ?p] =>
      set (pi2 := p);
      assert (Hpi2 : partition_of_texel pi2 = partition_of_texel pi1 ∧
                     texels_of_partition pi2 = texels_of_partition pi1)
        by (subst pi2;
            repeat match goal with
                   | |- context [if ?b then _ else _] => destruct b
                   end; split; reflexivity)
  end.
  destruct Hpi2 as [Hpot2 Htop2].
  pose proof (four_counts (counts st) pi2) as Hfour. cbv zeta in Hfour.
  match type of Hfour with
  | partition_of_texel ?p = _ ∧ _ => set (pi3 := p) in *
  end.
  destruct Hfour as (Hpot3 & Htop3 & _ & Hrows3).
  pose proof (coverage_frame (kmeans_texels bsd) (kmeans_texel_count bsd) pi3)
    as Hcov.
  cbv zeta in Hcov.
  match type of Hcov with
  | partition_of_texel ?p = _ ∧ _ => set (pi4 := p) in *
  end.
  destruct Hcov as (Hpot4 & Htop4 & Hptc4 & _).
  assert (Hlow : ∀ p j, j < rd (counts st) p →
            texels_of_partition pi4 !! (p, j)
              = texels_of_partition (gen_pi st) !! (p, j)).
  { intros p j Hj. rewrite Htop4, Htop3, Htop2. apply Hlow1. exact Hj. }
  split; [|split; [|split; [|split]]].
  - intros t Ht. rewrite Hpot4, Hpot3, Hpot2, Hpot1. apply Hpot. exact Ht.
  - intros p j t Hj. rewrite Hlow; [apply Htop; exact Hj|].
    apply lookup_lt_Some in Hj. rewrite Hcnt. lia.
  - intros i j Hi Hj. rewrite <- Hcnt in Hj |- *.
    rewrite Htop4, Htop3, Htop2. rewrite (Hrows1 i j Hi Hj). f_equal.
    rewrite <- Htop2, <- Htop3, <- Htop4. symmetry. apply rd_same.
    apply Hlow. lia.
  - intros p Hp. rewrite Hptc4. destruct (Hrows3 p Hp) as [-> _].
    rewrite Hcnt. reflexivity.
  - intros HK p b Hp.
    pose proof (coverage_fill (kmeans_texels bsd) (kmeans_texel_count bsd)
                  pi3 HK) as Hfill.
    cbv zeta in Hfill. fold pi4 in Hfill.
    destruct Hfill as (_ & _ & _ & _ & Hbits).
    rewrite Hbits, Hpot4. destruct (Hrows3 p Hp) as [_ H0].
    rewrite (rd_lookup _ _ _ H0). rewrite Z.bits_0. reflexivity.
Qed.
End PartitionMaps.

(** ** What a partition info entry holds *)

Lemma StronglySorted_snoc {A : Type} (R : A → A → Prop) (l : list A) (a : A) :
  StronglySorted R l → Forall (λ b, R b a) l → StronglySorted R (l ++ [a]).
Proof.
  induction 1 as [|b l Hl IH Hall]; intros Hlt; simpl.
  - constructor; constructor.
  - inversion Hlt as [|? ? Hb Hrest]; subst. constructor.
    + apply IH. exact Hrest.
    + apply Forall_app. split; [exact Hall|]. constructor; [exact Hb|constructor].
Qed.

Lemma members_sorted (F : Z → Z) (p : Z) (k : nat) :
  StronglySorted Z.lt (members F (Z.of_nat k) p).
Proof.
  induction k as [|k IH]; [constructor|].
  replace (Z.of_nat (S k)) with (Z.of_nat k + 1) by lia.
  rewrite members_succ by lia.
  destruct (decide (F (Z.of_nat k) = p)); [|rewrite app_nil_r; exact IH].
  apply StronglySorted_snoc; [exact IH|].
  apply Forall_forall. intros t Ht. apply members_below in Ht. lia.
Qed.

(** When [F] sends every texel to one of the partitions 0..3, the four
    member lists hold all the texels. *)
Lemma members_cover (F : Z → Z) (k : nat) :
  (∀ t, 0 ≤ t < Z.of_nat k → 0 ≤ F t < 4) →
  (length (members F (Z.of_nat k) 0) + length (members F (Z.of_nat k) 1)
   + length (members F (Z.of_nat k) 2) + length (members F (Z.of_nat k) 3)
   = k)%nat.
Proof.
  induction k as [|k IH]; intros HF; [reflexivity|].
  replace (Z.of_nat (S k)) with (Z.of_nat k + 1) in * by lia.
  rewrite !members_succ by lia. rewrite !length_app.
  specialize (IH ltac:(intros t Ht; apply HF; lia)).
  pose proof (HF (Z.of_nat k) ltac:(lia)) as Hk.
  assert (F (Z.of_nat k) = 0 ∨ F (Z.of_nat k) = 1 ∨ F (Z.of_nat k) = 2
          ∨ F (Z.of_nat k) = 3) as [E | [E | [E | E]]] by lia;
    rewrite E; simpl; lia.
Qed.

Lemma members_none (F : Z → Z) (n p : Z) :
  (∀ t, 0 ≤ t < n → F t ≠ p) → members F n p = [].
Proof.
  intros HF. unfold members. apply filter_none. intros t Ht.
  apply elem_of_seqZ in Ht. apply HF. lia.
Qed.

(** The partition [select_partition] returns, below the requested count. *)
Lemma select_partition_range (seed x y z partition_count : Z)
    (small_block : bool) :
  1 ≤ partition_count ≤ 4 →
  0 ≤ select_partition seed x y z partition_count small_block
    < partition_count.
Proof.
  intros Hpc. unfold select_partition. cbv zeta.
  repeat match goal with
  | |- context [Z.land (s32 ?t) 63] =>
      let v := fresh "lf" in set (v := s32 t)
  end.
  repeat match goal with
  | v := s32 _ |- _ =>
      pose proof (land_63_range v); generalize dependent (Z.land v 63);
      clear v
  end.
  intros. apply select_partition_choice; lia.
Qed.

Lemma scan_partition_range (bsd : block_size_descriptor)
    (partition_count partition_index t : Z) :
  1 ≤ partition_count ≤ 4 →
  0 ≤ scan_partition bsd partition_count partition_index t < partition_count.
Proof.
  intros Hpc. unfold scan_partition.
  match goal with
  | |- context [u8 ?s] =>
      assert (Hs : 0 ≤ s < partition_count)
        by (apply select_partition_range; exact Hpc);
      rewrite (u8_small s) by lia; exact Hs
  end.
Qed.

Section PartitionEntry.
Variable round_up_to_simd_multiple_vla : Z → Z.

Abbreviation entry :=
  (generate_one_partition_info_entry round_up_to_simd_multiple_vla).

(** X4. A generated entry assigns the texels in scan order, x fastest and
    z slowest: the cell of the texel at [(x, y, z)] holds the partition
    that [select_partition] returns for these coordinates, through a
    [uint8_t], with the small-block bias when the block has fewer than 32
    texels. *)
Theorem partition_of_texel_scan_order (bsd : block_size_descriptor)
    (partition_count0 partition_index : Z) (pi0 : partition_info)
    (z y x : Z) :
  0 ≤ x < xdim bsd → 0 ≤ y < ydim bsd → 0 ≤ z < zdim bsd →
  partition_of_texel (entry bsd partition_count0 partition_index pi0)
    !! ((z * ydim bsd + y) * xdim bsd + x)
  = Some (u8 (select_partition partition_index x y z partition_count0
                (texel_count bsd <? 32))).
Proof.
  intros Hx Hy Hz.
  destruct (generate_entry_maps round_up_to_simd_multiple_vla bsd
              partition_count0 partition_index pi0
              ltac:(lia) ltac:(lia) ltac:(lia)) as (Hpot & _).
  assert (Hrow : 0 ≤ z * ydim bsd + y ≤ zdim bsd * ydim bsd - 1) by nia.
  assert (Hcell : 0 ≤ (z * ydim bsd + y) * xdim bsd + x
                    < xdim bsd * ydim bsd * zdim bsd) by nia.
  rewrite Hpot by exact Hcell. unfold scan_partition.
  destruct (scan_coordinates (xdim bsd) (ydim bsd) z y x Hx Hy)
    as (E1 & E2 & E3). cbv zeta in *.
  rewrite E1, E2, E3. reflexivity.
Qed.

(** X5. In a generated entry of a block of at most 216 texels, row [p] of
    [texels_of_partition], up to [partition_texel_count[p]], lists the
    texels of partition [p] and only them, in increasing order: every
    listed texel is assigned to [p], every texel assigned to [p] is listed,
    and a later position holds a larger texel. *)
Theorem texels_of_partition_round_trip (bsd : block_size_descriptor)
    (partition_count0 partition_index : Z) (pi0 : partition_info) (p : Z) :
  0 ≤ xdim bsd → 0 ≤ ydim bsd → 0 ≤ zdim bsd →
  xdim bsd * ydim bsd * zdim bsd ≤ MAX_TEXELS_PER_BLOCK →
  0 ≤ p < 4 →
  let pi := entry bsd partition_count0 partition_index pi0 in
  let n := xdim bsd * ydim bsd * zdim bsd in
  ∃ cnt,
    partition_texel_count pi !! p = Some cnt ∧ 0 ≤ cnt ≤ n ∧
    (∀ j, 0 ≤ j < cnt →
       ∃ t, texels_of_partition pi !! (p, j) = Some t ∧ 0 ≤ t < n ∧
            partition_of_texel pi !! t = Some p) ∧
    (∀ t, 0 ≤ t < n → partition_of_texel pi !! t = Some p →
       ∃ j, 0 ≤ j < cnt ∧ texels_of_partition pi !! (p, j) = Some t) ∧
    (∀ j j' t t', 0 ≤ j < j' → j' < cnt →
       texels_of_partition pi !! (p, j) = Some t →
       texels_of_partition pi !! (p, j') = Some t' → t < t').
Proof.
  intros HX HY HZ _ Hp pi n.
  destruct (generate_entry_maps round_up_to_simd_multiple_vla bsd
              partition_count0 partition_index pi0 HX HY HZ)
    as (Hpot & Htop & _ & Hptc & _).
  fold pi n in Hpot, Htop, Hptc.
  set (F := scan_partition bsd partition_count0 partition_index) in *.
  assert (Hn : 0 ≤ n) by (subst n; nia).
  exists (Z.of_nat (length (members F n p))).
  split; [apply Hptc; exact Hp|]. split; [|split; [|split]].
  - split; [lia|].
    pose proof (length_filter (λ t, F t = p) (seqZ 0 n)) as Hle.
    rewrite length_seqZ in Hle. unfold members. lia.
  - intros j Hj.
    destruct (lookup_lt_is_Some_2 (members F n p) (Z.to_nat j) ltac:(lia))
      as [t Ht].
    exists t. pose proof (Htop p _ t Ht) as Hcell.
    rewrite Z2Nat.id in Hcell by lia. split; [exact Hcell|].
    apply list_elem_of_lookup_2, members_below in Ht as [Hr <-].
    split; [exact Hr|apply Hpot; exact Hr].
  - intros t Ht Hpt. rewrite (Hpot t Ht) in Hpt. injection Hpt as HF.
    assert (Hin : t ∈ members F n p) by (apply members_below; split; assumption).
    apply list_elem_of_lookup_1 in Hin as [j Hj]. exists (Z.of_nat j).
    split; [|apply Htop; exact Hj]. apply lookup_lt_Some in Hj. lia.
  - intros j j' t t' Hj Hj' Hc Hc'.
    destruct (lookup_lt_is_Some_2 (members F n p) (Z.to_nat j) ltac:(lia))
      as [u Hu].
    destruct (lookup_lt_is_Some_2 (members F n p) (Z.to_nat j') ltac:(lia))
      as [u' Hu'].
    pose proof (Htop p _ u Hu) as E. pose proof (Htop p _ u' Hu') as E'.
    rewrite Z2Nat.id in E, E' by lia.
    assert (u = t) as -> by congruence. assert (u' = t') as -> by congruence.
    pose proof (members_sorted F p (Z.to_nat n)) as Hs.
    rewrite Z2Nat.id in Hs by exact Hn.
    apply (StronglySorted_lookup_lt Z.lt _ (Z.to_nat j) (Z.to_nat j') t t' Hs);
      [exact Hu|exact Hu'|lia].
Qed.

(** X6. When 1 to 4 partitions are requested, the entry counts no texel
    for a partition at or above the requested count, and the four counts
    add up to the number of texels of the block. *)
Theorem partition_texel_counts_add_up (bsd : block_size_descriptor)
    (partition_count0 partition_index : Z) (pi0 : partition_info) :
  0 ≤ xdim bsd → 0 ≤ ydim bsd → 0 ≤ zdim bsd →
  1 ≤ partition_count0 ≤ 4 →
  let pi := entry bsd partition_count0 partition_index pi0 in
  (∀ p, partition_count0 ≤ p < 4 → partition_texel_count pi !! p = Some 0) ∧
  rd (partition_texel_count pi) 0 + rd (partition_texel_count pi) 1
  + rd (partition_texel_count pi) 2 + rd (partition_texel_count pi) 3
  = xdim bsd * ydim bsd * zdim bsd.
Proof.
  intros HX HY HZ Hpc pi.
  destruct (generate_entry_maps round_up_to_simd_multiple_vla bsd
              partition_count0 partition_index pi0 HX HY HZ)
    as (_ & _ & _ & Hptc & _).
  fold pi in Hptc.
  set (F := scan_partition bsd partition_count0 partition_index) in *.
  set (n := xdim bsd * ydim bsd * zdim bsd) in *.
  assert (Hn : 0 ≤ n) by (subst n; nia).
  assert (HF : ∀ t, 0 ≤ F t < partition_count0)
    by (intros t; apply scan_partition_range; exact Hpc).
  split.
  - intros p Hp. rewrite Hptc by lia. rewrite members_none; [reflexivity|].
    intros t _. specialize (HF t). lia.
  - assert (H4 : ∀ p, 0 ≤ p < 4 →
              rd (partition_texel_count pi) p
                = Z.of_nat (length (members F n p)))
      by (intros p Hp; apply rd_lookup, Hptc; exact Hp).
    rewrite !H4 by lia.
    pose proof (members_cover F (Z.to_nat n)) as Hsum.
    rewrite Z2Nat.id in Hsum by exact Hn.
    assert (Hall : ∀ t, 0 ≤ t < n → 0 ≤ F t < 4)
      by (intros t _; specialize (HF t); lia).
    specialize (Hsum Hall). lia.
Qed.

(** X7. For each requested partition [i] below 4, the entry fills row [i]
    of [texels_of_partition] from its count up to the SIMD round-up of the
    count with the last real entry of the row. *)
Theorem texels_of_partition_tail (bsd : block_size_descriptor)
    (partition_count0 partition_index : Z) (pi0 : partition_info)
    (i j cnt : Z) :
  0 ≤ xdim bsd → 0 ≤ ydim bsd → 0 ≤ zdim bsd →
  0 ≤ i < partition_count0 → i < 4 →
  let pi := entry bsd partition_count0 partition_index pi0 in
  partition_texel_count pi !! i = Some cnt →
  cnt ≤ j < round_up_to_simd_multiple_vla cnt →
  texels_of_partition pi !! (i, j)
    = Some (rd (texels_of_partition pi) (i, cnt - 1)).
Proof.
  intros HX HY HZ Hi Hi4 pi Hcnt Hj.
  destruct (generate_entry_maps round_up_to_simd_multiple_vla bsd
              partition_count0 partition_index pi0 HX HY HZ)
    as (_ & _ & Htail & Hptc & _).
  fold pi in Htail, Hptc.
  rewrite (Hptc i ltac:(lia)) in Hcnt. injection Hcnt as <-.
  apply Htail; assumption.
Qed.

(** X8. With at most 64 kmeans texels in the descriptor, bit [b] of the
    coverage bitmap of partition [p] of a generated entry is set exactly
    when [b] is the position of a kmeans texel that the entry assigns to
    [p]; no bit at or above the kmeans texel count is set. *)
Theorem coverage_bitmaps_bits (bsd : block_size_descriptor)
    (partition_count0 partition_index : Z) (pi0 : partition_info)
    (p b : Z) :
  0 ≤ xdim bsd → 0 ≤ ydim bsd → 0 ≤ zdim bsd →
  kmeans_texel_count bsd ≤ 64 → 0 ≤ p < 4 →
  let pi := entry bsd partition_count0 partition_index pi0 in
  Z.testbit (rd (coverage_bitmaps pi) p) b = true ↔
  0 ≤ b < kmeans_texel_count bsd ∧
  rd (partition_of_texel pi) (rd (kmeans_texels bsd) b) = p.
Proof.
  intros HX HY HZ HK Hp pi.
  destruct (generate_entry_maps round_up_to_simd_multiple_vla bsd
              partition_count0 partition_index pi0 HX HY HZ)
    as (_ & _ & _ & _ & Hbits).
  fold pi in Hbits. rewrite (Hbits HK p b Hp).
  rewrite !andb_true_iff, Z.leb_le, Z.ltb_lt, Z.eqb_eq. tauto.
Qed.
End PartitionEntry.

(** ** Which entries the deduplication invalidates *)

(** The inner loop with its [break]: the entry is invalidated exactly when
    one of the indices scanned compares equal. *)
Lemma remove_duplicate_scan_exact (bp : gmap Z Z) (base i : Z)
    (js : list Z) (pts : gmap Z partition_info) :
  remove_duplicate_scan bp base i js pts
  = if existsb (λ j, compare_canonical_partitionings bp (7 * i) (7 * j)) js
    then <[base + i := set_partition_count 0 (pt_entry pts base i)]> pts
    else pts.
Proof.
  induction js as [|j js IH]; simpl; [reflexivity|].
  destruct (compare_canonical_partitionings bp (7 * i) (7 * j)); simpl;
    [reflexivity|exact IH].
Qed.

Lemma remove_duplicates_exact (bp : gmap Z Z) (base : Z)
    (pts : gmap Z partition_info) (i : Z) :
  0 ≤ i < PARTITION_COUNT →
  for_loop 0 PARTITION_COUNT
    (λ i pts, remove_duplicate_scan bp base i (seqZ 0 i) pts) pts
    !! (base + i)
  = if existsb (λ j, compare_canonical_partitionings bp (7 * i) (7 * j))
         (seqZ 0 i)
    then Some (set_partition_count 0 (pt_entry pts base i))
    else pts !! (base + i).
Proof.
  intros Hi.
  pose (P := λ n (pts' : gmap Z partition_info),
       (∀ idx, idx < base ∨ base + n ≤ idx → pts' !! idx = pts !! idx) ∧
       ∀ i, 0 ≤ i < n →
         pts' !! (base + i)
         = if existsb
                (λ j, compare_canonical_partitionings bp (7 * i) (7 * j))
                (seqZ 0 i)
           then Some (set_partition_count 0 (pt_entry pts base i))
           else pts !! (base + i)).
  match goal with
  | |- ?l !! _ = _ => assert (H : P PARTITION_COUNT l)
  end.
  { apply (for_loop_ind P); subst P; cbv beta;
      [unfold PARTITION_COUNT; lia| |].
    - split; [reflexivity|]. intros i' Hi'. lia.
    - intros n pts' Hn (Hframe & Hdone).
      rewrite remove_duplicate_scan_exact.
      assert (Hn' : pt_entry pts' base n = pt_entry pts base n)
        by (unfold pt_entry; rewrite Hframe by lia; reflexivity).
      destruct (existsb _ (seqZ 0 n)) eqn:Hex.
      + split.
        * intros idx Hidx. rewrite lookup_insert_ne by lia. apply Hframe. lia.
        * intros i' Hi'. destruct (decide (i' = n)) as [->|Hne].
          -- rewrite lookup_insert_eq, Hex, Hn'. reflexivity.
          -- rewrite lookup_insert_ne by lia. apply Hdone. lia.
      + split.
        * intros idx Hidx. apply Hframe. lia.
        * intros i' Hi'. destruct (decide (i' = n)) as [->|Hne].
          -- rewrite Hex. apply Hframe. lia.
          -- apply Hdone. lia. }
  destruct H as [_ Hdone]. apply Hdone. exact Hi.
Qed.

(** Entry [i] of the table at [base] has the canonical pattern of an
    earlier entry of the table. *)
Definition earlier_duplicate (texel_count : Z)
    (pts : gmap Z partition_info) (base i : Z) : Prop :=
  ∃ j, 0 ≤ j < i ∧
    canonical_pattern texel_count (partition_of_texel (pt_entry pts base i))
    = canonical_pattern texel_count (partition_of_texel (pt_entry pts base j)).

Lemma earlier_duplicate_found (texel_count base : Z)
    (pts : gmap Z partition_info) (i : Z) :
  texel_count ≤ 224 → 0 ≤ i < PARTITION_COUNT →
  existsb
    (λ j, compare_canonical_partitionings
            (for_loop 0 PARTITION_COUNT
               (λ i bp,
                  generate_canonical_partitioning texel_count
                    (partition_of_texel (pt_entry pts base i)) (i * 7) bp) ∅)
            (7 * i) (7 * j))
    (seqZ 0 i) = true
  ↔ earlier_duplicate texel_count pts base i.
Proof.
  intros Htc Hi. rewrite existsb_exists. unfold earlier_duplicate.
  split.
  - intros (j & Hj & Hcmp). apply list_elem_of_In, elem_of_seqZ in Hj.
    exists j. split; [lia|]. apply canonical_pattern_eq. intros k Hk.
    rewrite compare_canonical_partitionings_true in Hcmp.
    specialize (Hcmp k Hk).
    rewrite !bit_patterns_canonical in Hcmp by lia. exact Hcmp.
  - intros (j & Hj & Heq). exists j.
    split; [apply list_elem_of_In, elem_of_seqZ; lia|].
    apply compare_canonical_partitionings_true. intros k Hk.
    rewrite !bit_patterns_canonical by lia.
    rewrite canonical_pattern_eq in Heq. apply Heq. exact Hk.
Qed.

(** What [remove_duplicate_partitionings] does to entry [i]. *)
Lemma dedup_exact (texel_count base : Z) (pts : gmap Z partition_info)
    (i : Z) :
  texel_count ≤ 224 → 0 ≤ i < PARTITION_COUNT →
  let pts' := remove_duplicate_partitionings texel_count base pts in
  (earlier_duplicate texel_count pts base i →
   pts' !! (base + i) = Some (set_partition_count 0 (pt_entry pts base i))) ∧
  (¬ earlier_duplicate texel_count pts base i →
   pts' !! (base + i) = pts !! (base + i)) ∧
  (∀ idx, idx < base ∨ base + PARTITION_COUNT ≤ idx →
     pts' !! idx = pts !! idx).
Proof.
  intros Htc Hi pts'. subst pts'. unfold remove_duplicate_partitionings.
  cbv zeta. rewrite remove_duplicates_exact by exact Hi.
  pose proof (earlier_duplicate_found texel_count base pts i Htc Hi) as Hiff.
  destruct (existsb _ (seqZ 0 i)).
  - split; [reflexivity|]. split.
    + intros Hno. exfalso. apply Hno, Hiff. reflexivity.
    + apply remove_duplicates_loop.
  - split; [|split].
    + intros Hdup. apply Hiff in Hdup. discriminate Hdup.
    + reflexivity.
    + apply remove_duplicates_loop.
Qed.

Lemma earlier_duplicate_ext (texel_count base : Z)
    (pts pts' : gmap Z partition_info) (i : Z) :
  (∀ k, 0 ≤ k ≤ i → pt_entry pts' base k = pt_entry pts base k) →
  earlier_duplicate texel_count pts' base i
  ↔ earlier_duplicate texel_count pts base i.
Proof.
  intros Hsame. unfold earlier_duplicate. split.
  - intros (j & Hj & Heq). exists j. split; [exact Hj|].
    rewrite <- !Hsame by lia. exact Heq.
  - intros (j & Hj & Heq). exists j. split; [exact Hj|].
    rewrite !Hsame by lia. exact Heq.
Qed.

(** X9. [remove_duplicate_partitionings], on a block of at most 224
    texels, sets the partition count of an entry to 0 exactly when an
    earlier entry of the table has the same canonical pattern, and changes
    nothing else: the first entry of every pattern is left as it is, and
    so is every cell outside the table. *)
Theorem remove_duplicate_partitionings_keeps_first (texel_count base : Z)
    (pts : gmap Z partition_info) (i : Z) :
  texel_count ≤ 224 → 0 ≤ i < PARTITION_COUNT →
  let pts' := remove_duplicate_partitionings texel_count base pts in
  (earlier_duplicate texel_count pts base i →
   pts' !! (base + i) = Some (set_partition_count 0 (pt_entry pts base i))) ∧
  (¬ earlier_duplicate texel_count pts base i →
   pts' !! (base + i) = pts !! (base + i)) ∧
  (∀ idx, idx < base ∨ base + PARTITION_COUNT ≤ idx →
     pts' !! idx = pts !! idx).
Proof. intros Htc Hi. apply dedup_exact; assumption. Qed.

Section InitTables.
Variable round_up_to_simd_multiple_vla : Z → Z.

(** The entry generated for [partition_count] partitions and seed [k],
    into the cell of the table at [base]. *)
Definition generated (bsd : block_size_descriptor)
    (partition_count base k : Z) : partition_info :=
  generate_one_partition_info_entry round_up_to_simd_multiple_vla bsd
    partition_count k (pt_entry (partitions bsd) base k).

(** The three tables after the generation loop of [init_partition_tables]
    (lines 372-378). *)
Lemma generated_tables (bsd : block_size_descriptor) (i : Z) :
  0 ≤ i < 1024 →
  let pts :=
    for_loop 0 1024 (λ i pts,
      generate_entry_at round_up_to_simd_multiple_vla bsd 4 i par_tab4 i
        (generate_entry_at round_up_to_simd_multiple_vla bsd 3 i par_tab3 i
           (generate_entry_at round_up_to_simd_multiple_vla bsd 2 i par_tab2 i
              pts)))
      (generate_entry_at round_up_to_simd_multiple_vla bsd 1 0 par_tab1 0
         (partitions bsd)) in
  pts !! (par_tab2 + i) = Some (generated bsd 2 par_tab2 i) ∧
  pts !! (par_tab3 + i) = Some (generated bsd 3 par_tab3 i) ∧
  pts !! (par_tab4 + i) = Some (generated bsd 4 par_tab4 i).
Proof.
  intros Hi. cbv zeta.
  assert (Hb2 : par_tab2 = 0) by reflexivity.
  assert (Hb3 : par_tab3 = 1024) by reflexivity.
  assert (Hb4 : par_tab4 = 2048) by reflexivity.
  assert (Hb1 : par_tab1 = 3072) by reflexivity.
  pose (P := λ n (pts : gmap Z partition_info),
    (∀ k, 0 ≤ k < n →
       pts !! (par_tab2 + k) = Some (generated bsd 2 par_tab2 k) ∧
       pts !! (par_tab3 + k) = Some (generated bsd 3 par_tab3 k) ∧
       pts !! (par_tab4 + k) = Some (generated bsd 4 par_tab4 k)) ∧
    (∀ idx, n ≤ idx < 1024 ∨ 1024 + n ≤ idx < 2048 ∨ 2048 + n ≤ idx < 3072 →
       pts !! idx = partitions bsd !! idx)).
  match goal with
  | |- ?l !! _ = _ ∧ _ => assert (H : P 1024 l)
  end.
  { apply (for_loop_ind P); subst P; cbv beta; [lia| |].
    - split; [intros k Hk; lia|]. intros idx Hidx.
      unfold generate_entry_at. rewrite lookup_insert_ne by lia. reflexivity.
    - intros n pts Hn (Hdone & Hrest). unfold generate_entry_at.
      assert (E2 : pt_entry pts par_tab2 n = pt_entry (partitions bsd) par_tab2 n)
        by (unfold pt_entry; rewrite Hrest by lia; reflexivity).
      assert (E3 : pt_entry (<[par_tab2 + n :=
                      generate_one_partition_info_entry
                        round_up_to_simd_multiple_vla bsd 2 n
                        (pt_entry pts par_tab2 n)]> pts) par_tab3 n
                   = pt_entry (partitions bsd) par_tab3 n).
      { unfold pt_entry. rewrite lookup_insert_ne by lia.
        rewrite Hrest by lia. reflexivity. }
      rewrite E3.
      match goal with
      | |- context [pt_entry ?m par_tab4 n] =>
          assert (E4 : pt_entry m par_tab4 n
                       = pt_entry (partitions bsd) par_tab4 n)
            by (unfold pt_entry; rewrite !lookup_insert_ne by lia;
                rewrite Hrest by lia; reflexivity);
          rewrite E4
      end.
      rewrite E2. fold (generated bsd 2 par_tab2 n).
      fold (generated bsd 3 par_tab3 n). fold (generated bsd 4 par_tab4 n).
      split.
      + intros k Hk. destruct (decide (k = n)) as [->|Hne].
        * rewrite lookup_insert_ne by lia. rewrite lookup_insert_ne by lia.
          rewrite lookup_insert_eq.
          rewrite (lookup_insert_ne _ (par_tab4 + n) (par_tab3 + n)) by lia.
          rewrite lookup_insert_eq. rewrite lookup_insert_eq.
          repeat split; reflexivity.
        * rewrite !lookup_insert_ne by lia. apply Hdone. lia.
      + intros idx Hidx. rewrite !lookup_insert_ne by lia. apply Hrest. lia. }
  destruct H as [Hdone _]. apply Hdone. exact Hi.
Qed.

(** The cells of the three tables after [init_partition_tables]. *)
Lemma init_tables_entries (bsd : block_size_descriptor)
    (partition_count0 base i : Z) :
  texel_count bsd ≤ MAX_TEXELS_PER_BLOCK →
  (partition_count0 = 2 ∧ base = par_tab2) ∨
  (partition_count0 = 3 ∧ base = par_tab3) ∨
  (partition_count0 = 4 ∧ base = par_tab4) →
  0 ≤ i < PARTITION_COUNT →
  let bsd' := init_partition_tables round_up_to_simd_multiple_vla bsd in
  let duplicate :=
    ∃ j, 0 ≤ j < i ∧
      canonical_pattern (texel_count bsd)
        (partition_of_texel (generated bsd partition_count0 base i))
      = canonical_pattern (texel_count bsd)
          (partition_of_texel (generated bsd partition_count0 base j)) in
  (duplicate →
   partitions bsd' !! (base + i)
     = Some (set_partition_count 0 (generated bsd partition_count0 base i))) ∧
  (¬ duplicate →
   partitions bsd' !! (base + i)
     = Some (generated bsd partition_count0 base i)).
Proof.
  intros Htc Htab Hi bsd' duplicate. subst bsd'.
  unfold init_partition_tables. cbv zeta.
  unfold MAX_TEXELS_PER_BLOCK in Htc.
  assert (Htc' : texel_count bsd ≤ 224) by lia.
  assert (Hb2 : par_tab2 = 0) by reflexivity.
  assert (Hb3 : par_tab3 = 1024) by reflexivity.
  assert (Hb4 : par_tab4 = 2048) by reflexivity.
  assert (Hpc : PARTITION_COUNT = 1024) by reflexivity.
  pose proof (λ k Hk, generated_tables bsd k Hk) as Hgen. cbv zeta in Hgen.
  match type of Hgen with
  | ∀ k _, ?l !! _ = _ ∧ _ => set (pts1 := l) in *
  end.
  unfold set_partitions. cbn [partitions].
  pose proof (λ k Hk, dedup_exact (texel_count bsd) par_tab2 pts1 k Htc' Hk)
    as H2.
  cbv zeta in H2.
  set (pts2 := remove_duplicate_partitionings _ par_tab2 pts1) in *.
  pose proof (λ k Hk, dedup_exact (texel_count bsd) par_tab3 pts2 k Htc' Hk)
    as H3.
  cbv zeta in H3.
  set (pts3 := remove_duplicate_partitionings _ par_tab3 pts2) in *.
  pose proof (λ k Hk, dedup_exact (texel_count bsd) par_tab4 pts3 k Htc' Hk)
    as H4.
  cbv zeta in H4.
  set (pts4 := remove_duplicate_partitionings _ par_tab4 pts3) in *.
  clearbody pts4 pts3 pts2 pts1.
  assert (F2 : ∀ idx, idx < par_tab2 ∨ par_tab2 + PARTITION_COUNT ≤ idx →
             pts2 !! idx = pts1 !! idx)
    by (intros idx Hidx; apply (H2 0 ltac:(lia)); exact Hidx).
  assert (F3 : ∀ idx, idx < par_tab3 ∨ par_tab3 + PARTITION_COUNT ≤ idx →
             pts3 !! idx = pts2 !! idx)
    by (intros idx Hidx; apply (H3 0 ltac:(lia)); exact Hidx).
  assert (F4 : ∀ idx, idx < par_tab4 ∨ par_tab4 + PARTITION_COUNT ≤ idx →
             pts4 !! idx = pts3 !! idx)
    by (intros idx Hidx; apply (H4 0 ltac:(lia)); exact Hidx).
  assert (E2 : ∀ k, 0 ≤ k < 1024 →
             pt_entry pts1 par_tab2 k = generated bsd 2 par_tab2 k).
  { intros k Hk. unfold pt_entry.
    destruct (Hgen k Hk) as (-> & _). reflexivity. }
  assert (E3 : ∀ k, 0 ≤ k < 1024 →
             pt_entry pts2 par_tab3 k = generated bsd 3 par_tab3 k).
  { intros k Hk. unfold pt_entry. rewrite F2 by lia.
    destruct (Hgen k Hk) as (_ & -> & _). reflexivity. }
  assert (E4 : ∀ k, 0 ≤ k < 1024 →
             pt_entry pts3 par_tab4 k = generated bsd 4 par_tab4 k).
  { intros k Hk. unfold pt_entry. rewrite F3, F2 by lia.
    destruct (Hgen k Hk) as (_ & _ & ->). reflexivity. }
  destruct Htab as [[-> ->] | [[-> ->] | [-> ->]]].
  - destruct (H2 i Hi) as (Hd & Hn & _).
    rewrite F4, F3 by lia.
    assert (Hiff : earlier_duplicate (texel_count bsd) pts1 par_tab2 i
                   ↔ duplicate).
    { unfold earlier_duplicate. subst duplicate. split;
        intros (j & Hj & Heq); exists j; (split; [exact Hj|]).
      - rewrite <- !E2 by lia. exact Heq.
      - rewrite !E2 by lia. exact Heq. }
    split.
    + intros Hdup. rewrite Hd by (apply Hiff; exact Hdup).
      rewrite E2 by lia. reflexivity.
    + intros Hno. rewrite Hn by (rewrite Hiff; exact Hno).
      apply Hgen. lia.
  - destruct (H3 i Hi) as (Hd & Hn & _).
    rewrite F4 by lia.
    assert (Hiff : earlier_duplicate (texel_count bsd) pts2 par_tab3 i
                   ↔ duplicate).
    { unfold earlier_duplicate. subst duplicate. split;
        intros (j & Hj & Heq); exists j; (split; [exact Hj|]).
      - rewrite <- !E3 by lia. exact Heq.
      - rewrite !E3 by lia. exact Heq. }
    split.
    + intros Hdup. rewrite Hd by (apply Hiff; exact Hdup).
      rewrite E3 by lia. reflexivity.
    + intros Hno. rewrite Hn by (rewrite Hiff; exact Hno).
      rewrite F2 by lia. apply Hgen. lia.
  - destruct (H4 i Hi) as (Hd & Hn & _).
    assert (Hiff : earlier_duplicate (texel_count bsd) pts3 par_tab4 i
                   ↔ duplicate).
    { unfold earlier_duplicate. subst duplicate. split;
        intros (j & Hj & Heq); exists j; (split; [exact Hj|]).
      - rewrite <- !E4 by lia. exact Heq.
      - rewrite !E4 by lia. exact Heq. }
    split.
    + intros Hdup. rewrite Hd by (apply Hiff; exact Hdup).
      rewrite E4 by lia. reflexivity.
    + intros Hno. rewrite Hn by (rewrite Hiff; exact Hno).
      rewrite F3, F2 by lia. apply Hgen. lia.
Qed.

(** X10. After [init_partition_tables] on a block of at most 216 texels,
    cell [i] of the table for 2, 3 or 4 partitions holds the entry
    generated for that count and seed [i], with its partition count set to
    0 exactly when an earlier seed of the same table generates the same
    canonical pattern. *)
Theorem init_partition_tables_entries (bsd : block_size_descriptor)
    (partition_count0 base i : Z) :
  texel_count bsd ≤ MAX_TEXELS_PER_BLOCK →
  (partition_count0 = 2 ∧ base = par_tab2) ∨
  (partition_count0 = 3 ∧ base = par_tab3) ∨
  (partition_count0 = 4 ∧ base = par_tab4) →
  0 ≤ i < PARTITION_COUNT →
  let bsd' := init_partition_tables round_up_to_simd_multiple_vla bsd in
  let duplicate :=
    ∃ j, 0 ≤ j < i ∧
      canonical_pattern (texel_count bsd)
        (partition_of_texel (generated bsd partition_count0 base i))
      = canonical_pattern (texel_count bsd)
          (partition_of_texel (generated bsd partition_count0 base j)) in
  (duplicate →
   partitions bsd' !! (base + i)
     = Some (set_partition_count 0 (generated bsd partition_count0 base i))) ∧
  (¬ duplicate →
   partitions bsd' !! (base + i)
     = Some (generated bsd partition_count0 base i)).
Proof.
  intros Htc Htab Hi.
  exact (init_tables_entries bsd partition_count0 base i Htc Htab Hi).
Qed.
End InitTables.

(** ** The indices a decimation table holds *)

(** No texel coordinate of the axis lies beyond the last grid coordinate,
    and one with a fraction lies below it. *)
Definition axis_in_grid (texels weights : Z) : bool :=
  forallb
    (λ x, let p := grid_position texels weights x in
          (0 <=? Z.shiftr p 4) && (Z.shiftr p 4 <=? weights - 1) &&
          ((Z.land p 15 =? 0) || (Z.shiftr p 4 <=? weights - 2)))
    (seqZ 0 texels).

Definition axes_in_grid : bool :=
  forallb (λ t, forallb (axis_in_grid t) (seqZ 2 (t - 1))) (seqZ 2 11).

Lemma axis_in_grid_spec (texels weights x : Z) :
  2 ≤ weights ≤ texels → texels ≤ 12 → 0 ≤ x < texels →
  0 ≤ Z.shiftr (grid_position texels weights x) 4 ≤ weights - 1 ∧
  (Z.land (grid_position texels weights x) 15 ≠ 0 →
   Z.shiftr (grid_position texels weights x) 4 ≤ weights - 2).
Proof.
  intros Hw Ht Hx.
  assert (Hall : axes_in_grid = true) by (vm_compute; reflexivity).
  unfold axes_in_grid in Hall.
  pose proof (forallb_seqZ _ 2 11 texels Hall ltac:(lia)) as Hrow.
  pose proof (forallb_seqZ _ 2 (texels - 1) weights Hrow ltac:(lia)) as Hax.
  unfold axis_in_grid in Hax.
  pose proof (forallb_seqZ _ 0 texels x Hax ltac:(lia)) as Hp.
  cbv zeta in Hp. rewrite !andb_true_iff, orb_true_iff in Hp.
  rewrite !Z.leb_le, Z.eqb_eq in Hp. lia.
Qed.

Lemma texel_contribs_elem (texel : Z) (qs ws : list Z) (c : contrib) :
  c ∈ texel_contribs texel qs ws →
  ∃ i, 0 ≤ i < 4 ∧ c = mk_contrib texel (at4 qs i) (at4 ws i) ∧
       at4 ws i ≠ 0.
Proof.
  unfold texel_contribs. intros Hc.
  apply elem_of_flat_map in Hc as (i & Hi & Hc).
  assert (Hr : 0 ≤ i < 4).
  { repeat (apply elem_of_cons in Hi as [->|Hi]; [lia|]). inversion Hi. }
  exists i. split; [exact Hr|].
  destruct (Z.eqb_spec (at4 ws i) 0) as [E|E]; simpl in Hc.
  - inversion Hc.
  - apply list_elem_of_singleton in Hc. split; [exact Hc|exact E].
Qed.

(** A grid index from in-grid coordinates is below the weight count. *)
Lemma grid_index_bound (wx wy wz a b c q : Z) :
  q = (c * wy + b) * wx + a →
  0 ≤ a ≤ wx - 1 → 0 ≤ b ≤ wy - 1 → 0 ≤ c ≤ wz - 1 →
  0 ≤ q < wx * wy * wz.
Proof.
  intros -> Ha Hb Hc.
  assert (0 ≤ c * wy + b ≤ wz * wy - 1) by nia. nia.
Qed.

(** Every contribution of a 2D texel goes to a point of the grid. *)
Lemma corner_2d_in_grid (x_texels y_texels x_weights y_weights y x : Z)
    (c : contrib) :
  2 ≤ x_weights ≤ x_texels → x_texels ≤ 12 →
  2 ≤ y_weights ≤ y_texels → y_texels ≤ 12 →
  0 ≤ x < x_texels → 0 ≤ y < y_texels →
  c ∈ corner_contribs
        (texel_corners_2d x_texels y_texels x_weights y_weights y x) →
  0 ≤ c_grid c < x_weights * y_weights.
Proof.
  intros Hwx Htx Hwy Hty Hx Hy Hc.
  destruct (axis_in_grid_spec x_texels x_weights x Hwx Htx Hx) as [Hix Hfx'].
  destruct (axis_in_grid_spec y_texels y_weights y Hwy Hty Hy) as [Hiy Hfy'].
  unfold corner_contribs, texel_corners_2d in Hc. cbv zeta in Hc.
  simpl fst in Hc. simpl snd in Hc.
  pose proof (land_15_range (grid_position x_texels x_weights x)) as Hfx.
  pose proof (land_15_range (grid_position y_texels y_weights y)) as Hfy.
  pose proof (bilinear_weights_range _ _ Hfx Hfy) as Hw. cbv zeta in Hw.
  set (xf := Z.land (grid_position x_texels x_weights x) 15) in *.
  set (yf := Z.land (grid_position y_texels y_weights y) 15) in *.
  set (xi := Z.shiftr (grid_position x_texels x_weights x) 4) in *.
  set (yi := Z.shiftr (grid_position y_texels y_weights y) 4) in *.
  set (w3 := Z.shiftr (xf * yf + 8) 4) in *.
  apply texel_contribs_elem in Hc as (i & Hi & -> & Hnz).
  cbn [c_grid].
  replace (x_weights * y_weights) with (x_weights * y_weights * 1) by lia.
  assert (i = 0 ∨ i = 1 ∨ i = 2 ∨ i = 3) as [-> | [-> | [-> | ->]]] by lia;
    unfold at4 in *; simpl in Hnz |- *.
  - apply (grid_index_bound _ _ _ xi yi 0); lia.
  - apply (grid_index_bound _ _ _ (xi + 1) yi 0); lia.
  - apply (grid_index_bound _ _ _ xi (yi + 1) 0); lia.
  - apply (grid_index_bound _ _ _ (xi + 1) (yi + 1) 0); lia.
Qed.

Ltac grid_corner xi yi zi :=
  first
    [ apply (grid_index_bound _ _ _ xi yi zi); lia
    | apply (grid_index_bound _ _ _ (xi + 1) yi zi); lia
    | apply (grid_index_bound _ _ _ xi (yi + 1) zi); lia
    | apply (grid_index_bound _ _ _ xi yi (zi + 1)); lia
    | apply (grid_index_bound _ _ _ (xi + 1) (yi + 1) zi); lia
    | apply (grid_index_bound _ _ _ (xi + 1) yi (zi + 1)); lia
    | apply (grid_index_bound _ _ _ xi (yi + 1) (zi + 1)); lia
    | apply (grid_index_bound _ _ _ (xi + 1) (yi + 1) (zi + 1)); lia ].

(** Every contribution of a 3D texel goes to a point of the grid. *)
Lemma corner_3d_in_grid
    (x_texels y_texels z_texels x_weights y_weights z_weights z y x : Z)
    (c : contrib) :
  2 ≤ x_weights ≤ x_texels → x_texels ≤ 12 →
  2 ≤ y_weights ≤ y_texels → y_texels ≤ 12 →
  2 ≤ z_weights ≤ z_texels → z_texels ≤ 12 →
  0 ≤ x < x_texels → 0 ≤ y < y_texels → 0 ≤ z < z_texels →
  c ∈ corner_contribs
        (texel_corners_3d x_texels y_texels z_texels x_weights y_weights
           z_weights z y x) →
  0 ≤ c_grid c < x_weights * y_weights * z_weights.
Proof.
  intros Hwx Htx Hwy Hty Hwz Htz Hx Hy Hz Hc.
  destruct (axis_in_grid_spec x_texels x_weights x Hwx Htx Hx) as [Hix Hfx'].
  destruct (axis_in_grid_spec y_texels y_weights y Hwy Hty Hy) as [Hiy Hfy'].
  destruct (axis_in_grid_spec z_texels z_weights z Hwz Htz Hz) as [Hiz Hfz'].
  unfold corner_contribs, texel_corners_3d in Hc. cbv zeta in Hc.
  pose proof (land_15_range (grid_position x_texels x_weights x)) as Hfx.
  pose proof (land_15_range (grid_position y_texels y_weights y)) as Hfy.
  pose proof (land_15_range (grid_position z_texels z_weights z)) as Hfz.
  set (fs := Z.land (grid_position x_texels x_weights x) 15) in *.
  set (ft := Z.land (grid_position y_texels y_weights y) 15) in *.
  set (fp := Z.land (grid_position z_texels z_weights z) 15) in *.
  set (xi := Z.shiftr (grid_position x_texels x_weights x) 4) in *.
  set (yi := Z.shiftr (grid_position y_texels y_weights y) 4) in *.
  set (zi := Z.shiftr (grid_position z_texels z_weights z) 4) in *.
  rewrite simplex_case_value in Hc.
  destruct (Z.ltb_spec ft fs), (Z.ltb_spec fp ft), (Z.ltb_spec fp fs);
    try (exfalso; lia); simpl in Hc;
    apply texel_contribs_elem in Hc as (i & Hi & -> & Hnz);
    cbn [c_grid];
    (assert (i = 0 ∨ i = 1 ∨ i = 2 ∨ i = 3) as [-> | [-> | [-> | ->]]]
       by lia);
    unfold at4 in *; simpl in Hnz |- *; grid_corner xi yi zi.
Qed.

Lemma request_plan_in_grid (r : grid_request) (c : contrib) :
  grid_in_block r → c ∈ request_plan r →
  0 ≤ c_grid c < request_weights r.
Proof.
  destruct r as [tx ty wx wy|tx ty tz wx wy wz]; simpl; intros Hr Hc.
  - unfold plan_2d in Hc. apply elem_of_flat_map in Hc as (y & Hy & Hc).
    apply elem_of_flat_map in Hc as (x & Hx & Hc).
    apply elem_of_seqZ in Hy, Hx.
    apply (corner_2d_in_grid tx ty wx wy y x); try lia. exact Hc.
  - unfold plan_3d in Hc. apply elem_of_flat_map in Hc as (z & Hz & Hc).
    apply elem_of_flat_map in Hc as (y & Hy & Hc).
    apply elem_of_flat_map in Hc as (x & Hx & Hc).
    apply elem_of_seqZ in Hz, Hy, Hx.
    apply (corner_3d_in_grid tx ty tz wx wy wz z y x); try lia. exact Hc.
Qed.

Section TableIndices.
Variable round_up_to_simd_multiple_vla : Z → Z.

(** X11. In a table built for a supported block size, every active slot
    of a texel names a weight of the grid (an index below the weight
    count) with an integer weight of 1..16, and the active slots of a texel
    name their weights in strictly increasing order, so no weight twice. *)
Theorem texel_slots_name_grid_weights (r : grid_request)
    (dt0 : decimation_table) (i n : Z) :
  supported r →
  let dt := build_table round_up_to_simd_multiple_vla r dt0 in
  0 ≤ i < dt_texel_count dt →
  texel_weight_count dt !! i = Some n →
  (∀ s, 0 ≤ s < n →
     ∃ q w, texel_weights_4t dt !! (s, i) = Some q ∧
            0 ≤ q < dt_weight_count dt ∧
            texel_weights_int_4t dt !! (s, i) = Some w ∧ 1 ≤ w ≤ 16) ∧
  (∀ s s' q q', 0 ≤ s < s' → s' < n →
     texel_weights_4t dt !! (s, i) = Some q →
     texel_weights_4t dt !! (s', i) = Some q' → q < q').
Proof.
  intros Hs dt Hi Hn.
  pose proof Hs as (Hr & _ & Hw64). unfold MAX_WEIGHTS_PER_BLOCK in Hw64.
  pose proof (build_table_built round_up_to_simd_multiple_vla r dt0 Hr)
    as Hbuilt.
  fold dt in Hbuilt. pose proof Hbuilt as (Htc & Hwc & _).
  rewrite Htc in Hi. rewrite Hwc.
  destruct (texel_row _ _ _ dt i (request_plan_texels r Hr) Hbuilt Hi)
    as (qs & ws & Heq & Hws & Hcnt & Hact & _).
  rewrite Hcnt in Hn. injection Hn as <-.
  destruct (request_plan_grids r Hr) as [Hgrids _].
  destruct (Hgrids i Hi) as (qs' & ws' & Heq' & Hws' & Hqs').
  pose proof (texel_contribs_sorted i qs' ws' Hws' Hqs') as Hsorted.
  rewrite <- Heq' in Hsorted.
  destruct (texel_contribs_facts i qs ws Hws) as (_ & _ & Hmem & _).
  rewrite <- Heq in Hmem.
  assert (Hin : ∀ s c, of_texel (request_plan r) i !! s = Some c →
            u8 (c_grid c) = c_grid c ∧ 0 ≤ c_grid c < request_weights r).
  { intros s c Hc. apply list_elem_of_lookup_2 in Hc.
    unfold of_texel in Hc. apply list_elem_of_filter in Hc as [_ Hc].
    pose proof (request_plan_in_grid r c Hr Hc) as Hg.
    split; [apply u8_small; lia|exact Hg]. }
  split.
  - intros s Hsn.
    destruct (lookup_lt_is_Some_2 (of_texel (request_plan r) i) (Z.to_nat s)
                ltac:(lia)) as [c Hc].
    destruct (Hact _ _ Hc) as (H4 & Hint & _).
    rewrite Z2Nat.id in H4, Hint by lia.
    destruct (Hin _ _ Hc) as [Hu Hg].
    exists (c_grid c), (c_weight c). rewrite <- Hu at 1.
    split; [exact H4|]. split; [exact Hg|]. split; [exact Hint|].
    apply Hmem. apply list_elem_of_lookup_2 in Hc. exact Hc.
  - intros s s' q q' Hss Hsn Hq Hq'.
    destruct (lookup_lt_is_Some_2 (of_texel (request_plan r) i) (Z.to_nat s)
                ltac:(lia)) as [c Hc].
    destruct (lookup_lt_is_Some_2 (of_texel (request_plan r) i) (Z.to_nat s')
                ltac:(lia)) as [c' Hc'].
    destruct (Hact _ _ Hc) as (H4 & _). destruct (Hact _ _ Hc') as (H4' & _).
    rewrite Z2Nat.id in H4, H4' by lia.
    destruct (Hin _ _ Hc) as [Hu _]. destruct (Hin _ _ Hc') as [Hu' _].
    rewrite Hq in H4. rewrite Hq' in H4'.
    injection H4 as ->. injection H4' as ->. rewrite Hu, Hu'.
    apply (StronglySorted_lookup_lt grid_lt _ (Z.to_nat s) (Z.to_nat s')
             c c' Hsorted Hc Hc'). lia.
Qed.
End TableIndices.

(** ** The order of the weight-major rows *)

Definition texel_lt (c c' : contrib) : Prop := c_texel c < c_texel c'.

Lemma StronglySorted_short {A : Type} (R : A → A → Prop) (l : list A) :
  (length l ≤ 1)%nat → StronglySorted R l.
Proof.
  destruct l as [|a [|b l]]; simpl; intros Hl; try lia.
  - constructor.
  - constructor; constructor.
Qed.

(** Blocks of [w] consecutive texels, each in texel order, are in texel
    order when laid end to end. *)
Lemma sorted_blocks (R : Z → list contrib) (off w : Z) (k : nat) :
  0 ≤ w →
  (∀ i, 0 ≤ i < Z.of_nat k → StronglySorted texel_lt (R i)) →
  (∀ i c, 0 ≤ i < Z.of_nat k → c ∈ R i →
     off + i * w ≤ c_texel c < off + (i + 1) * w) →
  StronglySorted texel_lt (flat_map R (seqZ 0 (Z.of_nat k))).
Proof.
  intros Hw. induction k as [|k IH]; intros Hs Hb; [constructor|].
  rewrite seqZ_S, flat_map_app. simpl flat_map. rewrite app_nil_r.
  apply StronglySorted_app_2.
  - intros c c' Hc Hc'. apply elem_of_flat_map in Hc as (i & Hi & Hc).
    apply elem_of_seqZ in Hi.
    pose proof (Hb i c ltac:(lia) Hc) as H1.
    pose proof (Hb (0 + Z.of_nat k) c' ltac:(lia) Hc') as H2.
    unfold texel_lt. nia.
  - apply IH.
    + intros i Hi. apply Hs. lia.
    + intros i c Hi Hc. apply Hb; [lia|exact Hc].
  - apply Hs. lia.
Qed.

Lemma of_grid_subset (l : list contrib) (q : Z) (c : contrib) :
  c ∈ of_grid l q → c ∈ l.
Proof.
  unfold of_grid. intros Hc. apply list_elem_of_filter in Hc as [_ Hc].
  exact Hc.
Qed.

Lemma plan_2d_rows_sorted (x_texels y_texels x_weights y_weights q : Z) :
  2 ≤ x_texels → 2 ≤ y_texels → 2 ≤ x_weights ≤ 254 → 1 ≤ y_weights →
  StronglySorted texel_lt
    (of_grid (plan_2d x_texels y_texels x_weights y_weights) q).
Proof.
  intros Htx Hty Hwx Hwy. unfold of_grid, plan_2d. rewrite filter_flat_map.
  rewrite <- (Z2Nat.id y_texels) at 1 by lia.
  apply (sorted_blocks _ 0 x_texels); [lia| |].
  - intros y Hy. rewrite filter_flat_map.
    rewrite <- (Z2Nat.id x_texels) at 1 by lia.
    apply (sorted_blocks _ (y * x_texels) 1); [lia| |].
    + intros x Hx. apply StronglySorted_short.
      destruct (corner_contribs_2d x_texels y_texels x_weights y_weights y x)
        as (qs & ws & -> & Hw & Hq).
      apply (of_grid_sorted_length _ q).
      apply texel_contribs_sorted; [exact Hw|]. apply Hq; lia.
    + intros x c Hx Hc. apply (of_grid_subset _ q) in Hc.
      destruct (corner_contribs_2d x_texels y_texels x_weights y_weights y x)
        as (qs & ws & Heq & _).
      rewrite Heq in Hc. rewrite (texel_contribs_texel _ _ _ _ Hc). lia.
  - intros y c Hy Hc. apply list_elem_of_filter in Hc as [_ Hc].
    apply elem_of_flat_map in Hc as (x & Hx & Hc).
    apply elem_of_seqZ in Hx.
    destruct (corner_contribs_2d x_texels y_texels x_weights y_weights y x)
      as (qs & ws & Heq & _).
    rewrite Heq in Hc. rewrite (texel_contribs_texel _ _ _ _ Hc). nia.
Qed.

Lemma plan_3d_rows_sorted
    (x_texels y_texels z_texels x_weights y_weights z_weights q : Z) :
  2 ≤ x_texels → 2 ≤ y_texels → 2 ≤ z_texels →
  2 ≤ x_weights → 2 ≤ y_weights → 1 ≤ z_weights →
  x_weights * y_weights + x_weights < 255 →
  StronglySorted texel_lt
    (of_grid
       (plan_3d x_texels y_texels z_texels x_weights y_weights z_weights) q).
Proof.
  intros Htx Hty Htz Hwx Hwy Hwz Hspan.
  assert (Hblock : ∀ z y x c, 0 ≤ x → 0 ≤ y → 0 ≤ z →
            c ∈ corner_contribs
                  (texel_corners_3d x_texels y_texels z_texels x_weights
                     y_weights z_weights z y x) →
            c_texel c = (z * y_texels + y) * x_texels + x).
  { intros z y x c Hx Hy Hz Hc.
    destruct (corner_contribs_3d x_texels y_texels z_texels x_weights
                y_weights z_weights z y x) as (qs & ws & Heq & _).
    rewrite Heq in Hc. apply (texel_contribs_texel _ _ _ _ Hc). }
  unfold of_grid, plan_3d. rewrite filter_flat_map.
  rewrite <- (Z2Nat.id z_texels) at 1 by lia.
  apply (sorted_blocks _ 0 (y_texels * x_texels)); [lia| |].
  - intros z Hz. rewrite filter_flat_map.
    rewrite <- (Z2Nat.id y_texels) at 1 by lia.
    apply (sorted_blocks _ (z * y_texels * x_texels) x_texels); [lia| |].
    + intros y Hy. rewrite filter_flat_map.
      rewrite <- (Z2Nat.id x_texels) at 1 by lia.
      apply (sorted_blocks _ ((z * y_texels + y) * x_texels) 1); [lia| |].
      * intros x Hx. apply StronglySorted_short.
        destruct (corner_contribs_3d x_texels y_texels z_texels x_weights
                    y_weights z_weights z y x) as (qs & ws & -> & Hw & Hq).
        apply (of_grid_sorted_length _ q).
        apply texel_contribs_sorted; [exact Hw|]. apply Hq; lia.
      * intros x c Hx Hc. apply (of_grid_subset _ q) in Hc.
        rewrite (Hblock z y x c) by (first [lia | exact Hc]). lia.
    + intros y c Hy Hc. apply list_elem_of_filter in Hc as [_ Hc].
      apply elem_of_flat_map in Hc as (x & Hx & Hc).
      apply elem_of_seqZ in Hx.
      rewrite (Hblock z y x c) by (first [lia | exact Hc]). nia.
  - intros z c Hz Hc. apply list_elem_of_filter in Hc as [_ Hc].
    apply elem_of_flat_map in Hc as (y & Hy & Hc).
    apply elem_of_flat_map in Hc as (x & Hx & Hc).
    apply elem_of_seqZ in Hy, Hx.
    rewrite (Hblock z y x c) by (first [lia | exact Hc]). nia.
Qed.

Lemma request_plan_rows_sorted (r : grid_request) (q : Z) :
  grid_in_block r → StronglySorted texel_lt (of_grid (request_plan r) q).
Proof.
  destruct r as [tx ty wx wy|tx ty tz wx wy wz]; simpl; intros H.
  - apply plan_2d_rows_sorted; lia.
  - apply plan_3d_rows_sorted; try lia. nia.
Qed.

Section WeightRowOrder.
Variable round_up_to_simd_multiple_vla : Z → Z.

(** X12. In a table built for a supported block size, the row of weight
    [j] in [weight_texel], up to [weight_texel_count[j]], holds texels of
    the block in strictly increasing order, so no texel twice. *)
Theorem weight_texel_rows_increase (r : grid_request)
    (dt0 : decimation_table) (j cnt : Z) :
  supported r →
  let dt := build_table round_up_to_simd_multiple_vla r dt0 in
  0 ≤ j < dt_weight_count dt →
  weight_texel_count dt !! j = Some cnt →
  (∀ t, 0 ≤ t < cnt →
     ∃ texel, weight_texel dt !! (t, j) = Some texel ∧
              0 ≤ texel < dt_texel_count dt) ∧
  (∀ t t' a b, 0 ≤ t < t' → t' < cnt →
     weight_texel dt !! (t, j) = Some a →
     weight_texel dt !! (t', j) = Some b → a < b).
Proof.
  intros Hs dt Hj Hcnt.
  pose proof Hs as (Hr & _). destruct (supported_bounds r Hs) as [Hn Hw].
  pose proof (build_table_built round_up_to_simd_multiple_vla r dt0 Hr)
    as Hbuilt.
  fold dt in Hbuilt. pose proof Hbuilt as (Htc & Hwc & _).
  rewrite Hwc in Hj. rewrite Htc.
  destruct (weight_row _ _ _ dt j (request_plan_texels r Hr)
              (request_plan_grids r Hr) Hn Hw Hbuilt Hj) as [Hlen Hrow].
  rewrite Hlen in Hcnt. injection Hcnt as <-.
  pose proof (request_plan_rows_sorted r j Hr) as Hsorted.
  split.
  - intros t Ht.
    destruct (lookup_lt_is_Some_2 (of_grid (request_plan r) j) (Z.to_nat t)
                ltac:(lia)) as [c Hc].
    destruct (Hrow _ _ Hc) as (k0 & HT & _ & Hwt & _).
    rewrite Z2Nat.id in Hwt by lia. exists (c_texel c).
    split; [exact Hwt|exact HT].
  - intros t t' a b Htt Ht' Ha Hb.
    destruct (lookup_lt_is_Some_2 (of_grid (request_plan r) j) (Z.to_nat t)
                ltac:(lia)) as [c Hc].
    destruct (lookup_lt_is_Some_2 (of_grid (request_plan r) j) (Z.to_nat t')
                ltac:(lia)) as [c' Hc'].
    destruct (Hrow _ _ Hc) as (k0 & _ & _ & Hwt & _).
    destruct (Hrow _ _ Hc') as (k0' & _ & _ & Hwt' & _).
    rewrite Z2Nat.id in Hwt, Hwt' by lia.
    rewrite Ha in Hwt. rewrite Hb in Hwt'.
    injection Hwt as ->. injection Hwt' as ->.
    apply (StronglySorted_lookup_lt texel_lt _ (Z.to_nat t) (Z.to_nat t')
             c c' Hsorted Hc Hc'). lia.
Qed.
End WeightRowOrder.

(** ** The weight-major rows: weights and tails *)

(** The longest row bounds every row. *)
Lemma max_texel_count_bound (l : list contrib) (st : dt_locals) :
  (∀ q, rd (texel_count_of_weight st) q ≤ max_texel_count_of_weight st) →
  ∀ q, rd (texel_count_of_weight (accumulate l st)) q
       ≤ max_texel_count_of_weight (accumulate l st).
Proof.
  revert st. induction l as [|c l IH]; intros st Hst; [exact Hst|].
  simpl. apply IH. intros q. unfold apply_contrib, add_texel_weight.
  cbn [texel_count_of_weight max_texel_count_of_weight].
  destruct (decide (c_grid c = q)) as [->|Hne].
  - rewrite rd_insert_eq. lia.
  - rewrite rd_insert_ne by exact Hne. specialize (Hst q). lia.
Qed.

Lemma locals_max_bound (l : list contrib)
    (texels_per_block weights_per_block q : Z) :
  rd (texel_count_of_weight (locals_of l texels_per_block weights_per_block)) q
  ≤ max_texel_count_of_weight
      (locals_of l texels_per_block weights_per_block).
Proof.
  unfold locals_of. apply max_texel_count_bound. intros q'.
  unfold init_dt_locals. simpl. rewrite zero_fill_rd. lia.
Qed.

(** The weight-major pair of maps of a table. *)
Definition row_cell (dt : decimation_table) (j i : Z)
    : option Z * option float16 :=
  (weight_texel dt !! (j, i), weights_flt dt !! (j, i)).

Lemma unroll_loop_rows (i j texel s : Z) (dt : decimation_table) :
  weight_texel (for_loop 0 4 (unroll_texel i j texel) (s, dt)).2
    = weight_texel dt ∧
  weights_flt (for_loop 0 4 (unroll_texel i j texel) (s, dt)).2
    = weights_flt dt.
Proof.
  apply (for_loop_preserves
           (λ acc : Z * decimation_table,
              weight_texel acc.2 = weight_texel dt ∧
              weights_flt acc.2 = weights_flt dt)).
  - split; reflexivity.
  - intros k [s' d] _ H. exact H.
Qed.

Lemma swap_identity_rows (i j s : Z) (dt : decimation_table) :
  weight_texel (swap_identity i j s dt) = weight_texel dt ∧
  weights_flt (swap_identity i j s dt) = weights_flt dt.
Proof.
  unfold swap_identity. destruct (negb (s =? 0)); split; reflexivity.
Qed.

(** One entry of a row (lines 345-378 and 612-645). *)
Lemma transpose_weight_texel_rows (st : dt_locals) (i j : Z)
    (dt : decimation_table) (j' i' : Z) :
  row_cell (transpose_weight_texel st i j dt) j' i'
  = if decide ((j', i') = (j, i))
    then (Some (rd (texels_of_weight st) (i, j)),
          Some (float_of_int (rd (texel_weights_of_weight st) (i, j))))
    else row_cell dt j' i'.
Proof.
  unfold transpose_weight_texel. cbv zeta.
  match goal with
  | |- context [for_loop 0 4 ?b (?s, ?d)] =>
      pose proof (unroll_loop_rows i j (rd (texels_of_weight st) (i, j)) s d)
        as [H1 H2];
      destruct (for_loop 0 4 b (s, d)) as [s' d']
  end.
  cbn [snd] in H1, H2. unfold row_cell.
  destruct (swap_identity_rows i j s' d') as [-> ->]. rewrite H1, H2.
  cbn [weight_texel weights_flt set_weight_texel set_weights_flt].
  destruct (decide ((j', i') = (j, i))) as [E|E].
  - injection E as -> ->. rewrite !lookup_insert_eq. reflexivity.
  - rewrite !lookup_insert_ne by congruence. reflexivity.
Qed.

(** The entries of one row. *)
Lemma transpose_entries_rows (st : dt_locals) (i n : Z)
    (dt : decimation_table) (j' i' : Z) :
  0 ≤ n →
  row_cell (for_loop 0 n (transpose_weight_texel st i) dt) j' i'
  = if decide (i' = i ∧ 0 ≤ j' < n)
    then (Some (rd (texels_of_weight st) (i, j')),
          Some (float_of_int (rd (texel_weights_of_weight st) (i, j'))))
    else row_cell dt j' i'.
Proof.
  intros Hn.
  pose (P := λ m dt',
    row_cell dt' j' i'
    = if decide (i' = i ∧ 0 ≤ j' < m)
      then (Some (rd (texels_of_weight st) (i, j')),
            Some (float_of_int (rd (texel_weights_of_weight st) (i, j'))))
      else row_cell dt j' i').
  apply (for_loop_ind P); subst P; cbv beta; [exact Hn| |].
  - rewrite decide_False by lia. reflexivity.
  - intros m dt' Hm IH. rewrite transpose_weight_texel_rows, IH.
    destruct (decide ((j', i') = (m, i))) as [E|E].
    + injection E as -> ->. rewrite decide_True by lia. reflexivity.
    + destruct (decide (i' = i ∧ 0 ≤ j' < m)) as [[-> Hj]|Hno].
      * rewrite decide_True by lia. reflexivity.
      * rewrite decide_False; [reflexivity|].
        intros [-> Hj]. apply Hno. split; [reflexivity|].
        assert (j' ≠ m) by congruence. lia.
Qed.

(** The tail of one row (lines 380-388 and 647-655). *)
Lemma weight_tail_rows (i lo hi last_texel : Z) (dt : decimation_table)
    (j' i' : Z) :
  row_cell
    (for_loop lo hi (λ j dt,
       set_weights_flt (j, i) 0 (set_weight_texel (j, i) last_texel dt)) dt)
    j' i'
  = if decide (i' = i ∧ lo ≤ j' < hi) then (Some last_texel, Some 0)
    else row_cell dt j' i'.
Proof.
  destruct (Z_le_gt_dec lo hi) as [Hle|Hgt].
  2: { rewrite for_loop_empty by lia. rewrite decide_False by lia.
       reflexivity. }
  pose (P := λ m dt',
    row_cell dt' j' i'
    = if decide (i' = i ∧ lo ≤ j' < m) then (Some last_texel, Some 0)
      else row_cell dt j' i').
  apply (for_loop_ind P); subst P; cbv beta; [exact Hle| |].
  - rewrite decide_False by lia. reflexivity.
  - intros m dt' Hm IH. unfold row_cell in *.
    cbn [weight_texel weights_flt set_weight_texel set_weights_flt].
    destruct (decide ((j', i') = (m, i))) as [E|E].
    + injection E as -> ->. rewrite !lookup_insert_eq.
      rewrite decide_True by lia. reflexivity.
    + rewrite !lookup_insert_ne by congruence. rewrite IH.
      destruct (decide (i' = i ∧ lo ≤ j' < m)) as [[-> Hj]|Hno].
      * rewrite decide_True by lia. reflexivity.
      * rewrite decide_False; [reflexivity|].
        intros [-> Hj]. apply Hno. split; [reflexivity|].
        assert (j' ≠ m) by congruence. lia.
Qed.

(** One whole row (lines 340-388 and 607-655), for a weight with at least
    one texel. *)
Lemma transpose_weight_rows (st : dt_locals) (i : Z) (dt : decimation_table)
    (j' i' : Z) :
  1 ≤ rd (texel_count_of_weight st) i →
  row_cell (transpose_weight st i dt) j' i'
  = if decide (i' = i ∧ 0 ≤ j' < rd (texel_count_of_weight st) i)
    then (Some (rd (texels_of_weight st) (i, j')),
          Some (float_of_int (rd (texel_weights_of_weight st) (i, j'))))
    else if decide (i' = i ∧
                    rd (texel_count_of_weight st) i ≤ j'
                      < max_texel_count_of_weight st)
    then (Some (rd (texels_of_weight st)
                  (i, rd (texel_count_of_weight st) i - 1)), Some 0)
    else row_cell dt j' i'.
Proof.
  intros Hcnt. unfold transpose_weight. cbv zeta.
  set (cnt := rd (texel_count_of_weight st) i) in *.
  set (dt1 := set_weight_texel_count i (u8 cnt) dt).
  set (dt2 := for_loop 0 cnt (transpose_weight_texel st i) dt1).
  assert (Hlast : rd (weight_texel dt2) (cnt - 1, i)
                  = rd (texels_of_weight st) (i, cnt - 1)).
  { pose proof (transpose_entries_rows st i cnt dt1 (cnt - 1) i
                  ltac:(lia)) as H.
    fold dt2 in H. rewrite decide_True in H by lia.
    unfold row_cell in H. injection H as H _.
    apply rd_lookup. exact H. }
  rewrite Hlast. rewrite weight_tail_rows.
  destruct (decide (i' = i ∧ cnt ≤ j' < max_texel_count_of_weight st))
    as [[-> Hj]|Hno].
  - rewrite decide_False by lia. reflexivity.
  - subst dt2. rewrite transpose_entries_rows by lia.
    destruct (decide (i' = i ∧ 0 ≤ j' < cnt)); reflexivity.
Qed.

Lemma transpose_weight_count (st : dt_locals) (i : Z) (dt : decimation_table) :
  weight_texel_count (transpose_weight st i dt)
  = <[i := u8 (rd (texel_count_of_weight st) i)]> (weight_texel_count dt).
Proof.
  destruct (Z_le_gt_dec 0 (rd (texel_count_of_weight st) i)) as [H|H].
  - destruct (transpose_weight_spec st i dt H) as (Hcnt & _). exact Hcnt.
  - unfold transpose_weight. cbv zeta.
    rewrite (for_loop_empty 0) by lia.
    apply (for_loop_preserves
             (λ d, weight_texel_count d
                   = <[i := u8 (rd (texel_count_of_weight st) i)]>
                       (weight_texel_count dt))); [reflexivity|].
    intros j d _ Hd. exact Hd.
Qed.

(** All rows of the weights below [weights_per_block]. *)
Lemma transpose_weights_rows (st : dt_locals) (weights_per_block : Z)
    (dt : decimation_table) (j' i' : Z) :
  (∀ i, 0 ≤ i < weights_per_block → 1 ≤ rd (texel_count_of_weight st) i) →
  0 ≤ i' < weights_per_block →
  row_cell (for_loop 0 weights_per_block (transpose_weight st) dt) j' i'
  = if decide (0 ≤ j' < rd (texel_count_of_weight st) i')
    then (Some (rd (texels_of_weight st) (i', j')),
          Some (float_of_int (rd (texel_weights_of_weight st) (i', j'))))
    else if decide (rd (texel_count_of_weight st) i' ≤ j'
                      < max_texel_count_of_weight st)
    then (Some (rd (texels_of_weight st)
                  (i', rd (texel_count_of_weight st) i' - 1)), Some 0)
    else row_cell dt j' i'.
Proof.
  intros Hcnt Hi'.
  pose (P := λ n dt',
    row_cell dt' j' i'
    = if decide (i' < n) then
        if decide (0 ≤ j' < rd (texel_count_of_weight st) i')
        then (Some (rd (texels_of_weight st) (i', j')),
              Some (float_of_int (rd (texel_weights_of_weight st) (i', j'))))
        else if decide (rd (texel_count_of_weight st) i' ≤ j'
                          < max_texel_count_of_weight st)
        then (Some (rd (texels_of_weight st)
                      (i', rd (texel_count_of_weight st) i' - 1)), Some 0)
        else row_cell dt j' i'
      else row_cell dt j' i').
  match goal with
  | |- row_cell ?l _ _ = _ => assert (H : P weights_per_block l)
  end.
  { apply (for_loop_ind P); subst P; cbv beta; [lia| |].
    - rewrite decide_False by lia. reflexivity.
    - intros n dt' Hn IH.
      rewrite transpose_weight_rows by (apply Hcnt; exact Hn).
      destruct (decide (i' = n)) as [->|Hne].
      + rewrite (decide_True (P := n < n + 1)) by lia.
        rewrite (decide_False (P := n < n)) in IH by lia.
        destruct (decide (0 ≤ j' < rd (texel_count_of_weight st) n)).
        * rewrite decide_True by (split; [reflexivity|assumption]).
          reflexivity.
        * rewrite decide_False by (intros [_ H]; contradiction).
          destruct (decide (rd (texel_count_of_weight st) n ≤ j'
                              < max_texel_count_of_weight st)).
          -- rewrite decide_True by (split; [reflexivity|assumption]).
             reflexivity.
          -- rewrite decide_False by (intros [_ H]; contradiction).
             exact IH.
      + rewrite decide_False by (intros [H _]; contradiction).
        rewrite decide_False by (intros [H _]; contradiction).
        rewrite IH.
        destruct (decide (i' < n)).
        * rewrite (decide_True (P := i' < n + 1)) by lia. reflexivity.
        * rewrite (decide_False (P := i' < n + 1)) by lia. reflexivity. }
  subst P. cbv beta in H. rewrite decide_True in H by lia. exact H.
Qed.

Section RowPadding.
Variable round_up_to_simd_multiple_vla : Z → Z.

Lemma pad_texels_rows (texels_per_block : Z) (dt : decimation_table) :
  let dt' := pad_texels round_up_to_simd_multiple_vla texels_per_block dt in
  weight_texel_count dt' = weight_texel_count dt ∧
  ∀ j i, row_cell dt' j i = row_cell dt j i.
Proof.
  cbv zeta. unfold pad_texels. cbv zeta.
  apply (for_loop_preserves
    (λ dt', weight_texel_count dt' = weight_texel_count dt ∧
            ∀ j i, row_cell dt' j i = row_cell dt j i)).
  - split; reflexivity.
  - intros i0 dt' _ IH. cbv zeta.
    apply (for_loop_preserves
      (λ dt', weight_texel_count dt' = weight_texel_count dt ∧
              ∀ j i, row_cell dt' j i = row_cell dt j i)); [exact IH|].
    intros k d _ Hd. exact Hd.
Qed.

(** The rows of the weights from [weights_per_block] up to the rounded
    count (lines 404-419 and 671-686). *)
Lemma pad_weights_rows (st : dt_locals) (weights_per_block : Z)
    (dt : decimation_table) (j i : Z) :
  let dt' :=
    pad_weights round_up_to_simd_multiple_vla st weights_per_block dt in
  let last_texel :=
    rd (weight_texel dt)
      (rd (texel_count_of_weight st) (weights_per_block - 1) - 1,
       weights_per_block - 1) in
  let padded :=
    weights_per_block ≤ i
      < round_up_to_simd_multiple_vla weights_per_block in
  weight_texel_count dt' !! i
    = (if decide padded then Some 0 else weight_texel_count dt !! i) ∧
  row_cell dt' j i
    = (if decide (padded ∧ 0 ≤ j < max_texel_count_of_weight st)
       then (Some last_texel, Some 0) else row_cell dt j i).
Proof.
  cbv zeta. unfold pad_weights. cbv zeta.
  set (last_texel := rd (weight_texel dt) _).
  set (simd := round_up_to_simd_multiple_vla weights_per_block).
  destruct (Z_le_gt_dec weights_per_block simd) as [Hle|Hgt].
  2: { rewrite for_loop_empty by lia. rewrite !decide_False by lia.
       split; reflexivity. }
  pose (P := λ n dt',
    weight_texel_count dt' !! i
      = (if decide (weights_per_block ≤ i < n) then Some 0
         else weight_texel_count dt !! i) ∧
    row_cell dt' j i
      = (if decide ((weights_per_block ≤ i < n) ∧
                    0 ≤ j < max_texel_count_of_weight st)
         then (Some last_texel, Some 0) else row_cell dt j i)).
  apply (for_loop_ind P); subst P; cbv beta; [exact Hle| |].
  - rewrite !decide_False by lia. split; reflexivity.
  - intros n dt' Hn [IH1 IH2].
    destruct (weight_tail_frame n 0 (max_texel_count_of_weight st)
                last_texel (set_weight_texel_count n 0 dt'))
      as (_ & F2 & _ & _).
    cbv zeta in F2. split.
    + rewrite F2. cbn [weight_texel_count set_weight_texel_count].
      destruct (decide (i = n)) as [->|Hne].
      * rewrite lookup_insert_eq. rewrite decide_True by lia. reflexivity.
      * rewrite lookup_insert_ne by congruence. rewrite IH1.
        destruct (decide (weights_per_block ≤ i < n)).
        -- rewrite (decide_True (P := weights_per_block ≤ i < n + 1))
             by lia.
           reflexivity.
        -- rewrite (decide_False (P := weights_per_block ≤ i < n + 1))
             by lia.
           reflexivity.
    + rewrite (weight_tail_rows n 0 (max_texel_count_of_weight st)
                 last_texel (set_weight_texel_count n 0 dt') j i).
      destruct (decide (i = n ∧ 0 ≤ j < max_texel_count_of_weight st))
        as [[-> Hj]|Hno].
      * rewrite decide_True by lia. reflexivity.
      * change (row_cell (set_weight_texel_count n 0 dt') j i)
          with (row_cell dt' j i).
        rewrite IH2.
        destruct (decide ((weights_per_block ≤ i < n) ∧
                          0 ≤ j < max_texel_count_of_weight st))
          as [[Hi Hj]|Hno'].
        -- rewrite decide_True by lia. reflexivity.
        -- rewrite decide_False; [reflexivity|].
           intros [Hi Hj]. apply Hno'. split; [|exact Hj].
           assert (i ≠ n) by (intros ->; apply Hno; split;
                              [reflexivity|exact Hj]).
           lia.
Qed.
End RowPadding.

(** The longest weight row of a table, as the builders count it
    ([max_texel_count_of_weight]). *)
Definition longest_row (r : grid_request) : Z :=
  max_texel_count_of_weight
    (locals_of (request_plan r) (request_texels r) (request_weights r)).

Section BuiltRows.
Variable round_up_to_simd_multiple_vla : Z → Z.

(** The weight-major rows after the last pass, whatever the texel pass
    [first] stored. *)
Lemma finish_rows (st : dt_locals)
    (texels_per_block weights_per_block wx wy wz : Z)
    (first : decimation_table) :
  (∀ i, 0 ≤ i < weights_per_block → 1 ≤ rd (texel_count_of_weight st) i) →
  (∀ i, rd (texel_count_of_weight st) i ≤ max_texel_count_of_weight st) →
  1 ≤ weights_per_block →
  let dt :=
    set_dt_dims texels_per_block weights_per_block wx wy wz
      (pad_weights round_up_to_simd_multiple_vla st weights_per_block
         (pad_texels round_up_to_simd_multiple_vla texels_per_block
            (for_loop 0 weights_per_block (transpose_weight st) first))) in
  (∀ i j, 0 ≤ i < weights_per_block →
     0 ≤ j < max_texel_count_of_weight st →
     row_cell dt j i
     = if decide (j < rd (texel_count_of_weight st) i)
       then (Some (rd (texels_of_weight st) (i, j)),
             Some (float_of_int (rd (texel_weights_of_weight st) (i, j))))
       else (Some (rd (texels_of_weight st)
                     (i, rd (texel_count_of_weight st) i - 1)), Some 0)) ∧
  (∀ i, weights_per_block ≤ i
          < round_up_to_simd_multiple_vla weights_per_block →
     weight_texel_count dt !! i = Some 0 ∧
     ∀ j, 0 ≤ j < max_texel_count_of_weight st →
       row_cell dt j i
       = (Some (rd (texels_of_weight st)
                  (weights_per_block - 1,
                   rd (texel_count_of_weight st) (weights_per_block - 1) - 1)),
          Some 0)).
Proof.
  intros Hcnt Hmax Hwpb. cbv zeta.
  set (dt2 := for_loop 0 weights_per_block (transpose_weight st) first).
  destruct (pad_texels_rows round_up_to_simd_multiple_vla texels_per_block dt2)
    as [_ HP].
  set (dt3 := pad_texels _ texels_per_block dt2) in *.
  assert (Hrows : ∀ i j, 0 ≤ i < weights_per_block →
            0 ≤ j < max_texel_count_of_weight st →
            row_cell dt3 j i
            = if decide (j < rd (texel_count_of_weight st) i)
              then (Some (rd (texels_of_weight st) (i, j)),
                    Some (float_of_int
                            (rd (texel_weights_of_weight st) (i, j))))
              else (Some (rd (texels_of_weight st)
                            (i, rd (texel_count_of_weight st) i - 1)),
                    Some 0)).
  { intros i j Hi Hj. rewrite HP. subst dt2.
    rewrite transpose_weights_rows by assumption.
    destruct (decide (j < rd (texel_count_of_weight st) i)).
    - rewrite decide_True by lia. reflexivity.
    - rewrite decide_False by lia. rewrite decide_True by lia. reflexivity. }
  assert (Hlast : rd (weight_texel dt3)
                    (rd (texel_count_of_weight st) (weights_per_block - 1) - 1,
                     weights_per_block - 1)
                  = rd (texels_of_weight st)
                      (weights_per_block - 1,
                       rd (texel_count_of_weight st) (weights_per_block - 1)
                         - 1)).
  { pose proof (Hcnt (weights_per_block - 1) ltac:(lia)) as H1.
    pose proof (Hmax (weights_per_block - 1)) as H2.
    pose proof (Hrows (weights_per_block - 1)
                  (rd (texel_count_of_weight st) (weights_per_block - 1) - 1)
                  ltac:(lia) ltac:(lia)) as H.
    rewrite decide_True in H by lia. unfold row_cell in H.
    injection H as H _. apply rd_lookup. exact H. }
  split.
  - intros i j Hi Hj.
    destruct (pad_weights_rows round_up_to_simd_multiple_vla st
                weights_per_block dt3 j i) as [_ H].
    change (row_cell (set_dt_dims texels_per_block weights_per_block wx wy wz
                        (pad_weights round_up_to_simd_multiple_vla st
                           weights_per_block dt3)) j i)
      with (row_cell (pad_weights round_up_to_simd_multiple_vla st
                        weights_per_block dt3) j i).
    rewrite H. rewrite decide_False by lia. apply Hrows; assumption.
  - intros i Hi.
    split.
    + destruct (pad_weights_rows round_up_to_simd_multiple_vla st
                  weights_per_block dt3 0 i) as [H _].
      cbn [weight_texel_count set_dt_dims]. rewrite H.
      rewrite decide_True by lia. reflexivity.
    + intros j Hj.
      destruct (pad_weights_rows round_up_to_simd_multiple_vla st
                  weights_per_block dt3 j i) as [_ H].
      change (row_cell (set_dt_dims texels_per_block weights_per_block wx wy
                          wz (pad_weights round_up_to_simd_multiple_vla st
                                weights_per_block dt3)) j i)
        with (row_cell (pad_weights round_up_to_simd_multiple_vla st
                          weights_per_block dt3) j i).
      rewrite H. rewrite decide_True by lia. rewrite Hlast. reflexivity.
Qed.

(** The rows of a table built for a supported block size, in terms of the
    plan of the builder. *)
Lemma build_table_rows (r : grid_request) (dt0 : decimation_table) :
  supported r →
  let l := request_plan r in
  let st := locals_of l (request_texels r) (request_weights r) in
  let dt := build_table round_up_to_simd_multiple_vla r dt0 in
  let count := λ i, Z.of_nat (length (of_grid l i)) in
  (∀ i, 0 ≤ i < request_weights r →
     1 ≤ count i ≤ longest_row r ∧ count i < 256 ∧
     weight_texel_count dt !! i = Some (count i)) ∧
  (∀ i j, 0 ≤ i < request_weights r → 0 ≤ j < longest_row r →
     row_cell dt j i
     = if decide (j < count i)
       then (Some (rd (texels_of_weight st) (i, j)),
             Some (float_of_int (rd (texel_weights_of_weight st) (i, j))))
       else (Some (rd (texels_of_weight st) (i, count i - 1)), Some 0)) ∧
  (∀ i, request_weights r ≤ i
          < round_up_to_simd_multiple_vla (request_weights r) →
     weight_texel_count dt !! i = Some 0 ∧
     ∀ j, 0 ≤ j < longest_row r →
       row_cell dt j i
       = (Some (rd (texels_of_weight st)
                  (request_weights r - 1,
                   count (request_weights r - 1) - 1)), Some 0)).
Proof.
  intros Hs. cbv zeta.
  pose proof Hs as (Hr & _). destruct (supported_bounds r Hs) as [Hn Hw].
  pose proof (request_plan_texels r Hr) as Hpt.
  pose proof (request_plan_grids r Hr) as Hpg.
  pose proof (build_table_built round_up_to_simd_multiple_vla r dt0 Hr)
    as Hbuilt.
  set (l := request_plan r) in *.
  set (st := locals_of l (request_texels r) (request_weights r)) in *.
  assert (Hgside : grid_side l st).
  { apply accumulate_init_grid. intros q. pose proof Hpg as [_ Hlen].
    specialize (Hlen q). lia. }
  assert (Hcount : ∀ i, rd (texel_count_of_weight st) i
                        = Z.of_nat (length (of_grid l i))).
  { intros i. destruct (Hgside i) as [H _]. exact H. }
  assert (Hmax : ∀ i, rd (texel_count_of_weight st) i
                      ≤ max_texel_count_of_weight st).
  { intros i. apply locals_max_bound. }
  assert (Hone : ∀ i, 0 ≤ i < request_weights r →
                   1 ≤ rd (texel_count_of_weight st) i).
  { intros i Hi. rewrite Hcount.
    pose proof (request_plan_covers r i Hr Hi). fold l in H. lia. }
  assert (Hwpb : 1 ≤ request_weights r).
  { destruct r as [tx ty wx wy|tx ty tz wx wy wz]; simpl in *; nia. }
  assert (Hfin :
    (∀ i j, 0 ≤ i < request_weights r →
       0 ≤ j < max_texel_count_of_weight st →
       row_cell (build_table round_up_to_simd_multiple_vla r dt0) j i
       = if decide (j < rd (texel_count_of_weight st) i)
         then (Some (rd (texels_of_weight st) (i, j)),
               Some (float_of_int (rd (texel_weights_of_weight st) (i, j))))
         else (Some (rd (texels_of_weight st)
                       (i, rd (texel_count_of_weight st) i - 1)), Some 0)) ∧
    (∀ i, request_weights r ≤ i
            < round_up_to_simd_multiple_vla (request_weights r) →
       weight_texel_count (build_table round_up_to_simd_multiple_vla r dt0)
         !! i = Some 0 ∧
       ∀ j, 0 ≤ j < max_texel_count_of_weight st →
         row_cell (build_table round_up_to_simd_multiple_vla r dt0) j i
         = (Some (rd (texels_of_weight st)
                    (request_weights r - 1,
                     rd (texel_count_of_weight st) (request_weights r - 1)
                       - 1)), Some 0))).
  { clear Hbuilt.
    destruct r as [tx ty wx wy|tx ty tz wx wy wz];
      cbn [build_table request_weights request_texels request_plan] in *.
    - rewrite initialize_decimation_table_2d_unfold.
      apply (finish_rows st); assumption.
    - rewrite initialize_decimation_table_3d_unfold.
      apply (finish_rows st); assumption. }
  destruct Hfin as [Hrows Hpad].
  split; [|split].
  - intros i Hi. pose proof (Hone i Hi) as H1. pose proof (Hmax i) as H2.
    rewrite Hcount in H1, H2. unfold longest_row. fold l st.
    pose proof Hpg as [_ Hlen]. specialize (Hlen i).
    destruct (weight_row _ _ _ _ i Hpt Hpg Hn Hw Hbuilt Hi) as [Hwtc _].
    repeat split; try lia. exact Hwtc.
  - intros i j Hi Hj. unfold longest_row in Hj. fold l st in Hj.
    rewrite (Hrows i j Hi Hj). rewrite Hcount. reflexivity.
  - intros i Hi. destruct (Hpad i Hi) as [H1 H2]. split; [exact H1|].
    intros j Hj. unfold longest_row in Hj. fold l st in Hj.
    rewrite (H2 j Hj). rewrite Hcount. reflexivity.
Qed.
End BuiltRows.

(** ** Weight rows: the stored weights and the padding *)

Section WeightRowValues.
Variable round_up_to_simd_multiple_vla : Z → Z.

Abbreviation built r dt0 := (build_table round_up_to_simd_multiple_vla r dt0).

(** X13. In a table built for a supported block size, entry [t] of the
    row of weight [j] stores in [weights_flt] the integer weight with
    which [j] contributes to the texel [weight_texel[t][j]]: some slot
    [k0] of that texel names [j], its integer weight [w] is between 1 and
    16, and [weights_flt[t][j]] is [w] as a float. *)
Theorem weights_flt_is_contribution (r : grid_request)
    (dt0 : decimation_table) (j t cnt : Z) :
  supported r →
  let dt := built r dt0 in
  0 ≤ j < dt_weight_count dt →
  weight_texel_count dt !! j = Some cnt → 0 ≤ t < cnt →
  ∃ texel k0 w,
    weight_texel dt !! (t, j) = Some texel ∧ 0 ≤ k0 < 4 ∧
    texel_weights_4t dt !! (k0, texel) = Some j ∧
    texel_weights_int_4t dt !! (k0, texel) = Some w ∧ 1 ≤ w ≤ 16 ∧
    weights_flt dt !! (t, j) = Some (float_of_int w).
Proof.
  intros Hs dt Hj Hcnt Ht.
  pose proof Hs as (Hr & _). destruct (supported_bounds r Hs) as [Hn Hw].
  pose proof (request_plan_texels r Hr) as Hpt.
  pose proof (request_plan_grids r Hr) as Hpg.
  pose proof (build_table_built round_up_to_simd_multiple_vla r dt0 Hr)
    as Hbuilt.
  fold dt in Hbuilt. pose proof Hbuilt as (_ & Hwc & _). rewrite Hwc in Hj.
  destruct (build_table_rows round_up_to_simd_multiple_vla r dt0 Hs)
    as (Hcounts & Hrows & _).
  fold dt in Hcounts, Hrows.
  set (l := request_plan r) in *.
  set (st := locals_of l (request_texels r) (request_weights r)) in *.
  destruct (Hcounts j Hj) as (Hlong & _ & Hwtc).
  rewrite Hwtc in Hcnt. injection Hcnt as <-.
  destruct (lookup_lt_is_Some_2 (of_grid l j) (Z.to_nat t) ltac:(lia))
    as [c Hc].
  destruct (weight_row _ _ _ dt j Hpt Hpg Hn Hw Hbuilt Hj) as [_ Hrow].
  destruct (Hrow _ _ Hc) as (_ & HT & _ & Hwt & _).
  rewrite Z2Nat.id in Hwt by lia.
  assert (Hgside : grid_side l st).
  { apply accumulate_init_grid. intros q. pose proof Hpg as [_ Hlen].
    specialize (Hlen q). lia. }
  destruct (Hgside j) as [_ Hslots]. destruct (Hslots _ _ Hc) as [_ Htwo].
  rewrite Z2Nat.id in Htwo by lia.
  assert (Hcin : c ∈ of_grid l j) by (apply list_elem_of_lookup; eauto).
  apply list_elem_of_filter in Hcin as [Hcj Hcl].
  assert (HcT : c ∈ of_texel l (c_texel c))
    by (apply list_elem_of_filter; split; [reflexivity|exact Hcl]).
  destruct (texel_row _ _ l dt (c_texel c) Hpt Hbuilt HT)
    as (qs & ws & Heq & Hws & _ & Hact & _).
  destruct (texel_contribs_facts (c_texel c) qs ws Hws) as (_ & _ & Hmem & _).
  rewrite <- Heq in Hmem. destruct (Hmem c HcT) as [_ Hcw].
  pose proof (plan_texels_length _ l (c_texel c) Hpt) as HlenT.
  apply list_elem_of_lookup in HcT as [k0 Hk0].
  assert (Hk0lt : (k0 < length (of_texel l (c_texel c)))%nat)
    by (apply lookup_lt_Some in Hk0; exact Hk0).
  destruct (Hact _ _ Hk0) as (H4t & Hint & _).
  exists (c_texel c), (Z.of_nat k0), (c_weight c).
  split; [exact Hwt|]. split; [lia|]. split.
  { rewrite H4t, Hcj. rewrite u8_small by lia. reflexivity. }
  split; [exact Hint|]. split; [exact Hcw|].
  pose proof (Hrows j t Hj ltac:(lia)) as Hcell.
  rewrite decide_True in Hcell by lia. unfold row_cell in Hcell.
  injection Hcell as _ Hflt. rewrite Hflt.
  rewrite (rd_lookup _ _ _ Htwo). reflexivity.
Qed.

(** X14. In a table built for a supported block size no row is longer
    than [longest_row], and every row is padded up to that length: the
    row of a weight [j] of the grid repeats its last texel with weight 0
    after its [cnt] entries, and the rows of the weights from the weight
    count up to the rounded weight count have texel count 0 and hold the
    last texel of the last weight of the grid, with weight 0. *)
Theorem weight_rows_padded (r : grid_request) (dt0 : decimation_table) :
  supported r →
  let dt := built r dt0 in
  let n := dt_weight_count dt in
  (∀ j cnt, 0 ≤ j < n → weight_texel_count dt !! j = Some cnt →
     1 ≤ cnt ≤ longest_row r ∧
     is_Some (weight_texel dt !! (cnt - 1, j)) ∧
     ∀ t, cnt ≤ t < longest_row r →
       weight_texel dt !! (t, j) = weight_texel dt !! (cnt - 1, j) ∧
       weights_flt dt !! (t, j) = Some 0) ∧
  (∀ j, n ≤ j < round_up_to_simd_multiple_vla n →
     weight_texel_count dt !! j = Some 0 ∧
     ∀ t, 0 ≤ t < longest_row r →
       weight_texel dt !! (t, j)
         = weight_texel dt
             !! (rd (weight_texel_count dt) (n - 1) - 1, n - 1) ∧
       weights_flt dt !! (t, j) = Some 0).
Proof.
  intros Hs dt n.
  pose proof Hs as (Hr & _).
  pose proof (build_table_built round_up_to_simd_multiple_vla r dt0 Hr)
    as (_ & Hwc & _).
  fold dt in Hwc. subst n. rewrite Hwc.
  destruct (build_table_rows round_up_to_simd_multiple_vla r dt0 Hs)
    as (Hcounts & Hrows & Hpad).
  fold dt in Hcounts, Hrows, Hpad.
  set (l := request_plan r) in *.
  set (st := locals_of l (request_texels r) (request_weights r)) in *.
  assert (Hwpb : 1 ≤ request_weights r).
  { destruct r as [tx ty wx wy|tx ty tz wx wy wz]; simpl in *; nia. }
  split.
  - intros j cnt Hj Hcnt. destruct (Hcounts j Hj) as (Hlong & _ & Hwtc).
    rewrite Hwtc in Hcnt. injection Hcnt as <-.
    pose proof (Hrows j (Z.of_nat (length (of_grid l j)) - 1) Hj ltac:(lia))
      as Hlast.
    rewrite decide_True in Hlast by lia. unfold row_cell in Hlast.
    injection Hlast as Hlast _.
    split; [exact Hlong|]. split; [rewrite Hlast; eexists; reflexivity|].
    intros t Ht. pose proof (Hrows j t Hj ltac:(lia)) as Hcell.
    rewrite decide_False in Hcell by lia. unfold row_cell in Hcell.
    injection Hcell as H1 H2. rewrite H1, Hlast. split; [reflexivity|].
    exact H2.
  - intros j Hj. destruct (Hpad j Hj) as [Hzero Hcells].
    split; [exact Hzero|]. intros t Ht.
    pose proof (Hcells t Ht) as Hcell. unfold row_cell in Hcell.
    injection Hcell as H1 H2. rewrite H1. split; [|exact H2].
    destruct (Hcounts (request_weights r - 1) ltac:(lia))
      as (Hlong & _ & Hwtc).
    rewrite (rd_lookup _ _ _ Hwtc).
    pose proof (Hrows (request_weights r - 1)
                  (Z.of_nat (length (of_grid l (request_weights r - 1))) - 1)
                  ltac:(lia) ltac:(lia)) as Hlast.
    rewrite decide_True in Hlast by lia. unfold row_cell in Hlast.
    injection Hlast as Hlast _. rewrite Hlast. reflexivity.
Qed.
End WeightRowValues.

(** ** Packed block modes: the accepted modes *)

Section PackedModes.
Variable get_ise_sequence_bitcount : Z → Z → Z.
Variable round_up_to_simd_multiple_vla : Z → Z.
Variable MAX_DECIMATION_MODES : Z.
Variable decompress_only : bool.
Variable float : Type.
Variable float_le : float → float → bool.
Variable float_is_zero : float → bool.
Variable get_2d_percentile_table : Z → Z → Z → float.
Variable rand_draws : list Z.

Abbreviation init_descriptor :=
  (init_block_size_descriptor get_ise_sequence_bitcount
     round_up_to_simd_multiple_vla MAX_DECIMATION_MODES decompress_only
     float float_le float_is_zero get_2d_percentile_table rand_draws).
Abbreviation skipped :=
  (discarded get_ise_sequence_bitcount decompress_only float float_le
     get_2d_percentile_table).

(** X15. The packed block modes of a descriptor built by [init] are
    exactly the modes the assembler did not skip: there are at most 2048
    of them, every packed slot holds a mode id below 2048 that was not
    skipped, and every mode id below 2048 that was not skipped has a
    packed slot that holds it. *)
Theorem packed_modes_are_the_accepted_modes (x_texels y_texels z_texels : Z)
    (can_omit_modes : bool) (mode_cutoff : float)
    (bsd : block_size_descriptor) :
  let bsd' :=
    init_descriptor x_texels y_texels z_texels can_omit_modes mode_cutoff
      bsd in
  let skip :=
    skipped x_texels y_texels z_texels can_omit_modes mode_cutoff in
  0 ≤ block_mode_count bsd' ≤ MAX_WEIGHT_MODES ∧
  (∀ k, 0 ≤ k < block_mode_count bsd' →
     ∃ bm, block_modes bsd' !! k = Some bm ∧
           0 ≤ mode_index bm < MAX_WEIGHT_MODES ∧
           skip (mode_index bm) = false) ∧
  (∀ m, 0 ≤ m < MAX_WEIGHT_MODES → skip m = false →
     ∃ k bm, 0 ≤ k < block_mode_count bsd' ∧
             block_mode_packed_index bsd' !! m = Some k ∧
             block_modes bsd' !! k = Some bm ∧ mode_index bm = m).
Proof.
  intros bsd' skip.
  destruct (init_modes_packed get_ise_sequence_bitcount
              round_up_to_simd_multiple_vla MAX_DECIMATION_MODES
              decompress_only float float_le float_is_zero
              get_2d_percentile_table rand_draws x_texels y_texels z_texels
              can_omit_modes mode_cutoff bsd) as (Hcnt & Hacc & _ & Hall).
  fold bsd' skip in Hcnt, Hacc, Hall.
  split; [exact Hcnt|]. split; [|exact Hall].
  intros k Hk. destruct (Hacc k Hk) as (bm & Hbm & Hidx & Hskip & _).
  exists bm. split; [exact Hbm|]. split; [exact Hidx|exact Hskip].
Qed.
End PackedModes.

(** ** Canonical patterns: what they encode *)

(** The start of the canonicalization loop on a fresh output. *)
Definition canon_start : canon_state :=
  mk_canon_state (for_loop 0 7 (λ i bp, <[0 + i := 0]> bp) ∅)
    (for_loop 0 4 (λ i mi, <[i := -1]> mi) ∅) 0.

(** The loop after the first [n] texels. *)
Definition canon_run (pot : gmap Z Z) (n : Z) : canon_state :=
  for_loop 0 n (canon_step 0 pot) canon_start.

(** The label the loop has given to the partition of texel [t]. *)
Definition canon_label (pot : gmap Z Z) (st : canon_state) (t : Z) : Z :=
  rd (mapped_index st) (rd pot t).

(** How many of the four partitions have a label. *)
Definition labels_in_use (mi : gmap Z Z) : Z :=
  (if rd mi 0 =? -1 then 0 else 1) + (if rd mi 1 =? -1 then 0 else 1) +
  (if rd mi 2 =? -1 then 0 else 1) + (if rd mi 3 =? -1 then 0 else 1).

(** The labels after [n] texels: a partition has a label exactly when one
    of the texels seen so far is in it, the labels are below the counter,
    which counts them, and different partitions have different labels. *)
Definition labels_ok (pot : gmap Z Z) (n : Z) (st : canon_state) : Prop :=
  let mi := mapped_index st in
  let c := map_weight_count st in
  c = labels_in_use mi ∧
  (∀ v, 0 ≤ v < 4 → rd mi v = -1 ∨ 0 ≤ rd mi v < c) ∧
  (∀ v, 0 ≤ v < 4 → rd mi v ≠ -1 ↔ ∃ t, 0 ≤ t < n ∧ rd pot t = v) ∧
  (∀ v v', 0 ≤ v < 4 → 0 ≤ v' < 4 → rd mi v ≠ -1 → rd mi v = rd mi v' →
     v = v').

(** The words after [n] texels: texel [t] has its label in the two bits
    at [2 * (t mod 32)] of word [t / 32], and no other bit is set. *)
Definition words_ok (pot : gmap Z Z) (n : Z) (st : canon_state) : Prop :=
  ∀ k p, 0 ≤ k < 7 → 0 ≤ p →
    Z.testbit (rd (bit_pattern st) k) p
    = if decide (32 * k + p / 2 < n ∧ p < 64)
      then Z.testbit (canon_label pot st (32 * k + p / 2)) (p mod 2)
      else false.

Lemma labels_in_use_range (mi : gmap Z Z) : 0 ≤ labels_in_use mi ≤ 4.
Proof.
  unfold labels_in_use.
  destruct (rd mi 0 =? -1), (rd mi 1 =? -1), (rd mi 2 =? -1),
    (rd mi 3 =? -1); lia.
Qed.

Lemma labels_in_use_insert (mi : gmap Z Z) (v c : Z) :
  0 ≤ v < 4 → rd mi v = -1 → 0 ≤ c →
  labels_in_use (<[v := c]> mi) = labels_in_use mi + 1.
Proof.
  intros Hv Hnew Hc. unfold labels_in_use.
  assert (Hcase : v = 0 ∨ v = 1 ∨ v = 2 ∨ v = 3) by lia.
  destruct Hcase as [-> | [-> | [-> | ->]]];
    rewrite rd_insert_eq; rewrite !rd_insert_ne by lia; rewrite Hnew;
    change (-1 =? -1) with true; cbv iota;
    (destruct (Z.eqb_spec c (-1)); [lia|]); lia.
Qed.

Lemma canon_start_labels (v : Z) :
  0 ≤ v < 4 → rd (mapped_index canon_start) v = -1.
Proof.
  intros Hv. unfold canon_start. cbn [mapped_index].
  apply (for_loop_ind
           (λ n (m : gmap Z Z), ∀ v, 0 ≤ v < n → rd m v = -1));
    [lia| | |exact Hv].
  - intros v' Hv'. lia.
  - intros i m Hi IH v' Hv'. destruct (decide (v' = i)) as [->|Hne].
    + apply rd_insert_eq.
    + rewrite rd_insert_ne by lia. apply IH. lia.
Qed.

Lemma canon_start_words (k : Z) : rd (bit_pattern canon_start) k = 0.
Proof.
  unfold canon_start. cbn [bit_pattern].
  destruct (decide (0 ≤ k < 7)) as [Hk|Hk].
  - exact (clear_pattern_zero 0 ∅ k Hk).
  - unfold rd. rewrite (clear_pattern_frame 0 ∅ k) by lia. reflexivity.
Qed.

Lemma labels_ok_start (pot : gmap Z Z) : labels_ok pot 0 canon_start.
Proof.
  unfold labels_ok. cbv zeta.
  assert (H : ∀ v, 0 ≤ v < 4 → rd (mapped_index canon_start) v = -1)
    by apply canon_start_labels.
  split; [|split; [|split]].
  - unfold labels_in_use. rewrite !H by lia. reflexivity.
  - intros v Hv. left. apply H. exact Hv.
  - intros v Hv. rewrite H by exact Hv. split; [intros Hne; lia|].
    intros (t & Ht & _). lia.
  - intros v v' Hv Hv' Hne. rewrite H in Hne by exact Hv. lia.
Qed.

Lemma words_ok_start (pot : gmap Z Z) : words_ok pot 0 canon_start.
Proof.
  intros k p Hk Hp. rewrite canon_start_words. rewrite Z.bits_0.
  assert (0 ≤ p / 2) by (apply Z.div_pos; lia).
  rewrite decide_False by lia. reflexivity.
Qed.

(** The labels after one more texel. *)
Lemma labels_ok_step (pot : gmap Z Z) (i : Z) (st : canon_state) :
  0 ≤ i → 0 ≤ rd pot i < 4 → labels_ok pot i st →
  let st' := canon_step 0 pot i st in
  labels_ok pot (i + 1) st' ∧
  (∀ v, 0 ≤ v < 4 → rd (mapped_index st) v ≠ -1 →
     rd (mapped_index st') v = rd (mapped_index st) v) ∧
  canon_label pot st' i
  = (if rd (mapped_index st) (rd pot i) =? -1 then map_weight_count st
     else rd (mapped_index st) (rd pot i)) ∧
  map_weight_count st'
  = (if rd (mapped_index st) (rd pot i) =? -1 then map_weight_count st + 1
     else map_weight_count st).
Proof.
  intros Hi Hv (Hc & Hlt & Hseen & Hinj). cbv zeta in *.
  unfold canon_step, canon_label. cbv zeta.
  set (v0 := rd pot i) in *.
  pose proof (labels_in_use_range (mapped_index st)) as Hrange.
  destruct (Z.eqb_spec (rd (mapped_index st) v0) (-1)) as [Hnew|Hold];
    cbn [mapped_index map_weight_count bit_pattern].
  - (* a partition without a label: it gets the counter *)
    split; [|split; [|split]].
    + unfold labels_ok. cbn [mapped_index map_weight_count]. cbv zeta.
      split; [|split; [|split]].
      * rewrite labels_in_use_insert by lia. lia.
      * intros v Hv'. destruct (decide (v = v0)) as [->|Hne].
        -- rewrite rd_insert_eq. right. lia.
        -- rewrite rd_insert_ne by congruence.
           destruct (Hlt v Hv') as [H|H]; [left; exact H|right; lia].
      * intros v Hv'. destruct (decide (v = v0)) as [->|Hne].
        -- rewrite rd_insert_eq. split; [|lia].
           intros _. exists i. split; [lia|reflexivity].
        -- rewrite rd_insert_ne by congruence. rewrite (Hseen v Hv').
           split; intros (t & Ht & Hpt).
           ++ exists t. split; [lia|exact Hpt].
           ++ exists t. split; [|exact Hpt].
              assert (t ≠ i) by (intros ->; apply Hne; symmetry; exact Hpt).
              lia.
      * intros v v' Hv1 Hv2.
        destruct (decide (v = v0)) as [->|Hne];
          destruct (decide (v' = v0)) as [->|Hne'];
          rewrite ?rd_insert_eq; rewrite ?rd_insert_ne by congruence.
        -- intros _ _. reflexivity.
        -- intros _ Heq. destruct (Hlt v' Hv2) as [H|H]; lia.
        -- intros Hne1 Heq. destruct (Hlt v Hv1) as [H|H]; lia.
        -- apply Hinj; assumption.
    + intros v Hv' Hne. rewrite rd_insert_ne; [reflexivity|].
      intros <-. contradiction.
    + rewrite rd_insert_eq. reflexivity.
    + reflexivity.
  - (* a partition that has its label *)
    split; [|split; [|split]].
    + unfold labels_ok. cbv zeta.
      split; [exact Hc|]. split; [exact Hlt|]. split; [|exact Hinj].
      intros v Hv'. rewrite (Hseen v Hv').
      split; intros (t & Ht & Hpt).
      * exists t. split; [lia|exact Hpt].
      * destruct (decide (t = i)) as [->|Hne].
        -- apply (Hseen v Hv'). fold v0 in Hpt. subst v. exact Hold.
        -- exists t. split; [lia|exact Hpt].
    + intros v _ _. reflexivity.
    + reflexivity.
    + reflexivity.
Qed.

Lemma label_range (pot : gmap Z Z) (n : Z) (st : canon_state) (t : Z) :
  labels_ok pot n st → 0 ≤ t < n → 0 ≤ rd pot t < 4 →
  0 ≤ canon_label pot st t < 4.
Proof.
  intros (Hc & Hlt & Hseen & _) Ht Hv. cbv zeta in *. unfold canon_label.
  pose proof (labels_in_use_range (mapped_index st)) as Hrange.
  assert (Hne : rd (mapped_index st) (rd pot t) ≠ -1).
  { apply (Hseen _ Hv). exists t. split; [exact Ht|reflexivity]. }
  destruct (Hlt _ Hv) as [H|H]; lia.
Qed.

Lemma testbit_below_4 (l q : Z) : 0 ≤ l < 4 → 2 ≤ q → Z.testbit l q = false.
Proof.
  intros Hl Hq. rewrite <- (Z.mod_small l (2 ^ 2)) by (change (2 ^ 2) with 4; lia).
  apply Z.mod_pow2_bits_high. lia.
Qed.

(** The bits one texel adds to its word. *)
Lemma label_bits (l s p : Z) :
  0 ≤ l < 4 → 0 ≤ s < 63 → 0 ≤ p →
  Z.testbit (u64 (Z.shiftl (u64 l) s)) p
  = if decide (s ≤ p < s + 2) then Z.testbit l (p - s) else false.
Proof.
  intros Hl Hs Hp. unfold u64.
  change 18446744073709551616 with (2 ^ 64).
  rewrite (Z.mod_small l) by (change (2 ^ 64) with 18446744073709551616; lia).
  destruct (Z_lt_ge_dec p 64) as [Hlt|Hge].
  - rewrite Z.mod_pow2_bits_low by lia. rewrite Z.shiftl_spec by lia.
    destruct (decide (s ≤ p < s + 2)) as [Hin|Hout]; [reflexivity|].
    destruct (Z_lt_ge_dec p s) as [Hneg|Hpos].
    + apply Z.testbit_neg_r. lia.
    + apply testbit_below_4; [exact Hl|lia].
  - rewrite Z.mod_pow2_bits_high by lia.
    rewrite decide_False by lia. reflexivity.
Qed.

Lemma canon_step_words (pot : gmap Z Z) (i : Z) (st : canon_state) :
  bit_pattern (canon_step 0 pot i st)
  = <[Z.shiftr i 5 :=
        Z.lor (rd (bit_pattern st) (Z.shiftr i 5))
          (u64 (Z.shiftl (u64 (canon_label pot (canon_step 0 pot i st) i))
                  (2 * Z.land i 31)))]> (bit_pattern st).
Proof.
  unfold canon_step, canon_label. cbv zeta.
  destruct (rd (mapped_index st) (rd pot i) =? -1); reflexivity.
Qed.

(** The words after one more texel. *)
Lemma words_ok_step (pot : gmap Z Z) (i : Z) (st : canon_state) :
  0 ≤ i → (∀ t, 0 ≤ t ≤ i → 0 ≤ rd pot t < 4) →
  labels_ok pot i st → words_ok pot i st →
  words_ok pot (i + 1) (canon_step 0 pot i st).
Proof.
  intros Hi Hpot Hok Hwords.
  destruct (labels_ok_step pot i st Hi (Hpot i ltac:(lia)) Hok)
    as (Hok' & Hstable & _ & _).
  cbv zeta in Hok', Hstable.
  set (st' := canon_step 0 pot i st) in *.
  assert (Hlab : 0 ≤ canon_label pot st' i < 4).
  { apply (label_range pot (i + 1)); [exact Hok'|lia|apply Hpot; lia]. }
  assert (Hold : ∀ T, 0 ≤ T < i →
            canon_label pot st' T = canon_label pot st T).
  { intros T HT. unfold canon_label.
    assert (HvT : 0 ≤ rd pot T < 4) by (apply Hpot; lia).
    apply Hstable; [exact HvT|].
    pose proof Hok as (_ & _ & Hseen & _). cbv zeta in Hseen.
    apply (Hseen _ HvT). exists T. split; [exact HT|reflexivity]. }
  intros k p Hk Hp.
  assert (Hcell : Z.shiftr i 5 = i / 32)
    by (rewrite Z.shiftr_div_pow2 by lia; reflexivity).
  assert (Hlane : Z.land i 31 = i mod 32)
    by (change 31 with (Z.ones 5); rewrite Z.land_ones by lia; reflexivity).
  pose proof (Z.div_mod i 32 ltac:(lia)) as Hdm.
  pose proof (Z.mod_pos_bound i 32 ltac:(lia)) as Hr.
  pose proof (Z.div_mod p 2 ltac:(lia)) as Hdp.
  pose proof (Z.mod_pos_bound p 2 ltac:(lia)) as Hb.
  assert (Hh : 0 ≤ p / 2) by (apply Z.div_pos; lia).
  subst st'. rewrite canon_step_words. rewrite Hcell, Hlane.
  set (st' := canon_step 0 pot i st) in *.
  set (q := i / 32) in *. set (r := i mod 32) in *.
  set (h := p / 2) in *. set (b := p mod 2) in *.
  assert (Hrest : (32 * k + h ≠ i ∨ 64 ≤ p) →
            (if decide (32 * k + h < i ∧ p < 64)
             then Z.testbit (canon_label pot st (32 * k + h)) b else false)
            = (if decide (32 * k + h < i + 1 ∧ p < 64)
               then Z.testbit (canon_label pot st' (32 * k + h)) b
               else false)).
  { intros Hne.
    destruct (decide (32 * k + h < i ∧ p < 64)) as [Hin|Hout].
    - rewrite decide_True by lia. rewrite Hold by lia. reflexivity.
    - rewrite decide_False by lia. reflexivity. }
  destruct (decide (k = q)) as [->|Hkq].
  - rewrite rd_insert_eq. rewrite Z.lor_spec.
    rewrite label_bits by lia. rewrite (Hwords q p Hk Hp). fold h b.
    destruct (decide (2 * r ≤ p < 2 * r + 2)) as [Hin|Hout].
    + assert (Hhr : h = r) by lia.
      rewrite decide_False by lia. rewrite decide_True by lia.
      replace (32 * q + h) with i by lia.
      replace (p - 2 * r) with b by lia. reflexivity.
    + rewrite orb_false_r. apply Hrest.
      destruct (Z_lt_ge_dec p 64); [left|right; lia].
      intros Heq. apply Hout. lia.
  - rewrite rd_insert_ne by congruence. rewrite (Hwords k p Hk Hp).
    fold h b. apply Hrest.
    destruct (Z_lt_ge_dec p 64); [left|right; lia].
    intros Heq. apply Hkq. lia.
Qed.

(** The labels and the words after [n] texels. *)
Lemma canon_run_ok (pot : gmap Z Z) (n : Z) :
  0 ≤ n → (∀ t, 0 ≤ t < n → 0 ≤ rd pot t < 4) →
  labels_ok pot n (canon_run pot n) ∧ words_ok pot n (canon_run pot n).
Proof.
  intros Hn Hpot. unfold canon_run.
  apply (for_loop_ind (λ m st, labels_ok pot m st ∧ words_ok pot m st));
    [exact Hn| |].
  - split; [apply labels_ok_start|apply words_ok_start].
  - intros i st Hi [Hok Hwords]. split.
    + apply labels_ok_step; [lia|apply Hpot; lia|exact Hok].
    + apply words_ok_step; [lia| |exact Hok|exact Hwords].
      intros t Ht. apply Hpot. lia.
Qed.

Lemma canonical_word_run (texel_count : Z) (pot : gmap Z Z) (k : Z) :
  canonical_word texel_count pot k
  = rd (bit_pattern (canon_run pot texel_count)) k.
Proof. reflexivity. Qed.

Lemma two_bits_eq (a b : Z) :
  0 ≤ a < 4 → 0 ≤ b < 4 →
  Z.testbit a 0 = Z.testbit b 0 → Z.testbit a 1 = Z.testbit b 1 → a = b.
Proof.
  intros Ha Hb.
  assert (Ca : a = 0 ∨ a = 1 ∨ a = 2 ∨ a = 3) by lia.
  assert (Cb : b = 0 ∨ b = 1 ∨ b = 2 ∨ b = 3) by lia.
  destruct Ca as [-> | [-> | [-> | ->]]];
    destruct Cb as [-> | [-> | [-> | ->]]];
    cbn; intros H0 H1; congruence.
Qed.

(** Two texels are in the same partition exactly when they have the same
    label. *)
Lemma label_eq_iff (pot : gmap Z Z) (n : Z) (st : canon_state) (t t' : Z) :
  labels_ok pot n st → 0 ≤ t < n → 0 ≤ t' < n →
  0 ≤ rd pot t < 4 → 0 ≤ rd pot t' < 4 →
  canon_label pot st t = canon_label pot st t' ↔ rd pot t = rd pot t'.
Proof.
  intros (_ & _ & Hseen & Hinj) Ht Ht' Hv Hv'. cbv zeta in *.
  unfold canon_label. split; [|intros ->; reflexivity].
  apply Hinj; [exact Hv|exact Hv'|].
  apply (Hseen _ Hv). exists t. split; [exact Ht|reflexivity].
Qed.

(** The words determine the labels. *)
Lemma labels_of_words (pot1 pot2 : gmap Z Z) (n : Z) :
  0 ≤ n ≤ 224 →
  (∀ t, 0 ≤ t < n → 0 ≤ rd pot1 t < 4) →
  (∀ t, 0 ≤ t < n → 0 ≤ rd pot2 t < 4) →
  (∀ k, 0 ≤ k < 7 → canonical_word n pot1 k = canonical_word n pot2 k) →
  ∀ t, 0 ≤ t < n →
    canon_label pot1 (canon_run pot1 n) t
    = canon_label pot2 (canon_run pot2 n) t.
Proof.
  intros Hn H1 H2 Hw t Ht.
  destruct (canon_run_ok pot1 n ltac:(lia) H1) as [Hok1 Hwords1].
  destruct (canon_run_ok pot2 n ltac:(lia) H2) as [Hok2 Hwords2].
  pose proof (Z.div_mod t 32 ltac:(lia)) as Hdm.
  pose proof (Z.mod_pos_bound t 32 ltac:(lia)) as Hr.
  assert (Hq : 0 ≤ t / 32 < 7).
  { split; [apply Z.div_pos; lia|apply Z.div_lt_upper_bound; lia]. }
  specialize (Hw (t / 32) Hq). rewrite !canonical_word_run in Hw.
  assert (Hbit : ∀ b, 0 ≤ b < 2 →
            Z.testbit (canon_label pot1 (canon_run pot1 n) t) b
            = Z.testbit (canon_label pot2 (canon_run pot2 n) t) b).
  { intros b Hb.
    pose proof (Hwords1 (t / 32) (2 * (t mod 32) + b) Hq ltac:(lia)) as E1.
    pose proof (Hwords2 (t / 32) (2 * (t mod 32) + b) Hq ltac:(lia)) as E2.
    assert (Hh : (2 * (t mod 32) + b) / 2 = t mod 32)
      by (symmetry; apply (Z.div_unique _ 2 _ b); lia).
    assert (Hm : (2 * (t mod 32) + b) mod 2 = b)
      by (symmetry; apply (Z.mod_unique _ 2 (t mod 32) b); lia).
    rewrite Hh, Hm in E1, E2.
    replace (32 * (t / 32) + t mod 32) with t in E1, E2 by lia.
    rewrite decide_True in E1 by lia. rewrite decide_True in E2 by lia.
    rewrite <- E1, <- E2, Hw. reflexivity. }
  apply two_bits_eq.
  - apply (label_range pot1 n); [exact Hok1|exact Ht|apply H1; exact Ht].
  - apply (label_range pot2 n); [exact Hok2|exact Ht|apply H2; exact Ht].
  - apply Hbit. lia.
  - apply Hbit. lia.
Qed.

(** The labels determine the words. *)
Lemma words_of_labels (pot1 pot2 : gmap Z Z) (n : Z) :
  0 ≤ n →
  (∀ t, 0 ≤ t < n → 0 ≤ rd pot1 t < 4) →
  (∀ t, 0 ≤ t < n → 0 ≤ rd pot2 t < 4) →
  (∀ t, 0 ≤ t < n →
     canon_label pot1 (canon_run pot1 n) t
     = canon_label pot2 (canon_run pot2 n) t) →
  ∀ k, 0 ≤ k < 7 → canonical_word n pot1 k = canonical_word n pot2 k.
Proof.
  intros Hn H1 H2 Hlab k Hk.
  destruct (canon_run_ok pot1 n Hn H1) as [_ Hwords1].
  destruct (canon_run_ok pot2 n Hn H2) as [_ Hwords2].
  rewrite !canonical_word_run. apply Z.bits_inj'. intros p Hp.
  rewrite (Hwords1 k p Hk Hp), (Hwords2 k p Hk Hp).
  assert (0 ≤ p / 2) by (apply Z.div_pos; lia).
  destruct (decide (32 * k + p / 2 < n ∧ p < 64)) as [Hin|Hout];
    [|reflexivity].
  rewrite Hlab by lia. reflexivity.
Qed.

(** Two assignments that group the texels alike get the same labels. *)
Lemma same_grouping_labels (pot1 pot2 : gmap Z Z) (n : Z) :
  0 ≤ n →
  (∀ t, 0 ≤ t < n → 0 ≤ rd pot1 t < 4) →
  (∀ t, 0 ≤ t < n → 0 ≤ rd pot2 t < 4) →
  (∀ t t', 0 ≤ t < n → 0 ≤ t' < n →
     rd pot1 t = rd pot1 t' ↔ rd pot2 t = rd pot2 t') →
  ∀ t, 0 ≤ t < n →
    canon_label pot1 (canon_run pot1 n) t
    = canon_label pot2 (canon_run pot2 n) t.
Proof.
  intros Hn H1 H2 Hsame.
  pose (P := λ m (st1 : canon_state),
    st1 = canon_run pot1 m ∧
    map_weight_count st1 = map_weight_count (canon_run pot2 m) ∧
    ∀ t, 0 ≤ t < m →
      canon_label pot1 st1 t = canon_label pot2 (canon_run pot2 m) t).
  assert (H : P n (canon_run pot1 n)).
  { unfold canon_run at 1.
    apply (for_loop_ind P); subst P; cbv beta; [exact Hn| |].
    - split; [unfold canon_run; rewrite for_loop_empty by lia; reflexivity|].
      split; [unfold canon_run; rewrite for_loop_empty by lia; reflexivity|].
      intros t Ht. lia.
    - intros i st1 Hi (-> & Hc & Hlab).
      assert (R1 : ∀ t, 0 ≤ t < i → 0 ≤ rd pot1 t < 4)
        by (intros t Ht; apply H1; lia).
      assert (R2 : ∀ t, 0 ≤ t < i → 0 ≤ rd pot2 t < 4)
        by (intros t Ht; apply H2; lia).
      destruct (canon_run_ok pot1 i ltac:(lia) R1) as [Hok1 _].
      destruct (canon_run_ok pot2 i ltac:(lia) R2) as [Hok2 _].
      assert (E1 : canon_run pot1 (i + 1)
                   = canon_step 0 pot1 i (canon_run pot1 i))
        by (unfold canon_run; apply for_loop_last; lia).
      assert (E2 : canon_run pot2 (i + 1)
                   = canon_step 0 pot2 i (canon_run pot2 i))
        by (unfold canon_run; apply for_loop_last; lia).
      rewrite E2. split; [symmetry; exact E1|].
      set (s1 := canon_run pot1 i) in *. set (s2 := canon_run pot2 i) in *.
      destruct (labels_ok_step pot1 i s1 ltac:(lia) (H1 i ltac:(lia)) Hok1)
        as (_ & Hst1 & Hl1 & Hc1).
      destruct (labels_ok_step pot2 i s2 ltac:(lia) (H2 i ltac:(lia)) Hok2)
        as (_ & Hst2 & Hl2 & Hc2).
      cbv zeta in Hst1, Hl1, Hc1, Hst2, Hl2, Hc2.
      pose proof Hok1 as (_ & _ & Hseen1 & _).
      pose proof Hok2 as (_ & _ & Hseen2 & _).
      cbv zeta in Hseen1, Hseen2.
      assert (Hboth :
        (rd (mapped_index s1) (rd pot1 i) = -1 ∧
         rd (mapped_index s2) (rd pot2 i) = -1) ∨
        (∃ t, 0 ≤ t < i ∧ rd pot1 t = rd pot1 i ∧ rd pot2 t = rd pot2 i)).
      { destruct (Z.eq_dec (rd (mapped_index s1) (rd pot1 i)) (-1))
          as [Hnew|Hold].
        - left. split; [exact Hnew|].
          destruct (Z.eq_dec (rd (mapped_index s2) (rd pot2 i)) (-1))
            as [Hnew2|Hold2]; [exact Hnew2|exfalso].
          apply (Hseen2 _ (H2 i ltac:(lia))) in Hold2 as (t & Ht & Hpt).
          assert (Hne : rd (mapped_index s1) (rd pot1 i) ≠ -1).
          { apply (Hseen1 _ (H1 i ltac:(lia))). exists t.
            split; [exact Ht|]. apply (Hsame t i); [lia|lia|exact Hpt]. }
          contradiction.
        - right.
          apply (Hseen1 _ (H1 i ltac:(lia))) in Hold as (t & Ht & Hpt).
          exists t. split; [exact Ht|]. split; [exact Hpt|].
          apply (Hsame t i); [lia|lia|exact Hpt]. }
      assert (Hkeep1 : ∀ t, 0 ≤ t < i →
                canon_label pot1 (canon_step 0 pot1 i s1) t
                = canon_label pot1 s1 t).
      { intros t Ht. unfold canon_label. apply Hst1; [apply R1; exact Ht|].
        apply (Hseen1 _ (R1 t Ht)). exists t. split; [exact Ht|reflexivity]. }
      assert (Hkeep2 : ∀ t, 0 ≤ t < i →
                canon_label pot2 (canon_step 0 pot2 i s2) t
                = canon_label pot2 s2 t).
      { intros t Ht. unfold canon_label. apply Hst2; [apply R2; exact Ht|].
        apply (Hseen2 _ (R2 t Ht)). exists t. split; [exact Ht|reflexivity]. }
      destruct Hboth as [[Hn1 Hn2] | (t0 & Ht0 & Hp1 & Hp2)].
      + rewrite Hn1 in Hl1, Hc1. rewrite Hn2 in Hl2, Hc2.
        change (-1 =? -1) with true in *. cbv iota in *.
        split; [lia|]. intros t Ht.
        destruct (decide (t = i)) as [->|Hne]; [lia|].
        rewrite Hkeep1, Hkeep2 by lia. apply Hlab. lia.
      + assert (Ho1 : rd (mapped_index s1) (rd pot1 i) ≠ -1).
        { apply (Hseen1 _ (H1 i ltac:(lia))). exists t0.
          split; [exact Ht0|exact Hp1]. }
        assert (Ho2 : rd (mapped_index s2) (rd pot2 i) ≠ -1).
        { apply (Hseen2 _ (H2 i ltac:(lia))). exists t0.
          split; [exact Ht0|exact Hp2]. }
        apply Z.eqb_neq in Ho1, Ho2. rewrite Ho1 in Hl1, Hc1.
        rewrite Ho2 in Hl2, Hc2.
        split; [lia|]. intros t Ht.
        destruct (decide (t = i)) as [->|Hne].
        * rewrite Hl1, Hl2. rewrite <- Hp1, <- Hp2.
          exact (Hlab t0 Ht0).
        * rewrite Hkeep1, Hkeep2 by lia. apply Hlab. lia. }
  subst P. cbv beta in H. destruct H as (_ & _ & H). exact H.
Qed.

(** X16. For two assignments of at most 224 texels to the partitions
    0..3, the canonical patterns are equal exactly when the assignments
    group the texels alike: any two texels are in one partition of the
    first exactly when they are in one partition of the second, whatever
    the numbers of the partitions. *)
Theorem canonical_pattern_same_grouping (texel_count : Z)
    (pot1 pot2 : gmap Z Z) :
  0 ≤ texel_count ≤ 224 →
  (∀ t, 0 ≤ t < texel_count → 0 ≤ rd pot1 t < 4) →
  (∀ t, 0 ≤ t < texel_count → 0 ≤ rd pot2 t < 4) →
  canonical_pattern texel_count pot1 = canonical_pattern texel_count pot2 ↔
  ∀ t t', 0 ≤ t < texel_count → 0 ≤ t' < texel_count →
    (rd pot1 t = rd pot1 t' ↔ rd pot2 t = rd pot2 t').
Proof.
  intros Hn H1 H2. rewrite canonical_pattern_eq.
  destruct (canon_run_ok pot1 texel_count ltac:(lia) H1) as [Hok1 _].
  destruct (canon_run_ok pot2 texel_count ltac:(lia) H2) as [Hok2 _].
  split.
  - intros Hw t t' Ht Ht'.
    pose proof (labels_of_words pot1 pot2 texel_count Hn H1 H2 Hw) as Hlab.
    rewrite <- (label_eq_iff pot1 texel_count _ t t' Hok1 Ht Ht'
                  (H1 t Ht) (H1 t' Ht')).
    rewrite <- (label_eq_iff pot2 texel_count _ t t' Hok2 Ht Ht'
                  (H2 t Ht) (H2 t' Ht')).
    rewrite (Hlab t Ht), (Hlab t' Ht'). reflexivity.
  - intros Hsame. apply words_of_labels; [lia|exact H1|exact H2|].
    apply same_grouping_labels; [lia|exact H1|exact H2|exact Hsame].
Qed.

(** ** Duplicate partitionings, by their groups *)

Section DuplicateGroupings.
Variable round_up_to_simd_multiple_vla : Z → Z.

Abbreviation seeded := (generated round_up_to_simd_multiple_vla).

(** The assignment of a generated entry names the partitions 0..3. *)
Lemma generated_partitions_range (bsd : block_size_descriptor)
    (partition_count0 base k t : Z) :
  0 ≤ xdim bsd → 0 ≤ ydim bsd → 0 ≤ zdim bsd →
  1 ≤ partition_count0 ≤ 4 →
  0 ≤ t < xdim bsd * ydim bsd * zdim bsd →
  0 ≤ rd (partition_of_texel (seeded bsd partition_count0 base k)) t < 4.
Proof.
  intros HX HY HZ Hpc Ht. unfold generated.
  destruct (generate_entry_maps round_up_to_simd_multiple_vla bsd
              partition_count0 k (pt_entry (partitions bsd) base k)
              HX HY HZ) as (Hpot & _).
  rewrite (rd_lookup _ _ _ (Hpot t Ht)).
  pose proof (scan_partition_range bsd partition_count0 k t Hpc). lia.
Qed.

(** X17. After [init_partition_tables] on a block of at most 216 texels
    whose texel count is the product of its dimensions, the entry of seed
    [i] in the table for 2, 3 or 4 partitions has its partition count set
    to 0 exactly when an earlier seed of the table partitions the block
    alike, up to the numbers of the partitions; otherwise the cell holds
    the generated entry as it is. *)
Theorem init_partition_tables_clears_same_grouping
    (bsd : block_size_descriptor) (partition_count0 base i : Z) :
  0 ≤ xdim bsd → 0 ≤ ydim bsd → 0 ≤ zdim bsd →
  texel_count bsd = xdim bsd * ydim bsd * zdim bsd →
  texel_count bsd ≤ MAX_TEXELS_PER_BLOCK →
  (partition_count0 = 2 ∧ base = par_tab2) ∨
  (partition_count0 = 3 ∧ base = par_tab3) ∨
  (partition_count0 = 4 ∧ base = par_tab4) →
  0 ≤ i < PARTITION_COUNT →
  let bsd' := init_partition_tables round_up_to_simd_multiple_vla bsd in
  let part := λ k t,
    rd (partition_of_texel (seeded bsd partition_count0 base k)) t in
  let same_grouping :=
    ∃ j, 0 ≤ j < i ∧
      ∀ t t', 0 ≤ t < texel_count bsd → 0 ≤ t' < texel_count bsd →
        (part i t = part i t' ↔ part j t = part j t') in
  (same_grouping →
   partitions bsd' !! (base + i)
     = Some (set_partition_count 0 (seeded bsd partition_count0 base i))) ∧
  (¬ same_grouping →
   partitions bsd' !! (base + i)
     = Some (seeded bsd partition_count0 base i)).
Proof.
  intros HX HY HZ Hn Htc Htab Hi bsd' part same_grouping.
  destruct (init_tables_entries round_up_to_simd_multiple_vla bsd
              partition_count0 base i Htc Htab Hi) as [Hdup Hnot].
  fold bsd' in Hdup, Hnot.
  assert (Hpc : 1 ≤ partition_count0 ≤ 4)
    by (destruct Htab as [[-> _] | [[-> _] | [-> _]]]; lia).
  assert (Hrange : ∀ k t, 0 ≤ t < texel_count bsd → 0 ≤ part k t < 4).
  { intros k t Ht. subst part. cbv beta.
    apply generated_partitions_range; try assumption. lia. }
  assert (Hsize : 0 ≤ texel_count bsd ≤ 224).
  { unfold MAX_TEXELS_PER_BLOCK in Htc. split; [|lia]. rewrite Hn.
    apply Z.mul_nonneg_nonneg; [apply Z.mul_nonneg_nonneg|]; assumption. }
  assert (Hiff : ∀ j,
    canonical_pattern (texel_count bsd)
      (partition_of_texel (seeded bsd partition_count0 base i))
    = canonical_pattern (texel_count bsd)
        (partition_of_texel (seeded bsd partition_count0 base j))
    ↔ ∀ t t', 0 ≤ t < texel_count bsd → 0 ≤ t' < texel_count bsd →
        (part i t = part i t' ↔ part j t = part j t')).
  { intros j. rewrite canonical_pattern_eq.
    set (pot1 := partition_of_texel (seeded bsd partition_count0 base i)).
    set (pot2 := partition_of_texel (seeded bsd partition_count0 base j)).
    assert (H1 : ∀ t, 0 ≤ t < texel_count bsd → 0 ≤ rd pot1 t < 4)
      by (intros t Ht; exact (Hrange i t Ht)).
    assert (H2 : ∀ t, 0 ≤ t < texel_count bsd → 0 ≤ rd pot2 t < 4)
      by (intros t Ht; exact (Hrange j t Ht)).
    destruct (canon_run_ok pot1 (texel_count bsd) ltac:(lia) H1)
      as [Hok1 _].
    destruct (canon_run_ok pot2 (texel_count bsd) ltac:(lia) H2)
      as [Hok2 _].
    subst part. cbv beta. fold pot1 pot2. split.
    - intros Hw t t' Ht Ht'.
      pose proof (labels_of_words pot1 pot2 _ Hsize H1 H2 Hw) as Hlab.
      rewrite <- (label_eq_iff pot1 _ _ t t' Hok1 Ht Ht' (H1 t Ht)
                    (H1 t' Ht')).
      rewrite <- (label_eq_iff pot2 _ _ t t' Hok2 Ht Ht' (H2 t Ht)
                    (H2 t' Ht')).
      rewrite (Hlab t Ht), (Hlab t' Ht'). reflexivity.
    - intros Hsame. apply words_of_labels; [lia|exact H1|exact H2|].
      apply same_grouping_labels; [lia|exact H1|exact H2|exact Hsame]. }
  split.
  - intros (j & Hj & Hsame). apply Hdup. exists j. split; [exact Hj|].
    apply Hiff. exact Hsame.
  - intros Hno. apply Hnot. intros (j & Hj & Heq). apply Hno.
    exists j. split; [exact Hj|]. apply Hiff. exact Heq.
Qed.
End DuplicateGroupings.

(** ** The texels used for kmeans *)






(** ** Block modes and their decimation modes *)

Lemma decimation_tables_update_block_mode (k : Z) (f : block_mode → block_mode)
    (bsd : block_size_descriptor) :
  decimation_tables (update_block_mode k f bsd) = decimation_tables bsd ∧
  decimation_modes (update_block_mode k f bsd) = decimation_modes bsd ∧
  decimation_mode_count (update_block_mode k f bsd)
    = decimation_mode_count bsd.
Proof.
  with_strategy transparent [update_block_mode]
    (repeat split; reflexivity).
Qed.

Lemma decimation_tables_update_decimation_mode (k : Z)
    (f : decimation_mode_t → decimation_mode_t)
    (bsd : block_size_descriptor) :
  decimation_tables (update_decimation_mode k f bsd) = decimation_tables bsd ∧
  decimation_modes (update_decimation_mode k f bsd)
    = <[k := f (dm_entry bsd k)]> (decimation_modes bsd) ∧
  decimation_mode_count (update_decimation_mode k f bsd)
    = decimation_mode_count bsd.
Proof.
  with_strategy transparent [update_decimation_mode]
    (repeat split; reflexivity).
Qed.

(** The decimation modes below the count of [bsd] are in [bsd'] what they
    are in [bsd], up to their percentile flags. *)
Definition tables_kept (bsd bsd' : block_size_descriptor) : Prop :=
  decimation_mode_count bsd ≤ decimation_mode_count bsd' ∧
  ∀ k, 0 ≤ k < decimation_mode_count bsd →
    decimation_tables bsd' !! k = decimation_tables bsd !! k ∧
    ∀ dm, decimation_modes bsd !! k = Some dm →
      ∃ dm', decimation_modes bsd' !! k = Some dm' ∧
             maxprec_1plane dm' = maxprec_1plane dm ∧
             maxprec_2planes dm' = maxprec_2planes dm.

Lemma tables_kept_refl (bsd : block_size_descriptor) : tables_kept bsd bsd.
Proof.
  split; [lia|]. intros k Hk. split; [reflexivity|].
  intros dm Hdm. exists dm. repeat split; [exact Hdm|reflexivity..].
Qed.

Lemma tables_kept_trans (b1 b2 b3 : block_size_descriptor) :
  tables_kept b1 b2 → tables_kept b2 b3 → tables_kept b1 b3.
Proof.
  intros [Hc1 H1] [Hc2 H2]. split; [lia|]. intros k Hk.
  destruct (H1 k Hk) as [T1 M1]. destruct (H2 k ltac:(lia)) as [T2 M2].
  split; [congruence|]. intros dm Hdm.
  destruct (M1 dm Hdm) as (dm1 & Hdm1 & E1 & E2).
  destruct (M2 dm1 Hdm1) as (dm2 & Hdm2 & E3 & E4).
  exists dm2. repeat split; [exact Hdm2|congruence..].
Qed.

Lemma tables_kept_update_block_mode (b : block_size_descriptor) (k : Z)
    (f : block_mode → block_mode) (bsd : block_size_descriptor) :
  tables_kept b bsd → tables_kept b (update_block_mode k f bsd).
Proof.
  intros H. apply (tables_kept_trans _ bsd); [exact H|].
  destruct (decimation_tables_update_block_mode k f bsd) as (E1 & E2 & E3).
  split; [lia|]. intros i Hi. rewrite E1, E2. split; [reflexivity|].
  intros dm Hdm. exists dm. repeat split; [exact Hdm|reflexivity..].
Qed.

Lemma tables_kept_update_flags (b : block_size_descriptor) (k : Z)
    (f : decimation_mode_t → decimation_mode_t)
    (bsd : block_size_descriptor) :
  (∀ dm, maxprec_1plane (f dm) = maxprec_1plane dm ∧
         maxprec_2planes (f dm) = maxprec_2planes dm) →
  tables_kept b bsd → tables_kept b (update_decimation_mode k f bsd).
Proof.
  intros Hf H. apply (tables_kept_trans _ bsd); [exact H|].
  destruct (decimation_tables_update_decimation_mode k f bsd)
    as (E1 & E2 & E3).
  split; [lia|]. intros i Hi. rewrite E1, E2. split; [reflexivity|].
  intros dm Hdm. destruct (decide (i = k)) as [->|Hne].
  - rewrite lookup_insert_eq. eexists. split; [reflexivity|].
    unfold dm_entry. rewrite Hdm. apply Hf.
  - rewrite lookup_insert_ne by congruence.
    exists dm. repeat split; [exact Hdm|reflexivity..].
Qed.

Lemma tables_kept_set_packed_index (b : block_size_descriptor)
    (v : gmap Z Z) (bsd : block_size_descriptor) :
  tables_kept b bsd → tables_kept b (set_block_mode_packed_index v bsd).
Proof.
  intros H. apply (tables_kept_trans _ bsd); [exact H|].
  split; [cbn; lia|]. intros i Hi. split; [reflexivity|].
  intros dm Hdm. exists dm. repeat split; [exact Hdm|reflexivity..].
Qed.

Lemma dm_flags_keep_precision :
  (∀ dm, maxprec_1plane (dm_set_percentile_hit dm) = maxprec_1plane dm ∧
         maxprec_2planes (dm_set_percentile_hit dm) = maxprec_2planes dm) ∧
  (∀ dm, maxprec_1plane (dm_set_percentile_always dm) = maxprec_1plane dm ∧
         maxprec_2planes (dm_set_percentile_always dm) = maxprec_2planes dm).
Proof. split; intros dm; split; reflexivity. Qed.

Ltac tables_kept_stores :=
  repeat first
    [ apply tables_kept_set_packed_index
    | apply tables_kept_update_block_mode
    | apply tables_kept_update_flags; [apply dm_flags_keep_precision|] ].

Section ModeTables.
Variable get_ise_sequence_bitcount : Z → Z → Z.
Variable round_up_to_simd_multiple_vla : Z → Z.
Variable MAX_DECIMATION_MODES : Z.
Variable decompress_only : bool.
Variable float : Type.
Variable float_le : float → float → bool.
Variable float_is_zero : float → bool.
Variable get_2d_percentile_table : Z → Z → Z → float.
Variable rand_draws : list Z.

Abbreviation decode_2d i :=
  (decode_block_mode_2d get_ise_sequence_bitcount i unwritten_mode_params).
Abbreviation table_2d x_texels y_texels x_weights y_weights :=
  (initialize_decimation_table_2d round_up_to_simd_multiple_vla
     x_texels y_texels x_weights y_weights unwritten_decimation_table).
Abbreviation best_level := (highest_fit get_ise_sequence_bitcount).

(** Decimation mode [d] of [bsd] is the one of the grid
    [x_weights] x [y_weights]: its table is the table of the grid and its
    two precisions are the best levels of the grid. *)
Definition entry_ready (x_texels y_texels : Z) (bsd : block_size_descriptor)
    (d x_weights y_weights : Z) : Prop :=
  0 ≤ d < decimation_mode_count bsd ∧
  decimation_tables bsd !! d
    = Some (Some (table_2d x_texels y_texels x_weights y_weights)) ∧
  ∃ dm, decimation_modes bsd !! d = Some dm ∧
    best_level (x_weights * y_weights) 12 (maxprec_1plane dm) ∧
    (if 2 * (x_weights * y_weights) <=? MAX_WEIGHTS_PER_BLOCK
     then best_level (2 * (x_weights * y_weights)) 12 (maxprec_2planes dm)
     else maxprec_2planes dm = -1).

(** A packed block mode is valid and carries what its mode id decodes to,
    with the decimation mode of its grid. *)
Definition mode_linked (x_texels y_texels : Z) (bsd : block_size_descriptor)
    (bm : block_mode) : Prop :=
  (decode_2d (mode_index bm)).1 = true ∧
  entry_ready x_texels y_texels bsd (decimation_mode bm)
    (x_weights (decode_2d (mode_index bm)).2)
    (y_weights (decode_2d (mode_index bm)).2) ∧
  bm_quant_mode bm = quant_mode (decode_2d (mode_index bm)).2 ∧
  bm_is_dual_plane bm = is_dual_plane (decode_2d (mode_index bm)).2.

(** The state of the 2D assembler: the remap table names the decimation
    mode of every grid it has an entry for, and the packed block modes are
    linked. *)
Definition tables_linked (x_texels y_texels : Z) (st : asm_state) : Prop :=
  (∀ xw yw, 2 ≤ xw ≤ 12 → 2 ≤ yw ≤ 12 → xw * yw ≤ MAX_WEIGHTS_PER_BLOCK →
     rd (decimation_mode_index st) (yw * 16 + xw) = -1 ∨
     entry_ready x_texels y_texels (asm_bsd st)
       (rd (decimation_mode_index st) (yw * 16 + xw)) xw yw) ∧
  0 ≤ decimation_mode_count (asm_bsd st) ∧
  ∀ k, 0 ≤ k < packed_idx st →
    ∃ bm, block_modes (asm_bsd st) !! k = Some bm ∧
          mode_linked x_texels y_texels (asm_bsd st) bm.

Lemma entry_ready_kept (x_texels y_texels : Z)
    (bsd bsd' : block_size_descriptor) (d xw yw : Z) :
  tables_kept bsd bsd' → entry_ready x_texels y_texels bsd d xw yw →
  entry_ready x_texels y_texels bsd' d xw yw.
Proof.
  intros [Hc Hk] (Hd & Ht & dm & Hdm & H1 & H2).
  destruct (Hk d Hd) as [Et Em]. destruct (Em dm Hdm) as (dm' & Hdm' & E1 & E2).
  split; [lia|]. split; [rewrite Et; exact Ht|].
  exists dm'. rewrite E1, E2. split; [exact Hdm'|]. split; assumption.
Qed.

Lemma mode_linked_kept (x_texels y_texels : Z)
    (bsd bsd' : block_size_descriptor) (bm : block_mode) :
  tables_kept bsd bsd' → mode_linked x_texels y_texels bsd bm →
  mode_linked x_texels y_texels bsd' bm.
Proof.
  intros Hk (Hv & He & Hq & Hd). split; [exact Hv|].
  split; [exact (entry_ready_kept _ _ _ _ _ _ _ Hk He)|]. split; assumption.
Qed.

(** What [construct_dt_entry_2d] leaves behind. *)
Lemma construct_dt_entry_2d_effect
    (x_texels y_texels x_weights y_weights : Z)
    (bsd : block_size_descriptor) :
  0 ≤ decimation_mode_count bsd →
  let r :=
    construct_dt_entry_2d get_ise_sequence_bitcount
      round_up_to_simd_multiple_vla x_texels y_texels x_weights y_weights
      bsd in
  r.1 = decimation_mode_count bsd ∧
  block_modes r.2 = block_modes bsd ∧
  tables_kept bsd r.2 ∧
  entry_ready x_texels y_texels r.2 (decimation_mode_count bsd)
    x_weights y_weights.
Proof.
  intros Hc. cbv zeta. unfold construct_dt_entry_2d. cbv zeta.
  pose proof (maxprec_loop get_ise_sequence_bitcount (x_weights * y_weights)
                (2 * (x_weights * y_weights) <=? MAX_WEIGHTS_PER_BLOCK))
    as Hloop.
  cbv zeta in Hloop.
  destruct (for_loop 0 12 _ _) as [m1 m2]. cbn [fst snd] in *.
  destruct Hloop as [H1 H2].
  split; [reflexivity|]. split; [reflexivity|]. split.
  - split; [cbn; lia|]. intros k Hk. cbn.
    rewrite !lookup_insert_ne by lia. split; [reflexivity|].
    intros dm Hdm. exists dm. repeat split; [exact Hdm|reflexivity..].
  - split; [cbn; lia|]. split; [cbn; apply lookup_insert_eq|].
    eexists. split; [cbn; apply lookup_insert_eq|]. cbn. split; assumption.
Qed.

(** One accepted mode. *)
Lemma tables_linked_accept (x_texels y_texels : Z) (st : asm_state)
    (dmi' : gmap Z Z) (bsd' : block_size_descriptor) (bm : block_mode) :
  tables_linked x_texels y_texels st →
  tables_kept (asm_bsd st) bsd' →
  (∀ xw yw, 2 ≤ xw ≤ 12 → 2 ≤ yw ≤ 12 → xw * yw ≤ MAX_WEIGHTS_PER_BLOCK →
     rd dmi' (yw * 16 + xw) = rd (decimation_mode_index st) (yw * 16 + xw) ∨
     entry_ready x_texels y_texels bsd' (rd dmi' (yw * 16 + xw)) xw yw) →
  (∀ k, k ≠ packed_idx st →
     block_modes bsd' !! k = block_modes (asm_bsd st) !! k) →
  block_modes bsd' !! packed_idx st = Some bm →
  mode_linked x_texels y_texels bsd' bm →
  tables_linked x_texels y_texels (mk_asm_state dmi' (packed_idx st + 1) bsd').
Proof.
  intros (HA & Hc & HB) Hkept Hdmi Hother Hnew Hlinked.
  unfold tables_linked. cbn [decimation_mode_index asm_bsd packed_idx].
  split; [|split].
  - intros xw yw Hx Hy Hxy.
    destruct (Hdmi xw yw Hx Hy Hxy) as [-> | Hready]; [|right; exact Hready].
    destruct (HA xw yw Hx Hy Hxy) as [Hno|Hready]; [left; exact Hno|right].
    exact (entry_ready_kept _ _ _ _ _ _ _ Hkept Hready).
  - destruct Hkept as [Hle _]. lia.
  - intros k Hk. destruct (decide (k = packed_idx st)) as [->|Hne].
    + exists bm. split; [exact Hnew|exact Hlinked].
    + destruct (HB k ltac:(lia)) as (bm0 & Hbm0 & Hl0).
      exists bm0. rewrite Hother by exact Hne. split; [exact Hbm0|].
      exact (mode_linked_kept _ _ _ _ _ Hkept Hl0).
Qed.

(** One round of the loop over the mode ids (lines 849-917). *)
Lemma block_mode_step_2d_linked (x_texels y_texels : Z)
    (can_omit_modes : bool) (mode_cutoff : float) (i : Z) (st : asm_state) :
  tables_linked x_texels y_texels st →
  tables_linked x_texels y_texels
    (block_mode_step_2d get_ise_sequence_bitcount
       round_up_to_simd_multiple_vla decompress_only float float_le
       float_is_zero get_2d_percentile_table x_texels y_texels
       can_omit_modes mode_cutoff i st).
Proof.
  intros Hinv. unfold block_mode_step_2d.
  pose proof (valid_mode_2d get_ise_sequence_bitcount i
                unwritten_mode_params) as Hvalid.
  cbv zeta in Hvalid.
  destruct (decode_2d i) as [valid m] eqn:Hdec. cbn [fst snd] in Hvalid.
  cbv zeta.
  destruct (negb valid || _ || _ || _) eqn:Hskip.
  - destruct Hinv as (HA & Hc & HB). split; [|split]; assumption.
  - apply orb_false_iff in Hskip as [Hskip _].
    apply orb_false_iff in Hskip as [Hskip _].
    apply orb_false_iff in Hskip as [Hskip _].
    apply negb_false_iff in Hskip. subst valid.
    destruct (Hvalid eq_refl) as (Hx & Hy & Hxy & _).
    assert (Hw : x_weights m * y_weights m ≤ MAX_WEIGHTS_PER_BLOCK)
      by (destruct (is_dual_plane m); nia).
    pose proof Hinv as (HA & Hc & HB).
    pose proof (construct_dt_entry_2d_effect x_texels y_texels (x_weights m)
                  (y_weights m) (asm_bsd st) Hc) as Heff.
    cbv zeta in Heff.
    destruct (construct_dt_entry_2d _ _ _ _ _ _ (asm_bsd st)) as [dm bsd1].
    cbn [fst snd] in Heff. destruct Heff as (-> & Ebm & Hkept1 & Hready1).
    set (key := y_weights m * 16 + x_weights m) in *.
    set (pk := packed_idx st) in *.
    assert (Hprep : ∃ d dmi' bsd2,
      (if rd (decimation_mode_index st) key =? -1
       then (decimation_mode_count (asm_bsd st),
             <[key := decimation_mode_count (asm_bsd st)]>
               (decimation_mode_index st), bsd1)
       else (rd (decimation_mode_index st) key, decimation_mode_index st,
             asm_bsd st)) = (d, dmi', bsd2) ∧
      tables_kept (asm_bsd st) bsd2 ∧
      block_modes bsd2 = block_modes (asm_bsd st) ∧
      entry_ready x_texels y_texels bsd2 d (x_weights m) (y_weights m) ∧
      ∀ xw yw, 2 ≤ xw ≤ 12 → 2 ≤ yw ≤ 12 →
        xw * yw ≤ MAX_WEIGHTS_PER_BLOCK →
        rd dmi' (yw * 16 + xw)
          = rd (decimation_mode_index st) (yw * 16 + xw) ∨
        entry_ready x_texels y_texels bsd2 (rd dmi' (yw * 16 + xw)) xw yw).
    { destruct (Z.eqb_spec (rd (decimation_mode_index st) key) (-1))
        as [Hnew|Hold].
      - eexists _, _, _. split; [reflexivity|]. split; [exact Hkept1|].
        split; [exact Ebm|]. split; [exact Hready1|].
        intros xw yw Hxw Hyw _.
        destruct (decide (yw * 16 + xw = key)) as [Hk|Hk].
        + right. rewrite Hk, rd_insert_eq.
          assert (yw = y_weights m ∧ xw = x_weights m) as [-> ->]
            by (subst key; lia).
          exact Hready1.
        + left. rewrite rd_insert_ne by congruence. reflexivity.
      - eexists _, _, _. split; [reflexivity|].
        split; [apply tables_kept_refl|]. split; [reflexivity|]. split.
        + destruct (HA (x_weights m) (y_weights m) Hx Hy Hw) as [Hno|Hr];
            [contradiction|exact Hr].
        + intros xw yw _ _ _. left. reflexivity. }
    destruct Hprep as (d & dmi' & bsd2 & -> & Hkept2 & Ebm2 & Hready2 & Hdmi).
    cbv beta iota.
    match goal with
    | |- context [update_block_mode pk (bm_set_mode d _ _ i) ?b] =>
        set (flagged := b)
    end.
    assert (Hflag : tables_kept bsd2 flagged ∧
              ∀ k, k ≠ pk → block_modes flagged !! k = block_modes bsd2 !! k).
    { subst flagged. destruct decompress_only;
        [split; [apply tables_kept_refl|reflexivity]|].
      destruct (float_is_zero _);
        [|destruct (float_le _ mode_cutoff)];
        (split;
         [tables_kept_stores; apply tables_kept_refl
         |intros k Hk; autorewrite with block_mode_stores;
          rewrite ?lookup_insert_ne by congruence; reflexivity]). }
    destruct Hflag as [Hkept3 Hother3]. clearbody flagged.
    eapply tables_linked_accept.
    + exact Hinv.
    + tables_kept_stores.
      exact (tables_kept_trans _ _ _ Hkept2 Hkept3).
    + intros xw yw Hxw Hyw Hxyw.
      destruct (Hdmi xw yw Hxw Hyw Hxyw) as [E|Hr]; [left; exact E|right].
      apply (entry_ready_kept _ _ bsd2); [|exact Hr].
      tables_kept_stores. exact Hkept3.
    + intros k Hk. fold pk in Hk. autorewrite with block_mode_stores.
      rewrite lookup_insert_ne by congruence.
      rewrite Hother3 by exact Hk. rewrite Ebm2. reflexivity.
    + autorewrite with block_mode_stores. apply lookup_insert_eq.
    + unfold mode_linked. cbn [mode_index decimation_mode bm_quant_mode
                                 bm_is_dual_plane bm_set_mode].
      rewrite Hdec. cbn [fst snd]. split; [reflexivity|].
      split; [|split; reflexivity].
      apply (entry_ready_kept _ _ bsd2); [|exact Hready2].
      tables_kept_stores. exact Hkept3.
Qed.

Lemma remap_table_cleared (n k : Z) :
  0 ≤ k < n → rd (for_loop 0 n (λ i m, <[i := -1]> m) (∅ : gmap Z Z)) k = -1.
Proof.
  intros Hk.
  apply (for_loop_ind
           (λ n (m : gmap Z Z), ∀ k, 0 ≤ k < n → rd m k = -1));
    [lia| | |exact Hk].
  - intros k' Hk'. lia.
  - intros i m Hi IH k' Hk'. destruct (decide (k' = i)) as [->|Hne].
    + apply rd_insert_eq.
    + rewrite rd_insert_ne by lia. apply IH. lia.
Qed.

Lemma tables_kept_fields (bsd bsd' : block_size_descriptor) :
  decimation_tables bsd' = decimation_tables bsd →
  decimation_modes bsd' = decimation_modes bsd →
  decimation_mode_count bsd' = decimation_mode_count bsd →
  tables_kept bsd bsd'.
Proof.
  intros E1 E2 E3. split; [lia|]. intros k Hk. rewrite E1, E2.
  split; [reflexivity|]. intros dm Hdm.
  exists dm. repeat split; [exact Hdm|reflexivity..].
Qed.

Lemma tables_kept_clear_unused (bsd : block_size_descriptor) :
  tables_kept bsd
    (clear_unused_decimation_modes MAX_DECIMATION_MODES
       (decimation_mode_count bsd) bsd).
Proof.
  unfold clear_unused_decimation_modes.
  apply (for_loop_preserves (tables_kept bsd)); [apply tables_kept_refl|].
  intros i bsd' Hi [Hc Hk]. split; [cbn; exact Hc|].
  intros k Hlt. destruct (Hk k Hlt) as [Et Em]. cbn.
  rewrite !lookup_insert_ne by lia. split; [exact Et|exact Em].
Qed.

Lemma tables_kept_assign_kmeans (bsd : block_size_descriptor) :
  tables_kept bsd (assign_kmeans_texels rand_draws bsd).
Proof.
  unfold assign_kmeans_texels.
  destruct (texel_count bsd <=? MAX_KMEANS_TEXELS).
  - apply tables_kept_fields; reflexivity.
  - destruct (fold_left _ _ _) as [[seen n] km].
    apply tables_kept_fields; reflexivity.
Qed.

Lemma tables_kept_init_partition_tables (bsd : block_size_descriptor) :
  tables_kept bsd (init_partition_tables round_up_to_simd_multiple_vla bsd).
Proof.
  unfold init_partition_tables. apply tables_kept_fields; reflexivity.
Qed.

Abbreviation init_2d_or_3d :=
  (init_block_size_descriptor get_ise_sequence_bitcount
     round_up_to_simd_multiple_vla MAX_DECIMATION_MODES decompress_only
     float float_le float_is_zero get_2d_percentile_table rand_draws).
Abbreviation mode_skipped :=
  (discarded get_ise_sequence_bitcount decompress_only float float_le
     get_2d_percentile_table).

Lemma linked_finish (x_texels y_texels : Z) (st : asm_state)
    (bsd' : block_size_descriptor) (k : Z) :
  tables_linked x_texels y_texels st →
  tables_kept (asm_bsd st) bsd' →
  same_block_modes (set_block_mode_count (packed_idx st) (asm_bsd st)) bsd' →
  0 ≤ k < block_mode_count bsd' →
  ∃ bm, block_modes bsd' !! k = Some bm ∧
        mode_linked x_texels y_texels bsd' bm.
Proof.
  intros (_ & _ & HB) Hkept (Ebm & _ & Ecnt) Hk.
  rewrite Ecnt in Hk. cbn [block_mode_count set_block_mode_count] in Hk.
  destruct (HB k Hk) as (bm & Hbm & Hl). exists bm. rewrite Ebm.
  split; [exact Hbm|]. exact (mode_linked_kept _ _ _ _ _ Hkept Hl).
Qed.

(** The stores after the loop (lines 919-936) and the partition tables. *)
Lemma finish_2d_kept (b : block_size_descriptor) (pk : Z) :
  tables_kept b
    (init_partition_tables round_up_to_simd_multiple_vla
       (assign_kmeans_texels rand_draws
          (clear_unused_decimation_modes MAX_DECIMATION_MODES
             (decimation_mode_count (set_block_mode_count pk b))
             (set_block_mode_count pk b)))).
Proof.
  eapply tables_kept_trans; [|apply tables_kept_init_partition_tables].
  eapply tables_kept_trans; [|apply tables_kept_assign_kmeans].
  eapply tables_kept_trans;
    [|apply (tables_kept_clear_unused (set_block_mode_count pk b))].
  apply tables_kept_fields; reflexivity.
Qed.

Lemma finish_2d_same (b : block_size_descriptor) (pk : Z) :
  same_block_modes (set_block_mode_count pk b)
    (init_partition_tables round_up_to_simd_multiple_vla
       (assign_kmeans_texels rand_draws
          (clear_unused_decimation_modes MAX_DECIMATION_MODES
             (decimation_mode_count (set_block_mode_count pk b))
             (set_block_mode_count pk b)))).
Proof.
  eapply same_block_modes_trans;
    [apply (clear_unused_decimation_modes_same MAX_DECIMATION_MODES)|].
  eapply same_block_modes_trans;
    [apply (assign_kmeans_texels_same rand_draws)
    |apply init_partition_tables_same].
Qed.

(** The loop over the mode ids. *)
Lemma loop_2d_linked (x_texels y_texels : Z)
    (can_omit_modes : bool) (mode_cutoff : float)
    (bsd : block_size_descriptor) (dmi : gmap Z Z) :
  (∀ k, 0 ≤ k < 204 → rd dmi k = -1) →
  0 ≤ decimation_mode_count bsd →
  tables_linked x_texels y_texels
    (for_loop 0 MAX_WEIGHT_MODES
       (block_mode_step_2d get_ise_sequence_bitcount
          round_up_to_simd_multiple_vla decompress_only float float_le
          float_is_zero get_2d_percentile_table x_texels y_texels
          can_omit_modes mode_cutoff)
       (mk_asm_state dmi 0 bsd)).
Proof.
  intros Hdmi Hc.
  apply (for_loop_preserves (tables_linked x_texels y_texels)).
  - split; [|split].
    + intros xw yw Hx Hy Hxy. left. cbn [decimation_mode_index].
      apply Hdmi. unfold MAX_WEIGHTS_PER_BLOCK in Hxy.
      assert (yw ≤ 11 ∨ yw = 12) as [H | ->] by lia; lia.
    + exact Hc.
    + intros k' Hk'. cbn [packed_idx] in Hk'. lia.
  - intros i s' _ Hs'. apply block_mode_step_2d_linked. exact Hs'.
Qed.

(** Every packed block mode of a 2D descriptor is linked. *)
Lemma init_2d_linked (x_texels y_texels z_texels : Z)
    (can_omit_modes : bool) (mode_cutoff : float)
    (bsd : block_size_descriptor) (k : Z) :
  z_texels ≤ 1 →
  let bsd' :=
    init_2d_or_3d x_texels y_texels z_texels can_omit_modes mode_cutoff
      bsd in
  0 ≤ k < block_mode_count bsd' →
  ∃ bm, block_modes bsd' !! k = Some bm ∧
        mode_linked x_texels y_texels bsd' bm.
Proof.
  intros Hz. cbv zeta. unfold init_block_size_descriptor.
  destruct (Z.ltb_spec 1 z_texels) as [Hlt|_]; [lia|].
  unfold construct_block_size_descriptor_2d. cbv zeta.
  match goal with
  | |- context [for_loop 0 MAX_WEIGHT_MODES ?body ?s0] =>
      pose proof (loop_2d_linked x_texels y_texels can_omit_modes
                    mode_cutoff (asm_bsd s0) (decimation_mode_index s0))
        as Hst;
      change (mk_asm_state (decimation_mode_index s0) 0 (asm_bsd s0))
        with s0 in Hst;
      generalize dependent (for_loop 0 MAX_WEIGHT_MODES body s0)
  end.
  intros st Hst.
  apply (linked_finish x_texels y_texels st).
  - apply Hst.
    + intros k' Hk'. cbn [decimation_mode_index].
      apply remap_table_cleared. lia.
    + cbn [asm_bsd decimation_mode_count set_decimation_mode_count]. lia.
  - exact (finish_2d_kept (asm_bsd st) (packed_idx st)).
  - exact (finish_2d_same (asm_bsd st) (packed_idx st)).
Qed.

(** X19. In a descriptor built by [init] for a 2D block, every accepted
    mode id has a packed block mode that carries what the id decodes to
    (the quantization level and the dual-plane flag) and whose decimation
    mode is below the decimation mode count and has the decimation table
    of the decoded weight grid. *)
Theorem block_mode_names_its_grid_table (x_texels y_texels z_texels : Z)
    (can_omit_modes : bool) (mode_cutoff : float)
    (bsd : block_size_descriptor) (m : Z) :
  z_texels ≤ 1 → 0 ≤ m < MAX_WEIGHT_MODES →
  mode_skipped x_texels y_texels z_texels can_omit_modes mode_cutoff m
    = false →
  let bsd' :=
    init_2d_or_3d x_texels y_texels z_texels can_omit_modes mode_cutoff
      bsd in
  let grid := (decode_2d m).2 in
  ∃ k bm,
    block_mode_packed_index bsd' !! m = Some k ∧
    0 ≤ k < block_mode_count bsd' ∧
    block_modes bsd' !! k = Some bm ∧ mode_index bm = m ∧
    bm_quant_mode bm = quant_mode grid ∧
    bm_is_dual_plane bm = is_dual_plane grid ∧
    0 ≤ decimation_mode bm < decimation_mode_count bsd' ∧
    decimation_tables bsd' !! decimation_mode bm
      = Some (Some (table_2d x_texels y_texels (x_weights grid)
                      (y_weights grid))).
Proof.
  intros Hz Hm Hacc bsd' grid.
  destruct (init_modes_packed get_ise_sequence_bitcount
              round_up_to_simd_multiple_vla MAX_DECIMATION_MODES
              decompress_only float float_le float_is_zero
              get_2d_percentile_table rand_draws x_texels y_texels z_texels
              can_omit_modes mode_cutoff bsd) as (_ & _ & _ & Hall).
  fold bsd' in Hall.
  destruct (Hall m Hm Hacc) as (k & bm & Hk & Hpi & Hbm & Hidx).
  destruct (init_2d_linked x_texels y_texels z_texels can_omit_modes
              mode_cutoff bsd k Hz Hk) as (bm' & Hbm' & Hl).
  fold bsd' in Hbm', Hl. rewrite Hbm in Hbm'. injection Hbm' as <-.
  destruct Hl as (_ & (Hd & Ht & _) & Hq & Hdual). rewrite Hidx in *.
  exists k, bm. repeat split; try assumption; lia.
Qed.

(** X20. In a descriptor built by [init] for a 2D block, the
    quantization level of the packed block mode of every accepted mode id
    is within the precision recorded for its decimation mode: it is at
    least 0 and at most [maxprec_2planes] of the decimation mode when the
    block mode has two planes and [maxprec_1plane] when it has one, and
    these are at most 11. *)
Theorem block_mode_within_recorded_precision
    (x_texels y_texels z_texels : Z) (can_omit_modes : bool)
    (mode_cutoff : float) (bsd : block_size_descriptor) (m : Z) :
  z_texels ≤ 1 → 0 ≤ m < MAX_WEIGHT_MODES →
  mode_skipped x_texels y_texels z_texels can_omit_modes mode_cutoff m
    = false →
  let bsd' :=
    init_2d_or_3d x_texels y_texels z_texels can_omit_modes mode_cutoff
      bsd in
  ∃ k bm dm,
    block_mode_packed_index bsd' !! m = Some k ∧
    block_modes bsd' !! k = Some bm ∧
    decimation_modes bsd' !! decimation_mode bm = Some dm ∧
    0 ≤ bm_quant_mode bm
      ≤ (if bm_is_dual_plane bm then maxprec_2planes dm
         else maxprec_1plane dm) ∧
    maxprec_1plane dm ≤ 11 ∧ maxprec_2planes dm ≤ 11.
Proof.
  intros Hz Hm Hacc bsd'.
  destruct (init_modes_packed get_ise_sequence_bitcount
              round_up_to_simd_multiple_vla MAX_DECIMATION_MODES
              decompress_only float float_le float_is_zero
              get_2d_percentile_table rand_draws x_texels y_texels z_texels
              can_omit_modes mode_cutoff bsd) as (_ & _ & _ & Hall).
  fold bsd' in Hall.
  destruct (Hall m Hm Hacc) as (k & bm & Hk & Hpi & Hbm & Hidx).
  destruct (init_2d_linked x_texels y_texels z_texels can_omit_modes
              mode_cutoff bsd k Hz Hk) as (bm' & Hbm' & Hl).
  fold bsd' in Hbm', Hl. rewrite Hbm in Hbm'. injection Hbm' as <-.
  destruct Hl as (Hvalid & (_ & _ & dm & Hdm & H1 & H2) & Hq & Hdual).
  pose proof (valid_mode_2d get_ise_sequence_bitcount (mode_index bm)
                unwritten_mode_params Hvalid) as Hfacts.
  cbv zeta in Hfacts. destruct Hfacts as (_ & _ & Hw & Hlevel & Hbits).
  set (grid := (decode_2d (mode_index bm)).2) in *.
  exists k, bm, dm. split; [exact Hpi|]. split; [exact Hbm|].
  split; [exact Hdm|]. rewrite Hq, Hdual.
  assert (Hbest : ∀ wc mp,
            best_level wc 12 mp →
            MIN_WEIGHT_BITS_PER_BLOCK
              ≤ get_ise_sequence_bitcount wc (quant_mode grid)
              ≤ MAX_WEIGHT_BITS_PER_BLOCK →
            quant_mode grid ≤ mp).
  { intros wc mp Hbest Hfit.
    assert (Hf : fits get_ise_sequence_bitcount wc (quant_mode grid) = true).
    { unfold fits. apply andb_true_iff. split; apply Z.leb_le; lia. }
    destruct Hbest as [[_ Hnone] | (_ & _ & Habove)].
    - rewrite Hnone in Hf by lia. discriminate Hf.
    - destruct (Z_le_gt_dec (quant_mode grid) mp) as [Hle|Hgt];
        [exact Hle|].
      rewrite Habove in Hf by lia. discriminate Hf. }
  assert (Htop : ∀ wc mp, best_level wc 12 mp → mp ≤ 11)
    by (intros wc mp [[-> _] | (Hr & _)]; lia).
  assert (Htop2 : maxprec_2planes dm ≤ 11).
  { destruct (2 * (x_weights grid * y_weights grid)
                <=? MAX_WEIGHTS_PER_BLOCK);
      [exact (Htop _ _ H2)|lia]. }
  split; [|split; [exact (Htop _ _ H1)|exact Htop2]].
  split; [lia|].
  destruct (is_dual_plane grid).
  - assert (Hfit2 : 2 * (x_weights grid * y_weights grid)
                    ≤ MAX_WEIGHTS_PER_BLOCK) by lia.
    apply Z.leb_le in Hfit2. rewrite Hfit2 in H2.
    apply (Hbest _ _ H2).
    replace (2 * (x_weights grid * y_weights grid))
      with (x_weights grid * y_weights grid * 2) by lia.
    exact Hbits.
  - apply (Hbest _ _ H1).
    replace (x_weights grid * y_weights grid)
      with (x_weights grid * y_weights grid * 1) by lia.
    exact Hbits.
Qed.
End ModeTables.

(** ** Block modes and their decimation modes: 3D blocks *)

(** A counted loop with an invariant on its index, whatever its bounds. *)
Lemma for_loop_upto {S : Type} (P : Z → S → Prop) (lo hi : Z)
    (body : Z → S → S) (s : S) :
  P lo s →
  (∀ i s', lo ≤ i < hi → P i s' → P (i + 1) (body i s')) →
  P (Z.max lo hi) (for_loop lo hi body s).
Proof.
  intros H0 Hstep. destruct (Z_le_gt_dec lo hi) as [Hle|Hgt].
  - rewrite Z.max_r by lia. apply for_loop_ind; assumption.
  - rewrite Z.max_l by lia. rewrite for_loop_empty by lia. exact H0.
Qed.

Lemma clear_unused_lookups (MAX_DECIMATION_MODES first : Z)
    (bsd : block_size_descriptor) :
  let bsd' := clear_unused_decimation_modes MAX_DECIMATION_MODES first bsd in
  decimation_mode_count bsd' = decimation_mode_count bsd ∧
  ∀ k, k < first →
    decimation_tables bsd' !! k = decimation_tables bsd !! k ∧
    decimation_modes bsd' !! k = decimation_modes bsd !! k.
Proof.
  cbv zeta. unfold clear_unused_decimation_modes.
  apply (for_loop_preserves
    (λ bsd', decimation_mode_count bsd' = decimation_mode_count bsd ∧
             ∀ k, k < first →
               decimation_tables bsd' !! k = decimation_tables bsd !! k ∧
               decimation_modes bsd' !! k = decimation_modes bsd !! k)).
  - split; [reflexivity|]. intros k Hk. split; reflexivity.
  - intros i bsd' Hi [Hc Hk]. split; [exact Hc|].
    intros k Hlt. destruct (Hk k Hlt) as [Et Em]. cbn.
    rewrite !lookup_insert_ne by lia. split; assumption.
Qed.

Section ModeTables3D.
Variable get_ise_sequence_bitcount : Z → Z → Z.
Variable round_up_to_simd_multiple_vla : Z → Z.
Variable MAX_DECIMATION_MODES : Z.
Variable decompress_only : bool.
Variable float : Type.
Variable float_le : float → float → bool.
Variable float_is_zero : float → bool.
Variable get_2d_percentile_table : Z → Z → Z → float.
Variable rand_draws : list Z.

Abbreviation decode_3d i :=
  (decode_block_mode_3d get_ise_sequence_bitcount i unwritten_mode_params).
Abbreviation table_3d x_texels y_texels z_texels x_weights y_weights
    z_weights :=
  (initialize_decimation_table_3d round_up_to_simd_multiple_vla
     x_texels y_texels z_texels x_weights y_weights z_weights
     unwritten_decimation_table).
Abbreviation best_fit := (highest_fit get_ise_sequence_bitcount).

(** Decimation mode [d] of [bsd] has the table [dt] and the best levels
    of [weight_count] weights. *)
Definition mode_ready (bsd : block_size_descriptor) (d : Z)
    (dt : decimation_table) (weight_count : Z) : Prop :=
  0 ≤ d < decimation_mode_count bsd ∧
  decimation_tables bsd !! d = Some (Some dt) ∧
  ∃ dm, decimation_modes bsd !! d = Some dm ∧
    best_fit weight_count 12 (maxprec_1plane dm) ∧
    (if 2 * weight_count <=? MAX_WEIGHTS_PER_BLOCK
     then best_fit (2 * weight_count) 12 (maxprec_2planes dm)
     else maxprec_2planes dm = -1).

Lemma mode_ready_kept (bsd bsd' : block_size_descriptor) (d : Z)
    (dt : decimation_table) (weight_count : Z) :
  tables_kept bsd bsd' → mode_ready bsd d dt weight_count →
  mode_ready bsd' d dt weight_count.
Proof.
  intros [Hc Hk] (Hd & Ht & dm & Hdm & H1 & H2).
  destruct (Hk d Hd) as [Et Em]. destruct (Em dm Hdm) as (dm' & Hdm' & E1 & E2).
  split; [lia|]. split; [rewrite Et; exact Ht|].
  exists dm'. rewrite E1, E2. split; [exact Hdm'|]. split; assumption.
Qed.

(** The index of a grid in the remap table of the 3D assembler. *)
Definition key_3d (x_weights y_weights z_weights : Z) : Z :=
  z_weights * 64 + y_weights * 8 + x_weights.

(** The state of the grid loops: every grid of at most 64 weights among
    the grids [seen] has its decimation mode, which the remap table
    names. *)
Definition grids_ready (x_texels y_texels z_texels : Z)
    (seen : Z → Z → Z → Prop) (acc : gmap Z Z * Z * block_size_descriptor)
    : Prop :=
  0 ≤ acc.1.2 ∧
  ∀ xw yw zw, 2 ≤ xw ≤ 7 → 2 ≤ yw ≤ 7 → 2 ≤ zw →
    xw * yw * zw ≤ MAX_WEIGHTS_PER_BLOCK → seen xw yw zw →
    mode_ready (set_decimation_mode_count acc.1.2 acc.2)
      (rd acc.1.1 (key_3d xw yw zw))
      (table_3d x_texels y_texels z_texels xw yw zw) (xw * yw * zw).

Lemma grids_ready_weaken (x_texels y_texels z_texels : Z)
    (seen seen' : Z → Z → Z → Prop)
    (acc : gmap Z Z * Z * block_size_descriptor) :
  (∀ xw yw zw, 2 ≤ xw → 2 ≤ yw → 2 ≤ zw → seen' xw yw zw → seen xw yw zw) →
  grids_ready x_texels y_texels z_texels seen acc →
  grids_ready x_texels y_texels z_texels seen' acc.
Proof.
  intros Hsub [Hc H]. split; [exact Hc|].
  intros xw yw zw Hx Hy Hz Hw Hs. apply H; try assumption.
  apply Hsub; [lia|lia|lia|exact Hs].
Qed.

(** One grid (lines 979-1017). *)
Lemma decimation_grid_step_3d_ready (x_texels y_texels z_texels : Z)
    (xw0 yw0 zw0 : Z) (seen seen' : Z → Z → Z → Prop)
    (acc : gmap Z Z * Z * block_size_descriptor) :
  2 ≤ xw0 ≤ 7 → 2 ≤ yw0 ≤ 7 → 2 ≤ zw0 →
  (∀ xw yw zw, seen' xw yw zw →
     seen xw yw zw ∨ (xw = xw0 ∧ yw = yw0 ∧ zw = zw0)) →
  grids_ready x_texels y_texels z_texels seen acc →
  grids_ready x_texels y_texels z_texels seen'
    (decimation_grid_step_3d get_ise_sequence_bitcount
       round_up_to_simd_multiple_vla x_texels y_texels z_texels
       xw0 yw0 zw0 acc).
Proof.
  intros Hx0 Hy0 Hz0 Hseen. destruct acc as [[dmi cnt] bsd].
  intros [Hc H]. cbn [fst snd] in Hc, H.
  unfold decimation_grid_step_3d.
  destruct (Z.ltb_spec MAX_WEIGHTS_PER_BLOCK (xw0 * yw0 * zw0)) as [Hbig|Hfit].
  - split; [exact Hc|]. cbn [fst snd].
    intros xw yw zw Hx Hy Hz Hw Hs.
    destruct (Hseen _ _ _ Hs) as [Hold | (-> & -> & ->)]; [|lia].
    apply H; assumption.
  - pose proof (maxprec_loop get_ise_sequence_bitcount (xw0 * yw0 * zw0) true)
      as Hloop.
    cbv zeta in Hloop.
    destruct (for_loop 0 12 _ _) as [m1 m2]. cbn [fst snd] in Hloop.
    destruct Hloop as [H1 H2]. cbv zeta. split; [cbn [fst snd]; lia|].
    cbn [fst snd]. intros xw yw zw Hx Hy Hz Hw Hs.
    destruct (decide (key_3d xw yw zw = key_3d xw0 yw0 zw0)) as [Hk|Hk].
    + assert (xw = xw0 ∧ yw = yw0 ∧ zw = zw0) as (-> & -> & ->)
        by (unfold key_3d in Hk; lia).
      rewrite rd_insert_eq. split; [cbn; lia|].
      split; [cbn; apply lookup_insert_eq|].
      eexists. split; [cbn; apply lookup_insert_eq|]. cbn.
      split; [exact H1|].
      destruct (Z.ltb_spec MAX_WEIGHTS_PER_BLOCK (2 * (xw0 * yw0 * zw0)));
        destruct (Z.leb_spec (2 * (xw0 * yw0 * zw0)) MAX_WEIGHTS_PER_BLOCK);
        first [lia|reflexivity|exact H2].
    + rewrite rd_insert_ne by (intros E; apply Hk; symmetry; exact E).
      destruct (Hseen _ _ _ Hs) as [Hold | (-> & -> & ->)];
        [|contradiction].
      specialize (H xw yw zw Hx Hy Hz Hw Hold).
      apply (mode_ready_kept (set_decimation_mode_count cnt bsd)); [|exact H].
      split; [cbn; lia|]. intros k Hlt. cbn in Hlt. cbn.
      rewrite !lookup_insert_ne by lia. split; [reflexivity|].
      intros dm Hdm. exists dm. repeat split; [exact Hdm|reflexivity..].
Qed.

(** The three grid loops (lines 973-1020). *)
Lemma grid_loops_ready (x_texels y_texels z_texels : Z)
    (acc : gmap Z Z * Z * block_size_descriptor) :
  x_texels ≤ 7 → y_texels ≤ 7 → 0 ≤ acc.1.2 →
  grids_ready x_texels y_texels z_texels
    (λ xw yw zw, xw ≤ x_texels ∧ yw ≤ y_texels ∧ zw ≤ z_texels)
    (for_loop 2 (x_texels + 1) (λ x_weights,
       for_loop 2 (y_texels + 1) (λ y_weights,
         for_loop 2 (z_texels + 1) (λ z_weights,
           decimation_grid_step_3d get_ise_sequence_bitcount
             round_up_to_simd_multiple_vla x_texels y_texels z_texels
             x_weights y_weights z_weights))) acc).
Proof.
  intros HX HY Hc.
  apply (grids_ready_weaken _ _ _
           (λ xw yw zw, xw < Z.max 2 (x_texels + 1) ∧ yw ≤ y_texels ∧
                        zw ≤ z_texels));
    [intros xw yw zw _ _ _ (H1 & H2 & H3); lia|].
  apply (for_loop_upto
           (λ X a, grids_ready x_texels y_texels z_texels
                     (λ xw yw zw, xw < X ∧ yw ≤ y_texels ∧ zw ≤ z_texels) a)).
  { split; [exact Hc|]. intros xw yw zw Hx Hy Hz Hw (H1 & _). lia. }
  intros X a HXr Ha.
  apply (grids_ready_weaken _ _ _
           (λ xw yw zw, (xw < X ∧ yw ≤ y_texels ∧ zw ≤ z_texels) ∨
                        (xw = X ∧ yw < Z.max 2 (y_texels + 1) ∧
                         zw ≤ z_texels)));
    [intros xw yw zw _ _ _ (H1 & H2 & H3); lia|].
  apply (for_loop_upto
           (λ Y a, grids_ready x_texels y_texels z_texels
                     (λ xw yw zw,
                        (xw < X ∧ yw ≤ y_texels ∧ zw ≤ z_texels) ∨
                        (xw = X ∧ yw < Y ∧ zw ≤ z_texels)) a)).
  { eapply grids_ready_weaken; [|exact Ha].
    intros xw yw zw Hx Hy Hz [H|(_ & H & _)]; [exact H|lia]. }
  intros Y b HYr Hb.
  apply (grids_ready_weaken _ _ _
           (λ xw yw zw,
              ((xw < X ∧ yw ≤ y_texels ∧ zw ≤ z_texels) ∨
               (xw = X ∧ yw < Y ∧ zw ≤ z_texels)) ∨
              (xw = X ∧ yw = Y ∧ zw < Z.max 2 (z_texels + 1))));
    [intros xw yw zw _ _ _ [H|(H1 & H2 & H3)]; lia|].
  apply (for_loop_upto
           (λ Z0 a, grids_ready x_texels y_texels z_texels
                      (λ xw yw zw,
                         ((xw < X ∧ yw ≤ y_texels ∧ zw ≤ z_texels) ∨
                          (xw = X ∧ yw < Y ∧ zw ≤ z_texels)) ∨
                         (xw = X ∧ yw = Y ∧ zw < Z0)) a)).
  { eapply grids_ready_weaken; [|exact Hb].
    intros xw yw zw Hx Hy Hz [H|(_ & _ & H)]; [exact H|lia]. }
  intros Z0 c HZr Hc0.
  apply (decimation_grid_step_3d_ready _ _ _ X Y Z0
           (λ xw yw zw,
              ((xw < X ∧ yw ≤ y_texels ∧ zw ≤ z_texels) ∨
               (xw = X ∧ yw < Y ∧ zw ≤ z_texels)) ∨
              (xw = X ∧ yw = Y ∧ zw < Z0))); [lia|lia|lia| |exact Hc0].
  intros xw yw zw [H|(H1 & H2 & H3)]; [left; left; exact H|].
  destruct (decide (zw = Z0)) as [->|Hne]; [right; lia|left; right; lia].
Qed.

(** A packed block mode of a 3D block is valid and carries what its mode
    id decodes to, with the decimation mode of its grid. *)
Definition mode_linked_3d (x_texels y_texels z_texels : Z)
    (bsd : block_size_descriptor) (bm : block_mode) : Prop :=
  (decode_3d (mode_index bm)).1 = true ∧
  mode_ready bsd (decimation_mode bm)
    (table_3d x_texels y_texels z_texels
       (x_weights (decode_3d (mode_index bm)).2)
       (y_weights (decode_3d (mode_index bm)).2)
       (z_weights (decode_3d (mode_index bm)).2))
    (x_weights (decode_3d (mode_index bm)).2
     * y_weights (decode_3d (mode_index bm)).2
     * z_weights (decode_3d (mode_index bm)).2) ∧
  bm_quant_mode bm = quant_mode (decode_3d (mode_index bm)).2 ∧
  bm_is_dual_plane bm = is_dual_plane (decode_3d (mode_index bm)).2.

(** The state of the loop over the mode ids of the 3D assembler, for the
    remap table [dmi] and the descriptor [b0] the grid loops have left. *)
Definition linked_3d (x_texels y_texels z_texels : Z) (dmi : gmap Z Z)
    (b0 : block_size_descriptor) (st : asm_state) : Prop :=
  decimation_mode_index st = dmi ∧
  tables_kept b0 (asm_bsd st) ∧
  ∀ k, 0 ≤ k < packed_idx st →
    ∃ bm, block_modes (asm_bsd st) !! k = Some bm ∧
          mode_linked_3d x_texels y_texels z_texels (asm_bsd st) bm.

Lemma mode_linked_3d_kept (x_texels y_texels z_texels : Z)
    (bsd bsd' : block_size_descriptor) (bm : block_mode) :
  tables_kept bsd bsd' → mode_linked_3d x_texels y_texels z_texels bsd bm →
  mode_linked_3d x_texels y_texels z_texels bsd' bm.
Proof.
  intros Hk (Hv & He & Hq & Hd). split; [exact Hv|].
  split; [exact (mode_ready_kept _ _ _ _ _ Hk He)|]. split; assumption.
Qed.

(** One round of the loop over the mode ids (lines 1036-1075). *)
Lemma block_mode_step_3d_linked (x_texels y_texels z_texels : Z)
    (dmi : gmap Z Z) (b0 : block_size_descriptor) (i : Z) (st : asm_state) :
  (∀ xw yw zw, 2 ≤ xw ≤ 6 → 2 ≤ yw ≤ 6 → 2 ≤ zw ≤ 6 →
     xw ≤ x_texels → yw ≤ y_texels → zw ≤ z_texels →
     xw * yw * zw ≤ MAX_WEIGHTS_PER_BLOCK →
     mode_ready b0 (rd dmi (key_3d xw yw zw))
       (table_3d x_texels y_texels z_texels xw yw zw) (xw * yw * zw)) →
  linked_3d x_texels y_texels z_texels dmi b0 st →
  linked_3d x_texels y_texels z_texels dmi b0
    (block_mode_step_3d get_ise_sequence_bitcount x_texels y_texels
       z_texels i st).
Proof.
  intros Hready (Hdmi & Hkept & HB). unfold block_mode_step_3d.
  pose proof (valid_mode_3d get_ise_sequence_bitcount i
                unwritten_mode_params) as Hvalid.
  cbv zeta in Hvalid.
  destruct (decode_3d i) as [ok m] eqn:Hdec. cbn [fst snd] in Hvalid.
  cbv zeta.
  match goal with
  | |- context [if negb ?p then _ else _] => destruct p eqn:Hpermit
  end; cbn [negb].
  - (* a mode that is encoded *)
    destruct ok; [|discriminate Hpermit].
    apply negb_true_iff in Hpermit.
    apply orb_false_iff in Hpermit as [Hpermit Hzt].
    apply orb_false_iff in Hpermit as [Hxt Hyt].
    apply Z.ltb_ge in Hxt, Hyt, Hzt.
    destruct (Hvalid eq_refl) as (Hx & Hy & Hz & Hxyz & _).
    assert (Hw : x_weights m * y_weights m * z_weights m
                 ≤ MAX_WEIGHTS_PER_BLOCK)
      by (destruct (is_dual_plane m); nia).
    pose proof (Hready _ _ _ Hx Hy Hz Hxt Hyt Hzt Hw) as Hr.
    change (z_weights m * 64 + y_weights m * 8 + x_weights m)
      with (key_3d (x_weights m) (y_weights m) (z_weights m)).
    rewrite Hdmi.
    set (d := rd dmi (key_3d (x_weights m) (y_weights m) (z_weights m))) in *.
    set (pk := packed_idx st).
    match goal with
    | |- linked_3d _ _ _ _ _ (mk_asm_state _ _ ?b) => set (bsd' := b)
    end.
    assert (Hkept' : tables_kept b0 bsd')
      by (subst bsd'; tables_kept_stores; exact Hkept).
    assert (Hkeep : tables_kept (asm_bsd st) bsd')
      by (subst bsd'; tables_kept_stores; apply tables_kept_refl).
    split; [reflexivity|]. split; [exact Hkept'|].
    cbn [packed_idx asm_bsd]. intros k Hk.
    destruct (decide (k = pk)) as [->|Hne].
    + eexists. split.
      * subst bsd'. autorewrite with block_mode_stores.
        apply lookup_insert_eq.
      * rewrite bm_entry_update_block_mode. unfold mode_linked_3d.
        cbn [mode_index decimation_mode bm_quant_mode bm_is_dual_plane
             bm_set_mode bm_set_percentile].
        rewrite Hdec. cbn [fst snd]. split; [reflexivity|].
        split; [|split; reflexivity].
        exact (mode_ready_kept _ _ _ _ _ Hkept' Hr).
    + destruct (HB k ltac:(lia)) as (bm & Hbm & Hl). exists bm. split.
      * subst bsd'. autorewrite with block_mode_stores.
        rewrite !lookup_insert_ne by congruence. exact Hbm.
      * exact (mode_linked_3d_kept _ _ _ _ _ _ Hkeep Hl).
  - (* a mode that is skipped *)
    split; [exact Hdmi|]. split.
    + cbn [asm_bsd]. tables_kept_stores. exact Hkept.
    + cbn [packed_idx asm_bsd]. intros k Hk.
      destruct (HB k Hk) as (bm & Hbm & Hl). exists bm.
      split; [exact Hbm|].
      apply (mode_linked_3d_kept _ _ _ (asm_bsd st)); [|exact Hl].
      tables_kept_stores. apply tables_kept_refl.
Qed.

(** The loop over the mode ids. *)
Lemma loop_3d_linked (x_texels y_texels z_texels : Z) (dmi : gmap Z Z)
    (b0 : block_size_descriptor) :
  (∀ xw yw zw, 2 ≤ xw ≤ 6 → 2 ≤ yw ≤ 6 → 2 ≤ zw ≤ 6 →
     xw ≤ x_texels → yw ≤ y_texels → zw ≤ z_texels →
     xw * yw * zw ≤ MAX_WEIGHTS_PER_BLOCK →
     mode_ready b0 (rd dmi (key_3d xw yw zw))
       (table_3d x_texels y_texels z_texels xw yw zw) (xw * yw * zw)) →
  linked_3d x_texels y_texels z_texels dmi b0
    (for_loop 0 MAX_WEIGHT_MODES
       (block_mode_step_3d get_ise_sequence_bitcount x_texels y_texels
          z_texels)
       (mk_asm_state dmi 0 b0)).
Proof.
  intros Hready.
  apply (for_loop_preserves (linked_3d x_texels y_texels z_texels dmi b0)).
  - split; [reflexivity|]. split; [apply tables_kept_refl|].
    intros k Hk. cbn [packed_idx] in Hk. lia.
  - intros i s' _ Hs'. apply block_mode_step_3d_linked; assumption.
Qed.

(** The descriptor the grid loops hand to the loop over the mode ids. *)
Lemma grids_ready_cleared (x_texels y_texels z_texels : Z)
    (dmi : gmap Z Z) (cnt : Z) (bsd : block_size_descriptor) :
  grids_ready x_texels y_texels z_texels
    (λ xw yw zw, xw ≤ x_texels ∧ yw ≤ y_texels ∧ zw ≤ z_texels)
    (dmi, cnt, bsd) →
  ∀ xw yw zw, 2 ≤ xw ≤ 6 → 2 ≤ yw ≤ 6 → 2 ≤ zw ≤ 6 →
    xw ≤ x_texels → yw ≤ y_texels → zw ≤ z_texels →
    xw * yw * zw ≤ MAX_WEIGHTS_PER_BLOCK →
    mode_ready
      (set_decimation_mode_count cnt
         (clear_unused_decimation_modes MAX_DECIMATION_MODES cnt bsd))
      (rd dmi (key_3d xw yw zw))
      (table_3d x_texels y_texels z_texels xw yw zw) (xw * yw * zw).
Proof.
  intros [Hc H] xw yw zw Hx Hy Hz Hxt Hyt Hzt Hw. cbn [fst snd] in Hc, H.
  specialize (H xw yw zw ltac:(lia) ltac:(lia) ltac:(lia) Hw
                (conj Hxt (conj Hyt Hzt))).
  apply (mode_ready_kept (set_decimation_mode_count cnt bsd)); [|exact H].
  destruct (clear_unused_lookups MAX_DECIMATION_MODES cnt bsd) as [_ Hk].
  cbv zeta in Hk. split; [cbn; lia|]. intros k Hlt. cbn in Hlt. cbn.
  destruct (Hk k ltac:(lia)) as [Et Em]. rewrite Et, Em.
  split; [reflexivity|]. intros dm Hdm.
  exists dm. repeat split; [exact Hdm|reflexivity..].
Qed.

Lemma linked_3d_finish (x_texels y_texels z_texels : Z) (dmi : gmap Z Z)
    (b0 : block_size_descriptor) (st : asm_state) (k : Z) :
  linked_3d x_texels y_texels z_texels dmi b0 st →
  let bsd' :=
    init_partition_tables round_up_to_simd_multiple_vla
      (assign_kmeans_texels rand_draws
         (set_block_mode_count (packed_idx st) (asm_bsd st))) in
  0 ≤ k < block_mode_count bsd' →
  ∃ bm, block_modes bsd' !! k = Some bm ∧
        mode_linked_3d x_texels y_texels z_texels bsd' bm.
Proof.
  intros (_ & _ & HB) bsd'.
  assert (Hkept : tables_kept (asm_bsd st) bsd').
  { subst bsd'.
    eapply tables_kept_trans;
      [|apply (tables_kept_init_partition_tables
                 round_up_to_simd_multiple_vla)].
    eapply tables_kept_trans;
      [|apply (tables_kept_assign_kmeans rand_draws)].
    apply tables_kept_fields; reflexivity. }
  assert (Hsame : same_block_modes
            (set_block_mode_count (packed_idx st) (asm_bsd st)) bsd').
  { subst bsd'. eapply same_block_modes_trans;
      [apply (assign_kmeans_texels_same rand_draws)
      |apply init_partition_tables_same]. }
  destruct Hsame as (Ebm & _ & Ecnt). rewrite Ecnt, Ebm.
  cbn [block_mode_count block_modes set_block_mode_count]. intros Hk.
  destruct (HB k Hk) as (bm & Hbm & Hl). exists bm.
  split; [exact Hbm|]. exact (mode_linked_3d_kept _ _ _ _ _ _ Hkept Hl).
Qed.

Abbreviation init_3d :=
  (init_block_size_descriptor get_ise_sequence_bitcount
     round_up_to_simd_multiple_vla MAX_DECIMATION_MODES decompress_only
     float float_le float_is_zero get_2d_percentile_table rand_draws).
Abbreviation mode_skipped_3d :=
  (discarded get_ise_sequence_bitcount decompress_only float float_le
     get_2d_percentile_table).

(** Every packed block mode of a 3D descriptor is linked. *)
Lemma init_3d_linked (x_texels y_texels z_texels : Z)
    (can_omit_modes : bool) (mode_cutoff : float)
    (bsd : block_size_descriptor) (k : Z) :
  1 < z_texels → x_texels ≤ 6 → y_texels ≤ 6 →
  let bsd' :=
    init_3d x_texels y_texels z_texels can_omit_modes mode_cutoff bsd in
  0 ≤ k < block_mode_count bsd' →
  ∃ bm, block_modes bsd' !! k = Some bm ∧
        mode_linked_3d x_texels y_texels z_texels bsd' bm.
Proof.
  intros Hz HX HY. cbv zeta. unfold init_block_size_descriptor.
  destruct (Z.ltb_spec 1 z_texels) as [_|Hle]; [|lia].
  unfold construct_block_size_descriptor_3d. cbv zeta.
  match goal with
  | |- context [for_loop 2 (x_texels + 1) ?body ?a0] =>
      pose proof (grid_loops_ready x_texels y_texels z_texels a0
                    ltac:(lia) ltac:(lia) ltac:(cbn; lia)) as Hg;
      generalize dependent (for_loop 2 (x_texels + 1) body a0)
  end.
  intros [[dmi cnt] bsd1] Hg. cbv beta iota.
  pose proof (loop_3d_linked x_texels y_texels z_texels dmi _
                (grids_ready_cleared x_texels y_texels z_texels dmi cnt bsd1
                   Hg)) as Hst.
  match goal with
  | |- context [for_loop 0 MAX_WEIGHT_MODES ?body ?s0] =>
      generalize dependent (for_loop 0 MAX_WEIGHT_MODES body s0)
  end.
  intros st Hst.
  exact (linked_3d_finish x_texels y_texels z_texels dmi _ st k Hst).
Qed.

(** X21. In a descriptor built by [init] for a 3D block of at most
    6 x 6 x 6 texels, every accepted mode id has a packed block mode that
    carries what the id decodes to (the quantization level and the
    dual-plane flag) and whose decimation mode is below the decimation
    mode count and has the decimation table of the decoded weight grid. *)
Theorem block_mode_names_its_grid_table_3d (x_texels y_texels z_texels : Z)
    (can_omit_modes : bool) (mode_cutoff : float)
    (bsd : block_size_descriptor) (m : Z) :
  1 < z_texels → x_texels ≤ 6 → y_texels ≤ 6 → z_texels ≤ 6 →
  0 ≤ m < MAX_WEIGHT_MODES →
  mode_skipped_3d x_texels y_texels z_texels can_omit_modes mode_cutoff m
    = false →
  let bsd' :=
    init_3d x_texels y_texels z_texels can_omit_modes mode_cutoff bsd in
  let grid := (decode_3d m).2 in
  ∃ k bm,
    block_mode_packed_index bsd' !! m = Some k ∧
    0 ≤ k < block_mode_count bsd' ∧
    block_modes bsd' !! k = Some bm ∧ mode_index bm = m ∧
    bm_quant_mode bm = quant_mode grid ∧
    bm_is_dual_plane bm = is_dual_plane grid ∧
    0 ≤ decimation_mode bm < decimation_mode_count bsd' ∧
    decimation_tables bsd' !! decimation_mode bm
      = Some (Some (table_3d x_texels y_texels z_texels (x_weights grid)
                      (y_weights grid) (z_weights grid))).
Proof.
  intros Hz HX HY _ Hm Hacc bsd' grid.
  destruct (init_modes_packed get_ise_sequence_bitcount
              round_up_to_simd_multiple_vla MAX_DECIMATION_MODES
              decompress_only float float_le float_is_zero
              get_2d_percentile_table rand_draws x_texels y_texels z_texels
              can_omit_modes mode_cutoff bsd) as (_ & _ & _ & Hall).
  fold bsd' in Hall.
  destruct (Hall m Hm Hacc) as (k & bm & Hk & Hpi & Hbm & Hidx).
  destruct (init_3d_linked x_texels y_texels z_texels can_omit_modes
              mode_cutoff bsd k Hz HX HY Hk) as (bm' & Hbm' & Hl).
  fold bsd' in Hbm', Hl. rewrite Hbm in Hbm'. injection Hbm' as <-.
  destruct Hl as (_ & (Hd & Ht & _) & Hq & Hdual). rewrite Hidx in *.
  exists k, bm. repeat split; try assumption; lia.
Qed.

(** X22. In a descriptor built by [init] for a 3D block of at most
    6 x 6 x 6 texels, the quantization level of the packed block mode of
    every accepted mode id is within the precision recorded for its
    decimation mode: at least 0 and at most [maxprec_2planes] when the
    block mode has two planes and [maxprec_1plane] when it has one, and
    these are at most 11. *)
Theorem block_mode_within_recorded_precision_3d
    (x_texels y_texels z_texels : Z) (can_omit_modes : bool)
    (mode_cutoff : float) (bsd : block_size_descriptor) (m : Z) :
  1 < z_texels → x_texels ≤ 6 → y_texels ≤ 6 → z_texels ≤ 6 →
  0 ≤ m < MAX_WEIGHT_MODES →
  mode_skipped_3d x_texels y_texels z_texels can_omit_modes mode_cutoff m
    = false →
  let bsd' :=
    init_3d x_texels y_texels z_texels can_omit_modes mode_cutoff bsd in
  ∃ k bm dm,
    block_mode_packed_index bsd' !! m = Some k ∧
    block_modes bsd' !! k = Some bm ∧
    decimation_modes bsd' !! decimation_mode bm = Some dm ∧
    0 ≤ bm_quant_mode bm
      ≤ (if bm_is_dual_plane bm then maxprec_2planes dm
         else maxprec_1plane dm) ∧
    maxprec_1plane dm ≤ 11 ∧ maxprec_2planes dm ≤ 11.
Proof.
  intros Hz HX HY _ Hm Hacc bsd'.
  destruct (init_modes_packed get_ise_sequence_bitcount
              round_up_to_simd_multiple_vla MAX_DECIMATION_MODES
              decompress_only float float_le float_is_zero
              get_2d_percentile_table rand_draws x_texels y_texels z_texels
              can_omit_modes mode_cutoff bsd) as (_ & _ & _ & Hall).
  fold bsd' in Hall.
  destruct (Hall m Hm Hacc) as (k & bm & Hk & Hpi & Hbm & Hidx).
  destruct (init_3d_linked x_texels y_texels z_texels can_omit_modes
              mode_cutoff bsd k Hz HX HY Hk) as (bm' & Hbm' & Hl).
  fold bsd' in Hbm', Hl. rewrite Hbm in Hbm'. injection Hbm' as <-.
  destruct Hl as (Hvalid & (_ & _ & dm & Hdm & H1 & H2) & Hq & Hdual).
  pose proof (valid_mode_3d get_ise_sequence_bitcount (mode_index bm)
                unwritten_mode_params Hvalid) as Hfacts.
  cbv zeta in Hfacts. destruct Hfacts as (_ & _ & _ & Hw & Hlevel & Hbits).
  set (grid := (decode_3d (mode_index bm)).2) in *.
  set (wc := x_weights grid * y_weights grid * z_weights grid) in *.
  exists k, bm, dm. split; [exact Hpi|]. split; [exact Hbm|].
  split; [exact Hdm|]. rewrite Hq, Hdual.
  assert (Hbest : ∀ n mp,
            best_fit n 12 mp →
            MIN_WEIGHT_BITS_PER_BLOCK
              ≤ get_ise_sequence_bitcount n (quant_mode grid)
              ≤ MAX_WEIGHT_BITS_PER_BLOCK →
            quant_mode grid ≤ mp).
  { intros n mp Hbest Hfit.
    assert (Hf : fits get_ise_sequence_bitcount n (quant_mode grid) = true).
    { unfold fits. apply andb_true_iff. split; apply Z.leb_le; lia. }
    destruct Hbest as [[_ Hnone] | (_ & _ & Habove)].
    - rewrite Hnone in Hf by lia. discriminate Hf.
    - destruct (Z_le_gt_dec (quant_mode grid) mp) as [Hle|Hgt];
        [exact Hle|].
      rewrite Habove in Hf by lia. discriminate Hf. }
  assert (Htop : ∀ n mp, best_fit n 12 mp → mp ≤ 11)
    by (intros n mp [[-> _] | (Hr & _)]; lia).
  assert (Htop2 : maxprec_2planes dm ≤ 11).
  { destruct (2 * wc <=? MAX_WEIGHTS_PER_BLOCK);
      [exact (Htop _ _ H2)|lia]. }
  split; [|split; [exact (Htop _ _ H1)|exact Htop2]].
  split; [lia|].
  destruct (is_dual_plane grid).
  - assert (Hfit2 : 2 * wc ≤ MAX_WEIGHTS_PER_BLOCK) by lia.
    apply Z.leb_le in Hfit2. rewrite Hfit2 in H2.
    apply (Hbest _ _ H2). replace (2 * wc) with (wc * 2) by lia.
    exact Hbits.
  - apply (Hbest _ _ H1). replace wc with (wc * 1) by lia. exact Hbits.
Qed.
End ModeTables3D.

(** ** The dimensions of a descriptor *)

(** Two descriptors with the same block dimensions. *)
Definition same_dims (bsd bsd' : block_size_descriptor) : Prop :=
  xdim bsd' = xdim bsd ∧ ydim bsd' = ydim bsd ∧ zdim bsd' = zdim bsd ∧
  texel_count bsd' = texel_count bsd.

Lemma same_dims_refl (bsd : block_size_descriptor) : same_dims bsd bsd.
Proof. repeat split; reflexivity. Qed.

Lemma same_dims_trans (b1 b2 b3 : block_size_descriptor) :
  same_dims b1 b2 → same_dims b2 b3 → same_dims b1 b3.
Proof.
  intros (H1 & H2 & H3 & H4) (H5 & H6 & H7 & H8). repeat split; congruence.
Qed.

Lemma same_dims_update_block_mode (b : block_size_descriptor) (k : Z)
    (f : block_mode → block_mode) (bsd : block_size_descriptor) :
  same_dims b bsd → same_dims b (update_block_mode k f bsd).
Proof.
  intros H. apply (same_dims_trans _ bsd); [exact H|].
  with_strategy transparent [update_block_mode]
    (repeat split; reflexivity).
Qed.

Lemma same_dims_update_decimation_mode (b : block_size_descriptor) (k : Z)
    (f : decimation_mode_t → decimation_mode_t)
    (bsd : block_size_descriptor) :
  same_dims b bsd → same_dims b (update_decimation_mode k f bsd).
Proof.
  intros H. apply (same_dims_trans _ bsd); [exact H|].
  with_strategy transparent [update_decimation_mode]
    (repeat split; reflexivity).
Qed.

Lemma same_dims_set_packed_index (b : block_size_descriptor)
    (v : gmap Z Z) (bsd : block_size_descriptor) :
  same_dims b bsd → same_dims b (set_block_mode_packed_index v bsd).
Proof.
  intros H. apply (same_dims_trans _ bsd); [exact H|].
  repeat split; reflexivity.
Qed.

Ltac same_dims_stores :=
  repeat first
    [ apply same_dims_set_packed_index
    | apply same_dims_update_block_mode
    | apply same_dims_update_decimation_mode ].

Section Dimensions.
Variable get_ise_sequence_bitcount : Z → Z → Z.
Variable round_up_to_simd_multiple_vla : Z → Z.
Variable MAX_DECIMATION_MODES : Z.
Variable decompress_only : bool.
Variable float : Type.
Variable float_le : float → float → bool.
Variable float_is_zero : float → bool.
Variable get_2d_percentile_table : Z → Z → Z → float.
Variable rand_draws : list Z.

Lemma block_mode_step_2d_dims (x_texels y_texels : Z)
    (can_omit_modes : bool) (mode_cutoff : float) (b : block_size_descriptor)
    (i : Z) (st : asm_state) :
  same_dims b (asm_bsd st) →
  same_dims b
    (asm_bsd
       (block_mode_step_2d get_ise_sequence_bitcount
          round_up_to_simd_multiple_vla decompress_only float float_le
          float_is_zero get_2d_percentile_table x_texels y_texels
          can_omit_modes mode_cutoff i st)).
Proof.
  intros H. unfold block_mode_step_2d.
  destruct (decode_block_mode_2d _ i unwritten_mode_params) as [valid m].
  cbv zeta.
  destruct (negb valid || _ || _ || _).
  - cbn [asm_bsd]. same_dims_stores. exact H.
  - assert (Hc : same_dims b
              (construct_dt_entry_2d get_ise_sequence_bitcount
                 round_up_to_simd_multiple_vla x_texels y_texels
                 (x_weights m) (y_weights m) (asm_bsd st)).2).
    { apply (same_dims_trans _ (asm_bsd st)); [exact H|].
      unfold construct_dt_entry_2d. cbv zeta.
      destruct (for_loop 0 12 _ _) as [m1 m2]. repeat split; reflexivity. }
    destruct (construct_dt_entry_2d _ _ _ _ _ _ (asm_bsd st)) as [dm bsd1].
    cbn [snd] in Hc.
    destruct (rd (decimation_mode_index st) _ =? -1);
      destruct decompress_only;
      try destruct (float_is_zero _); try destruct (float_le _ mode_cutoff);
      cbn [asm_bsd]; same_dims_stores; assumption.
Qed.

Lemma block_mode_step_3d_dims (x_texels y_texels z_texels : Z)
    (b : block_size_descriptor) (i : Z) (st : asm_state) :
  same_dims b (asm_bsd st) →
  same_dims b
    (asm_bsd
       (block_mode_step_3d get_ise_sequence_bitcount x_texels y_texels
          z_texels i st)).
Proof.
  intros H. unfold block_mode_step_3d.
  destruct (decode_block_mode_3d _ i unwritten_mode_params) as [ok m].
  cbv zeta.
  match goal with
  | |- context [if negb ?p then _ else _] => destruct p
  end; cbn [negb asm_bsd]; same_dims_stores; exact H.
Qed.

Lemma decimation_grid_step_3d_dims (x_texels y_texels z_texels : Z)
    (xw yw zw : Z) (b : block_size_descriptor)
    (acc : gmap Z Z * Z * block_size_descriptor) :
  same_dims b acc.2 →
  same_dims b
    (decimation_grid_step_3d get_ise_sequence_bitcount
       round_up_to_simd_multiple_vla x_texels y_texels z_texels xw yw zw
       acc).2.
Proof.
  destruct acc as [[dmi cnt] bsd]. cbn [snd]. intros H.
  unfold decimation_grid_step_3d.
  destruct (MAX_WEIGHTS_PER_BLOCK <? xw * yw * zw); [exact H|].
  destruct (for_loop 0 12 _ _) as [m1 m2]. cbn [snd].
  apply (same_dims_trans _ bsd); [exact H|]. repeat split; reflexivity.
Qed.

Lemma clear_unused_dims (first : Z) (bsd : block_size_descriptor) :
  same_dims bsd
    (clear_unused_decimation_modes MAX_DECIMATION_MODES first bsd).
Proof.
  unfold clear_unused_decimation_modes.
  apply (for_loop_preserves (same_dims bsd)); [apply same_dims_refl|].
  intros i bsd' _ H. apply (same_dims_trans _ bsd'); [exact H|].
  repeat split; reflexivity.
Qed.

(** What [assign_kmeans_texels] leaves of the dimensions, and its count. *)
Lemma assign_kmeans_dims (bsd : block_size_descriptor) :
  same_dims bsd (assign_kmeans_texels rand_draws bsd) ∧
  kmeans_texel_count (assign_kmeans_texels rand_draws bsd)
    ≤ MAX_KMEANS_TEXELS.
Proof.
  unfold assign_kmeans_texels.
  destruct (Z.leb_spec (texel_count bsd) MAX_KMEANS_TEXELS) as [Hs|Hb].
  - split; [repeat split; reflexivity|exact Hs].
  - destruct (fold_left _ _ _) as [[seen n] km].
    split; [repeat split; reflexivity|]. cbn. lia.
Qed.

Abbreviation init_any :=
  (init_block_size_descriptor get_ise_sequence_bitcount
     round_up_to_simd_multiple_vla MAX_DECIMATION_MODES decompress_only
     float float_le float_is_zero get_2d_percentile_table rand_draws).

(** X23. A descriptor built by [init] records the block dimensions: the
    x and y dimensions as given, the z dimension as given for a 3D block
    and 1 whenever the z dimension given is at most 1, and as texel count
    the product of the three; its kmeans texel count is at most 64. *)
Theorem init_records_dimensions (x_texels y_texels z_texels : Z)
    (can_omit_modes : bool) (mode_cutoff : float)
    (bsd : block_size_descriptor) :
  let bsd' :=
    init_any x_texels y_texels z_texels can_omit_modes mode_cutoff bsd in
  xdim bsd' = x_texels ∧ ydim bsd' = y_texels ∧
  zdim bsd' = (if 1 <? z_texels then z_texels else 1) ∧
  texel_count bsd' = xdim bsd' * ydim bsd' * zdim bsd' ∧
  kmeans_texel_count bsd' ≤ MAX_KMEANS_TEXELS.
Proof.
  cbv zeta. unfold init_block_size_descriptor.
  assert (Hfinish : ∀ b st,
    same_dims b (asm_bsd st) →
    let b' :=
      init_partition_tables round_up_to_simd_multiple_vla
        (assign_kmeans_texels rand_draws
           (set_block_mode_count (packed_idx st) (asm_bsd st))) in
    same_dims b b' ∧ kmeans_texel_count b' ≤ MAX_KMEANS_TEXELS).
  { intros b st H b'.
    destruct (assign_kmeans_dims
                (set_block_mode_count (packed_idx st) (asm_bsd st)))
      as [Hd Hk].
    split; [|exact Hk].
    apply (same_dims_trans _ (asm_bsd st)); [exact H|].
    apply (same_dims_trans _ _ _ Hd). repeat split; reflexivity. }
  destruct (1 <? z_texels).
  - unfold construct_block_size_descriptor_3d. cbv zeta.
    set (b := set_texel_count (x_texels * y_texels * z_texels)
                (set_zdim z_texels
                   (set_ydim y_texels (set_xdim x_texels bsd)))).
    match goal with
    | |- context [for_loop 2 (x_texels + 1) ?body ?a0] =>
        assert (Hg : same_dims b (for_loop 2 (x_texels + 1) body a0).2);
        [|generalize dependent (for_loop 2 (x_texels + 1) body a0)]
    end.
    { apply (for_loop_preserves
               (λ a : gmap Z Z * Z * block_size_descriptor,
                  same_dims b a.2)); [apply same_dims_refl|].
      intros xw a _ Ha.
      apply (for_loop_preserves
               (λ a : gmap Z Z * Z * block_size_descriptor,
                  same_dims b a.2)); [exact Ha|].
      intros yw a' _ Ha'.
      apply (for_loop_preserves
               (λ a : gmap Z Z * Z * block_size_descriptor,
                  same_dims b a.2)); [exact Ha'|].
      intros zw a'' _ Ha''. apply decimation_grid_step_3d_dims. exact Ha''. }
    intros [[dmi cnt] bsd1] Hg. cbn [snd] in Hg. cbv beta iota.
    match goal with
    | |- context [for_loop 0 MAX_WEIGHT_MODES ?body ?s0] =>
        assert (Hst : same_dims b
                  (asm_bsd (for_loop 0 MAX_WEIGHT_MODES body s0)));
        [|generalize dependent (for_loop 0 MAX_WEIGHT_MODES body s0)]
    end.
    { apply (for_loop_preserves (λ st, same_dims b (asm_bsd st))).
      - cbn [asm_bsd]. apply (same_dims_trans _ bsd1); [exact Hg|].
        apply (same_dims_trans _ _ _ (clear_unused_dims cnt bsd1)).
        repeat split; reflexivity.
      - intros i st _ Hs. apply block_mode_step_3d_dims. exact Hs. }
    intros st Hst. destruct (Hfinish b st Hst) as [(E1 & E2 & E3 & E4) Hk].
    rewrite E1, E2, E3, E4. subst b. cbn. repeat split; try reflexivity.
    exact Hk.
  - unfold construct_block_size_descriptor_2d. cbv zeta.
    set (b := set_texel_count (x_texels * y_texels)
                (set_zdim 1 (set_ydim y_texels (set_xdim x_texels bsd)))).
    match goal with
    | |- context [for_loop 0 MAX_WEIGHT_MODES ?body ?s0] =>
        assert (Hst : same_dims b
                  (asm_bsd (for_loop 0 MAX_WEIGHT_MODES body s0)));
        [|generalize dependent (for_loop 0 MAX_WEIGHT_MODES body s0)]
    end.
    { apply (for_loop_preserves (λ st, same_dims b (asm_bsd st))).
      - cbn [asm_bsd]. repeat split; reflexivity.
      - intros i st _ Hs. apply block_mode_step_2d_dims. exact Hs. }
    intros st Hst.
    assert (H2 : ∀ b0,
      same_dims b0
        (init_partition_tables round_up_to_simd_multiple_vla
           (assign_kmeans_texels rand_draws
              (clear_unused_decimation_modes MAX_DECIMATION_MODES
                 (decimation_mode_count b0) b0))) ∧
      kmeans_texel_count
        (init_partition_tables round_up_to_simd_multiple_vla
           (assign_kmeans_texels rand_draws
              (clear_unused_decimation_modes MAX_DECIMATION_MODES
                 (decimation_mode_count b0) b0))) ≤ MAX_KMEANS_TEXELS).
    { intros b0.
      destruct (assign_kmeans_dims
                  (clear_unused_decimation_modes MAX_DECIMATION_MODES
                     (decimation_mode_count b0) b0)) as [Hd Hk].
      split; [|exact Hk].
      apply (same_dims_trans _ _ _
               (clear_unused_dims (decimation_mode_count b0) b0)).
      apply (same_dims_trans _ _ _ Hd). repeat split; reflexivity. }
    destruct (H2 (set_block_mode_count (packed_idx st) (asm_bsd st)))
      as [(E1 & E2 & E3 & E4) Hk].
    destruct Hst as (F1 & F2 & F3 & F4).
    split; [|split; [|split; [|split]]].
    + etransitivity; [exact E1|]. cbn. rewrite F1. reflexivity.
    + etransitivity; [exact E2|]. cbn. rewrite F2. reflexivity.
    + etransitivity; [exact E3|]. cbn. rewrite F3. reflexivity.
    + rewrite E1, E2, E3, E4. cbn. rewrite F1, F2, F3, F4. subst b. cbn.
      lia.
    + exact Hk.
Qed.
End Dimensions.

(** ** Decimation tables: the padded texel rows *)

Section TexelPadding.
Variable round_up_to_simd_multiple_vla : Z → Z.

(** The rows [pad_texels] writes (lines 390-402 and 657-669). *)
Lemma pad_texels_zero (texels_per_block : Z) (dt : decimation_table) (i : Z) :
  texels_per_block ≤ i < round_up_to_simd_multiple_vla texels_per_block →
  let dt' := pad_texels round_up_to_simd_multiple_vla texels_per_block dt in
  texel_weight_count dt' !! i = Some 0 ∧
  ∀ k, 0 ≤ k < 4 → texel_view dt' k i = written (0, 0, 0).
Proof.
  intros Hi. cbv zeta. unfold pad_texels. cbv zeta.
  pose (P := λ n (dt' : decimation_table),
    ∀ i, texels_per_block ≤ i < n →
      texel_weight_count dt' !! i = Some 0 ∧
      ∀ k, 0 ≤ k < 4 → texel_view dt' k i = written (0, 0, 0)).
  match goal with
  | |- texel_weight_count ?l !! _ = _ ∧ _ =>
      assert (H : P (round_up_to_simd_multiple_vla texels_per_block) l)
  end.
  { apply (for_loop_ind P); subst P; cbv beta; [lia| |].
    - intros i' Hi'. lia.
    - intros n dt' Hn IH i' Hi'. cbv zeta. split.
      + rewrite for_loop_texel_weight_count by reflexivity.
        cbn [texel_weight_count set_texel_weight_count].
        destruct (decide (i' = n)) as [->|Hne].
        * apply lookup_insert_eq.
        * rewrite lookup_insert_ne by congruence. apply IH. lia.
      + intros k Hk.
        rewrite (fill_loop_view _ (λ _, written (0, 0, 0)) _ _ n)
          by (intros; apply view_store_zeros_pad).
        destruct (decide (i' = n)) as [->|Hne].
        * rewrite decide_True by lia. reflexivity.
        * rewrite decide_False by lia. rewrite view_set_texel_weight_count.
          apply IH; lia. }
  subst P. cbv beta in H. apply H. exact Hi.
Qed.

(** X24. In every table built for a block size, the texel count is the
    number of texels of the block, and the rows of the texels from the
    texel count up to its SIMD round-up hold no weight: their weight count
    is 0 and their four slots hold grid index 0 with integer and float
    weight 0. *)
Theorem texel_rows_padded (r : grid_request) (dt0 : decimation_table)
    (i k : Z) :
  request_texels r ≤ i < round_up_to_simd_multiple_vla (request_texels r) →
  0 ≤ k < 4 →
  let dt := build_table round_up_to_simd_multiple_vla r dt0 in
  dt_texel_count dt = request_texels r ∧
  texel_weight_count dt !! i = Some 0 ∧
  texel_weights_4t dt !! (k, i) = Some 0 ∧
  texel_weights_int_4t dt !! (k, i) = Some 0 ∧
  texel_weights_float_4t dt !! (k, i) = Some 0.
Proof.
  intros Hi Hk dt.
  assert (Hshape : ∃ st wx wy wz first,
    dt = set_dt_dims (request_texels r) (request_weights r) wx wy wz
           (pad_weights round_up_to_simd_multiple_vla st (request_weights r)
              (pad_texels round_up_to_simd_multiple_vla (request_texels r)
                 first))).
  { subst dt. destruct r as [tx ty wx wy|tx ty tz wx wy wz]; simpl.
    - rewrite initialize_decimation_table_2d_unfold. eauto 10.
    - rewrite initialize_decimation_table_3d_unfold. eauto 10. }
  destruct Hshape as (st & wx & wy & wz & first & ->).
  destruct (pad_texels_zero (request_texels r) first i Hi) as [Hcnt Hview].
  cbv zeta in Hcnt, Hview.
  destruct (pad_weights_frame round_up_to_simd_multiple_vla st
              (request_weights r)
              (pad_texels round_up_to_simd_multiple_vla (request_texels r)
                 first)) as ((E1 & E2 & E3 & E4) & _).
  specialize (Hview k Hk). unfold texel_view, written in Hview.
  injection Hview as H1 H2 H3.
  cbn [dt_texel_count texel_weight_count texel_weights_4t
       texel_weights_int_4t texel_weights_float_4t set_dt_dims].
  rewrite E1, E2, E3, E4.
  split; [reflexivity|]. split; [exact Hcnt|].
  split; [exact H1|]. split; [exact H2|exact H3].
Qed.
End TexelPadding.

(** ** The entry for one partition *)

Section SinglePartition.
Variable round_up_to_simd_multiple_vla : Z → Z.

(** X25. The entry generated for one partition on a block of 1 to 216
    texels, whatever the seed, puts every texel in partition 0: its
    partition count is 1, partition 0 has all the texels, and row 0 of
    [texels_of_partition] lists the texels in order. *)
Theorem single_partition_entry (bsd : block_size_descriptor)
    (partition_index : Z) (pi0 : partition_info) :
  0 ≤ xdim bsd → 0 ≤ ydim bsd → 0 ≤ zdim bsd →
  0 < xdim bsd * ydim bsd * zdim bsd ≤ MAX_TEXELS_PER_BLOCK →
  let pi :=
    generate_one_partition_info_entry round_up_to_simd_multiple_vla bsd 1
      partition_index pi0 in
  let n := xdim bsd * ydim bsd * zdim bsd in
  partition_count pi = 1 ∧
  partition_texel_count pi !! 0 = Some n ∧
  ∀ t, 0 ≤ t < n →
    partition_of_texel pi !! t = Some 0 ∧
    texels_of_partition pi !! (0, t) = Some t.
Proof.
  intros HX HY HZ Hn pi n.
  destruct (generate_entry_maps round_up_to_simd_multiple_vla bsd 1
              partition_index pi0 HX HY HZ) as (Hpot & Htop & _ & Hptc & _).
  fold pi n in Hpot, Htop, Hptc.
  set (F := scan_partition bsd 1 partition_index) in *.
  assert (HF : ∀ t, F t = 0).
  { intros t. pose proof (scan_partition_range bsd 1 partition_index t
                            ltac:(lia)). fold F in H. lia. }
  assert (Hall : members F n 0 = seqZ 0 n).
  { unfold members. apply filter_all. intros t _. apply HF. }
  assert (Hcells : ∀ t, 0 ≤ t < n →
            partition_of_texel pi !! t = Some 0 ∧
            texels_of_partition pi !! (0, t) = Some t).
  { intros t Ht. split; [rewrite (Hpot t Ht), HF; reflexivity|].
    assert (Hlk : members F n 0 !! Z.to_nat t = Some t).
    { rewrite Hall. rewrite lookup_seqZ. split; lia. }
    pose proof (Htop 0 _ t Hlk) as E. rewrite Z2Nat.id in E by lia.
    exact E. }
  split; [|split; [|exact Hcells]].
  - destruct (generate_entry_fields round_up_to_simd_multiple_vla bsd 1
                partition_index pi0 HX HY HZ) as (st & Hst & Hpot' & Hpc).
    fold pi in Hpot', Hpc. destruct Hst as (_ & _ & _ & Hnn & Hiff).
    fold n in Hiff.
    assert (H0 : 0 < rd (counts st) 0).
    { apply Hiff. exists 0. split; [lia|]. rewrite <- Hpot'.
      apply Hcells. lia. }
    assert (H1 : rd (counts st) 1 = 0).
    { destruct (Z_le_gt_dec (rd (counts st) 1) 0) as [Hle|Hgt].
      - specialize (Hnn 1). lia.
      - assert (Hpos : 0 < rd (counts st) 1) by lia.
        apply Hiff in Hpos as (t & Ht & Hlk).
        rewrite <- Hpot' in Hlk. destruct (Hcells t Ht) as [E _].
        rewrite E in Hlk. discriminate Hlk. }
    rewrite Hpc.
    destruct (Z.eqb_spec (rd (counts st) 0) 0); [lia|].
    rewrite H1. reflexivity.
  - rewrite (Hptc 0 ltac:(lia)), Hall. rewrite length_seqZ.
    f_equal. lia.
Qed.
End SinglePartition.

(** ** The decimation modes of a 2D descriptor: how many, and which *)

Lemma count_update_block_mode (k : Z) (f : block_mode → block_mode)
    (bsd : block_size_descriptor) :
  decimation_mode_count (update_block_mode k f bsd)
    = decimation_mode_count bsd.
Proof. apply decimation_tables_update_block_mode. Qed.

Lemma count_update_decimation_mode (k : Z)
    (f : decimation_mode_t → decimation_mode_t)
    (bsd : block_size_descriptor) :
  decimation_mode_count (update_decimation_mode k f bsd)
    = decimation_mode_count bsd.
Proof. apply decimation_tables_update_decimation_mode. Qed.

Lemma count_set_packed_index (v : gmap Z Z) (bsd : block_size_descriptor) :
  decimation_mode_count (set_block_mode_packed_index v bsd)
    = decimation_mode_count bsd.
Proof. reflexivity. Qed.

Create Rewrite HintDb count_stores.
#[global] Hint Rewrite count_update_block_mode count_update_decimation_mode
  count_set_packed_index : count_stores.

(** The remap indices [y * 16 + x] of the 2D grids of 2..12 by 2..12
    weights with at most 64 weights. *)
Definition grid_keys : list Z :=
  flat_map
    (λ yw, map (λ xw, yw * 16 + xw)
             (List.filter (λ xw, xw * yw <=? MAX_WEIGHTS_PER_BLOCK)
                (seqZ 2 11)))
    (seqZ 2 11).

(** The grids that have a decimation mode in the remap table [dmi]. *)
Definition grids_used (dmi : gmap Z Z) : list Z :=
  filter (λ key, rd dmi key ≠ -1) grid_keys.

Lemma grid_keys_length : length grid_keys = 87%nat.
Proof. vm_compute. reflexivity. Qed.

Lemma grid_keys_NoDup : NoDup grid_keys.
Proof. apply (bool_decide_unpack _). vm_compute. reflexivity. Qed.

Lemma grid_keys_elem (xw yw : Z) :
  2 ≤ xw ≤ 12 → 2 ≤ yw ≤ 12 → xw * yw ≤ MAX_WEIGHTS_PER_BLOCK →
  yw * 16 + xw ∈ grid_keys.
Proof.
  intros Hx Hy Hxy. unfold grid_keys. apply elem_of_flat_map.
  exists yw. split; [apply elem_of_seqZ; lia|].
  apply list_elem_of_fmap. exists xw. split; [reflexivity|].
  apply list_elem_of_In. apply List.filter_In. split.
  - apply list_elem_of_In. apply elem_of_seqZ. lia.
  - apply Z.leb_le. exact Hxy.
Qed.

Lemma filter_ext_elem {A : Type} (P Q : A → Prop)
    `{!∀ a, Decision (P a)} `{!∀ a, Decision (Q a)} (l : list A) :
  (∀ b, b ∈ l → (P b ↔ Q b)) → filter P l = filter Q l.
Proof.
  induction l as [|b l IH]; intros Hext; [reflexivity|].
  assert (Hl : filter P l = filter Q l).
  { apply IH. intros c Hc. apply Hext. right. exact Hc. }
  destruct (decide (P b)) as [HP|HP].
  - rewrite (filter_cons_True P) by exact HP.
    rewrite (filter_cons_True Q) by (apply Hext; [left|exact HP]).
    rewrite Hl. reflexivity.
  - rewrite (filter_cons_False P) by exact HP.
    rewrite (filter_cons_False Q)
      by (intros HQ; apply HP; apply Hext; [left|exact HQ]).
    exact Hl.
Qed.

(** One more element of a list without duplicates passes the filter. *)
Lemma filter_length_one_more {A : Type} `{!EqDecision A} (P Q : A → Prop)
    `{!∀ a, Decision (P a)} `{!∀ a, Decision (Q a)} (l : list A) (a : A) :
  NoDup l → a ∈ l → ¬ P a → Q a → (∀ b, b ≠ a → (P b ↔ Q b)) →
  length (filter Q l) = S (length (filter P l)).
Proof.
  intros Hnd Ha HPa HQa Hrest.
  induction l as [|b l IH]; [apply elem_of_nil in Ha; contradiction|].
  apply NoDup_cons in Hnd as [Hb Hnd].
  destruct (decide (b = a)) as [->|Hne].
  - rewrite (filter_cons_True Q) by exact HQa.
    rewrite (filter_cons_False P) by exact HPa. simpl. f_equal.
    f_equal. symmetry. apply filter_ext_elem. intros c Hc. apply Hrest.
    intros ->. contradiction.
  - apply elem_of_cons in Ha as [->|Ha]; [contradiction|].
    specialize (IH Hnd Ha).
    destruct (decide (P b)) as [HP|HP].
    + rewrite (filter_cons_True Q) by (apply Hrest; assumption).
      rewrite (filter_cons_True P) by exact HP. simpl. rewrite IH.
      reflexivity.
    + rewrite (filter_cons_False Q)
        by (intros HQ; apply HP; apply Hrest; assumption).
      rewrite (filter_cons_False P) by exact HP. exact IH.
Qed.

Section DecimationModeCount.
Variable get_ise_sequence_bitcount : Z → Z → Z.
Variable round_up_to_simd_multiple_vla : Z → Z.
Variable MAX_DECIMATION_MODES : Z.
Variable decompress_only : bool.
Variable float : Type.
Variable float_le : float → float → bool.
Variable float_is_zero : float → bool.
Variable get_2d_percentile_table : Z → Z → Z → float.
Variable rand_draws : list Z.

Abbreviation decoded i :=
  (decode_block_mode_2d get_ise_sequence_bitcount i unwritten_mode_params).
Abbreviation step_2d :=
  (block_mode_step_2d get_ise_sequence_bitcount
     round_up_to_simd_multiple_vla decompress_only float float_le
     float_is_zero get_2d_percentile_table).

(** The remap index of the grid a mode id decodes to. *)
Definition mode_key (i : Z) : Z :=
  y_weights (decoded i).2 * 16 + x_weights (decoded i).2.

(** What one round of the loop over the mode ids does to the remap table,
    the decimation mode count and the block modes: nothing for a skipped
    mode, and for an accepted one a new block mode that names the entry of
    its grid in the remap table, which is new when the grid had none. *)
Definition step_effect (i : Z) (st st' : asm_state) : Prop :=
  let dmi := decimation_mode_index st in
  let count := decimation_mode_count (asm_bsd st) in
  (decimation_mode_index st' = dmi ∧ packed_idx st' = packed_idx st ∧
   block_modes (asm_bsd st') = block_modes (asm_bsd st) ∧
   decimation_mode_count (asm_bsd st') = count) ∨
  ((decoded i).1 = true ∧ packed_idx st' = packed_idx st + 1 ∧
   (∀ k, k ≠ packed_idx st →
      block_modes (asm_bsd st') !! k = block_modes (asm_bsd st) !! k) ∧
   (∃ bm, block_modes (asm_bsd st') !! packed_idx st = Some bm ∧
          mode_index bm = i ∧
          decimation_mode bm = rd (decimation_mode_index st') (mode_key i)) ∧
   ((rd dmi (mode_key i) = -1 ∧
     decimation_mode_index st' = <[mode_key i := count]> dmi ∧
     decimation_mode_count (asm_bsd st') = count + 1) ∨
    (rd dmi (mode_key i) ≠ -1 ∧ decimation_mode_index st' = dmi ∧
     decimation_mode_count (asm_bsd st') = count))).

Lemma construct_dt_entry_2d_count
    (x_texels y_texels x_weights y_weights : Z)
    (bsd : block_size_descriptor) :
  let r :=
    construct_dt_entry_2d get_ise_sequence_bitcount
      round_up_to_simd_multiple_vla x_texels y_texels x_weights y_weights
      bsd in
  r.1 = decimation_mode_count bsd ∧
  decimation_mode_count r.2 = decimation_mode_count bsd + 1 ∧
  block_modes r.2 = block_modes bsd.
Proof.
  cbv zeta. unfold construct_dt_entry_2d. cbv zeta.
  destruct (for_loop 0 12 _ _) as [m1 m2]. repeat split; reflexivity.
Qed.

Lemma block_mode_step_2d_effect (x_texels y_texels : Z)
    (can_omit_modes : bool) (mode_cutoff : float) (i : Z) (st : asm_state) :
  step_effect i st
    (step_2d x_texels y_texels can_omit_modes mode_cutoff i st).
Proof.
  unfold step_effect, mode_key, block_mode_step_2d. cbv zeta.
  destruct (decoded i) as [valid m]. cbn [fst snd]. cbv zeta.
  destruct (negb valid || _ || _ || _) eqn:Hskip.
  - left. repeat split; reflexivity.
  - right.
    apply orb_false_iff in Hskip as [Hskip _].
    apply orb_false_iff in Hskip as [Hskip _].
    apply orb_false_iff in Hskip as [Hskip _].
    apply negb_false_iff in Hskip. split; [exact Hskip|].
    pose proof (construct_dt_entry_2d_count x_texels y_texels (x_weights m)
                  (y_weights m) (asm_bsd st)) as Hc.
    cbv zeta in Hc.
    destruct (construct_dt_entry_2d _ _ _ _ _ _ (asm_bsd st)) as [dm bsd1].
    cbn [fst snd] in Hc. destruct Hc as (-> & Ecnt & Ebm).
    set (key := y_weights m * 16 + x_weights m).
    destruct (Z.eqb_spec (rd (decimation_mode_index st) key) (-1))
      as [Hnew|Hold];
      destruct decompress_only;
      try destruct (float_is_zero _); try destruct (float_le _ mode_cutoff);
      cbn [packed_idx asm_bsd decimation_mode_index];
      (split; [reflexivity|]);
      (split;
       [intros k Hk; autorewrite with block_mode_stores;
        rewrite ?lookup_insert_ne by congruence; rewrite ?Ebm; reflexivity|]);
      (split;
       [eexists; split;
        [autorewrite with block_mode_stores; apply lookup_insert_eq|];
        cbn [mode_index decimation_mode bm_set_mode];
        rewrite ?rd_insert_eq; split; reflexivity|]);
      autorewrite with count_stores;
      [left|left|left|left|right|right|right|right];
      repeat split; first [exact Hnew|exact Hold|exact Ecnt|reflexivity].
Qed.

Lemma grid_keys_range : Forall (λ key, 0 ≤ key < 204) grid_keys.
Proof. apply (bool_decide_unpack _). vm_compute. reflexivity. Qed.

(** The state of the loop over the mode ids: the decimation mode count
    is the number of grids with an entry in the remap table, and every
    packed block mode names the entry of its grid. *)
Definition modes_counted (st : asm_state) : Prop :=
  decimation_mode_count (asm_bsd st)
    = Z.of_nat (length (grids_used (decimation_mode_index st))) ∧
  ∀ k, 0 ≤ k < packed_idx st →
    ∃ bm, block_modes (asm_bsd st) !! k = Some bm ∧
          (decoded (mode_index bm)).1 = true ∧
          decimation_mode bm
            = rd (decimation_mode_index st) (mode_key (mode_index bm)) ∧
          rd (decimation_mode_index st) (mode_key (mode_index bm)) ≠ -1.

Lemma modes_counted_step (i : Z) (st st' : asm_state) :
  step_effect i st st' → modes_counted st → modes_counted st'.
Proof.
  intros Heff [Hcount Hshared]. unfold step_effect in Heff. cbv zeta in Heff.
  destruct Heff as [(Edmi & Epk & Ebm & Ecnt)
                   | (Hvalid & Epk & Hother & (bm & Hbm & Hidx & Hdm) & Hcase)].
  - split; [rewrite Ecnt, Edmi; exact Hcount|].
    rewrite Epk, Ebm, Edmi. exact Hshared.
  - assert (Hnn : 0 ≤ decimation_mode_count (asm_bsd st))
      by (rewrite Hcount; lia).
    pose proof (valid_mode_2d get_ise_sequence_bitcount i
                  unwritten_mode_params Hvalid) as Hfacts.
    cbv zeta in Hfacts. destruct Hfacts as (Hx & Hy & Hxy & _).
    assert (Hkey : mode_key i ∈ grid_keys).
    { apply grid_keys_elem; [exact Hx|exact Hy|].
      destruct (is_dual_plane (decoded i).2); nia. }
    destruct Hcase as [(Hnew & Edmi & Ecnt) | (Hold & Edmi & Ecnt)].
    + split.
      * rewrite Ecnt, Edmi. unfold grids_used.
        rewrite (filter_length_one_more
                   (λ key, rd (decimation_mode_index st) key ≠ -1)
                   (λ key, rd (<[mode_key i :=
                                   decimation_mode_count (asm_bsd st)]>
                                 (decimation_mode_index st)) key ≠ -1)
                   grid_keys (mode_key i) grid_keys_NoDup Hkey).
        -- rewrite Hcount. unfold grids_used. lia.
        -- intros H. apply H. exact Hnew.
        -- rewrite rd_insert_eq. lia.
        -- intros b Hb. rewrite rd_insert_ne by congruence. reflexivity.
      * rewrite Epk. intros k Hk.
        destruct (decide (k = packed_idx st)) as [->|Hne].
        -- exists bm. split; [exact Hbm|]. rewrite Hidx.
           split; [exact Hvalid|]. split; [exact Hdm|].
           rewrite Edmi, rd_insert_eq. lia.
        -- destruct (Hshared k ltac:(lia)) as (bm0 & Hbm0 & Hv0 & Hd0 & Hn0).
           exists bm0. rewrite Hother by exact Hne.
           split; [exact Hbm0|]. split; [exact Hv0|].
           assert (Hk0 : mode_key (mode_index bm0) ≠ mode_key i)
             by (intros E; rewrite E in Hn0; contradiction).
           rewrite Edmi, rd_insert_ne by congruence.
           split; assumption.
    + split; [rewrite Ecnt, Edmi; exact Hcount|].
      rewrite Epk, Edmi. intros k Hk.
      destruct (decide (k = packed_idx st)) as [->|Hne].
      * exists bm. split; [exact Hbm|]. rewrite Hidx.
        split; [exact Hvalid|]. rewrite Edmi in Hdm.
        split; [exact Hdm|exact Hold].
      * destruct (Hshared k ltac:(lia)) as (bm0 & Hbm0 & Hrest).
        exists bm0. rewrite Hother by exact Hne.
        split; [exact Hbm0|exact Hrest].
Qed.

Lemma loop_2d_counted (x_texels y_texels : Z)
    (can_omit_modes : bool) (mode_cutoff : float)
    (bsd : block_size_descriptor) (dmi : gmap Z Z) :
  (∀ k, 0 ≤ k < 204 → rd dmi k = -1) →
  decimation_mode_count bsd = 0 →
  modes_counted
    (for_loop 0 MAX_WEIGHT_MODES
       (step_2d x_texels y_texels can_omit_modes mode_cutoff)
       (mk_asm_state dmi 0 bsd)).
Proof.
  intros Hdmi Hc. apply (for_loop_preserves modes_counted).
  - split.
    + cbn [asm_bsd decimation_mode_index]. rewrite Hc. unfold grids_used.
      rewrite filter_none; [reflexivity|].
      intros key Hkey Hne. apply Hne. apply Hdmi.
      pose proof grid_keys_range as Hr. rewrite Forall_forall in Hr.
      apply Hr. exact Hkey.
    + intros k Hk. cbn [packed_idx] in Hk. lia.
  - intros i st _ Hst.
    apply (modes_counted_step i st); [|exact Hst].
    apply block_mode_step_2d_effect.
Qed.

Lemma finish_2d_count (b : block_size_descriptor) (pk : Z) :
  decimation_mode_count
    (init_partition_tables round_up_to_simd_multiple_vla
       (assign_kmeans_texels rand_draws
          (clear_unused_decimation_modes MAX_DECIMATION_MODES
             (decimation_mode_count (set_block_mode_count pk b))
             (set_block_mode_count pk b))))
  = decimation_mode_count b.
Proof.
  destruct (clear_unused_lookups MAX_DECIMATION_MODES
              (decimation_mode_count (set_block_mode_count pk b))
              (set_block_mode_count pk b)) as [Hc _].
  cbv zeta in Hc.
  set (b2 := clear_unused_decimation_modes _ _ _) in *.
  transitivity (decimation_mode_count b2); [|exact Hc].
  unfold init_partition_tables, assign_kmeans_texels.
  destruct (texel_count b2 <=? MAX_KMEANS_TEXELS); [reflexivity|].
  destruct (fold_left _ _ _) as [[seen n] km]. reflexivity.
Qed.

Abbreviation init_2d :=
  (init_block_size_descriptor get_ise_sequence_bitcount
     round_up_to_simd_multiple_vla MAX_DECIMATION_MODES decompress_only
     float float_le float_is_zero get_2d_percentile_table rand_draws).
Abbreviation skipped_2d :=
  (discarded get_ise_sequence_bitcount decompress_only float float_le
     get_2d_percentile_table).

(** The decimation modes of a 2D descriptor, through the remap table the
    assembler has used. *)
Lemma init_2d_counted (x_texels y_texels z_texels : Z)
    (can_omit_modes : bool) (mode_cutoff : float)
    (bsd : block_size_descriptor) :
  z_texels ≤ 1 →
  let bsd' :=
    init_2d x_texels y_texels z_texels can_omit_modes mode_cutoff bsd in
  ∃ dmi,
    decimation_mode_count bsd' = Z.of_nat (length (grids_used dmi)) ∧
    ∀ k, 0 ≤ k < block_mode_count bsd' →
      ∃ bm, block_modes bsd' !! k = Some bm ∧
            decimation_mode bm = rd dmi (mode_key (mode_index bm)).
Proof.
  intros Hz. cbv zeta. unfold init_block_size_descriptor.
  destruct (Z.ltb_spec 1 z_texels) as [Hlt|_]; [lia|].
  unfold construct_block_size_descriptor_2d. cbv zeta.
  match goal with
  | |- context [for_loop 0 MAX_WEIGHT_MODES ?body ?s0] =>
      pose proof (loop_2d_counted x_texels y_texels can_omit_modes
                    mode_cutoff (asm_bsd s0) (decimation_mode_index s0))
        as Hst;
      change (mk_asm_state (decimation_mode_index s0) 0 (asm_bsd s0))
        with s0 in Hst;
      generalize dependent (for_loop 0 MAX_WEIGHT_MODES body s0)
  end.
  intros st Hst.
  assert (Hinv : modes_counted st).
  { apply Hst.
    - intros k' Hk'. cbn [decimation_mode_index].
      apply remap_table_cleared. lia.
    - reflexivity. }
  clear Hst. destruct Hinv as [Hcount Hshared].
  exists (decimation_mode_index st).
  rewrite finish_2d_count.
  destruct (finish_2d_same round_up_to_simd_multiple_vla
              MAX_DECIMATION_MODES rand_draws (asm_bsd st) (packed_idx st))
    as (Ebm & _ & Ecnt).
  rewrite Ebm, Ecnt. cbn [block_modes block_mode_count set_block_mode_count].
  split; [exact Hcount|]. intros k Hk.
  destruct (Hshared k Hk) as (bm & Hbm & _ & Hd & _).
  exists bm. split; assumption.
Qed.

(** X26. A descriptor built by [init] for a 2D block has at most 87
    decimation modes, the number of grids of 2..12 by 2..12 weights with
    at most 64 weights: a decimation mode is added only for the grid of a
    valid block mode that has none yet. *)
Theorem decimation_mode_count_at_most_87 (x_texels y_texels z_texels : Z)
    (can_omit_modes : bool) (mode_cutoff : float)
    (bsd : block_size_descriptor) :
  z_texels ≤ 1 →
  0 ≤ decimation_mode_count
        (init_2d x_texels y_texels z_texels can_omit_modes mode_cutoff bsd)
    ≤ 87.
Proof.
  intros Hz.
  destruct (init_2d_counted x_texels y_texels z_texels can_omit_modes
              mode_cutoff bsd Hz) as (dmi & Hcount & _).
  rewrite Hcount.
  pose proof (length_filter (λ key, rd dmi key ≠ -1) grid_keys) as Hle.
  fold (grids_used dmi) in Hle. rewrite grid_keys_length in Hle. lia.
Qed.

(** X27. In a descriptor built by [init] for a 2D block, the packed
    block modes of two accepted mode ids have the same decimation mode
    exactly when the two ids decode to the same weight grid: a grid has
    one decimation mode, and two grids never share one. *)
Theorem one_decimation_mode_for_each_grid (x_texels y_texels z_texels : Z)
    (can_omit_modes : bool) (mode_cutoff : float)
    (bsd : block_size_descriptor) (m1 m2 : Z) :
  z_texels ≤ 1 →
  0 ≤ m1 < MAX_WEIGHT_MODES → 0 ≤ m2 < MAX_WEIGHT_MODES →
  skipped_2d x_texels y_texels z_texels can_omit_modes mode_cutoff m1
    = false →
  skipped_2d x_texels y_texels z_texels can_omit_modes mode_cutoff m2
    = false →
  let bsd' :=
    init_2d x_texels y_texels z_texels can_omit_modes mode_cutoff bsd in
  ∃ k1 k2 bm1 bm2,
    block_mode_packed_index bsd' !! m1 = Some k1 ∧
    block_mode_packed_index bsd' !! m2 = Some k2 ∧
    block_modes bsd' !! k1 = Some bm1 ∧ block_modes bsd' !! k2 = Some bm2 ∧
    (decimation_mode bm1 = decimation_mode bm2 ↔
     x_weights (decoded m1).2 = x_weights (decoded m2).2 ∧
     y_weights (decoded m1).2 = y_weights (decoded m2).2).
Proof.
  intros Hz Hm1 Hm2 Hacc1 Hacc2 bsd'.
  destruct (init_modes_packed get_ise_sequence_bitcount
              round_up_to_simd_multiple_vla MAX_DECIMATION_MODES
              decompress_only float float_le float_is_zero
              get_2d_percentile_table rand_draws x_texels y_texels z_texels
              can_omit_modes mode_cutoff bsd) as (_ & _ & _ & Hall).
  fold bsd' in Hall.
  destruct (Hall m1 Hm1 Hacc1) as (k1 & bm1 & Hk1 & Hpi1 & Hbm1 & Hidx1).
  destruct (Hall m2 Hm2 Hacc2) as (k2 & bm2 & Hk2 & Hpi2 & Hbm2 & Hidx2).
  exists k1, k2, bm1, bm2.
  split; [exact Hpi1|]. split; [exact Hpi2|].
  split; [exact Hbm1|]. split; [exact Hbm2|]. split.
  - (* one decimation mode: the tables have the dimensions of the grids *)
    intros Hsame.
    destruct (init_2d_linked get_ise_sequence_bitcount
                round_up_to_simd_multiple_vla MAX_DECIMATION_MODES
                decompress_only float float_le float_is_zero
                get_2d_percentile_table rand_draws x_texels y_texels
                z_texels can_omit_modes mode_cutoff bsd k1 Hz Hk1)
      as (b1 & Hb1 & _ & (_ & Ht1 & _) & _).
    destruct (init_2d_linked get_ise_sequence_bitcount
                round_up_to_simd_multiple_vla MAX_DECIMATION_MODES
                decompress_only float float_le float_is_zero
                get_2d_percentile_table rand_draws x_texels y_texels
                z_texels can_omit_modes mode_cutoff bsd k2 Hz Hk2)
      as (b2 & Hb2 & _ & (_ & Ht2 & _) & _).
    fold bsd' in Hb1, Hb2, Ht1, Ht2.
    rewrite Hbm1 in Hb1. injection Hb1 as <-.
    rewrite Hbm2 in Hb2. injection Hb2 as <-.
    rewrite Hidx1 in Ht1. rewrite Hidx2, <- Hsame, Ht1 in Ht2.
    apply (inj Some), (inj Some) in Ht2.
    rewrite !initialize_decimation_table_2d_unfold in Ht2. cbv zeta in Ht2.
    split; [exact (f_equal weight_x Ht2)|exact (f_equal weight_y Ht2)].
  - (* one grid: both name its entry in the remap table *)
    intros [Ex Ey].
    destruct (init_2d_counted x_texels y_texels z_texels can_omit_modes
                mode_cutoff bsd Hz) as (dmi & _ & Hshared).
    fold bsd' in Hshared.
    destruct (Hshared k1 Hk1) as (b1 & Hb1 & Hd1).
    destruct (Hshared k2 Hk2) as (b2 & Hb2 & Hd2).
    rewrite Hbm1 in Hb1. injection Hb1 as <-.
    rewrite Hbm2 in Hb2. injection Hb2 as <-.
    rewrite Hd1, Hd2, Hidx1, Hidx2. unfold mode_key. rewrite Ex, Ey.
    reflexivity.
Qed.
End DecimationModeCount.

(** ** Closed instances of the further properties *)

(** A build with four SIMD lanes. *)
Definition round_up_4 (count : Z) : Z := (count + 3) / 4 * 4.

(** The 4 x 4 descriptor with its kmeans texels assigned. *)
Definition block_4x4_kmeans : block_size_descriptor :=
  assign_kmeans_texels [] block_4x4.

(** X1 at mode 0x42 with two bits for each weight. *)
Lemma mode_0x42_grid_in_range :
  let r := decode_block_mode_2d two_bits_each 66 unwritten_mode_params in
  let planes := if is_dual_plane r.2 then 2 else 1 in
  2 ≤ x_weights r.2 ≤ 12 ∧ 2 ≤ y_weights r.2 ≤ 12 ∧
  x_weights r.2 * y_weights r.2 * planes ≤ MAX_WEIGHTS_PER_BLOCK ∧
  0 ≤ quant_mode r.2 ≤ 11 ∧
  MIN_WEIGHT_BITS_PER_BLOCK
    ≤ two_bits_each (x_weights r.2 * y_weights r.2 * planes) (quant_mode r.2)
    ≤ MAX_WEIGHT_BITS_PER_BLOCK.
Proof.
  apply (decode_block_mode_2d_valid_grid two_bits_each 66
           unwritten_mode_params).
  vm_compute. reflexivity.
Defined.

(** X2 at mode 72, a 6 x 2 x 4 grid, with two bits for each weight. *)
Lemma mode_72_grid_in_range :
  let r := decode_block_mode_3d two_bits_each 72 unwritten_mode_params in
  let planes := if is_dual_plane r.2 then 2 else 1 in
  2 ≤ x_weights r.2 ≤ 6 ∧ 2 ≤ y_weights r.2 ≤ 6 ∧ 2 ≤ z_weights r.2 ≤ 6 ∧
  x_weights r.2 * y_weights r.2 * z_weights r.2 * planes
    ≤ MAX_WEIGHTS_PER_BLOCK ∧
  0 ≤ quant_mode r.2 ≤ 11 ∧
  MIN_WEIGHT_BITS_PER_BLOCK
    ≤ two_bits_each
        (x_weights r.2 * y_weights r.2 * z_weights r.2 * planes)
        (quant_mode r.2)
    ≤ MAX_WEIGHT_BITS_PER_BLOCK.
Proof.
  apply (decode_block_mode_3d_valid_grid two_bits_each 72
           unwritten_mode_params).
  vm_compute. reflexivity.
Defined.

(** X4 at the texel (2, 1, 0) of the 4 x 4 block, seed 17, two
    partitions. *)
Lemma texel_6_follows_select_partition :
  partition_of_texel
    (generate_one_partition_info_entry round_up_scalar block_4x4 2 17
       unwritten_partition_info)
    !! ((0 * ydim block_4x4 + 1) * xdim block_4x4 + 2)
  = Some (u8 (select_partition 17 2 1 0 2 (texel_count block_4x4 <? 32))).
Proof.
  apply (partition_of_texel_scan_order round_up_scalar block_4x4 2 17
           unwritten_partition_info 0 1 2); simpl; lia.
Defined.

(** X5 at partition 1 of the entry of seed 17 with three partitions. *)
Lemma seed_17_partition_1_round_trip :
  let pi :=
    generate_one_partition_info_entry round_up_scalar block_4x4 3 17
      unwritten_partition_info in
  let n := xdim block_4x4 * ydim block_4x4 * zdim block_4x4 in
  ∃ cnt,
    partition_texel_count pi !! 1 = Some cnt ∧ 0 ≤ cnt ≤ n ∧
    (∀ j, 0 ≤ j < cnt →
       ∃ t, texels_of_partition pi !! (1, j) = Some t ∧ 0 ≤ t < n ∧
            partition_of_texel pi !! t = Some 1) ∧
    (∀ t, 0 ≤ t < n → partition_of_texel pi !! t = Some 1 →
       ∃ j, 0 ≤ j < cnt ∧ texels_of_partition pi !! (1, j) = Some t) ∧
    (∀ j j' t t', 0 ≤ j < j' → j' < cnt →
       texels_of_partition pi !! (1, j) = Some t →
       texels_of_partition pi !! (1, j') = Some t' → t < t').
Proof.
  apply (texels_of_partition_round_trip round_up_scalar block_4x4 3 17
           unwritten_partition_info 1);
    unfold MAX_TEXELS_PER_BLOCK; simpl; lia.
Defined.

(** X6 for the entry of seed 17 with three partitions. *)
Lemma seed_17_counts_add_up :
  let pi :=
    generate_one_partition_info_entry round_up_scalar block_4x4 3 17
      unwritten_partition_info in
  (∀ p, 3 ≤ p < 4 → partition_texel_count pi !! p = Some 0) ∧
  rd (partition_texel_count pi) 0 + rd (partition_texel_count pi) 1
  + rd (partition_texel_count pi) 2 + rd (partition_texel_count pi) 3
  = xdim block_4x4 * ydim block_4x4 * zdim block_4x4.
Proof.
  apply (partition_texel_counts_add_up round_up_scalar block_4x4 3 17
           unwritten_partition_info); simpl; lia.
Defined.

(** X7 with four lanes: partition 0 of seed 17 has two texels, and
    position 3 of its row repeats the second. *)
Lemma seed_17_partition_0_tail :
  texels_of_partition
    (generate_one_partition_info_entry round_up_4 block_4x4 3 17
       unwritten_partition_info) !! (0, 3)
  = Some (rd (texels_of_partition
                (generate_one_partition_info_entry round_up_4 block_4x4 3 17
                   unwritten_partition_info)) (0, 2 - 1)).
Proof.
  apply (texels_of_partition_tail round_up_4 block_4x4 3 17
           unwritten_partition_info 0 3 2).
  - simpl. lia.
  - simpl. lia.
  - simpl. lia.
  - lia.
  - lia.
  - vm_compute. reflexivity.
  - vm_compute. split; [intros H; discriminate H|reflexivity].
Defined.

(** X8 at bit 2 of partition 1 of the entry of seed 19 with three
    partitions, all 16 texels being kmeans texels. *)
Lemma seed_19_coverage_bit_2 :
  let pi :=
    generate_one_partition_info_entry round_up_scalar block_4x4_kmeans 3 19
      unwritten_partition_info in
  Z.testbit (rd (coverage_bitmaps pi) 1) 2 = true ↔
  0 ≤ 2 < kmeans_texel_count block_4x4_kmeans ∧
  rd (partition_of_texel pi) (rd (kmeans_texels block_4x4_kmeans) 2) = 1.
Proof.
  apply (coverage_bitmaps_bits round_up_scalar block_4x4_kmeans 3 19
           unwritten_partition_info 1 2).
  - vm_compute. intros H; discriminate H.
  - vm_compute. intros H; discriminate H.
  - vm_compute. intros H; discriminate H.
  - vm_compute. intros H; discriminate H.
  - lia.
Defined.

(** X9 at cell 5 of the table for two partitions of an unwritten store. *)
Lemma cell_5_kept_or_cleared :
  let pts := partitions block_4x4 in
  let pts' := remove_duplicate_partitionings 16 par_tab2 pts in
  (earlier_duplicate 16 pts par_tab2 5 →
   pts' !! (par_tab2 + 5)
     = Some (set_partition_count 0 (pt_entry pts par_tab2 5))) ∧
  (¬ earlier_duplicate 16 pts par_tab2 5 →
   pts' !! (par_tab2 + 5) = pts !! (par_tab2 + 5)) ∧
  (∀ idx, idx < par_tab2 ∨ par_tab2 + PARTITION_COUNT ≤ idx →
     pts' !! idx = pts !! idx).
Proof.
  apply (remove_duplicate_partitionings_keeps_first 16 par_tab2
           (partitions block_4x4) 5); unfold PARTITION_COUNT; lia.
Defined.

(** X10 at seed 5 of the table for two partitions of the 4 x 4 block. *)
Lemma seed_5_entry_of_table_2 :
  let bsd' := init_partition_tables round_up_scalar block_4x4 in
  let duplicate :=
    ∃ j, 0 ≤ j < 5 ∧
      canonical_pattern (texel_count block_4x4)
        (partition_of_texel (generated round_up_scalar block_4x4 2 par_tab2 5))
      = canonical_pattern (texel_count block_4x4)
          (partition_of_texel
             (generated round_up_scalar block_4x4 2 par_tab2 j)) in
  (duplicate →
   partitions bsd' !! (par_tab2 + 5)
     = Some (set_partition_count 0
               (generated round_up_scalar block_4x4 2 par_tab2 5))) ∧
  (¬ duplicate →
   partitions bsd' !! (par_tab2 + 5)
     = Some (generated round_up_scalar block_4x4 2 par_tab2 5)).
Proof.
  apply (init_partition_tables_entries round_up_scalar block_4x4 2 par_tab2 5).
  - simpl. unfold MAX_TEXELS_PER_BLOCK. lia.
  - left. split; reflexivity.
  - unfold PARTITION_COUNT. lia.
Defined.

(** X11 at texel 5 of the 4 x 4 block with a 3 x 3 grid. *)
Lemma texel_5_slots_name_grid_weights :
  (∀ s, 0 ≤ s < 4 →
     ∃ q w, texel_weights_4t table_4x4_3x3 !! (s, 5) = Some q ∧
            0 ≤ q < dt_weight_count table_4x4_3x3 ∧
            texel_weights_int_4t table_4x4_3x3 !! (s, 5) = Some w ∧
            1 ≤ w ≤ 16) ∧
  (∀ s s' q q', 0 ≤ s < s' → s' < 4 →
     texel_weights_4t table_4x4_3x3 !! (s, 5) = Some q →
     texel_weights_4t table_4x4_3x3 !! (s', 5) = Some q' → q < q').
Proof.
  apply (texel_slots_name_grid_weights round_up_scalar (Grid2D 4 4 3 3)
           unwritten_decimation_table 5 4).
  - unfold supported, MAX_TEXELS_PER_BLOCK, MAX_WEIGHTS_PER_BLOCK. simpl. lia.
  - vm_compute. split; [intros H; discriminate H|reflexivity].
  - vm_compute. reflexivity.
Defined.

(** X12 at weight 3 of the 4 x 4 block with a 3 x 3 grid. *)
Lemma weight_3_row_increases :
  (∀ t, 0 ≤ t < 4 →
     ∃ texel, weight_texel table_4x4_3x3 !! (t, 3) = Some texel ∧
              0 ≤ texel < dt_texel_count table_4x4_3x3) ∧
  (∀ t t' a b, 0 ≤ t < t' → t' < 4 →
     weight_texel table_4x4_3x3 !! (t, 3) = Some a →
     weight_texel table_4x4_3x3 !! (t', 3) = Some b → a < b).
Proof.
  apply (weight_texel_rows_increase round_up_scalar (Grid2D 4 4 3 3)
           unwritten_decimation_table 3 4).
  - unfold supported, MAX_TEXELS_PER_BLOCK, MAX_WEIGHTS_PER_BLOCK. simpl. lia.
  - vm_compute. split; [intros H; discriminate H|reflexivity].
  - vm_compute. reflexivity.
Defined.

(** X13 at entry 1 of weight 3 of the 4 x 4 block with a 3 x 3 grid. *)
Lemma weight_3_entry_1_stored_weight :
  ∃ texel k0 w,
    weight_texel table_4x4_3x3 !! (1, 3) = Some texel ∧ 0 ≤ k0 < 4 ∧
    texel_weights_4t table_4x4_3x3 !! (k0, texel) = Some 3 ∧
    texel_weights_int_4t table_4x4_3x3 !! (k0, texel) = Some w ∧
    1 ≤ w ≤ 16 ∧
    weights_flt table_4x4_3x3 !! (1, 3) = Some (float_of_int w).
Proof.
  apply (weights_flt_is_contribution round_up_scalar (Grid2D 4 4 3 3)
           unwritten_decimation_table 3 1 4).
  - unfold supported, MAX_TEXELS_PER_BLOCK, MAX_WEIGHTS_PER_BLOCK. simpl. lia.
  - vm_compute. split; [intros H; discriminate H|reflexivity].
  - vm_compute. reflexivity.
  - lia.
Defined.

(** X14 for the 4 x 4 block with a 3 x 3 grid and four lanes: the nine
    rows are padded to the longest, and three more rows are filled. *)
Lemma rows_4x4_3x3_padded :
  let dt :=
    build_table round_up_4 (Grid2D 4 4 3 3) unwritten_decimation_table in
  let n := dt_weight_count dt in
  (∀ j cnt, 0 ≤ j < n → weight_texel_count dt !! j = Some cnt →
     1 ≤ cnt ≤ longest_row (Grid2D 4 4 3 3) ∧
     is_Some (weight_texel dt !! (cnt - 1, j)) ∧
     ∀ t, cnt ≤ t < longest_row (Grid2D 4 4 3 3) →
       weight_texel dt !! (t, j) = weight_texel dt !! (cnt - 1, j) ∧
       weights_flt dt !! (t, j) = Some 0) ∧
  (∀ j, n ≤ j < round_up_4 n →
     weight_texel_count dt !! j = Some 0 ∧
     ∀ t, 0 ≤ t < longest_row (Grid2D 4 4 3 3) →
       weight_texel dt !! (t, j)
         = weight_texel dt
             !! (rd (weight_texel_count dt) (n - 1) - 1, n - 1) ∧
       weights_flt dt !! (t, j) = Some 0).
Proof.
  apply (weight_rows_padded round_up_4 (Grid2D 4 4 3 3)
           unwritten_decimation_table).
  unfold supported, MAX_TEXELS_PER_BLOCK, MAX_WEIGHTS_PER_BLOCK. simpl. lia.
Defined.


(** Two assignments of three texels that differ only in the numbers of
    the partitions. *)
Definition two_then_one : gmap Z Z := <[0 := 2]> (<[1 := 2]> (<[2 := 0]> ∅)).
Definition one_then_three : gmap Z Z :=
  <[0 := 1]> (<[1 := 1]> (<[2 := 3]> ∅)).

(** X16 for two assignments of three texels. *)
Lemma renamed_partitions_same_pattern :
  canonical_pattern 3 two_then_one = canonical_pattern 3 one_then_three ↔
  ∀ t t', 0 ≤ t < 3 → 0 ≤ t' < 3 →
    (rd two_then_one t = rd two_then_one t' ↔
     rd one_then_three t = rd one_then_three t').
Proof.
  apply (canonical_pattern_same_grouping 3 two_then_one one_then_three).
  - lia.
  - intros t Ht. assert (t = 0 ∨ t = 1 ∨ t = 2) as [-> | [-> | ->]] by lia;
      vm_compute; (split; [intros H; discriminate H|reflexivity]).
  - intros t Ht. assert (t = 0 ∨ t = 1 ∨ t = 2) as [-> | [-> | ->]] by lia;
      vm_compute; (split; [intros H; discriminate H|reflexivity]).
Defined.

(** X17 at seed 5 of the table for two partitions of the 4 x 4 block. *)
Lemma seed_5_cleared_when_grouped_alike :
  let bsd' := init_partition_tables round_up_scalar block_4x4 in
  let part := λ k t,
    rd (partition_of_texel (generated round_up_scalar block_4x4 2 par_tab2 k))
      t in
  let same_grouping :=
    ∃ j, 0 ≤ j < 5 ∧
      ∀ t t', 0 ≤ t < texel_count block_4x4 →
        0 ≤ t' < texel_count block_4x4 →
        (part 5 t = part 5 t' ↔ part j t = part j t') in
  (same_grouping →
   partitions bsd' !! (par_tab2 + 5)
     = Some (set_partition_count 0
               (generated round_up_scalar block_4x4 2 par_tab2 5))) ∧
  (¬ same_grouping →
   partitions bsd' !! (par_tab2 + 5)
     = Some (generated round_up_scalar block_4x4 2 par_tab2 5)).
Proof.
  apply (init_partition_tables_clears_same_grouping round_up_scalar block_4x4
           2 par_tab2 5).
  - simpl. lia.
  - simpl. lia.
  - simpl. lia.
  - reflexivity.
  - simpl. unfold MAX_TEXELS_PER_BLOCK. lia.
  - left. split; reflexivity.
  - unfold PARTITION_COUNT. lia.
Defined.


(** X19 at mode 0x42 of the 4 x 4 descriptor. *)
Lemma mode_0x42_names_its_table :
  let grid := (decode_block_mode_2d two_bits_each 66 unwritten_mode_params).2 in
  ∃ k bm,
    block_mode_packed_index bsd_4x4 !! 66 = Some k ∧
    0 ≤ k < block_mode_count bsd_4x4 ∧
    block_modes bsd_4x4 !! k = Some bm ∧ mode_index bm = 66 ∧
    bm_quant_mode bm = quant_mode grid ∧
    bm_is_dual_plane bm = is_dual_plane grid ∧
    0 ≤ decimation_mode bm < decimation_mode_count bsd_4x4 ∧
    decimation_tables bsd_4x4 !! decimation_mode bm
      = Some (Some (initialize_decimation_table_2d round_up_scalar 4 4
                      (x_weights grid) (y_weights grid)
                      unwritten_decimation_table)).
Proof.
  apply (block_mode_names_its_grid_table two_bits_each round_up_scalar 87
           false Z Z.leb (Z.eqb 0) (λ _ _ _, 0) [] 4 4 1 false 0
           unwritten_bsd 66).
  - lia.
  - unfold MAX_WEIGHT_MODES. lia.
  - vm_compute. reflexivity.
Defined.

(** X20 at mode 0x42 of the 4 x 4 descriptor. *)
Lemma mode_0x42_within_precision :
  ∃ k bm dm,
    block_mode_packed_index bsd_4x4 !! 66 = Some k ∧
    block_modes bsd_4x4 !! k = Some bm ∧
    decimation_modes bsd_4x4 !! decimation_mode bm = Some dm ∧
    0 ≤ bm_quant_mode bm
      ≤ (if bm_is_dual_plane bm then maxprec_2planes dm
         else maxprec_1plane dm) ∧
    maxprec_1plane dm ≤ 11 ∧ maxprec_2planes dm ≤ 11.
Proof.
  apply (block_mode_within_recorded_precision two_bits_each round_up_scalar
           87 false Z Z.leb (Z.eqb 0) (λ _ _ _, 0) [] 4 4 1 false 0
           unwritten_bsd 66).
  - lia.
  - unfold MAX_WEIGHT_MODES. lia.
  - vm_compute. reflexivity.
Defined.

(** The descriptor [init] builds for a 6 x 6 x 6 block. *)
Definition bsd_6x6x6 : block_size_descriptor :=
  init_block_size_descriptor two_bits_each round_up_scalar 87 false
    Z Z.leb (Z.eqb 0) (λ _ _ _, 0) [] 6 6 6 false 0 unwritten_bsd.

(** X21 at mode 72, a 6 x 2 x 4 grid, of the 6 x 6 x 6 descriptor. *)
Lemma mode_72_names_its_table :
  let grid := (decode_block_mode_3d two_bits_each 72 unwritten_mode_params).2 in
  ∃ k bm,
    block_mode_packed_index bsd_6x6x6 !! 72 = Some k ∧
    0 ≤ k < block_mode_count bsd_6x6x6 ∧
    block_modes bsd_6x6x6 !! k = Some bm ∧ mode_index bm = 72 ∧
    bm_quant_mode bm = quant_mode grid ∧
    bm_is_dual_plane bm = is_dual_plane grid ∧
    0 ≤ decimation_mode bm < decimation_mode_count bsd_6x6x6 ∧
    decimation_tables bsd_6x6x6 !! decimation_mode bm
      = Some (Some (initialize_decimation_table_3d round_up_scalar 6 6 6
                      (x_weights grid) (y_weights grid) (z_weights grid)
                      unwritten_decimation_table)).
Proof.
  apply (block_mode_names_its_grid_table_3d two_bits_each round_up_scalar 87
           false Z Z.leb (Z.eqb 0) (λ _ _ _, 0) [] 6 6 6 false 0
           unwritten_bsd 72).
  - lia.
  - lia.
  - lia.
  - lia.
  - unfold MAX_WEIGHT_MODES. lia.
  - vm_compute. reflexivity.
Defined.

(** X22 at mode 72 of the 6 x 6 x 6 descriptor. *)
Lemma mode_72_within_precision :
  ∃ k bm dm,
    block_mode_packed_index bsd_6x6x6 !! 72 = Some k ∧
    block_modes bsd_6x6x6 !! k = Some bm ∧
    decimation_modes bsd_6x6x6 !! decimation_mode bm = Some dm ∧
    0 ≤ bm_quant_mode bm
      ≤ (if bm_is_dual_plane bm then maxprec_2planes dm
         else maxprec_1plane dm) ∧
    maxprec_1plane dm ≤ 11 ∧ maxprec_2planes dm ≤ 11.
Proof.
  apply (block_mode_within_recorded_precision_3d two_bits_each
           round_up_scalar 87 false Z Z.leb (Z.eqb 0) (λ _ _ _, 0) [] 6 6 6
           false 0 unwritten_bsd 72).
  - lia.
  - lia.
  - lia.
  - lia.
  - unfold MAX_WEIGHT_MODES. lia.
  - vm_compute. reflexivity.
Defined.

(** X24 with four lanes at texel row 26 of a 5 x 5 block, which has 25
    texels. *)
Lemma row_26_of_5x5_is_padding :
  let dt :=
    build_table round_up_4 (Grid2D 5 5 3 3) unwritten_decimation_table in
  dt_texel_count dt = request_texels (Grid2D 5 5 3 3) ∧
  texel_weight_count dt !! 26 = Some 0 ∧
  texel_weights_4t dt !! (2, 26) = Some 0 ∧
  texel_weights_int_4t dt !! (2, 26) = Some 0 ∧
  texel_weights_float_4t dt !! (2, 26) = Some 0.
Proof.
  apply (texel_rows_padded round_up_4 (Grid2D 5 5 3 3)
           unwritten_decimation_table 26 2).
  - vm_compute. split; [intros H; discriminate H|reflexivity].
  - lia.
Defined.

(** X25 for seed 7 on the 4 x 4 block. *)
Lemma seed_7_single_partition :
  let pi :=
    generate_one_partition_info_entry round_up_scalar block_4x4 1 7
      unwritten_partition_info in
  let n := xdim block_4x4 * ydim block_4x4 * zdim block_4x4 in
  partition_count pi = 1 ∧
  partition_texel_count pi !! 0 = Some n ∧
  ∀ t, 0 ≤ t < n →
    partition_of_texel pi !! t = Some 0 ∧
    texels_of_partition pi !! (0, t) = Some t.
Proof.
  apply (single_partition_entry round_up_scalar block_4x4 7
           unwritten_partition_info);
    unfold MAX_TEXELS_PER_BLOCK; simpl; lia.
Defined.

(** X26 on the 4 x 4 descriptor. *)
Lemma modes_of_4x4_at_most_87 :
  0 ≤ decimation_mode_count bsd_4x4 ≤ 87.
Proof.
  apply (decimation_mode_count_at_most_87 two_bits_each round_up_scalar 87
           false Z Z.leb (Z.eqb 0) (λ _ _ _, 0) [] 4 4 1 false 0
           unwritten_bsd).
  lia.
Defined.

(** X27 at the modes 0x42 and 0x52 of the 4 x 4 descriptor, which both
    decode to the grid of 4 by 4 weights. *)
Lemma modes_0x42_0x52_share_a_decimation_mode :
  let grid m := (decode_block_mode_2d two_bits_each m unwritten_mode_params).2 in
  ∃ k1 k2 bm1 bm2,
    block_mode_packed_index bsd_4x4 !! 66 = Some k1 ∧
    block_mode_packed_index bsd_4x4 !! 82 = Some k2 ∧
    block_modes bsd_4x4 !! k1 = Some bm1 ∧
    block_modes bsd_4x4 !! k2 = Some bm2 ∧
    (decimation_mode bm1 = decimation_mode bm2 ↔
     x_weights (grid 66) = x_weights (grid 82) ∧
     y_weights (grid 66) = y_weights (grid 82)).
Proof.
  apply (one_decimation_mode_for_each_grid two_bits_each round_up_scalar 87
           false Z Z.leb (Z.eqb 0) (λ _ _ _, 0) [] 4 4 1 false 0
           unwritten_bsd 66 82).
  - lia.
  - unfold MAX_WEIGHT_MODES. lia.
  - unfold MAX_WEIGHT_MODES. lia.
  - vm_compute. reflexivity.
  - vm_compute. reflexivity.
Defined.
